(* ===== verification/_CoqProject ===== *)
-Q . S2P
Prelude.v
Wire.v
Framing.v
Text.v
TextInv.v
NumText.v
Startup.v
LLState.v
LLEmit.v
LLCmd.v
LLAir.v
LLInv.v
LLProps.v
LLLink.v
LLControl.v
LLEncrypt.v
LLScan.v
LLFrame.v
Client.v
ClientProps.v
ClientInv.v
SendProps.v
Endpoint.v
Host.v
HostInv.v
HostProps.v
HostStart.v
HostEnd.v
Ring.v
RingProps.v
Vhost.v
VhostInv.v
VhostEnd.v
VhostProps.v
VhostStart.v
Virtio.v
VirtioInv.v
VirtioEnd.v
VirtioProps.v
VirtioPci.v
HubState.v
HubTables.v
HubModel.v
HubIO.v
HubRoute.v
HubCtl.v
HubLoop.v
HubStart.v
HubIds.v
HubInv.v
HubCtlInv.v
HubLoopInv.v
HubSpec.v
HubStream.v
HubDemo.v
HubNet.v
HubTabProps.v
HubLink.v
HubRelay.v
HubFlow.v
HubModelProps.v
HubNameProps.v
HubConfig.v
HubProps.v
HubDefects.v
HubStartProps.v
AddrText.v
System.v
SystemLink.v
SystemFlow.v
