(* ===== verification/Prelude.v ===== *)
(** * A verification development for qemu-vbt

    qemu-vbt connects virtual Bluetooth LE controllers over a simulated air.
    A controller core (the Link Layer, src/vbt_ll.c) answers the HCI commands
    of a host stack and exchanges Link-Layer PDUs with its peers.  A transport
    embeds one core between a host and a stream socket: vbt-controller
    (src/vbt_controller.c) for a Linux host through vhci, the vhost-user back
    end (src/vbt_vhost_user.c) and the virtio device inside QEMU
    (src/src/vbt_virtio.c) for a guest.  The hub (src/vbt_medium.c) joins the
    sockets of all transports: it reassembles frames from the byte streams,
    broadcasts advertising PDUs through a propagation model, routes data PDUs
    point to point by Access Address, bridges to other hubs, and is configured
    over a control socket.  src/vbt.h is the wire format they share.

    ** How the code is represented

    Effectful code is a [cmd S W A]: a function from a state [S] to a result,
    a new state and the list of effects [W] it performed, or to a [Fault].  A
    fault is what C leaves undefined: a read or write outside an object
    ([OobRead], [OobWrite]) or a signed overflow ([IntOverflow]), or a loop
    bound that was too small ([NoFuel]).
    Machine integers are [Z] with their conversions ([u8], [u16], [u32],
    [u64], [s8]) where the C code converts or wraps; bytes are [Z] in range, a
    buffer is a list of them, and every local array is a [local_buf] of its
    declared size.  What the kernel answers is input: results of [read],
    [write], [malloc], [connect] and the clock are arguments or lists that the
    calls consume, so a theorem that quantifies over them covers every
    interleaving of short reads, short writes and errors.

    ** Files

    - Prelude: integers, buffers, the monad [cmd], the program logic [safe],
      shared tactics and hint databases.  Wire, Framing: src/vbt.h, the frame
      header and its byte layout, length-prefixed streams.  Text, TextInv: the
      C library's formatting and scanning, and bounds on what they produce.
      NumText: numbers printed and read back.  Startup: what the three [main]
      functions share before their loops.
    - Controller core, src/vbt_ll.c and src/vbt_ll.h: LLState ([struct vbt_ll],
      tables), LLEmit (events, PDUs, ACL), LLCmd ([dispatch_command] case by
      case), LLAir (PDUs from the medium, tick, entry points).  Proofs: LLInv
      (invariant [ll_ok] and its preservation), LLProps (the core as a state
      machine), LLLink, LLControl, LLEncrypt and LLScan (two cores and the air
      between them: connections and data, control PDUs, encryption, active
      scanning), LLFrame (a received PDU is read within its length).
    - Transports: Client (the reader, the write loop, the hello and the derived
      address all three share, written against the class [Transport]),
      ClientProps and ClientInv (theorems for every instance of
      [TransportLaws]), SendProps (the write loop); Host, HostInv, HostProps,
      HostStart: src/vbt_controller.c; Ring, RingProps: the backlog toward a
      guest and the scatter/gather copies; Vhost, VhostInv, VhostProps,
      VhostStart: src/vbt_vhost_user.c; Virtio, VirtioInv, VirtioProps,
      VirtioPci: src/src/vbt_virtio.c, the last its classes, its types and the
      PCI proxy.  Endpoint is what a transport promises to the system around
      it, the class [Endpoint]: a packet of the host and the timer run the
      core, its PDUs go to the socket, its packets to the host, and frames from
      the socket to the core; HostEnd, VhostEnd and VirtioEnd discharge it for
      the three.
    - Hub, src/vbt_medium.c: HubState (tables and kernel answers), HubTables
      (nodes, addresses, connections, overrides), HubModel ([propagate] over
      binary64), HubIO (peers and their buffers), HubRoute (hello, fan-out,
      routing, reassembly), HubCtl (control socket, configuration), HubLoop
      (bridges, the loop and shutdown), HubStart (options, listening sockets,
      the whole of [main]).  Proofs: HubIds (only a hello without a name
      moves the counter of automatic names); HubInv, HubCtlInv, HubLoopInv
      (invariant [hub_ok]); HubSpec (routing as a pure function, and its implementation),
      HubStream (reassembly), HubTabProps (tables as finite maps), HubLink (what
      an advertising PDU does to the tables), HubRelay (such a PDU from one
      station to another), HubFlow (a sequence of data PDUs of one connection,
      with any reads and flushes in between), HubModelProps, HubNameProps, HubConfig (a
      configuration saved and loaded), HubNet (hubs joined by bridges),
      HubProps (safety of a run, who receives what), HubDefects (what goes
      wrong), HubStartProps; HubDemo holds concrete inputs.
    - AddrText (addresses printed and read back); System, SystemLink and
      SystemFlow: two hosts, their transports and the hub, composed.  The two
      ends are any instances of [Endpoint].  System follows one packet through
      the components, SystemLink the opening of a connection; SystemFlow has
      the whole as a transition system ([net], [net_do], [net_run]) whose steps
      are a packet handed over, a read or a flush of the hub, an answer of its
      kernel and a read of the receiver.

    ** What the theorems show

    Safety.  [controller_safe] for the core, [hub_program_ends] for the hub
    from its command line to its exit status, [host_program_ends] and
    [vhost_program_ends] for the two daemons, [virtio_pci_configured] for the
    device from its properties on: no undefined behaviour, well-formed states
    and a defined end, under the conditions each states; [hub_main_safe],
    [host_main_safe], [vhost_main_safe] and [virtio_events_safe] are the parts
    behind the start-up.  Their conditions come from defects that are proved as
    well.  Of the controller and the transports: no frame from the hub carries
    more than 30 bytes of advertising data ([report_adv_overflow]: 31, which
    are legal, overrun a local array).  Of the hub: the kernel is [calm], that
    is no write fails for good, no [malloc] fails (either closes a peer, which
    may be the one being read: [self_route_overrun]) and the error text of a
    failed [fopen] has at most 1024 bytes; and the [int] that numbers the hellos
    without a name does not overflow ([auto_id_overflow]), which is [serve_names]
    of a run, decidable, and holds for a hundred thousand iterations whatever
    happens in them ([serve_names_first], [names_room_first]).

    Composition, for any two of the three transports and any splitting of the
    streams.  [end_joins]: what a transport writes on connecting binds it at
    the hub; [connection_end_to_end]: two ends on the hub open a connection,
    from the advertiser's timer to the route of its data; [acl_end_to_end]:
    data written by one host reaches the other through every component, whole,
    once; [acl_channel_fifo]: under any interleaving of the parties an open
    connection is a first-in-first-out channel, which loses nothing while the
    hub's backlog holds what is in flight, and [acl_channel_delivers]: it can
    always deliver all of that; [disconnect_end_to_end]: a disconnection at one
    host is one at both.

    Refinement.  [forward_frame_routes] and [frame_wire_to_wire]: the hub
    implements the routing function [to_peer]; [connect_ind_installs_route],
    [node_add_addr_learns], [watch_table_refines_map]: tables are finite
    maps; [frames_handed_over] and [stream_reassembled]: readers implement
    length-prefixed streams; [ring_refines_fifo]: the backlog is a bounded
    queue, also across the wrap-around of its counters.

    Behaviour.  Opening, using, encrypting and closing a connection
    between two cores ([connection_opened], [acl_delivered],
    [encryption_established], [disconnect_tears_down]); scanning ([active_scan],
    [advertisement_reported]); every command acknowledged once
    ([command_answered]); who receives what ([adv_reaches_everyone],
    [data_point_to_point], [peer_close_drops_connections], [hello_binds],
    [guest_in_order]); [propagation_reciprocal] and [set_rssi_pins];
    termination of flooding ([flooding_bounded]: hubs that handle frames with
    [rx_message] and pass on what this appends to the streams of their
    bridges); reconnection ([host_reconnects], [eof_reconnects]); write errors
    ([host_frame_whole_or_closed]); what is printed and read back
    ([addr_roundtrip], [config_roundtrip]).

    Defects, stated as what the code does: [report_adv_overflow],
    [self_route_overrun], [stale_binding_misroutes] (both for every hub in the
    state described, with a run from start-up that reaches one),
    [auto_id_overflow], [long_name_never_found],
    [long_hello_misread], [write_failure_strands], [short_buffer_misreported],
    [version_exchange_endless], [scannable_never_asked],
    [long_path_misplaced].

    ** Bounds and fuel

    The reassembly loops take fuel: [rx_fuel] and [client_fuel] are a quarter
    of the receive buffer plus one, and each iteration consumes at least the
    four bytes of a length prefix, so the safety theorems, which exclude
    [NoFuel], show that it suffices.  [ctl_lines] and [fgets_lines] take the
    length of their input, since every line has at least one character.  All
    other loops are structural, over tables of fixed size or over the list of
    what the kernel or the guest delivers; a main loop runs over an arbitrary
    finite list of its iterations' inputs.

    ** Interfaces to code outside the repository

    [Libm] (HubModel): [log10], and what the platform returns where the result
    of a conversion from [double] does not fit: undefined in C, an unspecified
    value under its Annex F, which is how the model takes it.
    [QemuIov] with [QemuIovLaws]
    (Virtio, VirtioInv): the scatter/gather copies of qemu/iov.h.
    libvhost-user is an arbitrary sequence of calls back into the program
    ([vu_act]); QEMU's event loop an arbitrary sequence of the device's entry
    points ([vio_event]).  The kernel is the source of the results above.

    ** Not modelled

    The walk of [getopt] over the arguments (the options it finds are
    arguments) and signal handlers (a signal is the end of the list of
    iterations); reading the clock ([now_ms]: the time is an argument of what
    uses it) and making a descriptor non-blocking (that a call may find nothing
    to do is one of the kernel's answers); freeing memory; log output and
    usage texts, which nothing reads; the tests, Python and shell scripts and
    packaging. *)

From stdpp Require Import base list numbers option.
From Stdlib Require Import ZArith Lia.

#[global] Open Scope Z_scope.

(** ** Machine integers

    A w-bit integer of the C code is a [Z] with its conversion written out.
    Sizes are literal so that [lia] sees them. *)

Definition u8 (z : Z) : Z := z mod 256.
Definition u16 (z : Z) : Z := z mod 65536.
Definition u32 (z : Z) : Z := z mod 4294967296.
Definition u64 (z : Z) : Z := z mod 18446744073709551616.

(** The C conversion to [int8_t] (two's complement on every target). *)
Definition s8 (z : Z) : Z := (z + 128) mod 256 - 128.

Definition is_u8 (z : Z) : Prop := 0 ≤ z < 256.
Definition is_u16 (z : Z) : Prop := 0 ≤ z < 65536.
Definition is_u32 (z : Z) : Prop := 0 ≤ z < 4294967296.
Definition is_u64 (z : Z) : Prop := 0 ≤ z < 18446744073709551616.
Definition is_s8 (z : Z) : Prop := -128 ≤ z < 128.
Abbreviation bytes_ok := (Forall is_u8).

#[export] Instance is_u8_dec z : Decision (is_u8 z).
Proof. unfold is_u8. apply _. Defined.
#[export] Instance is_u16_dec z : Decision (is_u16 z).
Proof. unfold is_u16. apply _. Defined.
#[export] Instance is_u32_dec z : Decision (is_u32 z).
Proof. unfold is_u32. apply _. Defined.

Create HintDb vbt.
Create HintDb vbt_unfold.
#[export] Hint Unfold u8 u16 u32 u64 s8 is_u8 is_u16 is_u32 is_u64 is_s8 : vbt_unfold.

(** [lia] with the wrap-around operations and ranges unfolded and division
    and remainder turned into equations. *)
Ltac mlia :=
  intros; autounfold with vbt_unfold in *;
  Z.to_euclidean_division_equations; lia.

(** Split a [Forall] over a list literal into its elements. *)
Ltac forall_cons := repeat (apply Forall_cons_2; [|]); try apply Forall_nil_2.

Lemma u8_range z : is_u8 (u8 z).
Proof. mlia. Qed.
Lemma u16_range z : is_u16 (u16 z).
Proof. mlia. Qed.
Lemma u32_range z : is_u32 (u32 z).
Proof. mlia. Qed.
Lemma u64_range z : is_u64 (u64 z).
Proof. mlia. Qed.
Lemma s8_range z : is_s8 (s8 z).
Proof. mlia. Qed.
Lemma u8_small z : is_u8 z → u8 z = z.
Proof. mlia. Qed.
Lemma u16_small z : is_u16 z → u16 z = z.
Proof. mlia. Qed.
Lemma u32_small z : is_u32 z → u32 z = z.
Proof. mlia. Qed.
Lemma s8_u8 z : is_s8 z → s8 (u8 z) = z.
Proof. mlia. Qed.
Lemma u8_s8 z : is_u8 z → u8 (s8 z) = z.
Proof. mlia. Qed.

#[export] Hint Resolve u8_range u16_range u32_range u64_range s8_range : vbt.

(** ** Little- and big-endian integers *)

Fixpoint le_split (n : nat) (z : Z) : list Z :=
  match n with
  | O => []
  | S n => z mod 256 :: le_split n (z / 256)
  end.

Fixpoint le_join (l : list Z) : Z :=
  match l with
  | [] => 0
  | b :: l => b + 256 * le_join l
  end.

Lemma length_le_split n z : length (le_split n z) = n.
Proof. revert z; induction n; simpl; auto. Qed.

Lemma le_split_ok n z : bytes_ok (le_split n z).
Proof. revert z; induction n; simpl; constructor; auto. mlia. Qed.

Lemma le_join_split n z : le_join (le_split n z) = z mod 256 ^ Z.of_nat n.
Proof.
  revert z; induction n as [|n IH]; intros z; cbn [le_split le_join].
  - by rewrite Z.mod_1_r.
  - rewrite IH, Nat2Z.inj_succ, Z.pow_succ_r by lia.
    rewrite Z.rem_mul_r by lia. done.
Qed.

Lemma le_split_join l : bytes_ok l → le_split (length l) (le_join l) = l.
Proof.
  induction 1 as [|b l Hb _ IH]; cbn [le_split le_join length]; [done|].
  rewrite Z.mul_comm, Z_mod_plus_full, Z.div_add by lia.
  rewrite Z.mod_small, Z.div_small by apply Hb. by rewrite Z.add_0_l, IH.
Qed.

Lemma le_join_range l : bytes_ok l → 0 ≤ le_join l < 256 ^ Z.of_nat (length l).
Proof.
  induction 1 as [|b l Hb _ IH]; cbn [le_join length]; [done|].
  rewrite Nat2Z.inj_succ, Z.pow_succ_r by lia. unfold is_u8 in Hb. nia.
Qed.

(** [htonl]/[ntohl] are modelled by the byte order of the encoding: the four
    bytes of a network-order integer are the little-endian ones reversed. *)
Definition be32 (z : Z) : list Z := rev (le_split 4 z).
Definition of_be32 (l : list Z) : Z := le_join (rev l).

Lemma length_be32 z : length (be32 z) = 4%nat.
Proof. done. Qed.

Lemma of_be32_be32 z : is_u32 z → of_be32 (be32 z) = z.
Proof.
  intros Hz. unfold of_be32, be32. rewrite rev_involutive, le_join_split.
  change (256 ^ Z.of_nat 4) with 4294967296. by apply Z.mod_small.
Qed.

Lemma be32_ok z : bytes_ok (be32 z).
Proof. unfold be32. apply Forall_rev, le_split_ok. Qed.

(** ** Buffers

    A C object of bytes is a list; [zlen] is its size and [slice off n] the
    bytes a [memcpy] of [n] bytes at offset [off] reads. *)

Definition zlen {A} (l : list A) : Z := Z.of_nat (length l).
Definition slice {A} (off n : Z) (l : list A) : list A :=
  take (Z.to_nat n) (drop (Z.to_nat off) l).

(** The destination of a [memcpy(dst + off, src, |src|)]. *)
Definition splice {A} (off : Z) (src dst : list A) : list A :=
  take (Z.to_nat off) dst ++ src ++ drop (Z.to_nat off + length src) dst.

Section Slices.
Context {A : Type}.
Implicit Types (l k : list A) (off n : Z).

Lemma zlen_nonneg l : 0 ≤ zlen l.
Proof. unfold zlen. lia. Qed.

Lemma zlen_app l k : zlen (l ++ k) = zlen l + zlen k.
Proof. unfold zlen. rewrite length_app. lia. Qed.

Lemma zlen_cons x l : zlen (x :: l) = 1 + zlen l.
Proof. unfold zlen. simpl. lia. Qed.

Lemma zlen_slice off n l :
  0 ≤ off → 0 ≤ n → off + n ≤ zlen l → zlen (slice off n l) = n.
Proof. unfold zlen, slice. intros. rewrite length_take, length_drop. lia. Qed.

Lemma zlen_splice off l k :
  0 ≤ off → off + zlen l ≤ zlen k → zlen (splice off l k) = zlen k.
Proof.
  unfold zlen, splice. intros.
  rewrite !length_app, length_take, length_drop. lia.
Qed.

Lemma slice_app_l off n l k :
  0 ≤ off → 0 ≤ n → off + n ≤ zlen l → slice off n (l ++ k) = slice off n l.
Proof.
  unfold zlen, slice. intros. rewrite drop_app_le by lia.
  apply take_app_le. rewrite length_drop. lia.
Qed.

Lemma slice_app_r off n l k :
  zlen l ≤ off → slice off n (l ++ k) = slice (off - zlen l) n k.
Proof.
  unfold zlen, slice. intros. rewrite drop_app_ge by lia. do 2 f_equal. lia.
Qed.

Lemma slice_slice a n b m l :
  0 ≤ a → 0 ≤ n → 0 ≤ b → a + n ≤ m → slice a n (slice b m l) = slice (b + a) n l.
Proof.
  unfold slice. intros. replace (Z.to_nat m) with (Z.to_nat a + (Z.to_nat m - Z.to_nat a))%nat by lia.
  rewrite <- take_drop_commute, take_take, drop_drop. do 2 f_equal; lia.
Qed.

Lemma slice_all n l : n = zlen l → slice 0 n l = l.
Proof. unfold zlen, slice. intros ->. simpl. apply take_ge. lia. Qed.

Lemma slice_app_exact l k : slice 0 (zlen l) (l ++ k) = l.
Proof.
  unfold zlen, slice. rewrite Nat2Z.id. simpl. apply take_app_length.
Qed.

Lemma slice_prefix n l k : n = zlen l → slice 0 n (l ++ k) = l.
Proof. intros ->. apply slice_app_exact. Qed.

End Slices.

Lemma bytes_ok_splice off (l b : list Z) : bytes_ok l → bytes_ok b → bytes_ok (splice off l b).
Proof.
  intros. unfold splice. apply Forall_app_2; [by apply Forall_take|].
  apply Forall_app_2; [done|by apply Forall_drop].
Qed.

(** ** A monad for the C code

    A function of the program reads and writes a state [S], performs output
    actions of type [W] (callbacks, system calls) in order, and may reach
    undefined behaviour of C, which is the result [Fault].  [NoFuel] marks a
    loop whose fuel ran out; it is proved unreachable where it is used. *)

Inductive fault : Type :=
  | OobRead      (* a read outside the object *)
  | OobWrite     (* a write outside the object *)
  | IntOverflow  (* a signed integer leaves its type *)
  | NoFuel.

Inductive res (A : Type) : Type :=
  | Ok (a : A)
  | Fault (f : fault).
Arguments Ok {A} a.
Arguments Fault {A} f.

Definition cmd (S W A : Type) : Type := S → res (A * S * list W).

#[export] Instance cmd_ret {S W} : MRet (cmd S W) := λ A a s, Ok (a, s, []).
#[export] Instance cmd_bind {S W} : MBind (cmd S W) := λ A B f m s,
  match m s with
  | Ok (a, s', o) =>
      match f a s' with
      | Ok (b, s'', o') => Ok (b, s'', o ++ o')
      | Fault e => Fault e
      end
  | Fault e => Fault e
  end.

Definition get {S W} : cmd S W S := λ s, Ok (s, s, []).
Definition gets {S W A} (f : S → A) : cmd S W A := λ s, Ok (f s, s, []).
Definition modify {S W} (f : S → S) : cmd S W unit := λ s, Ok (tt, f s, []).
Definition emit {S W} (w : W) : cmd S W unit := λ s, Ok (tt, s, [w]).
Definition fail {S W A} (e : fault) : cmd S W A := λ _, Fault e.
Definition skip {S W} : cmd S W unit := mret tt.
Definition when {S W} (b : bool) (m : cmd S W unit) : cmd S W unit :=
  if b then m else skip.

Fixpoint for_each {S W A} (l : list A) (f : A → cmd S W unit) : cmd S W unit :=
  match l with
  | [] => skip
  | x :: l => f x;; for_each l f
  end.

(** Checked accesses to an object. *)
Definition rd {S W} (b : list Z) (i : Z) : cmd S W Z :=
  if decide (0 ≤ i) then
    match b !! Z.to_nat i with Some v => mret v | None => fail OobRead end
  else fail OobRead.

Definition rdn {S W} (b : list Z) (off n : Z) : cmd S W (list Z) :=
  if decide (0 ≤ off ∧ 0 ≤ n ∧ off + n ≤ zlen b) then mret (slice off n b)
  else fail OobRead.

(** A local array of [cap] bytes filled from its start with [l]. *)
Definition local_buf {S W} (cap : Z) (l : list Z) : cmd S W (list Z) :=
  if decide (zlen l ≤ cap) then mret l else fail OobWrite.

(** Total correctness: [m] does not fault from [s] and its result, final
    state and output satisfy [Q]. *)
Definition wp {S W A} (m : cmd S W A) (s : S) (Q : A → S → list W → Prop) : Prop :=
  match m s with
  | Ok (a, s', o) => Q a s' o
  | Fault _ => False
  end.

Section WP.
Context {S W : Type}.
Implicit Types (s : S) (o : list W).

Lemma wp_ret {A} (a : A) s (Q : A → S → list W → Prop) :
  Q a s [] → wp (mret a) s Q.
Proof. done. Qed.

Lemma wp_bind {A B} (m : cmd S W A) (f : A → cmd S W B) s (Q : B → S → list W → Prop) :
  wp m s (λ a s' o, wp (f a) s' (λ b s'' o', Q b s'' (o ++ o'))) →
  wp (m ≫= f) s Q.
Proof.
  unfold wp, mbind, cmd_bind.
  destruct (m s) as [[[a s'] o]|]; [|done].
  destruct (f a s') as [[[b s''] o']|]; done.
Qed.

Lemma wp_mono {A} (m : cmd S W A) s (P Q : A → S → list W → Prop) :
  wp m s P → (∀ a s' o, P a s' o → Q a s' o) → wp m s Q.
Proof. unfold wp. destruct (m s) as [[[a s'] o]|]; auto. Qed.

Lemma wp_conj {A} (m : cmd S W A) s (P Q : A → S → list W → Prop) :
  wp m s P → wp m s Q → wp m s (λ a s' o, P a s' o ∧ Q a s' o).
Proof. unfold wp. destruct (m s) as [[[a s'] o]|]; auto. Qed.

Lemma wp_elim {A} (m : cmd S W A) s (Q : A → S → list W → Prop) :
  wp m s Q → ∃ a s' o, m s = Ok (a, s', o) ∧ Q a s' o.
Proof. unfold wp. destruct (m s) as [[[a s'] o]|]; naive_solver. Qed.

Lemma wp_get s (Q : S → S → list W → Prop) : Q s s [] → wp get s Q.
Proof. done. Qed.
Lemma wp_gets {A} (f : S → A) s (Q : A → S → list W → Prop) :
  Q (f s) s [] → wp (gets f) s Q.
Proof. done. Qed.
Lemma wp_modify (f : S → S) s (Q : unit → S → list W → Prop) :
  Q tt (f s) [] → wp (modify f) s Q.
Proof. done. Qed.
Lemma wp_emit (w : W) s (Q : unit → S → list W → Prop) :
  Q tt s [w] → wp (emit w) s Q.
Proof. done. Qed.
Lemma wp_skip s (Q : unit → S → list W → Prop) : Q tt s [] → wp skip s Q.
Proof. done. Qed.

Lemma wp_when b (m : cmd S W unit) s (Q : unit → S → list W → Prop) :
  (b = true → wp m s Q) → (b = false → Q tt s []) → wp (when b m) s Q.
Proof. destruct b; intros; [auto | apply wp_skip; auto]. Qed.

Lemma wp_if {A} (b : bool) (m k : cmd S W A) s (Q : A → S → list W → Prop) :
  (b = true → wp m s Q) → (b = false → wp k s Q) → wp (if b then m else k) s Q.
Proof. destruct b; auto. Qed.

Lemma wp_rd b i s (Q : Z → S → list W → Prop) :
  0 ≤ i < zlen b → (∀ v, b !! Z.to_nat i = Some v → Q v s []) → wp (rd b i) s Q.
Proof.
  unfold rd, zlen. intros Hi HQ. rewrite decide_True by lia.
  destruct (lookup_lt_is_Some_2 b (Z.to_nat i)) as [v Hv]; [lia|].
  rewrite Hv. by apply HQ.
Qed.

Lemma wp_rdn b off n s (Q : list Z → S → list W → Prop) :
  0 ≤ off → 0 ≤ n → off + n ≤ zlen b →
  Q (slice off n b) s [] → wp (rdn b off n) s Q.
Proof. unfold rdn. intros. by rewrite decide_True. Qed.

Lemma wp_local_buf cap l s (Q : list Z → S → list W → Prop) :
  zlen l ≤ cap → Q l s [] → wp (local_buf cap l) s Q.
Proof. unfold local_buf. intros. by rewrite decide_True. Qed.

(** Loop rule: an invariant on the state and the output so far. *)
Lemma wp_for_each {A} (l : list A) (f : A → cmd S W unit) s (I : S → list W → Prop) :
  I s [] →
  (∀ x s o, x ∈ l → I s o → wp (f x) s (λ _ s' o', I s' (o ++ o'))) →
  wp (for_each l f) s (λ _ s' o, I s' o).
Proof.
  enough (∀ o, I s o →
    (∀ x s o, x ∈ l → I s o → wp (f x) s (λ _ s' o', I s' (o ++ o'))) →
    wp (for_each l f) s (λ _ s' o', I s' (o ++ o'))) as H
    by (intros; apply (H []); auto).
  revert s. induction l as [|x l IH]; intros s o Hs Hf.
  - apply wp_skip. by rewrite app_nil_r.
  - apply wp_bind. eapply wp_mono; [apply Hf; [left|done]|].
    intros [] s' o' Hs'. eapply wp_mono.
    + apply (IH s' (o ++ o')); [done|]. intros. apply Hf; [by right|done].
    + intros [] s'' o''. by rewrite app_assoc.
Qed.
End WP.

(** Monad laws used to normalise programs. *)
Lemma bind_ok {S W A B} (m : cmd S W A) (f : A → cmd S W B) s a s' o :
  m s = Ok (a, s', o) →
  (m ≫= f) s = match f a s' with
               | Ok (b, s'', o') => Ok (b, s'', o ++ o')
               | Fault e => Fault e
               end.
Proof. unfold mbind, cmd_bind. by intros ->. Qed.

Lemma bind_inv {S W A B} (m : cmd S W A) (f : A → cmd S W B) s b s2 o :
  (m ≫= f) s = Ok (b, s2, o) →
  ∃ a s1 o1 o2, m s = Ok (a, s1, o1) ∧ f a s1 = Ok (b, s2, o2) ∧ o = o1 ++ o2.
Proof.
  unfold mbind, cmd_bind. destruct (m s) as [[[a s1] o1]|] eqn:E1; [|done].
  destruct (f a s1) as [[[b' s2'] o2]|] eqn:E2; [|done]. intros [= <- <- <-]. eauto 10.
Qed.
Lemma bind_fault {S W A B} (m : cmd S W A) (f : A → cmd S W B) s e :
  m s = Fault e → (m ≫= f) s = Fault e.
Proof. unfold mbind, cmd_bind. by intros ->. Qed.

(** One symbolic step of a [wp] goal. *)
Ltac wp_step :=
  lazymatch goal with
  | |- wp (_ ≫= _) _ _ => apply wp_bind
  | |- wp (mret _) _ _ => apply wp_ret
  | |- wp get _ _ => apply wp_get
  | |- wp (gets _) _ _ => apply wp_gets
  | |- wp (modify _) _ _ => apply wp_modify
  | |- wp (emit _) _ _ => apply wp_emit
  | |- wp skip _ _ => apply wp_skip
  | |- wp (when _ _) _ _ => apply wp_when; intros ?
  | |- wp (if _ then _ else _) _ _ => apply wp_if; intros ?
  end.
Ltac wp_steps := repeat wp_step.

(** ** Bytes of a 16-bit value, as the C code writes them *)

Definition lo8 (h : Z) : Z := u8 (Z.land h 0xff).
Definition hi8 (h : Z) : Z := u8 (Z.shiftr h 8).
(** [(uint16_t)(a | (b << 8))] *)
Definition get16 (a b : Z) : Z := u16 (Z.lor a (Z.shiftl b 8)).

Lemma lo8_mod h : lo8 h = h mod 256.
Proof.
  unfold lo8, u8. change 0xff with (Z.ones 8). rewrite Z.land_ones by lia.
  by rewrite Z.mod_mod.
Qed.

Lemma hi8_div h : is_u16 h → hi8 h = h / 256.
Proof.
  unfold hi8. intros. rewrite Z.shiftr_div_pow2 by lia. change (2 ^ 8) with 256. mlia.
Qed.

Lemma lor_shiftl8 a b : is_u8 a → Z.lor a (Z.shiftl b 8) = a + 256 * b.
Proof.
  intros Ha. rewrite Z.shiftl_mul_pow2 by lia. change (2 ^ 8) with 256.
  pose proof (Z.add_lor_land (b * 256) a) as Hs. rewrite (Z.lor_comm a).
  enough (Z.land (b * 256) a = 0) by lia. clear Hs.
  change 256 with (2 ^ 8). rewrite <- Z.shiftl_mul_pow2 by lia.
  apply Z.bits_inj'. intros n Hn. rewrite Z.land_spec, Z.bits_0.
  destruct (decide (n < 8)).
  - by rewrite Z.shiftl_spec_low.
  - rewrite (Z.bits_above_log2 a n); [by rewrite andb_false_r|apply Ha|].
    destruct (decide (a = 0)) as [->|]; [simpl; lia|].
    apply Z.log2_lt_pow2; [unfold is_u8 in Ha; lia|].
    eapply Z.lt_le_trans; [apply Ha|]. change 256 with (2 ^ 8).
    apply Z.pow_le_mono_r; lia.
Qed.

Lemma get16_eq a b : is_u8 a → is_u8 b → get16 a b = a + 256 * b.
Proof. intros. unfold get16. rewrite lor_shiftl8 by done. mlia. Qed.

Lemma get16_lo_hi h : is_u16 h → get16 (lo8 h) (hi8 h) = h.
Proof.
  intros. rewrite lo8_mod, hi8_div by done. rewrite get16_eq; mlia.
Qed.

Lemma lo8_hi8_eq h : is_u16 h → [lo8 h; hi8 h] = le_split 2 h.
Proof. intros. rewrite lo8_mod, hi8_div by done. simpl. repeat f_equal. mlia. Qed.

Lemma get16_range a b : is_u16 (get16 a b).
Proof. apply u16_range. Qed.
Lemma lo8_range h : is_u8 (lo8 h).
Proof. apply u8_range. Qed.
Lemma hi8_range h : is_u8 (hi8 h).
Proof. apply u8_range. Qed.
#[export] Hint Resolve get16_range lo8_range hi8_range : vbt.

(** ** First index satisfying a test (the table scans of the C code) *)

Fixpoint find_idx {A} (f : A → bool) (l : list A) : option nat :=
  match l with
  | [] => None
  | x :: l => if f x then Some O else S <$> find_idx f l
  end.

Section FindIdx.
Context {A : Type} (f : A → bool).
Implicit Types (l : list A) (i : nat).

Lemma find_idx_Some l i :
  find_idx f l = Some i ↔
  (∃ x, l !! i = Some x ∧ f x = true) ∧
  (∀ j y, (j < i)%nat → l !! j = Some y → f y = false).
Proof.
  revert i. induction l as [|x l IH]; intros i; simpl.
  { split; [done|]. intros [(y & Hy & _) _]. done. }
  destruct (f x) eqn:Hx.
  - split.
    + intros [= <-]. split; [by exists x|]. intros. lia.
    + intros [_ Hlt]. destruct i as [|i]; [done|].
      specialize (Hlt O x ltac:(lia) eq_refl). congruence.
  - rewrite fmap_Some. split.
    + intros (i' & [(y & Hy & Hfy) Hlt]%IH & ->). split; [by exists y|].
      intros [|j] z Hj Hz; simpl in Hz; [congruence|]. eapply Hlt; [|done]; lia.
    + intros [(y & Hy & Hfy) Hlt]. destruct i as [|i]; simpl in Hy; [congruence|].
      exists i. split; [|done]. apply IH. split; [by exists y|].
      intros j z Hj Hz. apply (Hlt (S j) z); [lia|done].
Qed.

Lemma find_idx_None l : find_idx f l = None ↔ ∀ i x, l !! i = Some x → f x = false.
Proof.
  induction l as [|x l IH]; simpl; [done|].
  destruct (f x) eqn:Hx.
  - split; [done|]. intros H. specialize (H O x eq_refl). congruence.
  - rewrite fmap_None, IH. split.
    + intros H [|i] y Hy; simpl in Hy; [congruence|eauto].
    + intros H i y Hy. apply (H (S i) y Hy).
Qed.

Lemma find_idx_ext g l : (∀ x, g x = f x) → find_idx g l = find_idx f l.
Proof.
  intros Hg. induction l as [|x l IH]; [done|]. cbn [find_idx]. by rewrite Hg, IH.
Qed.

Lemma find_idx_lt l i : find_idx f l = Some i → (i < length l)%nat.
Proof. intros [(x & Hx & _) _]%find_idx_Some. by eapply lookup_lt_Some. Qed.

Lemma find_idx_sat l i : find_idx f l = Some i → ∃ x, l !! i = Some x ∧ f x = true.
Proof. by intros [? _]%find_idx_Some. Qed.

Lemma find_idx_unique l i x :
  l !! i = Some x → f x = true →
  (∀ j y, l !! j = Some y → f y = true → j = i) →
  find_idx f l = Some i.
Proof.
  intros Hx Hf Hu. apply find_idx_Some. split; [by exists x|].
  intros j y Hj Hy. destruct (f y) eqn:E; [|done].
  specialize (Hu j y Hy E). lia.
Qed.
End FindIdx.

(** ** Invariant-preserving programs

    [safe I O m s Q]: from [s], [m] does not fault, ends in a state satisfying
    the invariant [I], performs only output actions satisfying [O], and its
    result and final state satisfy [Q]. *)

Definition safe {S W A} (I : S → Prop) (O : W → Prop) (m : cmd S W A) (s : S)
    (Q : A → S → Prop) : Prop :=
  wp m s (λ a s' o, I s' ∧ Forall O o ∧ Q a s').

Section Safe.
Context {S W : Type} (I : S → Prop) (O : W → Prop).
Implicit Types (s : S).

Lemma safe_bind {A B} (m : cmd S W A) (f : A → cmd S W B) s Q :
  safe I O m s (λ a s', safe I O (f a) s' Q) → safe I O (m ≫= f) s Q.
Proof.
  unfold safe. intros H. apply wp_bind. eapply wp_mono; [exact H|].
  intros a s' o (HI & HO & Hf). eapply wp_mono; [exact Hf|].
  intros b s'' o' (HI' & HO' & HQ). split_and!; [done|by apply Forall_app_2|done].
Qed.

Lemma safe_mono {A} (m : cmd S W A) s (P Q : A → S → Prop) :
  safe I O m s P → (∀ a s', I s' → P a s' → Q a s') → safe I O m s Q.
Proof.
  unfold safe. intros H HPQ. eapply wp_mono; [exact H|]. intros ??? (?&?&?). auto.
Qed.

Lemma safe_ret {A} (a : A) s (Q : A → S → Prop) :
  I s → Q a s → safe I O (mret a) s Q.
Proof. intros. apply wp_ret. by split_and!. Qed.

Lemma safe_get s (Q : S → S → Prop) : I s → Q s s → safe I O get s Q.
Proof. intros. apply wp_get. by split_and!. Qed.

Lemma safe_gets {A} (f : S → A) s (Q : A → S → Prop) :
  I s → Q (f s) s → safe I O (gets f) s Q.
Proof. intros. apply wp_gets. by split_and!. Qed.

Lemma safe_modify (f : S → S) s (Q : unit → S → Prop) :
  I (f s) → Q tt (f s) → safe I O (modify f) s Q.
Proof. intros. apply wp_modify. by split_and!. Qed.

Lemma safe_emit w s (Q : unit → S → Prop) :
  I s → O w → Q tt s → safe I O (emit w) s Q.
Proof. intros. apply wp_emit. split_and!; [done|by constructor|done]. Qed.

Lemma safe_skip s (Q : unit → S → Prop) : I s → Q tt s → safe I O skip s Q.
Proof. intros. apply wp_skip. by split_and!. Qed.

Lemma safe_when b (m : cmd S W unit) s (Q : unit → S → Prop) :
  I s → (b = true → safe I O m s Q) → (b = false → Q tt s) → safe I O (when b m) s Q.
Proof. destruct b; intros; [auto | apply safe_skip; auto]. Qed.

Lemma safe_if {A} (b : bool) (m k : cmd S W A) s (Q : A → S → Prop) :
  (b = true → safe I O m s Q) → (b = false → safe I O k s Q) →
  safe I O (if b then m else k) s Q.
Proof. destruct b; auto. Qed.

Lemma safe_rd b i s (Q : Z → S → Prop) :
  I s → bytes_ok b → 0 ≤ i < zlen b →
  (∀ v, b !! Z.to_nat i = Some v → is_u8 v → Q v s) → safe I O (rd b i) s Q.
Proof.
  intros HI Hb Hi HQ. apply wp_rd; [done|]. intros v Hv.
  split_and!; [done|done|]. apply HQ; [done|]. by eapply Forall_lookup_1.
Qed.

Lemma safe_rdn b off n s (Q : list Z → S → Prop) :
  I s → bytes_ok b → 0 ≤ off → 0 ≤ n → off + n ≤ zlen b →
  (bytes_ok (slice off n b) → zlen (slice off n b) = n → Q (slice off n b) s) →
  safe I O (rdn b off n) s Q.
Proof.
  intros HI Hb ??? HQ. apply wp_rdn; [done..|]. split_and!; [done|done|].
  apply HQ; [|by apply zlen_slice]. unfold slice. by apply Forall_take, Forall_drop.
Qed.

Lemma safe_local_buf cap l s (Q : list Z → S → Prop) :
  I s → zlen l ≤ cap → Q l s → safe I O (local_buf cap l) s Q.
Proof. intros. apply wp_local_buf; [done|]. by split_and!. Qed.
End Safe.

Ltac safe_step :=
  lazymatch goal with
  | |- safe _ _ (_ ≫= _) _ _ => apply safe_bind
  | |- safe _ _ (mret _) _ _ => apply safe_ret
  | |- safe _ _ get _ _ => apply safe_get
  | |- safe _ _ (gets _) _ _ => apply safe_gets
  | |- safe _ _ (modify _) _ _ => apply safe_modify
  | |- safe _ _ (emit _) _ _ => apply safe_emit
  | |- safe _ _ skip _ _ => apply safe_skip
  | |- safe _ _ (when _ _) _ _ => apply safe_when; [|intros ?|intros ?]
  | |- safe _ _ (if _ then _ else _) _ _ => apply safe_if; intros ?
  | |- safe _ _ (rd _ _) _ _ => apply safe_rd; [| | |intros ? ? ?]
  | |- safe _ _ (rdn _ _ _) _ _ => apply safe_rdn; [| | | | |intros ? ?]
  | |- safe _ _ (local_buf _ _) _ _ => apply safe_local_buf
  end.

(** ** Symbolic execution as equations

    Running a program one statement at a time, by rewriting. *)

Section Exec.
Context {S W : Type}.
Implicit Types (s : S).

Lemma bind_assoc {A B C} (m : cmd S W A) (f : A → cmd S W B) (g : B → cmd S W C) s :
  ((m ≫= f) ≫= g) s = (m ≫= λ x, f x ≫= g) s.
Proof.
  unfold mbind, cmd_bind. destruct (m s) as [[[a s1] o1]|]; [|done].
  destruct (f a s1) as [[[b s2] o2]|]; [|done].
  destruct (g b s2) as [[[c s3] o3]|]; [|done]. by rewrite app_assoc.
Qed.

(** Programs that agree on every state compose. *)
Lemma bind_cong {A B} (m m' : cmd S W A) (f g : A → cmd S W B) s :
  m s = m' s → (∀ a s', f a s' = g a s') → (m ≫= f) s = (m' ≫= g) s.
Proof.
  intros Hm Hf. unfold mbind, cmd_bind. rewrite Hm. destruct (m' s) as [[[a s'] o]|]; [|done].
  by rewrite Hf.
Qed.

(** A statement with no output passes its result on. *)
Lemma bind_silent {A B} (m : cmd S W A) (f : A → cmd S W B) s a s' :
  m s = Ok (a, s', []) → (m ≫= f) s = f a s'.
Proof.
  intros E. unfold mbind, cmd_bind. rewrite E.
  by destruct (f a s') as [[[b s2] o2]|].
Qed.

Lemma bind_ret {A B} (a : A) (f : A → cmd S W B) s : (mret a ≫= f) s = f a s.
Proof. by apply bind_silent. Qed.
Lemma bind_get {B} (f : S → cmd S W B) s : (get ≫= f) s = f s s.
Proof. by apply bind_silent. Qed.
Lemma bind_gets {A B} (g : S → A) (f : A → cmd S W B) s : (gets g ≫= f) s = f (g s) s.
Proof. by apply bind_silent. Qed.
Lemma bind_modify {B} g (f : unit → cmd S W B) s : (modify g ≫= f) s = f tt (g s).
Proof. by apply bind_silent. Qed.
Lemma bind_skip {B} (f : unit → cmd S W B) s : (skip ≫= f) s = f tt s.
Proof. by apply bind_silent. Qed.

Lemma for_each_app {A} (l k : list A) (f : A → cmd S W unit) s :
  for_each (l ++ k) f s = (for_each l f;; for_each k f) s.
Proof.
  revert s. induction l as [|x l IH]; intros s; cbn [app for_each]; [by rewrite bind_skip|].
  rewrite bind_assoc. apply bind_cong; [done|]. intros [] s'. apply IH.
Qed.

Lemma rd_ok b i v s : 0 ≤ i → b !! Z.to_nat i = Some v → rd (W:=W) b i s = Ok (v, s, []).
Proof. intros ? E. unfold rd. rewrite decide_True by done. by rewrite E. Qed.
Lemma rdn_ok b off n s :
  0 ≤ off → 0 ≤ n → off + n ≤ zlen b → rdn (W:=W) b off n s = Ok (slice off n b, s, []).
Proof. intros. unfold rdn. by rewrite decide_True. Qed.
Lemma local_buf_ok cap l s : zlen l ≤ cap → local_buf (W:=W) cap l s = Ok (l, s, []).
Proof. intros. unfold local_buf. by rewrite decide_True. Qed.
Lemma local_buf_fault cap l s : cap < zlen l → local_buf (W:=W) cap l s = Fault OobWrite.
Proof. intros. unfold local_buf. by rewrite decide_False by lia. Qed.

Lemma bind_rd {B} b i v (f : Z → cmd S W B) s :
  0 ≤ i → b !! Z.to_nat i = Some v → (rd b i ≫= f) s = f v s.
Proof. intros. by apply bind_silent, rd_ok. Qed.
Lemma bind_rdn {B} b off n (f : list Z → cmd S W B) s :
  0 ≤ off → 0 ≤ n → off + n ≤ zlen b → (rdn b off n ≫= f) s = f (slice off n b) s.
Proof. intros. by apply bind_silent, rdn_ok. Qed.
Lemma bind_local_buf {B} cap l (f : list Z → cmd S W B) s :
  zlen l ≤ cap → (local_buf cap l ≫= f) s = f l s.
Proof. intros. by apply bind_silent, local_buf_ok. Qed.
Lemma bind_rdn_fault {B} b off n (f : list Z → cmd S W B) s :
  ¬ (0 ≤ off ∧ 0 ≤ n ∧ off + n ≤ zlen b) → (rdn b off n ≫= f) s = Fault OobRead.
Proof. intros. apply bind_fault. unfold rdn. by rewrite decide_False. Qed.

Lemma bind_emit {B} w (f : unit → cmd S W B) s :
  (emit w ≫= f) s = match f tt s with
                    | Ok (b, s', o) => Ok (b, s', w :: o)
                    | Fault e => Fault e
                    end.
Proof. done. Qed.

Lemma when_true (m : cmd S W unit) b : b = true → when b m = m.
Proof. by intros ->. Qed.
Lemma when_false (m : cmd S W unit) b : b = false → when b m = skip.
Proof. by intros ->. Qed.
Lemma if_true {A} (m k : A) (b : bool) : b = true → (if b then m else k) = m.
Proof. by intros ->. Qed.
Lemma if_false {A} (m k : A) (b : bool) : b = false → (if b then m else k) = k.
Proof. by intros ->. Qed.
End Exec.

(** Run the statements that need no side condition. *)
Ltac exec_step :=
  first [ rewrite bind_get | rewrite bind_gets | rewrite bind_modify | rewrite bind_ret
        | rewrite bind_skip | rewrite bind_assoc ].
Ltac exec := repeat (exec_step; cbv beta zeta).
