(* ===== verification/Wire.v ===== *)
(** * The medium wire protocol (src/vbt.h)

    The constants of vbt.h, the 44-byte frame header with its in-memory
    (little-endian, unpadded) layout, the length-prefixed frame every process
    writes, and the hello message. *)

From stdpp Require Import base list numbers option.
From Stdlib Require Import ZArith Lia.
From S2P Require Import Prelude.

Definition VBT_MAGIC : Z := 0x31544256.
Definition VBT_VERSION : Z := 1.
Definition VBT_MAX_PDU_SIZE : Z := 512.
Definition VBT_HDR_SIZE : Z := 44.
Definition VBT_MAX_MSG_SIZE : Z := VBT_HDR_SIZE + VBT_MAX_PDU_SIZE.
Definition VBT_RXBUF_SIZE : Z := 4 + VBT_HDR_SIZE + VBT_MAX_PDU_SIZE.

Definition VBT_LL_ADV : Z := 0x01.
Definition VBT_LL_DATA : Z := 0x02.
Definition VBT_PHY_1M : Z := 1.
Definition VBT_CHAN_ADV_37 : Z := 37.
Definition VBT_CHAN_ADV_38 : Z := 38.
Definition VBT_CHAN_ADV_39 : Z := 39.
Definition VBT_ADV_ACCESS_ADDR : Z := 0x8E89BED6.

Definition VBT_ADV_PDU_TYPE_MASK : Z := 0x0F.
Definition VBT_ADV_IND : Z := 0x00.
Definition VBT_ADV_DIRECT_IND : Z := 0x01.
Definition VBT_ADV_NONCONN_IND : Z := 0x02.
Definition VBT_SCAN_REQ : Z := 0x03.
Definition VBT_SCAN_RSP : Z := 0x04.
Definition VBT_CONNECT_IND : Z := 0x05.
Definition VBT_ADV_SCAN_IND : Z := 0x06.

Definition VBT_CONNIND_INITA_OFF : Z := 2.
Definition VBT_CONNIND_ADVA_OFF : Z := 8.
Definition VBT_CONNIND_AA_OFF : Z := 14.

Definition VBT_HELLO_MAGIC : Z := 0x48544256.
Definition VBT_HELLO_FLAG_PHYSICAL : Z := 0x01.
Definition VBT_HELLO_FLAG_MONITOR : Z := 0x02.

Definition VBT_DEFAULT_RSSI : Z := -40.
Definition VBT_DEFAULT_TXPOWER : Z := 0.
Definition VBT_DEFAULT_RX_SENS : Z := -95.

(** ** The frame header *)

Record vbt_frame_hdr : Type := Hdr {
  magic : Z;
  version : Z;
  pdu_len : Z;
  access_addr : Z;
  tsf_lo : Z;
  tsf_hi : Z;
  flags : Z;
  tx_addr : list Z;
  tx_addr_type : Z;
  ll_type : Z;
  channel : Z;
  phy : Z;
  tx_power_dbm : Z;
  rssi : Z;
  conn_handle : Z;
  reserved : list Z
}.

(** The values the C types of the fields can hold. *)
Record hdr_ok (h : vbt_frame_hdr) : Prop := HdrOk {
  ok_magic : is_u32 (magic h);
  ok_version : is_u16 (version h);
  ok_pdu_len : is_u16 (pdu_len h);
  ok_access_addr : is_u32 (access_addr h);
  ok_tsf_lo : is_u32 (tsf_lo h);
  ok_tsf_hi : is_u32 (tsf_hi h);
  ok_flags : is_u32 (flags h);
  ok_tx_addr : bytes_ok (tx_addr h) ∧ zlen (tx_addr h) = 6;
  ok_tx_addr_type : is_u8 (tx_addr_type h);
  ok_ll_type : is_u8 (ll_type h);
  ok_channel : is_u8 (channel h);
  ok_phy : is_u8 (phy h);
  ok_tx_power : is_s8 (tx_power_dbm h);
  ok_rssi : is_s8 (rssi h);
  ok_conn_handle : is_u16 (conn_handle h);
  ok_reserved : bytes_ok (reserved h) ∧ zlen (reserved h) = 6
}.

(** [memcpy(wire, &hdr, VBT_HDR_SIZE)]: the object representation. *)
Definition hdr_bytes (h : vbt_frame_hdr) : list Z :=
  le_split 4 (magic h) ++ le_split 2 (version h) ++ le_split 2 (pdu_len h) ++
  le_split 4 (access_addr h) ++ le_split 4 (tsf_lo h) ++ le_split 4 (tsf_hi h) ++
  le_split 4 (flags h) ++ tx_addr h ++
  [u8 (tx_addr_type h); u8 (ll_type h); u8 (channel h); u8 (phy h);
   u8 (tx_power_dbm h); u8 (rssi h)] ++
  le_split 2 (conn_handle h) ++ reserved h.

(** [memcpy(&hdr, payload, VBT_HDR_SIZE)]. *)
Definition hdr_of_bytes (b : list Z) : vbt_frame_hdr :=
  let byte i := default 0 (b !! i) in
  {| magic := le_join (slice 0 4 b);
     version := le_join (slice 4 2 b);
     pdu_len := le_join (slice 6 2 b);
     access_addr := le_join (slice 8 4 b);
     tsf_lo := le_join (slice 12 4 b);
     tsf_hi := le_join (slice 16 4 b);
     flags := le_join (slice 20 4 b);
     tx_addr := slice 24 6 b;
     tx_addr_type := byte 30%nat;
     ll_type := byte 31%nat;
     channel := byte 32%nat;
     phy := byte 33%nat;
     tx_power_dbm := s8 (byte 34%nat);
     rssi := s8 (byte 35%nat);
     conn_handle := le_join (slice 36 2 b);
     reserved := slice 38 6 b |}.

(** The wire image of one frame: [htonl(msg)], header, PDU. *)
Definition frame_bytes (h : vbt_frame_hdr) (pdu : list Z) : list Z :=
  be32 (VBT_HDR_SIZE + zlen pdu) ++ hdr_bytes h ++ pdu.

(** A list of known length is a list literal. *)
Lemma zlen_6 (l : list Z) :
  zlen l = 6 → ∃ a b c d e f, l = [a; b; c; d; e; f].
Proof.
  unfold zlen. intros H.
  do 6 (destruct l as [|? l]; [simpl in H; lia|]).
  destruct l; [|simpl in H; lia]. eauto 10.
Qed.

Lemma le_join_split4 z : is_u32 z → le_join (le_split 4 z) = z.
Proof. intros. rewrite le_join_split. by apply Z.mod_small. Qed.
Lemma le_join_split2 z : is_u16 z → le_join (le_split 2 z) = z.
Proof. intros. rewrite le_join_split. by apply Z.mod_small. Qed.

Lemma length_hdr_bytes h : hdr_ok h → zlen (hdr_bytes h) = VBT_HDR_SIZE.
Proof.
  intros H. unfold hdr_bytes. rewrite !zlen_app.
  rewrite (proj2 (ok_tx_addr _ H)), (proj2 (ok_reserved _ H)). done.
Qed.

Lemma hdr_bytes_ok h : hdr_ok h → bytes_ok (hdr_bytes h).
Proof.
  intros H. unfold hdr_bytes.
  repeat apply Forall_app_2; try apply le_split_ok;
    try apply (ok_tx_addr _ H); try apply (ok_reserved _ H).
  forall_cons; auto with vbt.
Qed.

(** Decoding recovers the header a process encoded. *)
Lemma hdr_of_bytes_hdr_bytes h : hdr_ok h → hdr_of_bytes (hdr_bytes h) = h.
Proof.
  intros H. destruct h as [m v pl aa tl th fl ta tat lt ch ph tp rs chn rsv].
  destruct H; simpl in *.
  destruct ok_tx_addr0 as [_ (a0&a1&a2&a3&a4&a5&->)%zlen_6].
  destruct ok_reserved0 as [_ (r0&r1&r2&r3&r4&r5&->)%zlen_6].
  unfold hdr_of_bytes, hdr_bytes; cbn [magic version pdu_len access_addr tsf_lo tsf_hi
    flags tx_addr tx_addr_type ll_type channel phy tx_power_dbm rssi conn_handle reserved].
  pose proof (le_join_split4 m ltac:(done)); pose proof (le_join_split2 v ltac:(done)).
  pose proof (le_join_split2 pl ltac:(done)); pose proof (le_join_split4 aa ltac:(done)).
  pose proof (le_join_split4 tl ltac:(done)); pose proof (le_join_split4 th ltac:(done)).
  pose proof (le_join_split4 fl ltac:(done)); pose proof (le_join_split2 chn ltac:(done)).
  cbn -[Z.modulo Z.div Z.mul Z.add] in *.
  f_equal; try assumption; rewrite ?s8_u8 by done; rewrite ?u8_small by done; done.
Qed.

(** Encoding is injective on bytes as well: a received header re-encodes to
    the bytes it was read from. *)
Lemma hdr_bytes_hdr_of_bytes b :
  bytes_ok b → zlen b = VBT_HDR_SIZE → hdr_bytes (hdr_of_bytes b) = b.
Proof.
  intros Hb Hl. unfold zlen, VBT_HDR_SIZE in Hl.
  do 44 (destruct b as [|? b]; [simpl in Hl; lia|]).
  destruct b; [|simpl in Hl; lia]. clear Hl.
  unfold hdr_of_bytes, hdr_bytes; cbn [magic version pdu_len access_addr tsf_lo tsf_hi
    flags tx_addr tx_addr_type ll_type channel phy tx_power_dbm rssi conn_handle reserved].
  repeat match goal with
  | |- context [le_split ?n (le_join (slice ?o ?k ?l))] =>
      let s := eval cbn in (slice o k l) in
      change (le_split n (le_join (slice o k l))) with (le_split (length s) (le_join s));
      rewrite (le_split_join s)
  end.
  1: { cbn. rewrite !u8_s8, !u8_small; [done|..];
    repeat (apply Forall_cons_1 in Hb as [? Hb]); assumption. }
  all: repeat (apply Forall_cons_1 in Hb as [? Hb]); forall_cons; assumption.
Qed.

Lemma hdr_of_bytes_ok b :
  bytes_ok b → zlen b = VBT_HDR_SIZE → hdr_ok (hdr_of_bytes b).
Proof.
  intros Hb Hl. unfold zlen, VBT_HDR_SIZE in Hl.
  do 44 (destruct b as [|? b]; [simpl in Hl; lia|]).
  destruct b; [|simpl in Hl; lia]. clear Hl.
  repeat (apply Forall_cons_1 in Hb as [? Hb]).
  split; cbn -[le_join]; auto with vbt; try (split; [by forall_cons|done]).
  all: match goal with |- _ (le_join ?l) =>
         pose proof (le_join_range l) as Hr; apply Hr; by forall_cons end.
Qed.
