(* ===== verification/Framing.v ===== *)
(** * Framing on the stream sockets (src/vbt.h)

    Hub and clients exchange payloads, each behind its length in network
    order.  This file is about such streams alone: what of them is complete,
    and how a prefix of one splits into payloads and a rest. *)

From stdpp Require Import base list numbers option.
From Stdlib Require Import ZArith Lia.
From S2P Require Import Prelude Wire.

(** A length-prefixed payload. *)
Definition wire (payload : list Z) : list Z := be32 (zlen payload) ++ payload.
Definition payload_ok (payload : list Z) : Prop :=
  bytes_ok payload ∧ zlen payload ≤ VBT_MAX_MSG_SIZE.

(** No message is complete. *)
Definition incomplete (d : list Z) : Prop :=
  zlen d < 4 ∨
  of_be32 (take 4 d) ≤ VBT_MAX_MSG_SIZE ∧ zlen d < 4 + of_be32 (take 4 d).

Lemma zlen_wire payload : zlen (wire payload) = 4 + zlen payload.
Proof. unfold wire. by rewrite zlen_app. Qed.

Lemma slice_wire payload rest : slice 4 (zlen payload) (wire payload ++ rest) = payload.
Proof.
  unfold wire. rewrite <- app_assoc, slice_app_r by done. apply slice_app_exact.
Qed.

Lemma drop_wire payload rest :
  drop (Z.to_nat (4 + zlen payload)) (wire payload ++ rest) = rest.
Proof. apply drop_app_length'. pose proof (zlen_wire payload). unfold zlen in *. lia. Qed.

Lemma wires_len ps : 4 * Z.of_nat (length ps) ≤ zlen (concat (map wire ps)).
Proof.
  induction ps as [|a ps IH]; [done|]. cbn [map concat length].
  rewrite zlen_app, zlen_wire. pose proof (zlen_nonneg a). lia.
Qed.

Lemma incomplete_room d : incomplete d → zlen d < VBT_RXBUF_SIZE.
Proof.
  intros [?|[? ?]]; unfold VBT_RXBUF_SIZE, VBT_MAX_MSG_SIZE, VBT_HDR_SIZE,
    VBT_MAX_PDU_SIZE in *; lia.
Qed.

(** Whatever part of a stream has arrived, it is some payloads and an
    incomplete rest. *)
Lemma split_wires ps d s :
  Forall payload_ok ps → d ++ s = concat (map wire ps) →
  ∃ ps1 ps2 rest, ps = ps1 ++ ps2 ∧ d = concat (map wire ps1) ++ rest ∧
    rest ++ s = concat (map wire ps2) ∧ incomplete rest.
Proof.
  revert d. induction ps as [|a ps IH]; intros d Hps Hd; cbn [map concat] in Hd.
  { apply app_eq_nil in Hd as [-> ->]. exists [], [], []. split_and!; try done. by left. }
  apply Forall_cons_1 in Hps as [[Hb Hm] Hps].
  destruct (decide (zlen d < zlen (wire a))) as [Hlt|Hge].
  - exists [], (a :: ps), d. split_and!; [done..|].
    destruct (decide (zlen d < 4)) as [?|H4]; [by left|right].
    assert (take 4 d = be32 (zlen a)) as ->.
    { apply (f_equal (take 4)) in Hd. unfold wire in Hd. rewrite <- app_assoc in Hd.
      rewrite take_app_le in Hd by (unfold zlen in *; lia). by rewrite Hd. }
    rewrite zlen_wire in Hlt. rewrite of_be32_be32; [lia|]. pose proof (zlen_nonneg a).
    unfold VBT_MAX_MSG_SIZE, VBT_HDR_SIZE, VBT_MAX_PDU_SIZE in Hm. mlia.
  - pose proof (f_equal (take (length (wire a))) Hd) as Ht.
    rewrite take_app_length, take_app_le in Ht by (unfold zlen in *; lia).
    pose proof (f_equal (drop (length (wire a))) Hd) as Hr.
    rewrite drop_app_length, drop_app_le in Hr by (unfold zlen in *; lia).
    destruct (IH _ Hps Hr) as (ps1 & ps2 & rest & -> & Hd' & Hs & Hi).
    exists (a :: ps1), ps2, rest. split_and!; [done| |done|done].
    transitivity (take (length (wire a)) d ++ drop (length (wire a)) d); [by rewrite take_drop|].
    rewrite Ht, Hd'. cbn [map concat]. by rewrite <- app_assoc.
Qed.

Lemma incomplete_wires ps : Forall payload_ok ps → incomplete (concat (map wire ps)) → ps = [].
Proof.
  destruct ps as [|a ps]; [done|]. intros [[_ Hm] _]%Forall_cons_1. unfold incomplete.
  cbn [map concat]. rewrite zlen_app, zlen_wire.
  pose proof (zlen_nonneg a). pose proof (zlen_nonneg (concat (map wire ps))).
  change (take 4 (wire a ++ concat (map wire ps))) with (be32 (zlen a)).
  rewrite of_be32_be32; [lia|].
  unfold VBT_MAX_MSG_SIZE, VBT_HDR_SIZE, VBT_MAX_PDU_SIZE in Hm. mlia.
Qed.

(** The payload of a frame. *)
Definition frame_payload (hdr : vbt_frame_hdr) (pdu : list Z) : list Z := hdr_bytes hdr ++ pdu.

Section FramePayload.
Context (hdr : vbt_frame_hdr) (pdu : list Z).
Hypothesis Hhdr : hdr_ok hdr.

Lemma zlen_frame_payload : zlen (frame_payload hdr pdu) = VBT_HDR_SIZE + zlen pdu.
Proof using Hhdr. unfold frame_payload. by rewrite zlen_app, length_hdr_bytes. Qed.

Lemma wire_frame : wire (frame_payload hdr pdu) = frame_bytes hdr pdu.
Proof using Hhdr. unfold wire, frame_bytes. by rewrite zlen_frame_payload. Qed.

Lemma frame_payload_ok : zlen pdu ≤ VBT_MAX_PDU_SIZE → bytes_ok pdu → payload_ok (frame_payload hdr pdu).
Proof using Hhdr.
  intros Hmax Hb. split.
  - apply Forall_app_2; [by apply hdr_bytes_ok|done].
  - rewrite zlen_frame_payload. unfold VBT_MAX_MSG_SIZE. lia.
Qed.

End FramePayload.

(** A frame a hub forwards. *)
Record forwardable (hdr : vbt_frame_hdr) (pdu : list Z) : Prop := Forwardable {
  fr_hdr : hdr_ok hdr;
  fr_magic : magic hdr = VBT_MAGIC;
  fr_len : pdu_len hdr = zlen pdu;
  fr_pdu : bytes_ok pdu;
  fr_max : zlen pdu ≤ VBT_MAX_PDU_SIZE
}.
