(* ===== verification/Text.v ===== *)
(** * C text: strings, formatted output and scanning

    The pieces of the C library the hub's control socket and the address
    parsers use: [printf] conversions, [strncasecmp], and the [sscanf]
    conversions %s, %d, %x and %lf.  A C string is the list of its character
    codes without the terminator. *)

From Stdlib Require Import ZArith Lia Floats.SpecFloat Ascii String.
From stdpp Require Import base list numbers option.
From S2P Require Import Prelude.

(** A literal of the source. *)
Definition str (s : string) : list Z :=
  map (λ a, Z.of_nat (nat_of_ascii a)) (list_ascii_of_string s).
Definition nl : list Z := [10].

(** The C string at the start of a buffer: up to the first NUL. *)
Fixpoint c_str (l : list Z) : list Z :=
  match l with
  | [] => []
  | c :: l => if c =? 0 then [] else c :: c_str l
  end.

(** ** Formatted output *)

(** The digits of [z] in base [b], most significant first, at least one.  Each
    step divides by at least 2, so [log2 z + 1] steps are enough. *)
Definition digit (d : Z) : Z := if d <? 10 then 48 + d else 87 + d.
Fixpoint digits (b : Z) (fuel : nat) (z : Z) (acc : list Z) : list Z :=
  match fuel with
  | O => acc
  | S fuel =>
      let acc := digit (z mod b) :: acc in
      if z / b =? 0 then acc else digits b fuel (z / b) acc
  end.
Definition nat_str (b z : Z) : list Z := digits b (Z.to_nat (Z.log2 z + 1)) z [].

(** Padding to a minimum width, on the left with [c] or on the right with
    blanks. *)
Definition pad_left (c w : Z) (s : list Z) : list Z :=
  replicate (Z.to_nat (w - zlen s)) c ++ s.
Definition pad_right (w : Z) (s : list Z) : list Z :=
  s ++ replicate (Z.to_nat (w - zlen s)) 32.

(** ["%d"], ["%lld"] and ["%llu"] of a value in the range of its type. *)
Definition dec_str (z : Z) : list Z :=
  if z <? 0 then 45 :: nat_str 10 (- z) else nat_str 10 z.
(** ["%0wx"] *)
Definition hex_str (w z : Z) : list Z := pad_left 48 w (nat_str 16 z).

(** Nearest integer to [n / d], ties to even. *)
Definition round_half_even (n d : Z) : Z :=
  let q := n / d in
  let r := n mod d in
  if 2 * r <? d then q
  else if d <? 2 * r then q + 1
  else if Z.even q then q else q + 1.

(** ["%.kf"]: the exact binary value, rounded to [k] decimals. *)
Definition fix_str (k : Z) (x : spec_float) : list Z :=
  let neg s t := if s : bool then 45 :: t else t in
  let put v :=
    nat_str 10 (v / 10 ^ k) ++
    (if k =? 0 then [] else 46 :: pad_left 48 k (nat_str 10 (v mod 10 ^ k))) in
  match x with
  | S754_zero s => neg s (put 0)
  | S754_infinity s => neg s (str "inf")
  | S754_nan => str "nan"
  | S754_finite s m e =>
      neg s (put (if 0 <=? e then Z.pos m * 2 ^ e * 10 ^ k
                  else round_half_even (Z.pos m * 10 ^ k) (2 ^ (- e))))
  end.

(** ** Comparison *)

Definition tolower (c : Z) : Z := if (65 <=? c) && (c <=? 90) then c + 32 else c.
(** [strncasecmp(cmd, kw, strlen(kw)) == 0] *)
Definition keyword (kw : string) (cmd : list Z) : bool :=
  bool_decide (map tolower (take (length (str kw)) cmd) = map tolower (str kw)).
(** [cmd + strlen(kw)] *)
Definition after (kw : string) (cmd : list Z) : list Z := drop (length (str kw)) cmd.

(** ** Scanning

    A conversion takes the rest of the input and returns the value and what is
    left, or nothing on a matching failure. *)

Definition scanner (A : Type) : Type := list Z → option (A * list Z).

Definition is_space (c : Z) : bool := (c =? 32) || ((9 <=? c) && (c <=? 13)).
Definition is_digit (c : Z) : bool := (48 <=? c) && (c <=? 57).
Definition hex_val (c : Z) : option Z :=
  if is_digit c then Some (c - 48)
  else if (97 <=? tolower c) && (tolower c <=? 102) then Some (tolower c - 87) else None.

Fixpoint skip_ws (l : list Z) : list Z :=
  match l with
  | c :: l' => if is_space c then skip_ws l' else l
  | [] => []
  end.

(** At most [n] characters satisfying [f]. *)
Fixpoint take_while (f : Z → bool) (n : nat) (l : list Z) : list Z * list Z :=
  match n, l with
  | S n, c :: l' =>
      if f c then let '(a, r) := take_while f n l' in (c :: a, r) else ([], l)
  | _, _ => ([], l)
  end.

(** ["%ns"] *)
Definition scan_s (n : nat) : scanner (list Z) := λ l,
  match take_while (λ c, negb (is_space c)) n (skip_ws l) with
  | ([], _) => None
  | (a, r) => Some (a, r)
  end.

Definition scan_sign (l : list Z) : bool * list Z :=
  match l with
  | c :: l' => if c =? 45 then (true, l') else if c =? 43 then (false, l') else (false, l)
  | [] => (false, l)
  end.

Definition dec_value (l : list Z) : Z := foldl (λ v c, v * 10 + (c - 48)) 0 l.
Definition hex_value (l : list Z) : Z := foldl (λ v c, v * 16 + default 0 (hex_val c)) 0 l.
Definition is_hex (c : Z) : bool := match hex_val c with Some _ => true | None => false end.

(** ["%d"]: [strtol] (saturating) and the conversion to [int]. *)
Definition scan_d : scanner Z := λ l,
  let '(neg, l) := scan_sign (skip_ws l) in
  match take_while is_digit (length l) l with
  | ([], _) => None
  | (a, r) =>
      let v := if neg then Z.max (- dec_value a) (-9223372036854775808)
               else Z.min (dec_value a) 9223372036854775807 in
      Some ((v + 2147483648) mod 4294967296 - 2147483648, r)
  end.

(** ["%x"]: [strtoul] (saturating; a minus sign negates) and the conversion to
    [unsigned]; an optional 0x is accepted. *)
Definition skip_0x (l : list Z) : list Z :=
  match l with
  | c0 :: c1 :: r =>
      if (c0 =? 48) && (tolower c1 =? 120) &&
         match r with d :: _ => is_hex d | [] => false end then r else l
  | _ => l
  end.
Definition scan_x : scanner Z := λ l,
  let '(neg, l) := scan_sign (skip_ws l) in
  let l := skip_0x l in
  match take_while is_hex (length l) l with
  | ([], _) => None
  | (a, r) =>
      let v := hex_value a in
      let v := if 18446744073709551615 <? v then 18446744073709551615
               else if neg then - v else v in
      Some (u32 v, r)
  end.

(** A literal character of the format. *)
Definition scan_c (c : Z) : scanner unit := λ l,
  match l with d :: r => if d =? c then Some (tt, r) else None | [] => None end.

(** The binary64 number nearest to [(-1)^s * m / d]. *)
Definition d_of_ratio (s : bool) (m d : positive) : spec_float :=
  let '(mz, ez, lz) := SFdiv_core_binary 53 1024 (Z.pos m) 0 (Z.pos d) 0 in
  binary_round_aux 53 1024 s mz ez lz.

(** [(-1)^s * v * b^e]; a decimal exponent beyond [bound] is out of the range
    of binary64 for any mantissa the input can hold. *)
Definition d_scaled (s : bool) (v : Z) (b e : Z) : spec_float :=
  match v with
  | Z.pos m =>
      if 0 <=? e then d_of_ratio s (Z.to_pos (v * b ^ e)) 1
      else d_of_ratio s m (Z.to_pos (b ^ (- e)))
  | _ => S754_zero s
  end.

(** Digits with an optional point: the digits' value, the number of them and
    how many stand behind the point. *)
Definition scan_mantissa (f : Z → bool) (l : list Z) : list Z * Z * list Z :=
  let '(a, r) := take_while f (length l) l in
  match r with
  | c :: r' =>
      if c =? 46 then
        let '(b, r'') := take_while f (length r') r' in (a ++ b, zlen b, r'')
      else (a, 0, r)
  | [] => (a, 0, r)
  end.

(** An exponent part; a letter without digits is a matching failure. *)
Definition scan_exp (letter : Z) (l : list Z) : option (Z * list Z) :=
  match l with
  | c :: r =>
      if tolower c =? letter then
        let '(neg, r) := scan_sign r in
        match take_while is_digit (length r) r with
        | ([], _) => None
        | (a, r) => Some ((if neg then - dec_value a else dec_value a), r)
        end
      else Some (0, l)
  | [] => Some (0, l)
  end.

Definition clamp (lo hi v : Z) : Z := Z.max lo (Z.min hi v).

(** ["%lf"]: decimal and hexadecimal numbers, infinities and NaN.  A decimal
    exponent is cut to +-20000 and a binary one to +-80000: beyond that every
    number of at most 1024 digits is 0 or infinite. *)
Definition scan_lf : scanner spec_float := λ l,
  let '(neg, l) := scan_sign (skip_ws l) in
  if keyword "infinity" l then Some (S754_infinity neg, after "infinity" l)
  else if keyword "inf" l then Some (S754_infinity neg, after "inf" l)
  else if keyword "nan" l then Some (S754_nan, after "nan" l)
  else if bool_decide (skip_0x l ≠ l) then
    let '(a, k, r) := scan_mantissa is_hex (skip_0x l) in
    match scan_exp 112 r with
    | Some (e, r) =>
        Some (d_scaled neg (hex_value a) 2 (clamp (-80000) 80000 e - 4 * k), r)
    | None => None
    end
  else
    let '(a, k, r) := scan_mantissa is_digit l in
    match a with
    | [] => None
    | _ =>
        match scan_exp 101 r with
        | Some (e, r) =>
            Some (d_scaled neg (dec_value a) 10 (clamp (-20000) 20000 e - k), r)
        | None => None
        end
    end.

Definition scan_2 {A B} (sa : scanner A) (sb : scanner B) (l : list Z) : option (A * B) :=
  '(a, l) ← sa l; '(b, _) ← sb l; Some (a, b).

(** [sscanf(s, "%x:%x:%x:%x:%x:%x", ...) == 6] *)
Definition scan_addr (l : list Z) : option (list Z) :=
  '(a, l) ← scan_x l; '(_, l) ← scan_c 58 l;
  '(b, l) ← scan_x l; '(_, l) ← scan_c 58 l;
  '(c, l) ← scan_x l; '(_, l) ← scan_c 58 l;
  '(d, l) ← scan_x l; '(_, l) ← scan_c 58 l;
  '(e, l) ← scan_x l; '(_, l) ← scan_c 58 l;
  '(f, _) ← scan_x l; Some [a; b; c; d; e; f].

(** [fmt_addr] *)
Definition fmt_addr (a : list Z) : list Z :=
  match map (hex_str 2) a with
  | x :: l => x ++ concat (map (λ y, 58 :: y) l)
  | [] => []
  end.

Example fix_str_ex : fix_str 2 (d_of_ratio true 5 8) = str "-0.62".
Proof. reflexivity. Qed.
Example scan_lf_ex : scan_lf (str " -1.5e1x") = Some (d_of_ratio true 15 1, str "x").
Proof. reflexivity. Qed.
Example scan_addr_ex : scan_addr (str "0a:1:ff:00:7f:100") = Some [10; 1; 255; 0; 127; 256].
Proof. reflexivity. Qed.
