(* ===== verification/TextInv.v ===== *)
(** * Bounds on formatted numbers

    Every number the scanner returns is a binary64 number, and the text the
    hub formats for a number has a bounded length; used to show that no reply
    of the control socket overruns its buffers. *)

From Stdlib Require Import ZArith Lia Floats.SpecFloat String.
From stdpp Require Import base list numbers option.
From S2P Require Import Prelude Text.

(** A binary64 number: the mantissa has 53 bits, the exponent is bounded. *)
Definition d_ok (x : spec_float) : Prop :=
  match x with S754_finite _ m e => Z.pos m < 2 ^ 53 ∧ e ≤ 971 | _ => True end.

(** ** Rounding yields binary64 numbers *)

Lemma digits2_pos_bound p : Z.pos p < 2 ^ Z.pos (digits2_pos p).
Proof.
  induction p as [p IH|p IH|]; cbn [digits2_pos]; [..|done];
    rewrite Pos2Z.inj_succ, Z.pow_succ_r by lia; lia.
Qed.

Lemma Zdigits2_bound m : Z.abs m < 2 ^ Zdigits2 m.
Proof. destruct m as [|p|p]; cbn [Zdigits2 Z.abs]; [done|apply digits2_pos_bound..]. Qed.

Lemma Zdigits2_nonneg m : 0 ≤ Zdigits2 m.
Proof. destruct m; cbn; lia. Qed.

Lemma shr_1_quot r : shr_m (shr_1 r) = Z.quot (shr_m r) 2.
Proof.
  destruct r as [[|[p|p|]|[p|p|]] b s]; cbn [shr_1 shr_m]; try reflexivity;
    Z.to_euclidean_division_equations; lia.
Qed.

Lemma iter_shr_quot p r : shr_m (SpecFloat.iter_pos shr_1 p r) = Z.quot (shr_m r) (2 ^ Z.pos p).
Proof.
  revert r. induction p as [p IH|p IH|]; intros r; cbn [SpecFloat.iter_pos].
  - rewrite !IH, shr_1_quot, !Z.quot_quot by lia. f_equal.
    rewrite <- Z.pow_add_r, <- Z.pow_succ_r by lia. f_equal. lia.
  - rewrite !IH, Z.quot_quot by lia. f_equal. rewrite <- Z.pow_add_r by lia. f_equal. lia.
  - apply shr_1_quot.
Qed.

Lemma quot_abs_lt a b c : 0 < b → Z.abs a < c * b → 0 ≤ c → Z.abs (Z.quot a b) < c.
Proof.
  intros Hb Ha Hc. rewrite <- Z.quot_abs by lia. rewrite (Z.abs_eq b) by lia.
  apply Z.quot_lt_upper_bound; lia.
Qed.

(** After the shift to the canonical exponent, 53 bits are left. *)
Lemma shr_fexp_bound m e l r e' :
  shr_fexp 53 1024 m e l = (r, e') → Z.abs (shr_m r) < 2 ^ 53.
Proof.
  unfold shr_fexp, shr. pose proof (Zdigits2_bound m) as Hm. pose proof (Zdigits2_nonneg m).
  assert (shr_m (shr_record_of_loc m l) = m) as Hl by by destruct l as [|[]].
  destruct (fexp 53 1024 (Zdigits2 m + e) - e) as [|p|p] eqn:Hn; intros [= <- <-].
  - rewrite Hl. eapply Z.lt_le_trans; [done|]. apply Z.pow_le_mono_r; [lia|].
    unfold fexp in Hn. lia.
  - rewrite iter_shr_quot, Hl. apply quot_abs_lt; [lia| |lia].
    eapply Z.lt_le_trans; [done|]. rewrite <- Z.pow_add_r by lia.
    apply Z.pow_le_mono_r; [lia|]. unfold fexp in Hn. lia.
  - rewrite Hl. eapply Z.lt_le_trans; [done|]. apply Z.pow_le_mono_r; [lia|].
    unfold fexp in Hn. lia.
Qed.

Lemma binary_round_aux_ok s m e l : d_ok (binary_round_aux 53 1024 s m e l).
Proof.
  unfold binary_round_aux. destruct (shr_fexp 53 1024 m e l) as [r1 e1].
  destruct (shr_fexp 53 1024 (round_nearest_even _ _) e1 loc_Exact) as [r2 e2] eqn:E.
  apply shr_fexp_bound in E. destruct (shr_m r2) as [|p|p]; [done| |done].
  destruct (e2 <=? 1024 - 53) eqn:He; [|done]. cbn. lia.
Qed.

Lemma d_of_ratio_ok s m d : d_ok (d_of_ratio s m d).
Proof.
  unfold d_of_ratio. destruct (SFdiv_core_binary _ _ _ _ _ _) as [[mz ez] lz].
  apply binary_round_aux_ok.
Qed.

Lemma d_scaled_ok s v b e : d_ok (d_scaled s v b e).
Proof.
  unfold d_scaled. destruct v as [|p|p]; [done| |done].
  destruct (0 <=? e); apply d_of_ratio_ok.
Qed.

(** Everything ["%lf"] can read is a binary64 number. *)
Lemma scan_lf_ok l x r : scan_lf l = Some (x, r) → d_ok x.
Proof.
  unfold scan_lf. destruct (scan_sign _) as [neg l1].
  destruct (keyword "infinity" l1); [by intros [= <- _]|].
  destruct (keyword "inf" l1); [by intros [= <- _]|].
  destruct (keyword "nan" l1); [by intros [= <- _]|].
  case_bool_decide.
  - destruct (scan_mantissa _ _) as [[a k] r1]. destruct (scan_exp _ _) as [[e r2]|]; [|done].
    intros [= <- _]. apply d_scaled_ok.
  - destruct (scan_mantissa _ _) as [[a k] r1]. destruct a; [done|].
    destruct (scan_exp _ _) as [[e r2]|]; [|done]. intros [= <- _]. apply d_scaled_ok.
Qed.

(** ** Lengths *)

Lemma digits_len b fuel z acc k :
  1 < b → 1 ≤ k → 0 ≤ z < b ^ k → zlen (digits b fuel z acc) ≤ k + zlen acc.
Proof.
  intros Hb. revert z acc k. induction fuel as [|fuel IH]; intros z acc k Hk Hz; cbn [digits].
  { lia. }
  destruct (z / b =? 0) eqn:E; [rewrite zlen_cons; lia|].
  assert (0 ≤ z / b) by (apply Z.div_pos; lia).
  assert (z / b < b ^ (k - 1)).
  { apply Z.div_lt_upper_bound; [lia|]. rewrite <- Z.pow_succ_r by lia.
    replace (Z.succ (k - 1)) with k by lia. lia. }
  assert (1 ≤ k - 1).
  { destruct (decide (1 ≤ k - 1)); [done|]. assert (k = 1) as -> by lia.
    change (b ^ (1 - 1)) with 1 in *. lia. }
  etransitivity; [apply (IH _ _ (k - 1)); lia|]. rewrite zlen_cons. lia.
Qed.

Lemma nat_str_len b z k : 1 < b → 1 ≤ k → 0 ≤ z < b ^ k → zlen (nat_str b z) ≤ k.
Proof.
  intros. unfold nat_str. etransitivity; [by apply (digits_len _ _ _ _ k)|].
  change (zlen []) with 0. lia.
Qed.

Lemma zlen_repeat {A} n (x : A) : zlen (replicate n x) = Z.of_nat n.
Proof. unfold zlen. by rewrite length_replicate. Qed.

Lemma pad_left_len c w s : zlen (pad_left c w s) = Z.max w (zlen s).
Proof. unfold pad_left. rewrite zlen_app, zlen_repeat. pose proof (zlen_nonneg s). lia. Qed.
Lemma pad_right_len w s : zlen (pad_right w s) = Z.max w (zlen s).
Proof. unfold pad_right. rewrite zlen_app, zlen_repeat. pose proof (zlen_nonneg s). lia. Qed.

Lemma dec_str_len z : -18446744073709551616 < z < 18446744073709551616 → zlen (dec_str z) ≤ 21.
Proof.
  intros. unfold dec_str. case_match.
  - rewrite zlen_cons. pose proof (nat_str_len 10 (- z) 20). lia.
  - pose proof (nat_str_len 10 z 20). lia.
Qed.

Lemma hex_str_len w z k : 1 ≤ k → 0 ≤ z < 16 ^ k → zlen (hex_str w z) ≤ Z.max w k.
Proof. intros. unfold hex_str. rewrite pad_left_len. pose proof (nat_str_len 16 z k). lia. Qed.

Lemma round_half_even_bound n d B :
  0 ≤ n → 0 < d → n < B → 1 ≤ B → 0 ≤ round_half_even n d ≤ B.
Proof.
  intros. unfold round_half_even. pose proof (Z.div_pos n d).
  pose proof (Z.div_le_upper_bound n d n). assert (n ≤ d * n) by nia.
  repeat case_match; lia.
Qed.

(** The decimals behind the point. *)
Lemma fix_put_len k v :
  0 ≤ k ≤ 4 → 0 ≤ v ≤ 10 ^ (309 + k) - 1 →
  zlen (nat_str 10 (v / 10 ^ k) ++
    (if k =? 0 then [] else 46 :: pad_left 48 k (nat_str 10 (v mod 10 ^ k)))) ≤ 314.
Proof.
  intros Hk Hv. rewrite zlen_app.
  assert (0 < 10 ^ k) by (apply Z.pow_pos_nonneg; lia).
  assert (0 ≤ v / 10 ^ k < 10 ^ 309).
  { split; [apply Z.div_pos; lia|]. apply Z.div_lt_upper_bound; [lia|].
    rewrite <- Z.pow_add_r by lia. replace (k + 309) with (309 + k) by lia. lia. }
  pose proof (nat_str_len 10 (v / 10 ^ k) 309).
  destruct (k =? 0) eqn:E; [change (zlen []) with 0; lia|].
  rewrite zlen_cons, pad_left_len. pose proof (Z.mod_pos_bound v (10 ^ k)).
  pose proof (nat_str_len 10 (v mod 10 ^ k) k). lia.
Qed.

(** ["%.kf"] of a binary64 number, for the precisions the hub uses. *)
Lemma fix_str_len k x : 0 ≤ k ≤ 4 → d_ok x → zlen (fix_str k x) ≤ 315.
Proof.
  intros Hk Hx. unfold fix_str.
  assert (∀ (s : bool) (t : list Z), zlen t ≤ 314 → zlen (if s then 45 :: t else t) ≤ 315) as Hneg.
  { intros [] t ?; rewrite ?zlen_cons; lia. }
  assert (0 < 10 ^ k) by (apply Z.pow_pos_nonneg; lia).
  assert (1 ≤ 10 ^ (309 + k)) by (apply Z.lt_pred_le, Z.pow_pos_nonneg; lia).
  destruct x as [s|s| |s m e]; [..|]; try apply Hneg; try done.
  - apply fix_put_len; [done|]. lia.
  - destruct Hx as [Hm He]. apply fix_put_len; [done|].
    assert (10 ^ (309 + k) = 10 ^ 309 * 10 ^ k) as Hp by (rewrite Z.pow_add_r; lia).
    destruct (0 <=? e) eqn:Hs.
    + assert (2 ^ e ≤ 2 ^ 971) by (apply Z.pow_le_mono_r; lia).
      assert (0 < 2 ^ e) by (apply Z.pow_pos_nonneg; lia).
      assert (2 ^ 53 * 2 ^ 971 < 10 ^ 309) as Hbig by (vm_compute; reflexivity).
      set (A := 2 ^ e) in *. set (B := 2 ^ 971) in *. set (C := 10 ^ 309) in *.
      set (D := 10 ^ k) in *. set (F := 2 ^ 53) in *.
      assert (Z.pos m * A ≤ F * B) by nia. rewrite Hp.
      assert (Z.pos m * A * D ≤ (C - 1) * D) by (apply Z.mul_le_mono_nonneg_r; lia).
      split; [|lia]. apply Z.mul_nonneg_nonneg; [|lia]. apply Z.mul_nonneg_nonneg; lia.
    + assert (0 < 2 ^ (- e)) by (apply Z.pow_pos_nonneg; lia).
      pose proof (round_half_even_bound (Z.pos m * 10 ^ k) (2 ^ (- e)) (2 ^ 53 * 10 ^ k)).
      assert (2 ^ 53 < 10 ^ 309 - 1) as Hbig by (vm_compute; reflexivity).
      set (C := 10 ^ 309) in *. set (D := 10 ^ k) in *. set (F := 2 ^ 53) in *.
      assert (Z.pos m * D < F * D) by (apply Z.mul_lt_mono_pos_r; lia).
      assert (F * D ≤ (C - 1) * D) by (apply Z.mul_le_mono_nonneg_r; lia).
      rewrite Hp. split; [lia|]. nia.
Qed.
