(* ===== verification/NumText.v ===== *)
(** * Numbers as text

    A number printed with [%.kf] and read with [%lf] comes back rounded to [k]
    decimals, and exactly if it has no more of them. *)

From Stdlib Require Import ZArith Lia Floats.SpecFloat String.
From stdpp Require Import base list numbers option.
From S2P Require Import Prelude Text TextInv.

(** ** Decimal digits *)

Abbreviation all_digits := (Forall (λ c, is_digit c = true)).

Lemma dec_value_snoc a c : dec_value (a ++ [c]) = dec_value a * 10 + (c - 48).
Proof. unfold dec_value. by rewrite foldl_app. Qed.
Lemma dec_value_app a b : dec_value (a ++ b) = dec_value a * 10 ^ zlen b + dec_value b.
Proof.
  induction b as [|c b IH] using rev_ind; [rewrite app_nil_r; change (10 ^ zlen []) with 1; cbn; lia|].
  rewrite app_assoc, !dec_value_snoc, IH, zlen_app. change (zlen [c]) with 1.
  rewrite Z.pow_add_r by (apply zlen_nonneg || lia). lia.
Qed.

(** [digits] puts the digits of [z] in front of [acc]. *)
Lemma digits_spec fuel z acc :
  0 ≤ z < 10 ^ Z.of_nat (S fuel) →
  ∃ ds, digits 10 (S fuel) z acc = ds ++ acc ∧ all_digits ds ∧ ds ≠ [] ∧ dec_value ds = z.
Proof.
  revert z acc. induction fuel as [|fuel IH]; intros z acc Hz.
  all: assert (digit (z mod 10) = 48 + z mod 10 ∧ is_digit (48 + z mod 10) = true) as [Ed Hd]
    by (unfold digit, is_digit; pose proof (Z.mod_pos_bound z 10); rewrite if_true by lia; split; [done|lia]).
  all: pose proof (Z.div_mod z 10) as Hdm; cbn [digits]; rewrite Ed.
  - change (10 ^ Z.of_nat 1) with 10 in Hz. rewrite Z.div_small, Z.mod_small by lia. cbn [Z.eqb].
    exists [48 + z]. rewrite Z.mod_small in Hd by lia. split_and!; [done|by forall_cons|done|].
    unfold dec_value. cbn. lia.
  - destruct (z / 10 =? 0) eqn:E.
    { exists [48 + z mod 10]. split_and!; [done|by forall_cons|done|]. unfold dec_value. cbn. lia. }
    destruct (IH (z / 10) ((48 + z mod 10) :: acc)) as (ds & Hds & Hall & Hne & Hv).
    { rewrite (Nat2Z.inj_succ (S fuel)), Z.pow_succ_r in Hz by lia.
      split; [apply Z.div_pos; lia|apply Z.div_lt_upper_bound; lia]. }
    exists (ds ++ [48 + z mod 10]). rewrite <- app_assoc. split_and!; [done| |by destruct ds|].
    + apply Forall_app_2; [done|by forall_cons].
    + rewrite dec_value_app, Hv. change (10 ^ zlen [_]) with 10. unfold dec_value. cbn [foldl]. lia.
Qed.

Lemma nat_str_spec z :
  0 ≤ z → all_digits (nat_str 10 z) ∧ nat_str 10 z ≠ [] ∧ dec_value (nat_str 10 z) = z.
Proof.
  intros Hz. pose proof (Z.log2_nonneg z) as Hl. unfold nat_str.
  rewrite Z2Nat.inj_add by lia. change (Z.to_nat 1) with 1%nat. rewrite Nat.add_1_r.
  destruct (digits_spec (Z.to_nat (Z.log2 z)) z []) as (ds & -> & H); [|by rewrite app_nil_r].
  rewrite Nat2Z.inj_succ, Z2Nat.id by done. split; [done|].
  destruct (Z.eq_dec z 0) as [->|]; [done|].
  apply Z.lt_le_trans with (2 ^ Z.succ (Z.log2 z)); [apply Z.log2_spec; lia|apply Z.pow_le_mono_l; lia].
Qed.

(** The [k] decimals behind the point. *)
Lemma decimals_spec k v :
  0 < k → 0 ≤ v < 10 ^ k →
  let ds := pad_left 48 k (nat_str 10 v) in all_digits ds ∧ zlen ds = k ∧ dec_value ds = v.
Proof.
  intros Hk Hv ds. destruct (nat_str_spec v) as (Hd & _ & Hval); [lia|]. split_and!.
  - apply Forall_app_2; [by apply Forall_replicate|done].
  - unfold ds. rewrite pad_left_len. pose proof (nat_str_len 10 v k). lia.
  - unfold ds, pad_left. rewrite dec_value_app, Hval.
    assert (dec_value (replicate (Z.to_nat (k - zlen (nat_str 10 v))) 48) = 0) as ->; [|lia].
    induction (Z.to_nat _) as [|n IH]; [done|]. unfold dec_value in *. cbn [replicate foldl].
    by change (0 * 10 + (48 - 48)) with 0.
Qed.

(** ** Reading a number back *)

(** What follows a number in a command: nothing, or another argument. *)
Definition ends_number (l : list Z) : Prop := match l with [] => True | c :: _ => c = 32 end.

Lemma take_while_all f n (a r : list Z) :
  (length a ≤ n)%nat → Forall (λ c, f c = true) a → match r with [] => True | c :: _ => f c = false end →
  take_while f n (a ++ r) = (a, r).
Proof.
  revert n. induction a as [|c a IH]; intros n Hn Ha Hr.
  - destruct n, r as [|d r]; try done. cbn. by rewrite Hr.
  - apply Forall_cons_1 in Ha as [Hc Ha]. cbn in Hn. destruct n as [|n]; [lia|]. cbn [app take_while].
    by rewrite Hc, IH by (done || lia).
Qed.

Lemma keyword_head kw c l :
  match str kw with d :: _ => tolower c ≠ tolower d | [] => False end → keyword kw (c :: l) = false.
Proof.
  intros Hc. unfold keyword. apply bool_decide_eq_false_2. destruct (str kw) as [|d w]; [done|].
  cbn. by intros [= ?].
Qed.

Lemma digit_cases c : is_digit c = true → 48 ≤ c ≤ 57.
Proof. unfold is_digit. lia. Qed.
Lemma digit_lower c : is_digit c = true → tolower c = c.
Proof. intros ?%digit_cases. unfold tolower. by rewrite if_false by lia. Qed.

(** Digits, a point and [k] more digits, without sign. *)
Lemma scan_lf_digits (neg : bool) a b rest :
  all_digits a → a ≠ [] → all_digits b → ends_number rest →
  scan_lf ((if neg then [45] else []) ++ a ++ 46 :: b ++ rest) =
    Some (d_scaled neg (dec_value (a ++ b)) 10 (- zlen b), rest).
Proof.
  intros Ha Hne Hb Hr. destruct a as [|c a]; [done|]. apply Forall_cons_1 in Ha as [Hc Ha].
  pose proof (digit_cases _ Hc) as Hcr. set (l := (c :: a) ++ 46 :: b ++ rest).
  assert (scan_sign (skip_ws ((if neg then [45] else []) ++ l)) = (neg, l)) as Hs.
  { subst l. destruct neg; [done|]. cbn [app skip_ws]. unfold is_space. rewrite if_false by lia.
    cbn [scan_sign]. rewrite (if_false _ _ (c =? 45)) by lia. by rewrite if_false by lia. }
  unfold scan_lf. rewrite Hs.
  assert (∀ kw, match str kw with d :: _ => c ≠ tolower d | [] => False end → keyword kw l = false) as Hk.
  { intros kw Hkw. apply keyword_head. destruct (str kw); [done|]. by rewrite digit_lower. }
  rewrite (Hk "infinity"%string), (Hk "inf"%string), (Hk "nan"%string) by (vm_compute; lia).
  assert (skip_0x l = l) as ->.
  { subst l. destruct a as [|d a]; cbn [app skip_0x].
    - by rewrite andb_false_r.
    - apply Forall_cons_1 in Ha as [Hd _]. pose proof (digit_cases _ Hd).
      rewrite (digit_lower _ Hd). by rewrite (if_false _ _ (_ && (d =? 120) && _)) by lia. }
  rewrite bool_decide_eq_false_2 by auto.
  assert (scan_mantissa is_digit l = ((c :: a) ++ b, zlen b, rest)) as ->.
  { unfold scan_mantissa. subst l. rewrite take_while_all by (rewrite ?length_app; (done || by forall_cons || (cbn; lia))).
    cbn [Z.eqb]. rewrite take_while_all; [done|rewrite length_app; lia|done|].
    destruct rest as [|d rest]; [done|]. cbn in Hr. by subst d. }
  cbn [app]. assert (scan_exp 101 rest = Some (0, rest)) as ->; [|done].
  destruct rest as [|d rest]; [done|]. cbn in Hr. by subst d.
Qed.

(** A number rounded to [k] decimals. *)
Definition fix_value (k : Z) (m : positive) (e : Z) : Z :=
  if 0 <=? e then Z.pos m * 2 ^ e * 10 ^ k else round_half_even (Z.pos m * 10 ^ k) (2 ^ (- e)).
Definition to_decimals (k : Z) (x : spec_float) : spec_float :=
  match x with S754_finite s m e => d_scaled s (fix_value k m e) 10 (- k) | _ => x end.

Lemma fix_value_nonneg k m e : 0 ≤ k → 0 ≤ fix_value k m e.
Proof.
  intros Hk. unfold fix_value. assert (0 < 10 ^ k) by (apply Z.pow_pos_nonneg; lia).
  destruct (Z.leb_spec 0 e) as [He|He]; [|apply (round_half_even_bound _ _ (Z.pos m * 10 ^ k + 1)); nia || (apply Z.pow_pos_nonneg; lia)].
  assert (0 < 2 ^ e) by (apply Z.pow_pos_nonneg; lia). nia.
Qed.

Lemma scan_lf_fixed k neg v rest :
  0 < k → 0 ≤ v → ends_number rest →
  scan_lf ((if neg : bool then [45] else []) ++ nat_str 10 (v / 10 ^ k) ++
    46 :: pad_left 48 k (nat_str 10 (v mod 10 ^ k)) ++ rest) = Some (d_scaled neg v 10 (- k), rest).
Proof.
  intros Hk Hv Hr. assert (0 < 10 ^ k) as Hp by (apply Z.pow_pos_nonneg; lia).
  destruct (nat_str_spec (v / 10 ^ k)) as (Ha & Hne & Ea); [by apply Z.div_pos|].
  destruct (decimals_spec k (v mod 10 ^ k) Hk) as (Hb & Hl & Eb); [by apply Z.mod_pos_bound|].
  rewrite scan_lf_digits by done. rewrite dec_value_app, Hl, Ea, Eb. do 3 f_equal.
  pose proof (Z.div_mod v (10 ^ k)). lia.
Qed.

(** The round trip. *)
Lemma scan_lf_fix k x rest :
  0 < k → ends_number rest → scan_lf (fix_str k x ++ rest) = Some (to_decimals k x, rest).
Proof.
  intros Hk Hr. assert (∀ (s : bool) (a b : list Z), (if s then 45 :: a ++ b else a ++ b) ++ rest =
    (if s then [45] else []) ++ a ++ b ++ rest) as Happ by (intros [] a b; cbn; by rewrite <- app_assoc).
  assert ((k =? 0) = false) as Ek by lia.
  destruct x as [s|s| |s m e]; unfold fix_str; rewrite ?Ek.
  - rewrite Happ. cbn [app]. by rewrite (scan_lf_fixed k s 0).
  - by destruct s, rest as [|c [|? [|? [|? [|? ?]]]]]; cbn in Hr; subst.
  - by destruct rest as [|c rest]; cbn in Hr; subst.
  - rewrite Happ. cbn [app]. by apply scan_lf_fixed; [|apply fix_value_nonneg; lia|].
Qed.

(** ** Numbers with no more than [k] decimals *)

Lemma digits2_pos_lower p : 2 ^ (Z.pos (digits2_pos p) - 1) ≤ Z.pos p.
Proof.
  induction p as [p IH|p IH|]; cbn [digits2_pos]; [..|done];
    rewrite Pos2Z.inj_succ; replace (Z.succ (Z.pos (digits2_pos p)) - 1) with (Z.succ (Z.pos (digits2_pos p) - 1)) by lia;
    rewrite Z.pow_succ_r by lia; lia.
Qed.

Lemma Zdigits2_shift m n : 0 ≤ n → Zdigits2 (Z.pos m * 2 ^ n) = Z.pos (digits2_pos m) + n.
Proof.
  intros Hn. revert n Hn. apply natlike_ind; [by rewrite Z.mul_1_r, Z.add_0_r|]. intros n Hn IH.
  rewrite Z.pow_succ_r by done. replace (Z.pos m * (2 * 2 ^ n)) with (2 * (Z.pos m * 2 ^ n)) by lia.
  assert (0 < Z.pos m * 2 ^ n) by (assert (0 < 2 ^ n) by (apply Z.pow_pos_nonneg; lia); nia).
  revert IH. destruct (Z.pos m * 2 ^ n) as [|q|q]; [lia| |lia]. change (2 * Z.pos q) with (Z.pos q~0).
  cbn [Zdigits2 digits2_pos]. lia.
Qed.

Lemma pow2_xO p : 2 ^ Z.pos p~0 = 2 ^ Z.pos p * 2 ^ Z.pos p.
Proof. rewrite <- Z.pow_add_r by lia. f_equal. lia. Qed.
Lemma pow2_xI p : 2 ^ Z.pos p~1 = 2 * (2 ^ Z.pos p * 2 ^ Z.pos p).
Proof. rewrite <- pow2_xO, <- Z.pow_succ_r by lia. f_equal. Qed.

Lemma shr_exact p z :
  0 < z →
  SpecFloat.iter_pos shr_1 p (Build_shr_record (z * 2 ^ Z.pos p) false false) = Build_shr_record z false false.
Proof.
  assert (∀ y, 0 < y → shr_1 (Build_shr_record (2 * y) false false) = Build_shr_record y false false) as H1.
  { intros [|q|q]; [lia|done|lia]. }
  revert z. induction p as [p IH|p IH|]; intros z Hz; cbn [SpecFloat.iter_pos].
  - assert (0 < 2 ^ Z.pos p) by (apply Z.pow_pos_nonneg; lia). rewrite pow2_xI.
    replace (z * _) with (2 * (z * 2 ^ Z.pos p * 2 ^ Z.pos p)) by lia. rewrite H1 by nia.
    rewrite IH by nia. by apply IH.
  - assert (0 < 2 ^ Z.pos p) by (apply Z.pow_pos_nonneg; lia). rewrite pow2_xO, Z.mul_assoc.
    rewrite IH by nia. by apply IH.
  - rewrite Z.mul_comm. by apply H1.
Qed.

(** The quotient [v / D] is the number [m * 2 ^ e]. *)
Definition ratio_is (m : positive) (e : Z) (v D : positive) : Prop :=
  Z.pos v * 2 ^ Z.max 0 (- e) = Z.pos m * 2 ^ Z.max 0 e * Z.pos D.

Lemma ratio_is_shift m e v D e' :
  ratio_is m e v D → e' ≤ 0 → e' ≤ e → Z.pos v * 2 ^ (- e') = Z.pos m * 2 ^ (e - e') * Z.pos D.
Proof.
  unfold ratio_is. intros Hr H0 He. set (j := Z.max 0 (- e)) in *.
  replace (Z.max 0 e) with (e + j) in Hr by (subst j; lia).
  replace (- e') with (j + (- e' - j)) by lia. replace (e - e') with (e + j + (- e' - j)) by lia.
  rewrite !Z.pow_add_r by (subst j; lia). nia.
Qed.

Lemma ratio_digits m e v D :
  ratio_is m e v D → Z.pos (digits2_pos v) - Z.pos (digits2_pos D) ≤ Z.pos (digits2_pos m) + e.
Proof.
  intros Hr. set (e' := Z.min e 0). pose proof (ratio_is_shift _ _ _ _ e' Hr ltac:(lia) ltac:(lia)) as E.
  pose proof (digits2_pos_lower v) as Hv. pose proof (digits2_pos_bound m) as Hm. pose proof (digits2_pos_bound D) as HD.
  apply Z.lt_succ_r, Z.nle_gt. intros Hle.
  assert (Z.pos m * 2 ^ (e - e') * Z.pos D < 2 ^ Z.pos (digits2_pos m) * 2 ^ (e - e') * 2 ^ Z.pos (digits2_pos D)) as Hlt.
  { assert (0 < 2 ^ (e - e')) by (apply Z.pow_pos_nonneg; lia). apply Z.mul_lt_mono_nonneg; nia. }
  rewrite <- E, <- !Z.pow_add_r in Hlt by lia.
  assert (2 ^ (Z.pos (digits2_pos v) - 1) * 2 ^ (- e') ≤ Z.pos v * 2 ^ (- e')) as Hge.
  { apply Z.mul_le_mono_nonneg_r; [apply Z.pow_nonneg; lia|done]. }
  rewrite <- Z.pow_add_r in Hge by lia.
  assert (2 ^ (Z.pos (digits2_pos m) + (e - e') + Z.pos (digits2_pos D)) ≤
    2 ^ (Z.pos (digits2_pos v) - 1 + - e')) by (apply Z.pow_le_mono_r; lia). lia.
Qed.

Lemma fexp_mono a b : a ≤ b → fexp 53 1024 a ≤ fexp 53 1024 b.
Proof. unfold fexp. lia. Qed.

(** Rounding a canonical number changes nothing. *)
Lemma round_exact s m e n :
  bounded 53 1024 m e = true → 0 ≤ n →
  binary_round_aux 53 1024 s (Z.pos m * 2 ^ n) (e - n) loc_Exact = S754_finite s m e.
Proof.
  intros [Hc He]%andb_true_iff Hn. unfold canonical_mantissa in Hc. apply Z.eqb_eq in Hc.
  unfold binary_round_aux, shr_fexp at 1. rewrite Zdigits2_shift by done.
  replace (Z.pos (digits2_pos m) + n + (e - n)) with (Z.pos (digits2_pos m) + e) by lia.
  rewrite Hc. replace (e - (e - n)) with n by lia. cbn [shr_record_of_loc].
  assert (shr (Build_shr_record (Z.pos m * 2 ^ n) false false) (e - n) n =
    (Build_shr_record (Z.pos m) false false, e)) as ->.
  { destruct n as [|p|p]; [by rewrite Z.mul_1_r, Z.sub_0_r| |lia]. cbn [shr]. rewrite shr_exact by done. f_equal. lia. }
  cbn [loc_of_shr_record round_nearest_even shr_m]. unfold shr_fexp. cbn [Zdigits2]. rewrite Hc, Z.sub_diag.
  cbn [shr shr_record_of_loc shr_m]. by rewrite He.
Qed.

Lemma d_of_ratio_exact s m e v D :
  bounded 53 1024 m e = true → ratio_is m e v D → d_of_ratio s v D = S754_finite s m e.
Proof.
  intros Hb Hr. unfold d_of_ratio, SFdiv_core_binary. cbn [Zdigits2]. rewrite !Z.add_0_r, Z.sub_0_r.
  set (e' := Z.min _ 0). assert (e' ≤ e) as He.
  { apply andb_true_iff in Hb as [Hc _]. apply Z.eqb_eq in Hc.
    pose proof (fexp_mono _ _ (ratio_digits _ _ _ _ Hr)). lia. }
  assert (match 0 - e' with Z.pos _ => Z.shiftl (Z.pos v) (0 - e') | Z0 => Z.pos v | Z.neg _ => 0 end =
    Z.pos m * 2 ^ (e - e') * Z.pos D) as ->.
  { rewrite <- (ratio_is_shift _ _ _ _ _ Hr) by lia. rewrite <- (Z.sub_0_l e').
    destruct (0 - e') as [|p|p] eqn:E; [by rewrite Z.mul_1_r|by rewrite Z.shiftl_mul_pow2|lia]. }
  destruct (Z.div_eucl _ _) as [q r] eqn:Eq. pose proof (f_equal fst Eq) as E1. pose proof (f_equal snd Eq) as E2.
  change (fst (Z.div_eucl ?a ?b)) with (a / b) in E1. change (snd (Z.div_eucl ?a ?b)) with (a mod b) in E2.
  cbn [fst snd] in E1, E2. rewrite Z.div_mul in E1 by done. rewrite Z.mod_mul in E2 by done. subst q r.
  assert (new_location (Z.pos D) 0 = loc_Exact) as -> by (unfold new_location; by destruct (Z.even _)).
  replace e' with (e - (e - e')) at 2 by lia. apply round_exact; [done|lia].
Qed.

(** A binary64 number whose value has at most [k] decimals. *)
Definition has_decimals (k : Z) (x : spec_float) : bool :=
  match x with
  | S754_finite _ m e => bounded 53 1024 m e && (Z.pos m * 10 ^ k mod 2 ^ Z.max 0 (- e) =? 0)
  | _ => true
  end.

Lemma to_decimals_exact k x : 0 < k → has_decimals k x = true → to_decimals k x = x.
Proof.
  intros Hk. destruct x as [s|s| |s m e]; [done..|]. intros [Hb Hd%Z.eqb_eq]%andb_true_iff. cbn [to_decimals].
  assert (0 < 10 ^ k) as Hp by (apply Z.pow_pos_nonneg; lia).
  assert (fix_value k m e * 2 ^ Z.max 0 (- e) = Z.pos m * 2 ^ Z.max 0 e * 10 ^ k) as Hv.
  { unfold fix_value. destruct (Z.leb_spec 0 e) as [He|He].
    - rewrite (Z.max_l 0 (- e)), (Z.max_r 0 e) by lia. lia.
    - rewrite (Z.max_r 0 (- e)), (Z.max_l 0 e) in * by lia. unfold round_half_even.
      assert (0 < 2 ^ (- e)) by (apply Z.pow_pos_nonneg; lia). rewrite Hd, if_true by lia.
      apply Z.div_exact in Hd; lia. }
  assert (0 < 2 ^ Z.max 0 (- e)) by (apply Z.pow_pos_nonneg; lia).
  assert (0 < 2 ^ Z.max 0 e) by (apply Z.pow_pos_nonneg; lia).
  destruct (fix_value k m e) as [|v|v]; [nia| |nia]. unfold d_scaled. rewrite if_false by lia. rewrite Z.opp_involutive.
  apply d_of_ratio_exact; [done|]. unfold ratio_is. by rewrite Z2Pos.id.
Qed.

Example three_and_a_half : has_decimals 4 (d_of_ratio true 7 2) = true.
Proof. reflexivity. Qed.
Example one_third : fix_str 4 (to_decimals 4 (d_of_ratio false 1 3)) = str "0.3333".
Proof. vm_compute. reflexivity. Qed.
