(* ===== verification/Startup.v ===== *)
(** * Start-up and exit of the programs

    What the [main] functions of src/vbt_medium.c, src/vbt_controller.c and
    src/vbt_vhost_user.c share before their main loops: the loop over the
    options, the exit status, the listening sockets.  What [getopt] returns
    (one option letter and argument after the other, then the first operand)
    and the results of the socket calls are arguments; the calls on files and
    listening sockets are events of their own. *)

From Stdlib Require Import String ZArith Lia.
From stdpp Require Import base list numbers option.
From S2P Require Import Prelude Text.

(** ** Options *)

(** An option as [getopt] returns it: its letter (63, a question mark, for one
    it does not know) and [optarg]. *)
Definition opt : Type := Z * list Z.

(** [main] goes on, or returns an exit status. *)
Inductive outcome (A : Type) : Type :=
  | Go (a : A)
  | Exit (status : Z).
Arguments Go {_} _.
Arguments Exit {_} _.

(** [while ((opt = getopt(...)) != -1) switch (opt) ...] *)
Fixpoint getopts {A} (step : A → opt → outcome A) (a : A) (l : list opt) : outcome A :=
  match l with
  | [] => Go a
  | o :: l => match step a o with Go a => getopts step a l | Exit s => Exit s end
  end.

(** [case 'h': default: usage(argv[0]); return opt == 'h' ? 0 : 2;] *)
Definition usage {A} (c : Z) : outcome A := Exit (if c =? 104 then 0 else 2).

(** [snprintf(buf, n, "%s", arg)] *)
Definition snprintf_arg (n : nat) (arg : list Z) : list Z := take (n - 1) (c_str arg).

(** [atoi]: 0 when there is no number. *)
Definition atoi (s : list Z) : Z := match scan_d (c_str s) with Some (v, _) => v | None => 0 end.

(** ** Files and listening sockets *)

Inductive sev : Type :=
  | SUnlink (path : list Z)
  | SBind (fd : Z) (sun_path : list Z)
  | SBindTcp (fd port : Z)
  | SListen (fd : Z)
  | SChmod (path : list Z) (mode : Z)
  | SClose (fd : Z).
Abbreviation START := (cmd unit sev).

(** What the socket calls return. *)
Inductive listen_try : Type :=
  | NoListenSocket
  | BindFails (fd : Z)
  | ListenFails (fd : Z)
  | Listens (fd : Z).

(** [sun.sun_path] after [strncpy] or [snprintf]. *)
Definition sun_path (path : list Z) : list Z := take 107 (c_str path).

(** ** What the options come to *)

Section Getopts.
Context {A : Type} (step : A → opt → outcome A).
Implicit Types (l : list opt).

(** The options up to the first that ends the program. *)
Lemma getopts_app a l k :
  getopts step a (l ++ k) = match getopts step a l with Go a => getopts step a k | Exit s => Exit s end.
Proof using. revert a. induction l as [|p l IH]; intros a; [done|]. cbn. by destruct (step a p). Qed.

Lemma getopts_inv (P : A → Prop) a l a' :
  P a → (∀ b p b', p ∈ l → P b → step b p = Go b' → P b') → getopts step a l = Go a' → P a'.
Proof using.
  revert a. induction l as [|p l IH]; intros a Ha Hs E; [by injection E as <-|].
  cbn in E. destruct (step a p) as [b|] eqn:Eb; [|done]. apply (IH b); [| |done].
  2: { intros b1 q b2 Hq. apply Hs. by apply list_elem_of_further. }
  by apply (Hs a p); [apply list_elem_of_here| |].
Qed.

(** Options that end the program: the first of them decides. *)
Context (ends : opt → option Z).
Context (Hends : ∀ a p, match ends p with Some s => step a p = Exit s | None => ∃ a', step a p = Go a' end).

Definition first_end l : option Z := head (omap ends l).
Definition settle (a : A) (p : opt) : A := match step a p with Go a' => a' | Exit _ => a end.

Lemma getopts_settle a l :
  getopts step a l = match first_end l with Some s => Exit s | None => Go (foldl settle a l) end.
Proof using Hends.
  revert a. induction l as [|p l IH]; intros a; [done|]. unfold first_end. cbn. specialize (Hends a p).
  destruct (ends p) as [s|]; [by rewrite Hends|]. destruct Hends as [a' E]. unfold settle at 2. rewrite E. apply IH.
Qed.
End Getopts.

(** The arguments of the options [c], and that of the last. *)
Definition args (c : Z) (l : list opt) : list (list Z) :=
  omap (λ p, if p.1 =? c then Some p.2 else None) l.
Definition last_arg (c : Z) (l : list opt) : option (list Z) := list.last (args c l).

Lemma args_snoc c l p : args c (l ++ [p]) = args c l ++ (if p.1 =? c then [p.2] else []).
Proof. unfold args. rewrite omap_app. cbn. by destruct (p.1 =? c). Qed.
Lemma last_arg_snoc c l p : last_arg c (l ++ [p]) = if p.1 =? c then Some p.2 else last_arg c l.
Proof.
  unfold last_arg. rewrite args_snoc. destruct (p.1 =? c); [by rewrite last_snoc|by rewrite app_nil_r].
Qed.

Lemma last_arg_elem c l s : last_arg c l = Some s → (c, s) ∈ l.
Proof.
  unfold last_arg. intros (pre & E)%last_Some.
  assert (s ∈ args c l) as ([c' s'] & Hin & Ep)%list_elem_of_omap.
  { rewrite E. apply elem_of_app. right. apply list_elem_of_here. }
  cbn in Ep. destruct (Z.eqb_spec c' c) as [->|]; [|done]. by injection Ep as ->.
Qed.

(** An option that ends the program is found. *)
Lemma first_end_None ends (l : list opt) p : first_end ends l = None → p ∈ l → ends p = None.
Proof.
  unfold first_end. intros Hl Hp. destruct (ends p) as [s|] eqn:E; [|done].
  assert (s ∈ omap ends l) as Hin by (apply list_elem_of_omap; eauto).
  by destruct (omap ends l); [apply elem_of_nil in Hin|].
Qed.
