(* ===== verification/LLState.v ===== *)
(** * The controller core: state and small helpers (src/vbt_ll.c, part 1)

    The HCI/LL constants, [struct ll_conn], [struct vbt_ll], the address and
    connection-table helpers and the pseudo-random generator.  A
    [struct ll_conn *] is an index into [conns].  The two callbacks of
    [struct vbt_ll_ops] are the output actions [ToHost] and [ToMedium] of the
    monad [LL]; a NULL callback is [false] in [ops]. *)

From stdpp Require Import base list numbers option.
From Stdlib Require Import ZArith Lia.
From S2P Require Import Prelude Wire.

Definition HCI_CMD_PKT : Z := 0x01.
Definition HCI_ACL_PKT : Z := 0x02.
Definition HCI_EVT_PKT : Z := 0x04.


Definition OP_DISCONNECT : Z := 0x0406.
Definition OP_READ_REMOTE_VERSION : Z := 0x041D.
Definition OP_SET_EVENT_MASK : Z := 0x0C01.
Definition OP_RESET : Z := 0x0C03.
Definition OP_SET_EVENT_MASK_PAGE2 : Z := 0x0C63.
Definition OP_READ_LOCAL_VERSION : Z := 0x1001.
Definition OP_READ_LOCAL_COMMANDS : Z := 0x1002.
Definition OP_READ_LOCAL_FEATURES : Z := 0x1003.
Definition OP_READ_BUFFER_SIZE : Z := 0x1005.
Definition OP_READ_BD_ADDR : Z := 0x1009.
Definition OP_LE_SET_EVENT_MASK : Z := 0x2001.
Definition OP_LE_READ_BUFFER_SIZE : Z := 0x2002.
Definition OP_LE_READ_LOCAL_FEATURES : Z := 0x2003.
Definition OP_LE_SET_RANDOM_ADDRESS : Z := 0x2005.
Definition OP_LE_SET_ADV_PARAMETERS : Z := 0x2006.
Definition OP_LE_READ_ADV_TX_POWER : Z := 0x2007.
Definition OP_LE_SET_ADV_DATA : Z := 0x2008.
Definition OP_LE_SET_SCAN_RSP_DATA : Z := 0x2009.
Definition OP_LE_SET_ADV_ENABLE : Z := 0x200A.
Definition OP_LE_SET_SCAN_PARAMETERS : Z := 0x200B.
Definition OP_LE_SET_SCAN_ENABLE : Z := 0x200C.
Definition OP_LE_CREATE_CONN : Z := 0x200D.
Definition OP_LE_CREATE_CONN_CANCEL : Z := 0x200E.
Definition OP_LE_READ_WHITE_LIST_SIZE : Z := 0x200F.
Definition OP_LE_CLEAR_WHITE_LIST : Z := 0x2010.
Definition OP_LE_ADD_WHITE_LIST : Z := 0x2011.
Definition OP_LE_REMOVE_WHITE_LIST : Z := 0x2012.
Definition OP_LE_CONN_UPDATE : Z := 0x2013.
Definition OP_LE_SET_HOST_CHAN_CLASS : Z := 0x2014.
Definition OP_LE_READ_REMOTE_FEATURES : Z := 0x2016.
Definition OP_LE_ENCRYPT : Z := 0x2017.
Definition OP_LE_RAND : Z := 0x2018.
Definition OP_LE_START_ENCRYPTION : Z := 0x2019.
Definition OP_LE_LTK_REQ_REPLY : Z := 0x201A.
Definition OP_LE_LTK_REQ_NEG_REPLY : Z := 0x201B.
Definition OP_LE_READ_SUPPORTED_STATES : Z := 0x201C.

Definition EVT_DISCONN_COMPLETE : Z := 0x05.
Definition EVT_ENCRYPT_CHANGE : Z := 0x08.
Definition EVT_READ_REMOTE_VERSION_CMPL : Z := 0x0C.
Definition EVT_CMD_COMPLETE : Z := 0x0E.
Definition EVT_CMD_STATUS : Z := 0x0F.
Definition EVT_NUM_COMPLETED_PACKETS : Z := 0x13.
Definition EVT_LE_META : Z := 0x3E.

Definition SUB_LE_CONN_COMPLETE : Z := 0x01.
Definition SUB_LE_ADV_REPORT : Z := 0x02.
Definition SUB_LE_CONN_UPDATE_COMPLETE : Z := 0x03.
Definition SUB_LE_READ_REMOTE_FEAT_CMPL : Z := 0x04.
Definition SUB_LE_LTK_REQUEST : Z := 0x05.

Definition HCI_SUCCESS : Z := 0x00.
Definition HCI_UNKNOWN_COMMAND : Z := 0x01.
Definition HCI_UNKNOWN_CONN_ID : Z := 0x02.
Definition HCI_CONN_TIMEOUT : Z := 0x08.
Definition HCI_REMOTE_USER_TERM : Z := 0x13.
Definition HCI_CONN_TERM_LOCAL_HOST : Z := 0x16.

Definition LL_CONNECTION_UPDATE_IND : Z := 0x00.
Definition LL_CHANNEL_MAP_IND : Z := 0x01.
Definition LL_TERMINATE_IND : Z := 0x02.
Definition LL_ENC_REQ : Z := 0x03.
Definition LL_ENC_RSP : Z := 0x04.
Definition LL_START_ENC_REQ : Z := 0x05.
Definition LL_START_ENC_RSP : Z := 0x06.
Definition LL_FEATURE_REQ : Z := 0x08.
Definition LL_FEATURE_RSP : Z := 0x09.
Definition LL_VERSION_IND : Z := 0x0C.
Definition LL_SLAVE_FEATURE_REQ : Z := 0x0E.

Definition LLID_CONT : Z := 0x01.
Definition LLID_START : Z := 0x02.
Definition LLID_CONTROL : Z := 0x03.

Definition VBT_LL_MAX_CONN : Z := 8.
Definition ADV_INTERVAL_MS_DEFAULT : Z := 100.
Definition BASE_CONN_HANDLE : Z := 0x0040.
Definition LE_ACL_MTU : Z := 251.
Definition LE_ACL_PKTS : Z := 8.

Inductive ll_state : Type := LL_IDLE | LL_ADVERTISING | LL_SCANNING | LL_INITIATING.
#[export] Instance ll_state_eq_dec : EqDecision ll_state.
Proof. solve_decision. Defined.

Record ll_conn : Type := LLConn {
  c_active : bool;
  c_handle : Z;
  c_access_addr : Z;
  c_role : Z;
  c_peer_addr : list Z;
  c_peer_addr_type : Z;
  c_encrypting : bool;
  c_encrypted : bool
}.

Record vbt_ll_ops : Type := Ops {
  hci_to_host : bool;
  pdu_to_medium : bool
}.

Record vbt_ll : Type := LLState {
  ops : vbt_ll_ops;
  public_addr : list Z;
  random_addr : list Z;
  random_addr_set : bool;
  state : ll_state;
  num_hci_cmd : Z;
  adv_enabled : bool;
  adv_type : Z;
  adv_own_addr_type : Z;
  adv_direct_addr_type : Z;
  adv_direct_addr : list Z;
  adv_interval_ms : Z;
  adv_data : list Z;
  adv_data_len : Z;
  scan_rsp_data : list Z;
  scan_rsp_data_len : Z;
  last_adv_ms : Z;
  scan_enabled : bool;
  scan_type : Z;
  scan_own_addr_type : Z;
  init_peer_addr : list Z;
  init_peer_addr_type : Z;
  init_own_addr_type : Z;
  init_interval : Z;
  conns : list ll_conn;
  next_aa : Z
}.

(** What the core hands to its transport. *)
Inductive out : Type :=
  | ToHost (pkt : list Z)
  | ToMedium (h : vbt_frame_hdr) (pdu : list Z).

Abbreviation LL := (cmd vbt_ll out).

(** Field updates [ll->f = v] and [c->f = v]. *)
Definition set_c_active (v : bool) (s : ll_conn) : ll_conn :=
  LLConn v (c_handle s) (c_access_addr s) (c_role s) (c_peer_addr s)
    (c_peer_addr_type s) (c_encrypting s) (c_encrypted s).
Definition set_c_handle (v : Z) (s : ll_conn) : ll_conn :=
  LLConn (c_active s) v (c_access_addr s) (c_role s) (c_peer_addr s)
    (c_peer_addr_type s) (c_encrypting s) (c_encrypted s).
Definition set_c_access_addr (v : Z) (s : ll_conn) : ll_conn :=
  LLConn (c_active s) (c_handle s) v (c_role s) (c_peer_addr s) (c_peer_addr_type s)
    (c_encrypting s) (c_encrypted s).
Definition set_c_role (v : Z) (s : ll_conn) : ll_conn :=
  LLConn (c_active s) (c_handle s) (c_access_addr s) v (c_peer_addr s)
    (c_peer_addr_type s) (c_encrypting s) (c_encrypted s).
Definition set_c_peer_addr (v : list Z) (s : ll_conn) : ll_conn :=
  LLConn (c_active s) (c_handle s) (c_access_addr s) (c_role s) v
    (c_peer_addr_type s) (c_encrypting s) (c_encrypted s).
Definition set_c_peer_addr_type (v : Z) (s : ll_conn) : ll_conn :=
  LLConn (c_active s) (c_handle s) (c_access_addr s) (c_role s) (c_peer_addr s) v
    (c_encrypting s) (c_encrypted s).
Definition set_c_encrypting (v : bool) (s : ll_conn) : ll_conn :=
  LLConn (c_active s) (c_handle s) (c_access_addr s) (c_role s) (c_peer_addr s)
    (c_peer_addr_type s) v (c_encrypted s).
Definition set_c_encrypted (v : bool) (s : ll_conn) : ll_conn :=
  LLConn (c_active s) (c_handle s) (c_access_addr s) (c_role s) (c_peer_addr s)
    (c_peer_addr_type s) (c_encrypting s) v.
Definition set_random_addr (v : list Z) (s : vbt_ll) : vbt_ll :=
  LLState (ops s) (public_addr s) v (random_addr_set s) (state s) (num_hci_cmd s)
    (adv_enabled s) (adv_type s) (adv_own_addr_type s)
    (adv_direct_addr_type s) (adv_direct_addr s) (adv_interval_ms s)
    (adv_data s) (adv_data_len s) (scan_rsp_data s) (scan_rsp_data_len s)
    (last_adv_ms s) (scan_enabled s) (scan_type s) (scan_own_addr_type s)
    (init_peer_addr s) (init_peer_addr_type s) (init_own_addr_type s)
    (init_interval s) (conns s) (next_aa s).
Definition set_random_addr_set (v : bool) (s : vbt_ll) : vbt_ll :=
  LLState (ops s) (public_addr s) (random_addr s) v (state s) (num_hci_cmd s)
    (adv_enabled s) (adv_type s) (adv_own_addr_type s)
    (adv_direct_addr_type s) (adv_direct_addr s) (adv_interval_ms s)
    (adv_data s) (adv_data_len s) (scan_rsp_data s) (scan_rsp_data_len s)
    (last_adv_ms s) (scan_enabled s) (scan_type s) (scan_own_addr_type s)
    (init_peer_addr s) (init_peer_addr_type s) (init_own_addr_type s)
    (init_interval s) (conns s) (next_aa s).
Definition set_state (v : ll_state) (s : vbt_ll) : vbt_ll :=
  LLState (ops s) (public_addr s) (random_addr s) (random_addr_set s) v
    (num_hci_cmd s) (adv_enabled s) (adv_type s) (adv_own_addr_type s)
    (adv_direct_addr_type s) (adv_direct_addr s) (adv_interval_ms s)
    (adv_data s) (adv_data_len s) (scan_rsp_data s) (scan_rsp_data_len s)
    (last_adv_ms s) (scan_enabled s) (scan_type s) (scan_own_addr_type s)
    (init_peer_addr s) (init_peer_addr_type s) (init_own_addr_type s)
    (init_interval s) (conns s) (next_aa s).
Definition set_adv_enabled (v : bool) (s : vbt_ll) : vbt_ll :=
  LLState (ops s) (public_addr s) (random_addr s) (random_addr_set s) (state s)
    (num_hci_cmd s) v (adv_type s) (adv_own_addr_type s)
    (adv_direct_addr_type s) (adv_direct_addr s) (adv_interval_ms s)
    (adv_data s) (adv_data_len s) (scan_rsp_data s) (scan_rsp_data_len s)
    (last_adv_ms s) (scan_enabled s) (scan_type s) (scan_own_addr_type s)
    (init_peer_addr s) (init_peer_addr_type s) (init_own_addr_type s)
    (init_interval s) (conns s) (next_aa s).
Definition set_adv_type (v : Z) (s : vbt_ll) : vbt_ll :=
  LLState (ops s) (public_addr s) (random_addr s) (random_addr_set s) (state s)
    (num_hci_cmd s) (adv_enabled s) v (adv_own_addr_type s)
    (adv_direct_addr_type s) (adv_direct_addr s) (adv_interval_ms s)
    (adv_data s) (adv_data_len s) (scan_rsp_data s) (scan_rsp_data_len s)
    (last_adv_ms s) (scan_enabled s) (scan_type s) (scan_own_addr_type s)
    (init_peer_addr s) (init_peer_addr_type s) (init_own_addr_type s)
    (init_interval s) (conns s) (next_aa s).
Definition set_adv_own_addr_type (v : Z) (s : vbt_ll) : vbt_ll :=
  LLState (ops s) (public_addr s) (random_addr s) (random_addr_set s) (state s)
    (num_hci_cmd s) (adv_enabled s) (adv_type s) v (adv_direct_addr_type s)
    (adv_direct_addr s) (adv_interval_ms s) (adv_data s) (adv_data_len s)
    (scan_rsp_data s) (scan_rsp_data_len s) (last_adv_ms s) (scan_enabled s)
    (scan_type s) (scan_own_addr_type s) (init_peer_addr s)
    (init_peer_addr_type s) (init_own_addr_type s) (init_interval s)
    (conns s) (next_aa s).
Definition set_adv_direct_addr_type (v : Z) (s : vbt_ll) : vbt_ll :=
  LLState (ops s) (public_addr s) (random_addr s) (random_addr_set s) (state s)
    (num_hci_cmd s) (adv_enabled s) (adv_type s) (adv_own_addr_type s) v
    (adv_direct_addr s) (adv_interval_ms s) (adv_data s) (adv_data_len s)
    (scan_rsp_data s) (scan_rsp_data_len s) (last_adv_ms s) (scan_enabled s)
    (scan_type s) (scan_own_addr_type s) (init_peer_addr s)
    (init_peer_addr_type s) (init_own_addr_type s) (init_interval s)
    (conns s) (next_aa s).
Definition set_adv_direct_addr (v : list Z) (s : vbt_ll) : vbt_ll :=
  LLState (ops s) (public_addr s) (random_addr s) (random_addr_set s) (state s)
    (num_hci_cmd s) (adv_enabled s) (adv_type s) (adv_own_addr_type s)
    (adv_direct_addr_type s) v (adv_interval_ms s) (adv_data s)
    (adv_data_len s) (scan_rsp_data s) (scan_rsp_data_len s) (last_adv_ms s)
    (scan_enabled s) (scan_type s) (scan_own_addr_type s) (init_peer_addr s)
    (init_peer_addr_type s) (init_own_addr_type s) (init_interval s)
    (conns s) (next_aa s).
Definition set_adv_interval_ms (v : Z) (s : vbt_ll) : vbt_ll :=
  LLState (ops s) (public_addr s) (random_addr s) (random_addr_set s) (state s)
    (num_hci_cmd s) (adv_enabled s) (adv_type s) (adv_own_addr_type s)
    (adv_direct_addr_type s) (adv_direct_addr s) v (adv_data s)
    (adv_data_len s) (scan_rsp_data s) (scan_rsp_data_len s) (last_adv_ms s)
    (scan_enabled s) (scan_type s) (scan_own_addr_type s) (init_peer_addr s)
    (init_peer_addr_type s) (init_own_addr_type s) (init_interval s)
    (conns s) (next_aa s).
Definition set_adv_data (v : list Z) (s : vbt_ll) : vbt_ll :=
  LLState (ops s) (public_addr s) (random_addr s) (random_addr_set s) (state s)
    (num_hci_cmd s) (adv_enabled s) (adv_type s) (adv_own_addr_type s)
    (adv_direct_addr_type s) (adv_direct_addr s) (adv_interval_ms s) v
    (adv_data_len s) (scan_rsp_data s) (scan_rsp_data_len s) (last_adv_ms s)
    (scan_enabled s) (scan_type s) (scan_own_addr_type s) (init_peer_addr s)
    (init_peer_addr_type s) (init_own_addr_type s) (init_interval s)
    (conns s) (next_aa s).
Definition set_adv_data_len (v : Z) (s : vbt_ll) : vbt_ll :=
  LLState (ops s) (public_addr s) (random_addr s) (random_addr_set s) (state s)
    (num_hci_cmd s) (adv_enabled s) (adv_type s) (adv_own_addr_type s)
    (adv_direct_addr_type s) (adv_direct_addr s) (adv_interval_ms s)
    (adv_data s) v (scan_rsp_data s) (scan_rsp_data_len s) (last_adv_ms s)
    (scan_enabled s) (scan_type s) (scan_own_addr_type s) (init_peer_addr s)
    (init_peer_addr_type s) (init_own_addr_type s) (init_interval s)
    (conns s) (next_aa s).
Definition set_scan_rsp_data (v : list Z) (s : vbt_ll) : vbt_ll :=
  LLState (ops s) (public_addr s) (random_addr s) (random_addr_set s) (state s)
    (num_hci_cmd s) (adv_enabled s) (adv_type s) (adv_own_addr_type s)
    (adv_direct_addr_type s) (adv_direct_addr s) (adv_interval_ms s)
    (adv_data s) (adv_data_len s) v (scan_rsp_data_len s) (last_adv_ms s)
    (scan_enabled s) (scan_type s) (scan_own_addr_type s) (init_peer_addr s)
    (init_peer_addr_type s) (init_own_addr_type s) (init_interval s)
    (conns s) (next_aa s).
Definition set_scan_rsp_data_len (v : Z) (s : vbt_ll) : vbt_ll :=
  LLState (ops s) (public_addr s) (random_addr s) (random_addr_set s) (state s)
    (num_hci_cmd s) (adv_enabled s) (adv_type s) (adv_own_addr_type s)
    (adv_direct_addr_type s) (adv_direct_addr s) (adv_interval_ms s)
    (adv_data s) (adv_data_len s) (scan_rsp_data s) v (last_adv_ms s)
    (scan_enabled s) (scan_type s) (scan_own_addr_type s) (init_peer_addr s)
    (init_peer_addr_type s) (init_own_addr_type s) (init_interval s)
    (conns s) (next_aa s).
Definition set_last_adv_ms (v : Z) (s : vbt_ll) : vbt_ll :=
  LLState (ops s) (public_addr s) (random_addr s) (random_addr_set s) (state s)
    (num_hci_cmd s) (adv_enabled s) (adv_type s) (adv_own_addr_type s)
    (adv_direct_addr_type s) (adv_direct_addr s) (adv_interval_ms s)
    (adv_data s) (adv_data_len s) (scan_rsp_data s) (scan_rsp_data_len s) v
    (scan_enabled s) (scan_type s) (scan_own_addr_type s) (init_peer_addr s)
    (init_peer_addr_type s) (init_own_addr_type s) (init_interval s)
    (conns s) (next_aa s).
Definition set_scan_enabled (v : bool) (s : vbt_ll) : vbt_ll :=
  LLState (ops s) (public_addr s) (random_addr s) (random_addr_set s) (state s)
    (num_hci_cmd s) (adv_enabled s) (adv_type s) (adv_own_addr_type s)
    (adv_direct_addr_type s) (adv_direct_addr s) (adv_interval_ms s)
    (adv_data s) (adv_data_len s) (scan_rsp_data s) (scan_rsp_data_len s)
    (last_adv_ms s) v (scan_type s) (scan_own_addr_type s)
    (init_peer_addr s) (init_peer_addr_type s) (init_own_addr_type s)
    (init_interval s) (conns s) (next_aa s).
Definition set_scan_type (v : Z) (s : vbt_ll) : vbt_ll :=
  LLState (ops s) (public_addr s) (random_addr s) (random_addr_set s) (state s)
    (num_hci_cmd s) (adv_enabled s) (adv_type s) (adv_own_addr_type s)
    (adv_direct_addr_type s) (adv_direct_addr s) (adv_interval_ms s)
    (adv_data s) (adv_data_len s) (scan_rsp_data s) (scan_rsp_data_len s)
    (last_adv_ms s) (scan_enabled s) v (scan_own_addr_type s)
    (init_peer_addr s) (init_peer_addr_type s) (init_own_addr_type s)
    (init_interval s) (conns s) (next_aa s).
Definition set_scan_own_addr_type (v : Z) (s : vbt_ll) : vbt_ll :=
  LLState (ops s) (public_addr s) (random_addr s) (random_addr_set s) (state s)
    (num_hci_cmd s) (adv_enabled s) (adv_type s) (adv_own_addr_type s)
    (adv_direct_addr_type s) (adv_direct_addr s) (adv_interval_ms s)
    (adv_data s) (adv_data_len s) (scan_rsp_data s) (scan_rsp_data_len s)
    (last_adv_ms s) (scan_enabled s) (scan_type s) v (init_peer_addr s)
    (init_peer_addr_type s) (init_own_addr_type s) (init_interval s)
    (conns s) (next_aa s).
Definition set_init_peer_addr (v : list Z) (s : vbt_ll) : vbt_ll :=
  LLState (ops s) (public_addr s) (random_addr s) (random_addr_set s) (state s)
    (num_hci_cmd s) (adv_enabled s) (adv_type s) (adv_own_addr_type s)
    (adv_direct_addr_type s) (adv_direct_addr s) (adv_interval_ms s)
    (adv_data s) (adv_data_len s) (scan_rsp_data s) (scan_rsp_data_len s)
    (last_adv_ms s) (scan_enabled s) (scan_type s) (scan_own_addr_type s) v
    (init_peer_addr_type s) (init_own_addr_type s) (init_interval s)
    (conns s) (next_aa s).
Definition set_init_peer_addr_type (v : Z) (s : vbt_ll) : vbt_ll :=
  LLState (ops s) (public_addr s) (random_addr s) (random_addr_set s) (state s)
    (num_hci_cmd s) (adv_enabled s) (adv_type s) (adv_own_addr_type s)
    (adv_direct_addr_type s) (adv_direct_addr s) (adv_interval_ms s)
    (adv_data s) (adv_data_len s) (scan_rsp_data s) (scan_rsp_data_len s)
    (last_adv_ms s) (scan_enabled s) (scan_type s) (scan_own_addr_type s)
    (init_peer_addr s) v (init_own_addr_type s) (init_interval s) (conns s)
    (next_aa s).
Definition set_init_own_addr_type (v : Z) (s : vbt_ll) : vbt_ll :=
  LLState (ops s) (public_addr s) (random_addr s) (random_addr_set s) (state s)
    (num_hci_cmd s) (adv_enabled s) (adv_type s) (adv_own_addr_type s)
    (adv_direct_addr_type s) (adv_direct_addr s) (adv_interval_ms s)
    (adv_data s) (adv_data_len s) (scan_rsp_data s) (scan_rsp_data_len s)
    (last_adv_ms s) (scan_enabled s) (scan_type s) (scan_own_addr_type s)
    (init_peer_addr s) (init_peer_addr_type s) v (init_interval s) (conns s)
    (next_aa s).
Definition set_conns (v : list ll_conn) (s : vbt_ll) : vbt_ll :=
  LLState (ops s) (public_addr s) (random_addr s) (random_addr_set s) (state s)
    (num_hci_cmd s) (adv_enabled s) (adv_type s) (adv_own_addr_type s)
    (adv_direct_addr_type s) (adv_direct_addr s) (adv_interval_ms s)
    (adv_data s) (adv_data_len s) (scan_rsp_data s) (scan_rsp_data_len s)
    (last_adv_ms s) (scan_enabled s) (scan_type s) (scan_own_addr_type s)
    (init_peer_addr s) (init_peer_addr_type s) (init_own_addr_type s)
    (init_interval s) v (next_aa s).
Definition set_next_aa (v : Z) (s : vbt_ll) : vbt_ll :=
  LLState (ops s) (public_addr s) (random_addr s) (random_addr_set s) (state s)
    (num_hci_cmd s) (adv_enabled s) (adv_type s) (adv_own_addr_type s)
    (adv_direct_addr_type s) (adv_direct_addr s) (adv_interval_ms s)
    (adv_data s) (adv_data_len s) (scan_rsp_data s) (scan_rsp_data_len s)
    (last_adv_ms s) (scan_enabled s) (scan_type s) (scan_own_addr_type s)
    (init_peer_addr s) (init_peer_addr_type s) (init_own_addr_type s)
    (init_interval s) (conns s) v.

(** The all-zero object [memset(c, 0, sizeof *c)] / [calloc] leaves. *)
Definition zero_conn : ll_conn := LLConn false 0 0 0 (replicate 6 0) 0 false false.

(** ** Small helpers *)

Definition own_source_addr (ll : vbt_ll) (own_type : Z) : list Z :=
  if negb (Z.land own_type 0x01 =? 0) && random_addr_set ll
  then random_addr ll else public_addr ll.

Definition own_source_addr_type (ll : vbt_ll) (own_type : Z) : Z :=
  if negb (Z.land own_type 0x01 =? 0) then 1 else 0.

Definition conn_by_handle (ll : vbt_ll) (h : Z) : option nat :=
  find_idx (λ c, c_active c && (c_handle c =? h)) (conns ll).

Definition conn_by_aa (ll : vbt_ll) (aa : Z) : option nat :=
  find_idx (λ c, c_active c && (c_access_addr c =? aa)) (conns ll).

(** Dereference and update through a [struct ll_conn *]. *)
Definition conn_at (i : nat) : LL ll_conn :=
  ll ← get;
  match conns ll !! i with
  | Some c => mret c
  | None => fail OobRead
  end.

Definition conn_set (i : nat) (f : ll_conn → ll_conn) : LL unit :=
  c ← conn_at i;
  modify (λ ll, set_conns (<[i := f c]> (conns ll)) ll).

Definition conn_alloc : LL (option nat) :=
  ll ← get;
  match find_idx (λ c, negb (c_active c)) (conns ll) with
  | Some i =>
      conn_set i (λ _, set_c_handle (u16 (BASE_CONN_HANDLE + Z.of_nat i))
                         (set_c_active true zero_conn));;
      mret (Some i)
  | None => mret None
  end.

Definition ll_rand32 : LL Z :=
  modify (λ ll, set_next_aa (u32 (u32 (next_aa ll * 1664525) + 1013904223)) ll);;
  gets next_aa.
