(* ===== verification/LLEmit.v ===== *)
(** * The controller core: what it emits (src/vbt_ll.c, part 2)

    HCI events toward the host, Link-Layer PDUs toward the medium,
    advertising, scan responses, advertising reports and ACL data.  Every
    local array of the C code is a [local_buf] of its declared size. *)

From stdpp Require Import base list numbers option.
From Stdlib Require Import ZArith Lia.
From S2P Require Import Prelude Wire LLState.

(** ** HCI event emission *)

Definition send_hci (pkt : list Z) : LL unit :=
  o ← gets ops;
  when (hci_to_host o) (emit (ToHost pkt)).

(** [ll->num_hci_cmd ? ll->num_hci_cmd : 1] *)
Definition cmd_credits (ll : vbt_ll) : Z :=
  if num_hci_cmd ll =? 0 then 1 else num_hci_cmd ll.

Definition cmd_complete (opcode : Z) (ret : list Z) : LL unit :=
  ll ← get;
  buf ← local_buf 260
    ([HCI_EVT_PKT; EVT_CMD_COMPLETE; u8 (3 + zlen ret); cmd_credits ll;
      lo8 opcode; hi8 opcode] ++ ret);
  send_hci buf.

Definition cmd_complete_status (opcode status : Z) : LL unit :=
  cmd_complete opcode [status].

Definition cmd_status (opcode status : Z) : LL unit :=
  ll ← get;
  buf ← local_buf 7
    [HCI_EVT_PKT; EVT_CMD_STATUS; 4; status; cmd_credits ll;
     lo8 opcode; hi8 opcode];
  send_hci buf.

(** An LE Meta event whose length byte is patched once the packet is built:
    [p[2] = (uint8_t)(n - 3)]. *)
Definition le_meta (params : list Z) : list Z :=
  let n := 3 + zlen params in
  [HCI_EVT_PKT; EVT_LE_META; u8 (n - 3)] ++ params.

Definition evt_le_conn_complete (c : ll_conn) (status : Z) : LL unit :=
  p ← local_buf 24 (le_meta
    ([SUB_LE_CONN_COMPLETE; status; lo8 (c_handle c); hi8 (c_handle c);
      c_role c; c_peer_addr_type c] ++ c_peer_addr c ++
     [0x18; 0x00; 0x00; 0x00; 0x2a; 0x00; 0x00]));
  send_hci p.

Definition evt_disconn_complete (handle reason : Z) : LL unit :=
  p ← local_buf 7
    [HCI_EVT_PKT; EVT_DISCONN_COMPLETE; 4; HCI_SUCCESS;
     lo8 handle; hi8 handle; reason];
  send_hci p.

Definition evt_num_completed (handle n : Z) : LL unit :=
  p ← local_buf 10
    [HCI_EVT_PKT; EVT_NUM_COMPLETED_PACKETS; 5; 1;
     lo8 handle; hi8 handle; lo8 n; hi8 n];
  send_hci p.

Definition evt_encrypt_change (handle enabled : Z) : LL unit :=
  p ← local_buf 7
    [HCI_EVT_PKT; EVT_ENCRYPT_CHANGE; 4; HCI_SUCCESS;
     lo8 handle; hi8 handle; enabled];
  send_hci p.

Definition evt_le_ltk_request (c : ll_conn) (rand8 ediv2 : list Z) : LL unit :=
  p ← local_buf 16 (le_meta
    ([SUB_LE_LTK_REQUEST; lo8 (c_handle c); hi8 (c_handle c)] ++ rand8 ++ ediv2));
  send_hci p.

(** ** Medium PDU emission *)

Definition fill_hdr (ll_type' aa channel' : Z) (tx_addr' : list Z)
    (tx_addr_type' pdu_len' : Z) : vbt_frame_hdr :=
  {| magic := VBT_MAGIC; version := VBT_VERSION; pdu_len := pdu_len';
     access_addr := aa; tsf_lo := 0; tsf_hi := 0; flags := 0;
     tx_addr := tx_addr'; tx_addr_type := tx_addr_type'; ll_type := ll_type';
     channel := channel'; phy := VBT_PHY_1M; tx_power_dbm := VBT_DEFAULT_TXPOWER;
     rssi := VBT_DEFAULT_RSSI; conn_handle := 0; reserved := replicate 6 0 |}.

Definition set_conn_handle (v : Z) (h : vbt_frame_hdr) : vbt_frame_hdr :=
  {| magic := magic h; version := version h; pdu_len := pdu_len h;
     access_addr := access_addr h; tsf_lo := tsf_lo h; tsf_hi := tsf_hi h;
     flags := flags h; tx_addr := tx_addr h; tx_addr_type := tx_addr_type h;
     ll_type := ll_type h; channel := channel h; phy := phy h;
     tx_power_dbm := tx_power_dbm h; rssi := rssi h; conn_handle := v;
     reserved := reserved h |}.

Definition to_medium (h : vbt_frame_hdr) (pdu : list Z) : LL unit :=
  o ← gets ops;
  when (pdu_to_medium o) (emit (ToMedium h pdu)).

Definition send_adv_pdu (channel' : Z) (tx_addr' : list Z) (tx_addr_type' : Z)
    (pdu : list Z) : LL unit :=
  to_medium (fill_hdr VBT_LL_ADV VBT_ADV_ACCESS_ADDR channel' tx_addr'
               tx_addr_type' (u16 (zlen pdu))) pdu.

(** The own-address type a connection was opened with. *)
Definition conn_own_type (ll : vbt_ll) (c : ll_conn) : Z :=
  if c_role c =? 1 then adv_own_addr_type ll else init_own_addr_type ll.

Definition send_data_pdu (c : ll_conn) (pdu : list Z) : LL unit :=
  ll ← get;
  let src := own_source_addr ll (conn_own_type ll c) in
  let stype := own_source_addr_type ll (conn_own_type ll c) in
  to_medium (set_conn_handle (c_handle c)
               (fill_hdr VBT_LL_DATA (c_access_addr c) 5 src stype (u16 (zlen pdu))))
            pdu.

Definition send_ll_control (c : ll_conn) (opcode : Z) (params : list Z) : LL unit :=
  pdu ← local_buf 64 ([LLID_CONTROL; u8 (1 + zlen params); opcode] ++ params);
  send_data_pdu c pdu.

(** ** Advertising *)

(** [type | (atype ? 1u << 6 : 0) | (rx ? 1u << 7 : 0)] *)
Definition adv_pdu_type (ll : vbt_ll) : Z :=
  if adv_type ll =? 0x02 then VBT_ADV_NONCONN_IND
  else if adv_type ll =? 0x03 then VBT_ADV_NONCONN_IND
  else if adv_type ll =? 0x06 then VBT_ADV_SCAN_IND
  else VBT_ADV_IND.

Definition hdr_bit (b : Z) (n : Z) : Z := if b =? 0 then 0 else Z.shiftl 1 n.

Definition emit_advertisement : LL unit :=
  ll ← get;
  let adva := own_source_addr ll (adv_own_addr_type ll) in
  let atype := own_source_addr_type ll (adv_own_addr_type ll) in
  data ← rdn (adv_data ll) 0 (adv_data_len ll);
  pdu ← local_buf (2 + 6 + 31)
    ([u8 (Z.lor (adv_pdu_type ll) (hdr_bit atype 6)); u8 (6 + adv_data_len ll)]
     ++ adva ++ data);
  send_adv_pdu VBT_CHAN_ADV_37 adva atype pdu;;
  send_adv_pdu VBT_CHAN_ADV_38 adva atype pdu;;
  send_adv_pdu VBT_CHAN_ADV_39 adva atype pdu.

Definition send_scan_rsp : LL unit :=
  ll ← get;
  let adva := own_source_addr ll (adv_own_addr_type ll) in
  let atype := own_source_addr_type ll (adv_own_addr_type ll) in
  data ← rdn (scan_rsp_data ll) 0 (scan_rsp_data_len ll);
  pdu ← local_buf (2 + 6 + 31)
    ([u8 (Z.lor VBT_SCAN_RSP (hdr_bit atype 6)); u8 (6 + scan_rsp_data_len ll)]
     ++ adva ++ data);
  send_adv_pdu VBT_CHAN_ADV_37 adva atype pdu.

(** ** Reports and connection requests *)

(** The local array [p] of [report_adv] as it is declared. *)
Definition report_adv_cap : Z := 2 + 1 + 1 + 1 + 1 + 6 + 1 + 31 + 1.

Definition report_adv (event_type addr_type : Z) (addr data : list Z) (rssi' : Z) : LL unit :=
  p ← local_buf report_adv_cap (le_meta
    ([SUB_LE_ADV_REPORT; 1; event_type; addr_type] ++ addr ++
     [u8 (zlen data)] ++ data ++ [u8 rssi']));
  send_hci p.

Definition connect_ind_pdu (itype adva_type : Z) (inita adva : list Z) (aa : Z) : list Z :=
  [u8 (Z.lor (Z.lor VBT_CONNECT_IND (hdr_bit itype 6)) (hdr_bit adva_type 7)); 34]
  ++ inita ++ adva ++ le_split 4 aa ++
  [0x55; 0x55; 0x55; 0x03; 0x00; 0x00; 0x18; 0x00; 0x00; 0x00; 0x2a; 0x00;
   0xff; 0xff; 0xff; 0xff; 0x1f; 0x00].

Definition send_connect_ind (adva : list Z) (adva_type : Z) (c : ll_conn) : LL unit :=
  ll ← get;
  let inita := own_source_addr ll (init_own_addr_type ll) in
  let itype := own_source_addr_type ll (init_own_addr_type ll) in
  pdu ← local_buf (2 + 6 + 6 + 22)
    (connect_ind_pdu itype adva_type inita adva (c_access_addr c));
  send_adv_pdu VBT_CHAN_ADV_37 inita itype pdu.

(** ** ACL data *)

Definition acl_to_host (handle : Z) (l2cap : list Z) : LL unit :=
  let l2len := zlen l2cap in
  if LE_ACL_MTU + 4 <? l2len then skip else
  let hf := u16 (Z.lor handle (Z.shiftl 0x2 12)) in
  p ← local_buf (4 + LE_ACL_MTU + 16)
    ([HCI_ACL_PKT; lo8 hf; hi8 hf; lo8 l2len; hi8 l2len] ++ l2cap);
  send_hci p.

(** [pkt] is the whole buffer the transport passes, [len] the packet's length. *)
Definition handle_acl_from_host (pkt : list Z) (len : Z) : LL unit :=
  if len <? 5 then skip else
  b1 ← rd pkt 1; b2 ← rd pkt 2; b3 ← rd pkt 3; b4 ← rd pkt 4;
  let hf := get16 b1 b2 in
  let handle := Z.land hf 0x0fff in
  let dlen := get16 b3 b4 in
  let dlen := if len <? 5 + dlen then u16 (len - 5) else dlen in
  ll ← get;
  match conn_by_handle ll handle with
  | None => skip
  | Some i =>
      c ← conn_at i;
      let dlen := if LE_ACL_MTU <? dlen then LE_ACL_MTU else dlen in
      data ← rdn pkt 5 dlen;
      pdu ← local_buf (2 + LE_ACL_MTU + 8) ([LLID_START; u8 dlen] ++ data);
      send_data_pdu c pdu;;
      evt_num_completed handle 1
  end.
