(* ===== verification/LLCmd.v ===== *)
(** * The controller core: HCI commands (src/vbt_ll.c, part 3)

    One definition per case of the [switch] of [dispatch_command], composed in
    the order of the source.  [pkt] is the transport's whole buffer, [len] the
    length of the packet in it; [params[k]] is [pkt[4 + k]]. *)

From stdpp Require Import base list numbers option.
From Stdlib Require Import ZArith Lia.
From S2P Require Import Prelude Wire LLState LLEmit.

(** [params[k]] and [memcpy(_, params + off, n)]. *)
Definition param (pkt : list Z) (k : Z) : LL Z := rd pkt (4 + k).
Definition params_n (pkt : list Z) (off n : Z) : LL (list Z) := rdn pkt (4 + off) n.

(** [(uint16_t)(params[0] | (params[1] << 8))] *)
Definition param_handle (pkt : list Z) : LL Z :=
  a ← param pkt 0; b ← param pkt 1; mret (get16 a b).

Definition handle_le_create_conn (pkt : list Z) (plen : Z) : LL unit :=
  if plen <? 13 then cmd_status OP_LE_CREATE_CONN HCI_UNKNOWN_COMMAND else
  t ← param pkt 5;
  modify (set_init_peer_addr_type t);;
  a ← params_n pkt 6 6;
  modify (set_init_peer_addr a);;
  w ← param pkt 12;
  modify (set_init_own_addr_type w);;
  modify (set_state LL_INITIATING);;
  cmd_status OP_LE_CREATE_CONN HCI_SUCCESS.

Definition do_reset (opcode : Z) : LL unit :=
  modify (set_conns (replicate (Z.to_nat VBT_LL_MAX_CONN) zero_conn));;
  modify (set_state LL_IDLE);;
  modify (λ ll, set_adv_enabled false (set_scan_enabled false ll));;
  cmd_complete_status opcode HCI_SUCCESS.

Definition do_read_local_version (opcode : Z) : LL unit :=
  cmd_complete opcode [HCI_SUCCESS; 0x0c; 0x00; 0x00; 0x0c; 0x3f; 0x00; 0x00; 0x00].

(** [c[octet] |= v] on the 64-octet bitmap [c = r + 1]. *)
Definition or_octet (octet : nat) (v : Z) (c : list Z) : list Z :=
  alter (λ b, u8 (Z.lor b v)) octet c.
Definition bits (l : list Z) : Z := foldr (λ n acc, Z.lor (Z.shiftl 1 n) acc) 0 l.

Definition supported_commands : list Z :=
  or_octet 28 (bits [0; 1; 2; 3])
  (or_octet 27 (bits [0; 1; 2; 3; 5; 6; 7])
  (or_octet 26 0xff
  (or_octet 25 (bits [0; 1; 2; 4; 5; 6; 7])
  (or_octet 22 (bits [2])
  (or_octet 5 (bits [6; 7])
  (or_octet 2 (bits [7])
  (or_octet 0 (bits [5]) (replicate 64 0)))))))).

Definition do_read_local_commands (opcode : Z) : LL unit :=
  cmd_complete opcode (HCI_SUCCESS :: supported_commands).

Definition do_read_features (opcode : Z) : LL unit :=
  cmd_complete opcode
    (if opcode =? OP_LE_READ_LOCAL_FEATURES
     then [HCI_SUCCESS; 0x01; 0; 0; 0; 0; 0; 0; 0]
     else [HCI_SUCCESS; 0; 0; 0; 0; 0x60; 0; 0; 0]).

Definition do_read_buffer_size (opcode : Z) : LL unit :=
  cmd_complete opcode
    [HCI_SUCCESS; Z.land LE_ACL_MTU 0xff; Z.shiftr LE_ACL_MTU 8; 0; LE_ACL_PKTS; 0; 0; 0].

Definition do_le_read_buffer_size (opcode : Z) : LL unit :=
  cmd_complete opcode
    [HCI_SUCCESS; Z.land LE_ACL_MTU 0xff; Z.shiftr LE_ACL_MTU 8; LE_ACL_PKTS].

Definition do_read_bd_addr (opcode : Z) : LL unit :=
  ll ← get;
  cmd_complete opcode (HCI_SUCCESS :: public_addr ll).

Definition do_read_supported_states (opcode : Z) : LL unit :=
  cmd_complete opcode
    [HCI_SUCCESS; 0xff; 0xff; 0xff; 0xff; 0xff; 0xff; 0xff; 0x03].

Definition do_set_random_address (opcode : Z) (pkt : list Z) (plen : Z) : LL unit :=
  when (6 <=? plen)
    (a ← params_n pkt 0 6;
     modify (λ ll, set_random_addr_set true (set_random_addr a ll)));;
  cmd_complete_status opcode HCI_SUCCESS.

Definition do_set_adv_parameters (opcode : Z) (pkt : list Z) (plen : Z) : LL unit :=
  when (15 <=? plen)
    (modify (set_adv_interval_ms 100);;
     t ← param pkt 4; modify (set_adv_type t);;
     o ← param pkt 5; modify (set_adv_own_addr_type o);;
     d ← param pkt 6; modify (set_adv_direct_addr_type d);;
     a ← params_n pkt 7 6; modify (set_adv_direct_addr a));;
  cmd_complete_status opcode HCI_SUCCESS.

Definition do_set_adv_data (opcode : Z) (pkt : list Z) (plen : Z) : LL unit :=
  when (1 <=? plen)
    (p0 ← param pkt 0;
     modify (set_adv_data_len (if 31 <? p0 then 31 else p0));;
     n ← gets adv_data_len;
     d ← params_n pkt 1 n;
     modify (λ ll, set_adv_data (splice 0 d (adv_data ll)) ll));;
  cmd_complete_status opcode HCI_SUCCESS.

Definition do_set_scan_rsp_data (opcode : Z) (pkt : list Z) (plen : Z) : LL unit :=
  when (1 <=? plen)
    (p0 ← param pkt 0;
     modify (set_scan_rsp_data_len (if 31 <? p0 then 31 else p0));;
     n ← gets scan_rsp_data_len;
     d ← params_n pkt 1 n;
     modify (λ ll, set_scan_rsp_data (splice 0 d (scan_rsp_data ll)) ll));;
  cmd_complete_status opcode HCI_SUCCESS.

(** [(plen >= 1 && params[0])] *)
Definition param_flag (pkt : list Z) (plen : Z) : LL bool :=
  if 1 <=? plen then p0 ← param pkt 0; mret (negb (p0 =? 0)) else mret false.

Definition do_set_adv_enable (opcode : Z) (pkt : list Z) (plen : Z) : LL unit :=
  e ← param_flag pkt plen;
  modify (set_adv_enabled e);;
  modify (λ ll,
    if adv_enabled ll then set_last_adv_ms 0 (set_state LL_ADVERTISING ll)
    else if decide (state ll = LL_ADVERTISING) then set_state LL_IDLE ll else ll);;
  cmd_complete_status opcode HCI_SUCCESS.

Definition do_set_scan_parameters (opcode : Z) (pkt : list Z) (plen : Z) : LL unit :=
  when (1 <=? plen)
    (t ← param pkt 0; modify (set_scan_type t);;
     when (6 <=? plen) (o ← param pkt 5; modify (set_scan_own_addr_type o)));;
  cmd_complete_status opcode HCI_SUCCESS.

Definition do_set_scan_enable (opcode : Z) (pkt : list Z) (plen : Z) : LL unit :=
  e ← param_flag pkt plen;
  modify (set_scan_enabled e);;
  modify (λ ll,
    if scan_enabled ll then set_state LL_SCANNING ll
    else if decide (state ll = LL_SCANNING) then set_state LL_IDLE ll else ll);;
  cmd_complete_status opcode HCI_SUCCESS.

Definition do_create_conn_cancel (opcode : Z) : LL unit :=
  modify (λ ll, if decide (state ll = LL_INITIATING) then set_state LL_IDLE ll else ll);;
  cmd_complete_status opcode HCI_SUCCESS.

Definition do_conn_update (opcode : Z) (pkt : list Z) (plen : Z) : LL unit :=
  cmd_status opcode HCI_SUCCESS;;
  when (2 <=? plen)
    (h ← param_handle pkt;
     ll ← get;
     match conn_by_handle ll h with
     | None => skip
     | Some _ =>
         p ← local_buf 16 (le_meta
           [SUB_LE_CONN_UPDATE_COMPLETE; HCI_SUCCESS; lo8 h; hi8 h;
            0x18; 0x00; 0x00; 0x00; 0x2a; 0x00]);
         send_hci p
     end).

Definition do_read_remote_features (opcode : Z) (pkt : list Z) (plen : Z) : LL unit :=
  cmd_status opcode HCI_SUCCESS;;
  when (2 <=? plen)
    (h ← param_handle pkt;
     p ← local_buf 16 (le_meta
       ([SUB_LE_READ_REMOTE_FEAT_CMPL; HCI_SUCCESS; lo8 h; hi8 h; 0x01] ++ replicate 7 0));
     send_hci p).

Definition do_le_rand (opcode : Z) : LL unit :=
  a ← ll_rand32; b ← ll_rand32;
  cmd_complete opcode (HCI_SUCCESS :: le_split 4 a ++ le_split 4 b).

Definition do_le_encrypt (opcode : Z) (pkt : list Z) (plen : Z) : LL unit :=
  r ← (if 32 <=? plen then params_n pkt 16 16 else mret (replicate 16 0));
  cmd_complete opcode (HCI_SUCCESS :: r).

Definition do_start_encryption (opcode : Z) (pkt : list Z) (plen : Z) : LL unit :=
  cmd_status opcode HCI_SUCCESS;;
  when (2 <=? plen)
    (h ← param_handle pkt;
     ll ← get;
     match conn_by_handle ll h with
     | None => skip
     | Some i =>
         conn_set i (set_c_encrypting true);;
         req ← (if 28 <=? plen
                then d ← params_n pkt 2 10; mret (d ++ replicate 12 0)
                else mret (replicate 22 0));
         c ← conn_at i;
         send_ll_control c LL_ENC_REQ req
     end).

Definition do_ltk_req_reply (opcode : Z) (pkt : list Z) (plen : Z) : LL unit :=
  h ← (if 2 <=? plen then param_handle pkt else mret 0);
  ll ← get;
  let c := conn_by_handle ll h in
  cmd_complete opcode [HCI_SUCCESS; lo8 h; hi8 h];;
  match c with
  | None => skip
  | Some i => c ← conn_at i; send_ll_control c LL_START_ENC_REQ []
  end.

Definition do_ltk_req_neg_reply (opcode : Z) (pkt : list Z) (plen : Z) : LL unit :=
  h ← (if 2 <=? plen then param_handle pkt else mret 0);
  cmd_complete opcode [HCI_SUCCESS; lo8 h; hi8 h].

Definition do_disconnect (opcode : Z) (pkt : list Z) (plen : Z) : LL unit :=
  cmd_status opcode HCI_SUCCESS;;
  when (3 <=? plen)
    (h ← param_handle pkt;
     reason ← param pkt 2;
     ll ← get;
     match conn_by_handle ll h with
     | None => skip
     | Some i =>
         c ← conn_at i;
         send_ll_control c LL_TERMINATE_IND [reason];;
         conn_set i (set_c_active false);;
         evt_disconn_complete h HCI_CONN_TERM_LOCAL_HOST
     end).

Definition do_read_remote_version (opcode : Z) (pkt : list Z) (plen : Z) : LL unit :=
  cmd_status opcode HCI_SUCCESS;;
  when (2 <=? plen)
    (h ← param_handle pkt;
     p ← local_buf 11
       [HCI_EVT_PKT; EVT_READ_REMOTE_VERSION_CMPL; 8; HCI_SUCCESS; lo8 h; hi8 h;
        0x0c; 0x3f; 0x00; 0x00; 0x00];
     send_hci p).

(** The commands acknowledged without any effect. *)
Definition is_noop (op : Z) : bool :=
  (op =? OP_SET_EVENT_MASK) || (op =? OP_SET_EVENT_MASK_PAGE2) ||
  (op =? OP_LE_SET_EVENT_MASK) || (op =? OP_LE_SET_HOST_CHAN_CLASS) ||
  (op =? OP_LE_CLEAR_WHITE_LIST) || (op =? OP_LE_ADD_WHITE_LIST) ||
  (op =? OP_LE_REMOVE_WHITE_LIST).

(** The default case: the same answer whatever the group of the command. *)
Definition do_unknown (op : Z) : LL unit :=
  if (Z.shiftr op 10 =? 0x08) || (Z.shiftr op 10 =? 0x03) || (Z.shiftr op 10 =? 0x04)
  then cmd_complete_status op HCI_UNKNOWN_COMMAND
  else cmd_complete_status op HCI_UNKNOWN_COMMAND.

(** The [switch (opcode)]. *)
Definition switch_opcode (op : Z) (pkt : list Z) (plen : Z) : LL unit :=
  if op =? OP_RESET then do_reset op else
  if is_noop op then cmd_complete_status op HCI_SUCCESS else
  if op =? OP_READ_LOCAL_VERSION then do_read_local_version op else
  if op =? OP_READ_LOCAL_COMMANDS then do_read_local_commands op else
  if (op =? OP_READ_LOCAL_FEATURES) || (op =? OP_LE_READ_LOCAL_FEATURES)
  then do_read_features op else
  if op =? OP_READ_BUFFER_SIZE then do_read_buffer_size op else
  if op =? OP_LE_READ_BUFFER_SIZE then do_le_read_buffer_size op else
  if op =? OP_READ_BD_ADDR then do_read_bd_addr op else
  if op =? OP_LE_READ_ADV_TX_POWER then cmd_complete op [HCI_SUCCESS; 0x00] else
  if op =? OP_LE_READ_WHITE_LIST_SIZE then cmd_complete op [HCI_SUCCESS; 8] else
  if op =? OP_LE_READ_SUPPORTED_STATES then do_read_supported_states op else
  if op =? OP_LE_SET_RANDOM_ADDRESS then do_set_random_address op pkt plen else
  if op =? OP_LE_SET_ADV_PARAMETERS then do_set_adv_parameters op pkt plen else
  if op =? OP_LE_SET_ADV_DATA then do_set_adv_data op pkt plen else
  if op =? OP_LE_SET_SCAN_RSP_DATA then do_set_scan_rsp_data op pkt plen else
  if op =? OP_LE_SET_ADV_ENABLE then do_set_adv_enable op pkt plen else
  if op =? OP_LE_SET_SCAN_PARAMETERS then do_set_scan_parameters op pkt plen else
  if op =? OP_LE_SET_SCAN_ENABLE then do_set_scan_enable op pkt plen else
  if op =? OP_LE_CREATE_CONN then handle_le_create_conn pkt plen else
  if op =? OP_LE_CREATE_CONN_CANCEL then do_create_conn_cancel op else
  if op =? OP_LE_CONN_UPDATE then do_conn_update op pkt plen else
  if op =? OP_LE_READ_REMOTE_FEATURES then do_read_remote_features op pkt plen else
  if op =? OP_LE_RAND then do_le_rand op else
  if op =? OP_LE_ENCRYPT then do_le_encrypt op pkt plen else
  if op =? OP_LE_START_ENCRYPTION then do_start_encryption op pkt plen else
  if op =? OP_LE_LTK_REQ_REPLY then do_ltk_req_reply op pkt plen else
  if op =? OP_LE_LTK_REQ_NEG_REPLY then do_ltk_req_neg_reply op pkt plen else
  if op =? OP_DISCONNECT then do_disconnect op pkt plen else
  if op =? OP_READ_REMOTE_VERSION then do_read_remote_version op pkt plen else
  do_unknown op.

Definition dispatch_command (pkt : list Z) (len : Z) : LL unit :=
  if len <? 4 then skip else
  b1 ← rd pkt 1; b2 ← rd pkt 2;
  let opcode := get16 b1 b2 in
  plen ← rd pkt 3;
  let plen := if len <? 4 + plen then u8 (len - 4) else plen in
  switch_opcode opcode pkt plen.
