(* ===== verification/LLAir.v ===== *)
(** * The controller core: received PDUs, ticks and entry points
      (src/vbt_ll.c, part 4)

    LL control PDUs, the advertising-channel and data-channel receive paths,
    the advertising timer and the public entry points of vbt_ll.h. *)

From stdpp Require Import base list numbers option.
From Stdlib Require Import ZArith Lia.
From S2P Require Import Prelude Wire LLState LLEmit LLCmd.

(** ** LL control PDUs *)

(** [if (!c->encrypted) { c->encrypted = true; evt_encrypt_change(..., 1); }] *)
Definition mark_encrypted (i : nat) : LL unit :=
  c ← conn_at i;
  when (negb (c_encrypted c))
    (conn_set i (set_c_encrypted true);;
     c ← conn_at i;
     evt_encrypt_change (c_handle c) 1).

Definition ll_enc_req (i : nat) (payload : list Z) (plen : Z) : LL unit :=
  conn_set i (set_c_encrypting true);;
  re ← (if 1 + 8 + 2 + 8 + 4 <=? plen
        then r ← rdn payload 1 8; e ← rdn payload 9 2; mret (r, e)
        else mret (replicate 8 0, replicate 2 0));
  c ← conn_at i;
  send_ll_control c LL_ENC_RSP (replicate 12 0);;
  evt_le_ltk_request c (fst re) (snd re).

Definition handle_ll_control (i : nat) (payload : list Z) (plen : Z) : LL unit :=
  if plen <? 1 then skip else
  op ← rd payload 0;
  if op =? LL_TERMINATE_IND then
    reason ← (if 2 <=? plen then rd payload 1 else mret HCI_REMOTE_USER_TERM);
    c ← conn_at i;
    let h := c_handle c in
    conn_set i (set_c_active false);;
    evt_disconn_complete h reason
  else if op =? LL_VERSION_IND then
    c ← conn_at i;
    send_ll_control c LL_VERSION_IND [0x0c; 0x0f; 0x00; 0x0f; 0x00]
  else if (op =? LL_FEATURE_REQ) || (op =? LL_SLAVE_FEATURE_REQ) then
    c ← conn_at i;
    send_ll_control c LL_FEATURE_RSP [0x01; 0; 0; 0; 0; 0; 0; 0]
  else if op =? LL_ENC_REQ then ll_enc_req i payload plen
  else if op =? LL_ENC_RSP then skip
  else if op =? LL_START_ENC_REQ then
    c ← conn_at i;
    send_ll_control c LL_START_ENC_RSP [];;
    mark_encrypted i
  else if op =? LL_START_ENC_RSP then mark_encrypted i
  else skip.

(** ** Entry points *)

Definition vbt_ll_new (o : vbt_ll_ops) (bdaddr : list Z) : vbt_ll :=
  {| ops := o; public_addr := bdaddr; random_addr := replicate 6 0;
     random_addr_set := false; state := LL_IDLE; num_hci_cmd := 1;
     adv_enabled := false; adv_type := 0; adv_own_addr_type := 0;
     adv_direct_addr_type := 0; adv_direct_addr := replicate 6 0;
     adv_interval_ms := ADV_INTERVAL_MS_DEFAULT; adv_data := replicate 31 0;
     adv_data_len := 0; scan_rsp_data := replicate 31 0; scan_rsp_data_len := 0;
     last_adv_ms := 0; scan_enabled := false; scan_type := 0;
     scan_own_addr_type := 0; init_peer_addr := replicate 6 0;
     init_peer_addr_type := 0; init_own_addr_type := 0; init_interval := 0;
     conns := replicate (Z.to_nat VBT_LL_MAX_CONN) zero_conn;
     next_aa := foldl (λ h b, u32 (u32 (h * 33) + b)) 0x811c9dc5 bdaddr |}.

Definition vbt_ll_bdaddr (ll : vbt_ll) : list Z := public_addr ll.

Definition vbt_ll_hci_from_host (pkt : list Z) (len : Z) : LL unit :=
  if len <? 1 then skip else
  t ← rd pkt 0;
  if t =? HCI_CMD_PKT then dispatch_command pkt len
  else if t =? HCI_ACL_PKT then handle_acl_from_host pkt len
  else skip.

(** [(ll_rand32(ll) & 0x7fffffff) | 0x00400000], then the collision fix-up. *)
Definition new_access_addr (r : Z) : Z :=
  let aa := Z.lor (Z.land r 0x7fffffff) 0x00400000 in
  if aa =? VBT_ADV_ACCESS_ADDR then Z.lxor aa 0x1 else aa.

(** Initiating and this is the target advertiser. *)
Definition initiate (adva : list Z) (txadd : Z) : LL unit :=
  ci ← conn_alloc;
  match ci with
  | None => skip
  | Some i =>
      r ← ll_rand32;
      conn_set i (set_c_access_addr (new_access_addr r));;
      conn_set i (set_c_role 0);;
      conn_set i (set_c_peer_addr_type txadd);;
      conn_set i (set_c_peer_addr adva);;
      c ← conn_at i;
      send_connect_ind adva txadd c;;
      modify (set_state LL_IDLE);;
      modify (set_scan_enabled false);;
      evt_le_conn_complete c HCI_SUCCESS
  end.

(** The HCI event type of an advertising PDU type. *)
Definition adv_event_type (type : Z) : Z :=
  if type =? VBT_ADV_IND then 0x00
  else if type =? VBT_ADV_DIRECT_IND then 0x01
  else if type =? VBT_ADV_SCAN_IND then 0x02 else 0x03.

Definition send_scan_req (adva : list Z) (txadd : Z) : LL unit :=
  ll ← get;
  let sa := own_source_addr ll (scan_own_addr_type ll) in
  let st := own_source_addr_type ll (scan_own_addr_type ll) in
  req ← local_buf (2 + 12)
    ([u8 (Z.lor (Z.lor VBT_SCAN_REQ (hdr_bit st 6)) (hdr_bit txadd 7)); 12] ++ sa ++ adva);
  send_adv_pdu VBT_CHAN_ADV_37 sa st req.

(** ADV_IND, ADV_DIRECT_IND, ADV_NONCONN_IND and ADV_SCAN_IND. *)
Definition rx_adv_ind (hdr : vbt_frame_hdr) (pdu : list Z) (type txadd body_len : Z) : LL unit :=
  if body_len <? 6 then skip else
  adva ← rdn pdu 2 6;
  let ad_len := u8 (body_len - 6) in
  ll ← get;
  if bool_decide (state ll = LL_INITIATING) &&
     ((type =? VBT_ADV_IND) || (type =? VBT_ADV_DIRECT_IND)) &&
     bool_decide (adva = init_peer_addr ll)
  then initiate adva txadd
  else when (scan_enabled ll)
    (ad ← rdn pdu 8 ad_len;
     report_adv (adv_event_type type) txadd adva ad (rssi hdr);;
     when ((scan_type ll =? 1) && ((type =? VBT_ADV_IND) || (type =? VBT_ADV_SCAN_IND)))
       (send_scan_req adva txadd)).

Definition rx_scan_req (pdu : list Z) (body_len : Z) : LL unit :=
  ll ← get;
  when (adv_enabled ll && (12 <=? body_len))
    (adva ← rdn pdu 8 6;
     when (bool_decide (adva = own_source_addr ll (adv_own_addr_type ll))) send_scan_rsp).

Definition rx_scan_rsp (hdr : vbt_frame_hdr) (pdu : list Z) (txadd body_len : Z) : LL unit :=
  ll ← get;
  when (scan_enabled ll && (6 <=? body_len))
    (adva ← rdn pdu 2 6;
     ad ← rdn pdu 8 (u8 (body_len - 6));
     report_adv 0x04 txadd adva ad (rssi hdr)).

Definition rx_connect_ind (pdu : list Z) (body_len : Z) : LL unit :=
  ll ← get;
  if negb (adv_enabled ll) || (body_len <? 34) then skip else
  inita ← rdn pdu 2 6;
  adva ← rdn pdu 8 6;
  if negb (bool_decide (adva = own_source_addr ll (adv_own_addr_type ll))) then skip else
  ci ← conn_alloc;
  match ci with
  | None => skip
  | Some i =>
      aab ← rdn pdu 14 4;
      conn_set i (set_c_access_addr (le_join aab));;
      conn_set i (set_c_role 1);;
      p0 ← rd pdu 0;
      conn_set i (set_c_peer_addr_type (if Z.testbit p0 6 then 1 else 0));;
      conn_set i (set_c_peer_addr inita);;
      modify (set_adv_enabled false);;
      modify (set_state LL_IDLE);;
      c ← conn_at i;
      evt_le_conn_complete c HCI_SUCCESS
  end.

(** [body_len = pdu[1]], clipped to what was received. *)
Definition clip_body (b1 plen : Z) : Z := if plen <? 2 + b1 then u8 (plen - 2) else b1.

Definition rx_adv (hdr : vbt_frame_hdr) (pdu : list Z) (plen : Z) : LL unit :=
  p0 ← rd pdu 0; p1 ← rd pdu 1;
  let type := Z.land p0 VBT_ADV_PDU_TYPE_MASK in
  let txadd := if Z.testbit p0 6 then 1 else 0 in
  let body_len := clip_body p1 plen in
  if (type =? VBT_ADV_IND) || (type =? VBT_ADV_DIRECT_IND) ||
     (type =? VBT_ADV_NONCONN_IND) || (type =? VBT_ADV_SCAN_IND)
  then rx_adv_ind hdr pdu type txadd body_len
  else if type =? VBT_SCAN_REQ then rx_scan_req pdu body_len
  else if type =? VBT_SCAN_RSP then rx_scan_rsp hdr pdu txadd body_len
  else if type =? VBT_CONNECT_IND then rx_connect_ind pdu body_len
  else skip.

Definition rx_data (hdr : vbt_frame_hdr) (pdu : list Z) (plen : Z) : LL unit :=
  ll ← get;
  match conn_by_aa ll (access_addr hdr) with
  | None => skip
  | Some i =>
      p0 ← rd pdu 0; p1 ← rd pdu 1;
      let llid := Z.land p0 0x03 in
      let body_len := clip_body p1 plen in
      if llid =? LLID_CONTROL then handle_ll_control i (drop 2 pdu) body_len
      else when (((llid =? LLID_START) || (llid =? LLID_CONT)) && (0 <? body_len))
        (c ← conn_at i;
         l2cap ← rdn pdu 2 body_len;
         acl_to_host (c_handle c) l2cap)
  end.

Definition vbt_ll_pdu_from_medium (hdr : vbt_frame_hdr) (pdu : list Z) (plen : Z) : LL unit :=
  if plen <? 2 then skip
  else if ll_type hdr =? VBT_LL_ADV then rx_adv hdr pdu plen
  else if ll_type hdr =? VBT_LL_DATA then rx_data hdr pdu plen
  else skip.

Definition vbt_ll_tick (now_ms : Z) : LL unit :=
  ll ← get;
  when (adv_enabled ll)
    (when ((last_adv_ms ll =? 0) || (adv_interval_ms ll <=? u64 (now_ms - last_adv_ms ll)))
       (emit_advertisement;;
        modify (set_last_adv_ms now_ms))).
