(* ===== verification/LLInv.v ===== *)
(** * The controller core: well-formedness invariant

    [ll_ok] is the type invariant of [struct vbt_ll]; [out_ok] says that what
    is handed to the transport is a well-formed HCI packet or medium frame.
    Every entry point preserves the one and emits only the other, without
    reaching undefined behaviour, under the stated conditions on its
    arguments. *)

From stdpp Require Import base list numbers option.
From Stdlib Require Import ZArith Lia.
From S2P Require Import Prelude Wire LLState LLEmit LLCmd LLAir.

Definition addr_ok (a : list Z) : Prop := bytes_ok a ∧ zlen a = 6.

Record conn_ok (i : nat) (c : ll_conn) : Prop := ConnOk {
  cok_handle : c_active c = true → c_handle c = BASE_CONN_HANDLE + Z.of_nat i;
  cok_handle_u16 : is_u16 (c_handle c);
  cok_aa : is_u32 (c_access_addr c);
  cok_role : c_role c = 0 ∨ c_role c = 1;
  cok_peer : addr_ok (c_peer_addr c);
  cok_peer_type : is_u8 (c_peer_addr_type c)
}.

Record ll_ok (ll : vbt_ll) : Prop := LLOk {
  lok_public : addr_ok (public_addr ll);
  lok_random : addr_ok (random_addr ll);
  lok_init_peer : addr_ok (init_peer_addr ll);
  lok_credits : is_u8 (num_hci_cmd ll);
  lok_adv_data : bytes_ok (adv_data ll) ∧ zlen (adv_data ll) = 31;
  lok_adv_len : 0 ≤ adv_data_len ll ≤ 31;
  lok_rsp_data : bytes_ok (scan_rsp_data ll) ∧ zlen (scan_rsp_data ll) = 31;
  lok_rsp_len : 0 ≤ scan_rsp_data_len ll ≤ 31;
  lok_conns_len : length (conns ll) = 8%nat;
  lok_conns : ∀ i c, conns ll !! i = Some c → conn_ok i c;
  lok_next_aa : is_u32 (next_aa ll)
}.

(** An H4 packet whose length field agrees with its contents. *)
Definition hci_event_ok (pkt : list Z) : Prop :=
  ∃ code params, pkt = [HCI_EVT_PKT; code; zlen params] ++ params ∧
                 zlen params ≤ 255 ∧ is_u8 code ∧ bytes_ok params.
Definition hci_acl_ok (pkt : list Z) : Prop :=
  ∃ hf data, pkt = [HCI_ACL_PKT; lo8 hf; hi8 hf; lo8 (zlen data); hi8 (zlen data)] ++ data ∧
             is_u16 hf ∧ zlen data ≤ LE_ACL_MTU + 4 ∧ bytes_ok data.

(** A frame whose header and PDU length octet agree with the PDU. *)
Definition frame_ok (h : vbt_frame_hdr) (pdu : list Z) : Prop :=
  hdr_ok h ∧ magic h = VBT_MAGIC ∧ version h = VBT_VERSION ∧ pdu_len h = zlen pdu ∧
  ∃ b0 body, pdu = [b0; zlen body] ++ body ∧ zlen body ≤ 253 ∧ is_u8 b0 ∧ bytes_ok body.

Definition out_ok (o : out) : Prop :=
  match o with
  | ToHost pkt => hci_event_ok pkt ∨ hci_acl_ok pkt
  | ToMedium h pdu => frame_ok h pdu
  end.

Abbreviation llsafe := (safe ll_ok out_ok).

(** ** Arithmetic of buffer sizes *)

Ltac zlen_simpl := rewrite ?zlen_app, ?zlen_cons in *; change (zlen []) with 0 in *.
Ltac zlen_lia := autounfold with vbt_unfold in *; zlen_simpl; lia.

Lemma zlen_replicate {A} n (x : A) : zlen (replicate n x) = Z.of_nat n.
Proof. unfold zlen. by rewrite length_replicate. Qed.
Lemma zlen_le_split n z : zlen (le_split n z) = Z.of_nat n.
Proof. unfold zlen. by rewrite length_le_split. Qed.
Lemma bytes_ok_replicate n : bytes_ok (replicate n 0).
Proof. apply Forall_replicate. unfold is_u8. lia. Qed.
#[export] Hint Resolve le_split_ok bytes_ok_replicate : vbt.
Create Rewrite HintDb zlen.
#[export] Hint Rewrite @zlen_app @zlen_cons @zlen_replicate @zlen_le_split : zlen.

(** Closes [bytes_ok] goals over concatenations and literals. *)
Ltac bytes :=
  repeat first
    [ apply Forall_nil_2 | apply Forall_app_2 | apply Forall_cons_2 | assumption
    | apply u8_range | apply lo8_range | apply hi8_range | apply le_split_ok
    | apply bytes_ok_replicate
    | match goal with H : addr_ok ?a |- bytes_ok ?a => apply H end
    | (unfold is_u8; lia)
    | (split; [discriminate | reflexivity]) ].

Lemma addr_ok_zlen a : addr_ok a → zlen a = 6.
Proof. by intros [_ ?]. Qed.
Lemma addr_ok_bytes a : addr_ok a → bytes_ok a.
Proof. by intros [? _]. Qed.
#[export] Hint Resolve addr_ok_zlen addr_ok_bytes : vbt.

Lemma own_source_addr_ok ll t : ll_ok ll → addr_ok (own_source_addr ll t).
Proof. intros []. unfold own_source_addr. by destruct (_ && _). Qed.
Lemma own_source_addr_type_01 ll t :
  own_source_addr_type ll t = 0 ∨ own_source_addr_type ll t = 1.
Proof. unfold own_source_addr_type. destruct (negb _); auto. Qed.
Lemma own_source_addr_type_u8 ll t : is_u8 (own_source_addr_type ll t).
Proof. destruct (own_source_addr_type_01 ll t) as [->| ->]; unfold is_u8; lia. Qed.
#[export] Hint Resolve own_source_addr_ok own_source_addr_type_u8 : vbt.

Lemma cmd_credits_ok ll : ll_ok ll → is_u8 (cmd_credits ll).
Proof.
  intros []. unfold cmd_credits. destruct (_ =? _); [unfold is_u8; lia|done].
Qed.

(** ** HCI events *)

Lemma send_hci_safe pkt ll Q :
  ll_ok ll → hci_event_ok pkt ∨ hci_acl_ok pkt → Q tt ll → llsafe (send_hci pkt) ll Q.
Proof.
  intros Hll Hp HQ. unfold send_hci. safe_step. safe_step; [done|].
  safe_step; [done| |done]. by safe_step.
Qed.

Lemma event_intro_len code n params :
  n = zlen params → n ≤ 255 → is_u8 code → bytes_ok params →
  hci_event_ok ([HCI_EVT_PKT; code; u8 n] ++ params).
Proof.
  intros ->. exists code, params. rewrite u8_small; [done|].
  unfold is_u8. pose proof (zlen_nonneg params). lia.
Qed.

Lemma event_intro code params :
  zlen params ≤ 255 → is_u8 code → bytes_ok params →
  hci_event_ok ([HCI_EVT_PKT; code; u8 (zlen params)] ++ params).
Proof. by apply event_intro_len. Qed.

Lemma cmd_complete_safe op ret ll Q :
  ll_ok ll → zlen ret ≤ 252 → bytes_ok ret → Q tt ll →
  llsafe (cmd_complete op ret) ll Q.
Proof.
  intros Hll Hr Hb HQ. unfold cmd_complete. pose proof (zlen_nonneg ret).
  safe_step. safe_step; [done|]. safe_step. safe_step; [done|zlen_lia|].
  apply send_hci_safe; [done|left|done].
  apply (event_intro_len EVT_CMD_COMPLETE _ ([cmd_credits ll; lo8 op; hi8 op] ++ ret));
    [zlen_lia|lia|unfold is_u8; done|].
  pose proof (cmd_credits_ok _ Hll). bytes.
Qed.

Lemma cmd_complete_status_safe op st ll Q :
  ll_ok ll → is_u8 st → Q tt ll → llsafe (cmd_complete_status op st) ll Q.
Proof. intros. apply cmd_complete_safe; [done|done|bytes|done]. Qed.

Lemma cmd_status_safe op st ll Q :
  ll_ok ll → is_u8 st → Q tt ll → llsafe (cmd_status op st) ll Q.
Proof.
  intros Hll ? HQ. unfold cmd_status. pose proof (cmd_credits_ok _ Hll).
  safe_step. safe_step; [done|]. safe_step. safe_step; [done|done|].
  apply send_hci_safe; [done|left|done].
  apply (event_intro EVT_CMD_STATUS [st; cmd_credits ll; lo8 op; hi8 op]);
    [done|unfold is_u8; done|bytes].
Qed.

Lemma le_meta_ok params :
  zlen params ≤ 255 → bytes_ok params → hci_event_ok (le_meta params).
Proof.
  intros. unfold le_meta. replace (3 + zlen params - 3) with (zlen params) by lia.
  by apply event_intro; [..|unfold is_u8|].
Qed.

Lemma send_local_safe cap pkt ll Q :
  ll_ok ll → zlen pkt ≤ cap → hci_event_ok pkt → Q tt ll →
  llsafe (local_buf cap pkt ≫= send_hci) ll Q.
Proof.
  intros. safe_step. safe_step; [done|done|]. apply send_hci_safe; auto.
Qed.

Lemma evt_le_conn_complete_safe i c st ll Q :
  ll_ok ll → conn_ok i c → is_u8 st → Q tt ll →
  llsafe (evt_le_conn_complete c st) ll Q.
Proof.
  intros Hll [] ? HQ. pose proof (addr_ok_zlen _ cok_peer0).
  apply send_local_safe; [done|unfold le_meta; zlen_lia| |done].
  apply le_meta_ok; [zlen_lia|]. destruct cok_role0 as [->| ->]; bytes.
Qed.

Lemma evt_disconn_complete_safe h r ll Q :
  ll_ok ll → is_u8 r → Q tt ll → llsafe (evt_disconn_complete h r) ll Q.
Proof.
  intros. apply send_local_safe; [done|done| |done].
  apply (event_intro EVT_DISCONN_COMPLETE [HCI_SUCCESS; lo8 h; hi8 h; r]);
    [done|unfold is_u8; done|bytes].
Qed.

Lemma evt_num_completed_safe h n ll Q :
  ll_ok ll → Q tt ll → llsafe (evt_num_completed h n) ll Q.
Proof.
  intros. apply send_local_safe; [done|done| |done].
  apply (event_intro EVT_NUM_COMPLETED_PACKETS [1; lo8 h; hi8 h; lo8 n; hi8 n]);
    [done|unfold is_u8; done|bytes].
Qed.

Lemma evt_encrypt_change_safe h e ll Q :
  ll_ok ll → is_u8 e → Q tt ll → llsafe (evt_encrypt_change h e) ll Q.
Proof.
  intros. apply send_local_safe; [done|done| |done].
  apply (event_intro EVT_ENCRYPT_CHANGE [HCI_SUCCESS; lo8 h; hi8 h; e]);
    [done|unfold is_u8; done|bytes].
Qed.

Lemma evt_le_ltk_request_safe c r e ll Q :
  ll_ok ll → bytes_ok r → zlen r = 8 → bytes_ok e → zlen e = 2 → Q tt ll →
  llsafe (evt_le_ltk_request c r e) ll Q.
Proof.
  intros. apply send_local_safe; [done|unfold le_meta; zlen_lia| |done].
  apply le_meta_ok; [zlen_lia|bytes].
Qed.

(** ** Frames *)

Lemma fill_hdr_ok t aa ch a at' n :
  is_u8 t → is_u32 aa → is_u8 ch → addr_ok a → is_u8 at' → is_u16 n →
  hdr_ok (fill_hdr t aa ch a at' n).
Proof.
  intros ??? [] ??. split; cbn; try done; try (split; [discriminate|reflexivity]).
  split; [bytes|done].
Qed.

Lemma set_conn_handle_ok v h : hdr_ok h → is_u16 v → hdr_ok (set_conn_handle v h).
Proof. intros [] ?. by split. Qed.

Lemma to_medium_safe h pdu ll Q :
  ll_ok ll → frame_ok h pdu → Q tt ll → llsafe (to_medium h pdu) ll Q.
Proof.
  intros Hll Hp HQ. unfold to_medium. safe_step. safe_step; [done|].
  safe_step; [done| |done]. by safe_step.
Qed.

(** A PDU as every sender builds it: type octet, length octet, body. *)
Definition pdu_ok (pdu : list Z) : Prop :=
  ∃ b0 body, pdu = [b0; zlen body] ++ body ∧ zlen body ≤ 253 ∧ is_u8 b0 ∧ bytes_ok body.

Lemma pdu_intro b0 n body :
  n = zlen body → n ≤ 253 → is_u8 b0 → bytes_ok body → pdu_ok ([b0; u8 n] ++ body).
Proof.
  intros ->. exists b0, body. rewrite u8_small; [done|].
  unfold is_u8. pose proof (zlen_nonneg body). lia.
Qed.

Lemma pdu_ok_len pdu : pdu_ok pdu → is_u16 (zlen pdu).
Proof.
  intros (b0 & body & -> & ? & _). pose proof (zlen_nonneg body).
  unfold is_u16. rewrite zlen_app. change (zlen [b0; zlen body]) with 2. lia.
Qed.

Lemma send_adv_pdu_safe ch a t pdu ll Q :
  ll_ok ll → is_u8 ch → addr_ok a → is_u8 t → pdu_ok pdu → Q tt ll →
  llsafe (send_adv_pdu ch a t pdu) ll Q.
Proof.
  intros ? ? ? ? Hp ?. pose proof (pdu_ok_len _ Hp).
  apply to_medium_safe; [done| |done]. rewrite u16_small by done.
  split_and!; [|done..|exact Hp].
  by apply fill_hdr_ok.
Qed.

Lemma send_data_pdu_safe i c pdu ll Q :
  ll_ok ll → conn_ok i c → pdu_ok pdu → Q tt ll → llsafe (send_data_pdu c pdu) ll Q.
Proof.
  intros ? [] Hp ?. pose proof (pdu_ok_len _ Hp). unfold send_data_pdu.
  safe_step. safe_step; [done|]. apply to_medium_safe; [done| |done].
  rewrite u16_small by done. split_and!; [|done..|exact Hp].
  apply set_conn_handle_ok; [|done].
  apply fill_hdr_ok; auto with vbt; done.
Qed.

Lemma send_ll_control_safe i c op params ll Q :
  ll_ok ll → conn_ok i c → is_u8 op → bytes_ok params → zlen params ≤ 61 → Q tt ll →
  llsafe (send_ll_control c op params) ll Q.
Proof.
  intros. unfold send_ll_control. safe_step. safe_step; [done|zlen_lia|].
  eapply send_data_pdu_safe; [done..| |done].
  apply (pdu_intro LLID_CONTROL _ (op :: params)); [zlen_lia|lia| |bytes].
  split; [discriminate|reflexivity].
Qed.

Lemma emit_advertisement_safe ll Q :
  ll_ok ll → Q tt ll → llsafe emit_advertisement ll Q.
Proof.
  intros Hll HQ. unfold emit_advertisement.
  pose proof (own_source_addr_ok ll (adv_own_addr_type ll) Hll) as Ha.
  destruct Hll as [] eqn:E. clear E.
  destruct lok_adv_data0 as [Hd Hdl]. pose proof (addr_ok_zlen _ Ha) as Hal.
  assert (Hch : is_u8 37 ∧ is_u8 38 ∧ is_u8 39) by done. destruct Hch as (? & ? & ?).
  safe_step. safe_step; [done|]. safe_step. safe_step; [done..|lia|lia|lia|].
  safe_step. safe_step; [done|zlen_lia|].
  set (pdu := [_; _] ++ _).
  assert (pdu_ok pdu) by (apply (pdu_intro _ _ (own_source_addr _ _ ++ slice _ _ _));
    [zlen_lia|lia|apply u8_range|bytes]).
  do 2 (safe_step; apply send_adv_pdu_safe; auto with vbt).
  apply send_adv_pdu_safe; auto with vbt.
Qed.

Lemma send_scan_rsp_safe ll Q : ll_ok ll → Q tt ll → llsafe send_scan_rsp ll Q.
Proof.
  intros Hll HQ. unfold send_scan_rsp.
  pose proof (own_source_addr_ok ll (adv_own_addr_type ll) Hll) as Ha.
  destruct Hll as [] eqn:E. clear E.
  destruct lok_rsp_data0 as [Hd Hdl]. pose proof (addr_ok_zlen _ Ha) as Hal.
  safe_step. safe_step; [done|]. safe_step. safe_step; [done..|lia|lia|lia|].
  safe_step. safe_step; [done|zlen_lia|].
  apply send_adv_pdu_safe; auto with vbt; [done|].
  apply (pdu_intro _ _ (own_source_addr _ _ ++ slice _ _ _));
    [zlen_lia|lia|apply u8_range|bytes].
Qed.

(** [report_adv] stays inside its local array for at most 30 bytes of
    advertising data. *)
Lemma report_adv_safe e t a d r ll Q :
  ll_ok ll → is_u8 e → is_u8 t → addr_ok a → bytes_ok d → zlen d ≤ 30 → Q tt ll →
  llsafe (report_adv e t a d r) ll Q.
Proof.
  intros Hll ? ? [] ? ? ?. pose proof (zlen_nonneg d).
  apply send_local_safe; [done|unfold le_meta, report_adv_cap; zlen_lia| |done].
  apply le_meta_ok; [zlen_lia|bytes].
Qed.

Lemma send_connect_ind_safe i c a t ll Q :
  ll_ok ll → conn_ok i c → addr_ok a → is_u8 t → Q tt ll →
  llsafe (send_connect_ind a t c) ll Q.
Proof.
  intros Hll ? [] ? ?. unfold send_connect_ind.
  pose proof (own_source_addr_ok ll (init_own_addr_type ll) Hll) as Ha.
  pose proof (addr_ok_zlen _ Ha).
  safe_step. safe_step; [done|]. safe_step.
  safe_step; [done|unfold connect_ind_pdu; zlen_simpl; rewrite zlen_le_split; lia|].
  apply send_adv_pdu_safe; auto with vbt; [done|]. unfold connect_ind_pdu.
  change 34 with (u8 34). apply pdu_intro;
    [zlen_simpl; rewrite zlen_le_split; lia|lia|apply u8_range|bytes].
Qed.

Lemma acl_to_host_safe h d ll Q :
  ll_ok ll → bytes_ok d → Q tt ll → llsafe (acl_to_host h d) ll Q.
Proof.
  intros. unfold acl_to_host. safe_step; [by safe_step|].
  unfold LE_ACL_MTU in *. safe_step.
  safe_step; [done|unfold LE_ACL_MTU; zlen_lia|].
  apply send_hci_safe; [done|right|done].
  eexists _, d. split_and!; [done|apply u16_range|unfold LE_ACL_MTU; lia|done].
Qed.

(** ** Connection table accesses *)

Lemma conn_at_safe {O} i ll Q :
  ll_ok ll → (i < 8)%nat →
  (∀ c, conns ll !! i = Some c → conn_ok i c → Q c ll) → safe ll_ok O (conn_at i) ll Q.
Proof.
  intros Hll Hi HQ. unfold conn_at. safe_step. safe_step; [done|].
  destruct (lookup_lt_is_Some_2 (conns ll) i) as [c Hc]; [by rewrite lok_conns_len|].
  rewrite Hc. pose proof (lok_conns _ Hll _ _ Hc). safe_step; auto.
Qed.

Lemma set_conns_ok ll i c :
  ll_ok ll → (i < 8)%nat → conn_ok i c → ll_ok (set_conns (<[i:=c]> (conns ll)) ll).
Proof.
  intros [] Hi Hc. split; cbn; try done.
  - by rewrite length_insert.
  - intros j d. rewrite list_lookup_insert. case_decide as Hd; [|auto].
    destruct Hd as [-> ?]. by intros [= <-].
Qed.

Lemma conn_set_safe {O} i f ll (Q : unit → vbt_ll → Prop) :
  ll_ok ll → (i < 8)%nat →
  (∀ c, conns ll !! i = Some c → conn_ok i c →
        conn_ok i (f c) ∧ Q tt (set_conns (<[i:=f c]> (conns ll)) ll)) →
  safe ll_ok O (conn_set i f) ll Q.
Proof.
  intros Hll Hi H. unfold conn_set. safe_step. apply conn_at_safe; [done..|].
  intros c Hc Hok. destruct (H c Hc Hok). safe_step; [|done]. by apply set_conns_ok.
Qed.

Lemma conn_by_handle_lt ll h i : ll_ok ll → conn_by_handle ll h = Some i → (i < 8)%nat.
Proof. intros Hll Hi%find_idx_lt. by rewrite lok_conns_len in Hi. Qed.
Lemma conn_by_aa_lt ll h i : ll_ok ll → conn_by_aa ll h = Some i → (i < 8)%nat.
Proof. intros Hll Hi%find_idx_lt. by rewrite lok_conns_len in Hi. Qed.

Lemma conn_alloc_safe {O} ll (Q : option nat → vbt_ll → Prop) :
  ll_ok ll → Q None ll → (∀ i ll', ll_ok ll' → (i < 8)%nat → Q (Some i) ll') →
  safe ll_ok O conn_alloc ll Q.
Proof.
  intros Hll HN HS. unfold conn_alloc. safe_step. safe_step; [done|].
  destruct (find_idx _ _) as [i|] eqn:Hi; [|by safe_step].
  apply find_idx_lt in Hi. rewrite lok_conns_len in Hi by done.
  assert (conn_ok i (set_c_handle (u16 (BASE_CONN_HANDLE + Z.of_nat i))
                       (set_c_active true zero_conn))).
  { unfold BASE_CONN_HANDLE. split; cbn; try done; [|apply u16_range|by left|..].
    - intros _. unfold BASE_CONN_HANDLE. mlia.
    - split; [bytes|done]. }
  safe_step. apply conn_set_safe; [done..|]. intros c _ _. split; [done|].
  pose proof (set_conns_ok ll i _ Hll Hi H). safe_step; auto.
Qed.

Lemma ll_rand32_safe {O} ll (Q : Z → vbt_ll → Prop) :
  ll_ok ll → (∀ r ll', ll_ok ll' → is_u32 r → conns ll' = conns ll →
    ops ll' = ops ll → Q r ll') →
  safe ll_ok O ll_rand32 ll Q.
Proof.
  intros Hll HQ. unfold ll_rand32. safe_step. apply safe_modify.
  all: set (ll' := set_next_aa _ ll).
  all: assert (ll_ok ll') by (destruct Hll; split; cbn; try done; apply u32_range).
  - done.
  - safe_step; [done|]. apply HQ; try done. apply (lok_next_aa _ H).
Qed.

(** ** HCI commands *)

(** A field update that keeps [ll_ok]. *)
Ltac ll_ok_tac :=
  match goal with H : ll_ok _ |- ll_ok _ => destruct H end; split; cbn; try done.

Section Commands.
Context (pkt : list Z) (len plen : Z).
Hypothesis (Hpkt : bytes_ok pkt) (Hbuf : 36 ≤ zlen pkt)
  (Hlen : len ≤ zlen pkt) (Hplen : 0 ≤ plen) (Hfit : 4 + plen ≤ len).
Implicit Types (ll : vbt_ll) (op : Z).

Lemma param_safe {O} k ll (Q : Z → vbt_ll → Prop) :
  ll_ok ll → 0 ≤ k → 4 + k < zlen pkt → (∀ v, is_u8 v → Q v ll) → safe ll_ok O (param pkt k) ll Q.
Proof using Hpkt. intros. apply safe_rd; auto. lia. Qed.

Lemma params_n_safe {O} off n ll (Q : list Z → vbt_ll → Prop) :
  ll_ok ll → 0 ≤ off → 0 ≤ n → 4 + off + n ≤ zlen pkt →
  (∀ v, bytes_ok v → zlen v = n → Q v ll) → safe ll_ok O (params_n pkt off n) ll Q.
Proof using Hpkt. intros. apply safe_rdn; auto; lia. Qed.

Lemma param_handle_safe {O} ll (Q : Z → vbt_ll → Prop) :
  ll_ok ll → (∀ h, is_u16 h → Q h ll) → safe ll_ok O (param_handle pkt) ll Q.
Proof using Hpkt Hbuf.
  intros. unfold param_handle. safe_step. apply param_safe; [done|lia..|]. intros a ?.
  safe_step. apply param_safe; [done|lia..|]. intros b ?. safe_step; [done|].
  auto with vbt.
Qed.

Lemma param_flag_safe {O} ll (Q : bool → vbt_ll → Prop) :
  ll_ok ll → (∀ b, Q b ll) → safe ll_ok O (param_flag pkt plen) ll Q.
Proof using Hpkt Hbuf.
  intros. unfold param_flag. safe_step; [|by safe_step; auto].
  safe_step. apply param_safe; [done|lia..|]. intros v ?. safe_step; auto.
Qed.

Definition nopost : unit → vbt_ll → Prop := λ _ _, True.

Lemma handle_le_create_conn_safe ll :
  ll_ok ll → llsafe (handle_le_create_conn pkt plen) ll nopost.
Proof using Hpkt Hbuf.
  intros. unfold handle_le_create_conn. safe_step; [by apply cmd_status_safe|].
  safe_step. apply param_safe; [done|lia..|]. intros t ?.
  safe_step. safe_step; [by ll_ok_tac|].
  safe_step. apply params_n_safe; [by ll_ok_tac|lia..|]. intros a ??.
  safe_step. safe_step; [by ll_ok_tac|].
  safe_step. apply param_safe; [by ll_ok_tac|lia..|]. intros w ?.
  safe_step. safe_step; [by ll_ok_tac|]. safe_step. safe_step; [by ll_ok_tac|].
  apply cmd_status_safe; [by ll_ok_tac|done..].
Qed.

Lemma replicate_conns_ok i c :
  replicate (Z.to_nat VBT_LL_MAX_CONN) zero_conn !! i = Some c → conn_ok i c.
Proof.
  intros [-> _]%lookup_replicate. split; cbn; try done; [by left|].
  split; [bytes|done].
Qed.

Lemma do_reset_safe op ll : ll_ok ll → llsafe (do_reset op) ll nopost.
Proof.
  intros Hll. unfold do_reset.
  assert (ll_ok (set_conns (replicate (Z.to_nat VBT_LL_MAX_CONN) zero_conn) ll))
    by (ll_ok_tac; apply replicate_conns_ok).
  do 3 (safe_step; safe_step; [by ll_ok_tac|]).
  apply cmd_complete_status_safe; [by ll_ok_tac|done..].
Qed.

Lemma supported_commands_ok :
  bytes_ok supported_commands ∧ zlen supported_commands = 64.
Proof. split; [|done]. apply (bool_decide_unpack _). by vm_compute. Qed.

Lemma do_read_local_commands_safe op ll :
  ll_ok ll → llsafe (do_read_local_commands op) ll nopost.
Proof.
  intros. unfold do_read_local_commands. generalize supported_commands_ok.
  generalize supported_commands as c. intros c [Hb Hl].
  apply cmd_complete_safe; [done|rewrite zlen_cons, Hl; lia|bytes|done].
Qed.

(** [cmd_complete] with a literal parameter list. *)
Ltac reply := apply cmd_complete_safe; [assumption|first [done|zlen_lia]|bytes|done].
Ltac reply_status := apply cmd_complete_status_safe; [by ll_ok_tac|done..].

(** The effect of a command before its reply, whatever is emitted after: it
    keeps the invariant and the callbacks, and emits nothing. *)
Definition pre_ok ll : unit → vbt_ll → Prop := λ _ ll', ops ll' = ops ll.

Lemma set_random_address_pre {O} ll :
  ll_ok ll → safe ll_ok O (when (6 <=? plen)
    (a ← params_n pkt 0 6;
     modify (λ ll, set_random_addr_set true (set_random_addr a ll)))) ll (pre_ok ll).
Proof using Hpkt Hbuf.
  intros. safe_step; [done| |done].
  safe_step. apply params_n_safe; [done|lia..|]. intros a ??.
  safe_step; [by ll_ok_tac|done].
Qed.

Lemma set_adv_parameters_pre {O} ll :
  ll_ok ll → safe ll_ok O (when (15 <=? plen)
    (modify (set_adv_interval_ms 100);;
     t ← param pkt 4; modify (set_adv_type t);;
     o ← param pkt 5; modify (set_adv_own_addr_type o);;
     d ← param pkt 6; modify (set_adv_direct_addr_type d);;
     a ← params_n pkt 7 6; modify (set_adv_direct_addr a))) ll (pre_ok ll).
Proof using Hpkt Hbuf.
  intros. safe_step; [done| |done]. safe_step. safe_step; [by ll_ok_tac|].
  do 3 (safe_step; apply param_safe; [by ll_ok_tac|lia..|]; intros ? ?;
        safe_step; safe_step; [by ll_ok_tac|]).
  safe_step. apply params_n_safe; [by ll_ok_tac|lia..|]. intros a ??.
  safe_step; [by ll_ok_tac|done].
Qed.

Lemma splice_ok d b :
  bytes_ok d → bytes_ok b → zlen d ≤ zlen b →
  bytes_ok (splice 0 d b) ∧ zlen (splice 0 d b) = zlen b.
Proof.
  intros. split; [|apply zlen_splice; lia].
  unfold splice. bytes; by apply Forall_drop.
Qed.

(** The length byte of the command is clamped to 31 before the copy. *)
Lemma clamp31 p : is_u8 p → 0 ≤ (if 31 <? p then 31 else p) ≤ 31.
Proof. unfold is_u8. destruct (Z.ltb_spec 31 p); lia. Qed.

Lemma set_adv_data_pre {O} ll :
  ll_ok ll → safe ll_ok O (when (1 <=? plen)
    (p0 ← param pkt 0;
     modify (set_adv_data_len (if 31 <? p0 then 31 else p0));;
     n ← gets adv_data_len;
     d ← params_n pkt 1 n;
     modify (λ ll, set_adv_data (splice 0 d (adv_data ll)) ll))) ll (pre_ok ll).
Proof using Hpkt Hbuf.
  intros Hll. safe_step; [done| |done].
  safe_step. apply param_safe; [done|lia..|]. intros p Hp%clamp31.
  pose (ll1 := set_adv_data_len (if 31 <? p then 31 else p) ll).
  assert (ll_ok ll1) as H1 by ll_ok_tac.
  safe_step. safe_step; [done|]. safe_step. safe_step; [done|].
  safe_step. cbn [adv_data_len ll1 set_adv_data_len].
  apply params_n_safe; [done|lia..|]. intros d Hd Hdl.
  destruct (lok_adv_data _ Hll) as [Hb Hbl].
  destruct (splice_ok d (adv_data ll) Hd Hb ltac:(lia)) as [? ?].
  safe_step; [|done]. ll_ok_tac. split; [done|cbn; lia].
Qed.

Lemma set_scan_rsp_data_pre {O} ll :
  ll_ok ll → safe ll_ok O (when (1 <=? plen)
    (p0 ← param pkt 0;
     modify (set_scan_rsp_data_len (if 31 <? p0 then 31 else p0));;
     n ← gets scan_rsp_data_len;
     d ← params_n pkt 1 n;
     modify (λ ll, set_scan_rsp_data (splice 0 d (scan_rsp_data ll)) ll))) ll (pre_ok ll).
Proof using Hpkt Hbuf.
  intros Hll. safe_step; [done| |done].
  safe_step. apply param_safe; [done|lia..|]. intros p Hp%clamp31.
  pose (ll1 := set_scan_rsp_data_len (if 31 <? p then 31 else p) ll).
  assert (ll_ok ll1) as H1 by ll_ok_tac.
  safe_step. safe_step; [done|]. safe_step. safe_step; [done|].
  safe_step. cbn [scan_rsp_data_len ll1 set_scan_rsp_data_len].
  apply params_n_safe; [done|lia..|]. intros d Hd Hdl.
  destruct (lok_rsp_data _ Hll) as [Hb Hbl].
  destruct (splice_ok d (scan_rsp_data ll) Hd Hb ltac:(lia)) as [? ?].
  safe_step; [|done]. ll_ok_tac. split; [done|cbn; lia].
Qed.

Lemma set_scan_parameters_pre {O} ll :
  ll_ok ll → safe ll_ok O (when (1 <=? plen)
    (t ← param pkt 0; modify (set_scan_type t);;
     when (6 <=? plen) (o ← param pkt 5; modify (set_scan_own_addr_type o))))
    ll (pre_ok ll).
Proof using Hpkt Hbuf.
  intros. safe_step; [done| |done].
  safe_step. apply param_safe; [done|lia..|]. intros ? ?.
  safe_step. safe_step; [by ll_ok_tac|]. safe_step; [by ll_ok_tac| |done].
  safe_step. apply param_safe; [by ll_ok_tac|lia..|]. intros ? ?.
  safe_step; [by ll_ok_tac|done].
Qed.

(** The state updates of the enable commands. *)
Lemma adv_enable_ok e ll :
  ll_ok ll → ll_ok (let ll := set_adv_enabled e ll in
    if adv_enabled ll then set_last_adv_ms 0 (set_state LL_ADVERTISING ll)
    else if decide (state ll = LL_ADVERTISING) then set_state LL_IDLE ll else ll).
Proof.
  intros. cbn [adv_enabled set_adv_enabled]. destruct e; [|case_decide]; by ll_ok_tac.
Qed.

Lemma scan_enable_ok e ll :
  ll_ok ll → ll_ok (let ll := set_scan_enabled e ll in
    if scan_enabled ll then set_state LL_SCANNING ll
    else if decide (state ll = LL_SCANNING) then set_state LL_IDLE ll else ll).
Proof.
  intros. cbn [scan_enabled set_scan_enabled]. destruct e; [|case_decide]; by ll_ok_tac.
Qed.

(** A state change followed by a success reply. *)
Lemma pre_status_safe (m : LL unit) op ll :
  llsafe m ll (pre_ok ll) → llsafe (m;; cmd_complete_status op HCI_SUCCESS) ll nopost.
Proof.
  intros Hm. safe_step. eapply safe_mono; [exact Hm|]. intros [] ll' ? _.
  by apply cmd_complete_status_safe.
Qed.

Lemma do_set_adv_enable_safe op ll :
  ll_ok ll → llsafe (do_set_adv_enable op pkt plen) ll nopost.
Proof using Hpkt Hbuf.
  intros. unfold do_set_adv_enable. safe_step. apply param_flag_safe; [done|]. intros e.
  safe_step. safe_step; [by ll_ok_tac|]. pose proof (adv_enable_ok e ll H).
  safe_step. safe_step; [done|].
  by apply cmd_complete_status_safe.
Qed.

Lemma do_set_scan_enable_safe op ll :
  ll_ok ll → llsafe (do_set_scan_enable op pkt plen) ll nopost.
Proof using Hpkt Hbuf.
  intros. unfold do_set_scan_enable. safe_step. apply param_flag_safe; [done|]. intros e.
  safe_step. safe_step; [by ll_ok_tac|]. pose proof (scan_enable_ok e ll H).
  safe_step. safe_step; [done|].
  by apply cmd_complete_status_safe.
Qed.

Lemma do_create_conn_cancel_safe op ll :
  ll_ok ll → llsafe (do_create_conn_cancel op) ll nopost.
Proof.
  intros. unfold do_create_conn_cancel. safe_step. apply safe_modify; case_decide.
  all: first [by ll_ok_tac | by reply_status].
Qed.

Lemma do_conn_update_safe op ll :
  ll_ok ll → llsafe (do_conn_update op pkt plen) ll nopost.
Proof using Hpkt Hbuf.
  intros. unfold do_conn_update. safe_step. apply cmd_status_safe; [done..|].
  safe_step; [done| |done]. safe_step. apply param_handle_safe; [done|]. intros h ?.
  safe_step. safe_step; [done|]. destruct (conn_by_handle ll h); [|by safe_step].
  apply send_local_safe; [done|done| |done]. apply le_meta_ok; [done|bytes].
Qed.

Lemma do_read_remote_features_safe op ll :
  ll_ok ll → llsafe (do_read_remote_features op pkt plen) ll nopost.
Proof using Hpkt Hbuf.
  intros. unfold do_read_remote_features. safe_step. apply cmd_status_safe; [done..|].
  safe_step; [done| |done]. safe_step. apply param_handle_safe; [done|]. intros h ?.
  apply send_local_safe; [done|done| |done]. apply le_meta_ok; [done|bytes].
Qed.

Lemma do_read_remote_version_safe op ll :
  ll_ok ll → llsafe (do_read_remote_version op pkt plen) ll nopost.
Proof using Hpkt Hbuf.
  intros. unfold do_read_remote_version. safe_step. apply cmd_status_safe; [done..|].
  safe_step; [done| |done]. safe_step. apply param_handle_safe; [done|]. intros h ?.
  apply send_local_safe; [done|done| |done].
  apply (event_intro EVT_READ_REMOTE_VERSION_CMPL
           [HCI_SUCCESS; lo8 h; hi8 h; 0x0c; 0x3f; 0x00; 0x00; 0x00]); [done|done|bytes].
Qed.

Lemma do_le_rand_safe op ll : ll_ok ll → llsafe (do_le_rand op) ll nopost.
Proof.
  intros. unfold do_le_rand. safe_step. apply ll_rand32_safe; [done|]. intros a ll1 ????.
  safe_step. apply ll_rand32_safe; [done|]. intros b ll2 ????.
  apply cmd_complete_safe; [done| |bytes|done].
  unfold zlen. simpl. lia.
Qed.

Lemma do_le_encrypt_safe op ll :
  ll_ok ll → llsafe (do_le_encrypt op pkt plen) ll nopost.
Proof using Hpkt Hbuf Hlen Hfit.
  intros. unfold do_le_encrypt. safe_step. safe_step.
  - apply params_n_safe; [done|lia..|]. intros v ??.
    apply cmd_complete_safe; [done|zlen_lia|bytes|done].
  - safe_step; [done|]. apply cmd_complete_safe; [done|done|bytes|done].
Qed.

Lemma conn_ok_encrypting i c b : conn_ok i c → conn_ok i (set_c_encrypting b c).
Proof. by intros []; split. Qed.
Lemma conn_ok_encrypted i c b : conn_ok i c → conn_ok i (set_c_encrypted b c).
Proof. by intros []; split. Qed.
Lemma conn_ok_inactive i c : conn_ok i c → conn_ok i (set_c_active false c).
Proof. by intros []; split. Qed.

Lemma do_start_encryption_safe op ll :
  ll_ok ll → llsafe (do_start_encryption op pkt plen) ll nopost.
Proof using Hpkt Hbuf.
  intros Hll. unfold do_start_encryption. safe_step. apply cmd_status_safe; [done..|].
  safe_step; [done| |done]. safe_step. apply param_handle_safe; [done|]. intros h ?.
  safe_step. safe_step; [done|].
  destruct (conn_by_handle ll h) as [i|] eqn:Hi; [|by safe_step].
  apply conn_by_handle_lt in Hi; [|done].
  safe_step. apply conn_set_safe; [done..|]. intros c Hc Hok.
  pose proof (conn_ok_encrypting _ _ true Hok) as Hok'. split; [done|].
  set (ll1 := set_conns _ ll). assert (ll_ok ll1) by by apply set_conns_ok.
  safe_step.
  assert (∀ req, bytes_ok req → zlen req = 22 →
    llsafe (c ← conn_at i; send_ll_control c LL_ENC_REQ req) ll1 nopost) as Hsend.
  { intros req ??. safe_step. apply conn_at_safe; [done..|]. intros c' ? ?.
    eapply send_ll_control_safe; [done..|lia|done]. }
  safe_step.
  - safe_step. apply params_n_safe; [done|lia..|]. intros d ??. safe_step; [done|].
    apply Hsend; [bytes|]. zlen_simpl. rewrite zlen_replicate. lia.
  - safe_step; [done|]. by apply Hsend; [bytes|].
Qed.

Lemma opt_handle_safe {O} ll (Q : Z → vbt_ll → Prop) :
  ll_ok ll → (∀ h, is_u16 h → Q h ll) →
  safe ll_ok O (if 2 <=? plen then param_handle pkt else mret 0) ll Q.
Proof using Hpkt Hbuf.
  intros Hll HQ. safe_step; [by apply param_handle_safe|]. safe_step; [done|]. by apply HQ.
Qed.

Lemma do_ltk_req_reply_safe op ll :
  ll_ok ll → llsafe (do_ltk_req_reply op pkt plen) ll nopost.
Proof using Hpkt Hbuf.
  intros. unfold do_ltk_req_reply. safe_step. apply opt_handle_safe; [done|]. intros h ?.
  safe_step. safe_step; [done|]. safe_step. apply cmd_complete_safe; [done|done|bytes|].
  destruct (conn_by_handle ll h) as [i|] eqn:Hi; [|by safe_step].
  apply conn_by_handle_lt in Hi; [|done].
  safe_step. apply conn_at_safe; [done..|]. intros c ? ?.
  eapply send_ll_control_safe; [done..|bytes|done|done].
Qed.

Lemma do_ltk_req_neg_reply_safe op ll :
  ll_ok ll → llsafe (do_ltk_req_neg_reply op pkt plen) ll nopost.
Proof using Hpkt Hbuf.
  intros. unfold do_ltk_req_neg_reply. safe_step. apply opt_handle_safe; [done|].
  intros h ?. apply cmd_complete_safe; [done|done|bytes|done].
Qed.

Lemma do_disconnect_safe op ll :
  ll_ok ll → llsafe (do_disconnect op pkt plen) ll nopost.
Proof using Hpkt Hbuf.
  intros Hll. unfold do_disconnect. safe_step. apply cmd_status_safe; [done..|].
  safe_step; [done| |done]. safe_step. apply param_handle_safe; [done|]. intros h ?.
  safe_step. apply param_safe; [done|lia..|]. intros r ?.
  safe_step. safe_step; [done|].
  destruct (conn_by_handle ll h) as [i|] eqn:Hi; [|by safe_step].
  apply conn_by_handle_lt in Hi; [|done].
  safe_step. apply conn_at_safe; [done..|]. intros c ? ?.
  safe_step. eapply send_ll_control_safe; [done..|bytes|done|].
  safe_step. apply conn_set_safe; [done..|]. intros c' ? Hok.
  pose proof (conn_ok_inactive _ _ Hok). split; [done|].
  apply evt_disconn_complete_safe; [by apply set_conns_ok|done..].
Qed.

Lemma switch_opcode_safe op ll :
  ll_ok ll → llsafe (switch_opcode op pkt plen) ll nopost.
Proof using Hpkt Hbuf Hlen Hplen Hfit.
  intros Hll. unfold switch_opcode.
  destruct (lok_public _ Hll).
  safe_step; [by apply do_reset_safe|].
  safe_step; [by apply cmd_complete_status_safe|].
  safe_step; [unfold do_read_local_version; reply|].
  safe_step; [by apply do_read_local_commands_safe|].
  safe_step; [unfold do_read_features; destruct (op =? OP_LE_READ_LOCAL_FEATURES); reply|].
  safe_step; [unfold do_read_buffer_size; reply|].
  safe_step; [unfold do_le_read_buffer_size; reply|].
  safe_step; [unfold do_read_bd_addr; safe_step; safe_step; [done|]; reply|].
  safe_step; [reply|].
  safe_step; [reply|].
  safe_step; [unfold do_read_supported_states; reply|].
  safe_step; [by apply pre_status_safe, set_random_address_pre|].
  safe_step; [by apply pre_status_safe, set_adv_parameters_pre|].
  safe_step; [by apply pre_status_safe, set_adv_data_pre|].
  safe_step; [by apply pre_status_safe, set_scan_rsp_data_pre|].
  safe_step; [by apply do_set_adv_enable_safe|].
  safe_step; [by apply pre_status_safe, set_scan_parameters_pre|].
  safe_step; [by apply do_set_scan_enable_safe|].
  safe_step; [by apply handle_le_create_conn_safe|].
  safe_step; [by apply do_create_conn_cancel_safe|].
  safe_step; [by apply do_conn_update_safe|].
  safe_step; [by apply do_read_remote_features_safe|].
  safe_step; [by apply do_le_rand_safe|].
  safe_step; [by apply do_le_encrypt_safe|].
  safe_step; [by apply do_start_encryption_safe|].
  safe_step; [by apply do_ltk_req_reply_safe|].
  safe_step; [by apply do_ltk_req_neg_reply_safe|].
  safe_step; [by apply do_disconnect_safe|].
  safe_step; [by apply do_read_remote_version_safe|].
  unfold do_unknown. safe_step; by apply cmd_complete_status_safe.
Qed.
End Commands.

Lemma dispatch_command_safe pkt len ll :
  ll_ok ll → bytes_ok pkt → 36 ≤ zlen pkt → len ≤ zlen pkt →
  llsafe (dispatch_command pkt len) ll nopost.
Proof.
  intros Hll Hb Hbuf Hlen. unfold dispatch_command. safe_step; [by safe_step|].
  safe_step. safe_step; [done|done|lia|]. safe_step. safe_step; [done|done|lia|].
  safe_step. safe_step; [done|done|lia|].
  destruct (Z.ltb_spec len (4 + v1)).
  - apply switch_opcode_safe with len; try done; mlia.
  - apply switch_opcode_safe with len; try done; mlia.
Qed.

Lemma handle_acl_from_host_safe pkt len ll :
  ll_ok ll → bytes_ok pkt → len ≤ zlen pkt →
  llsafe (handle_acl_from_host pkt len) ll nopost.
Proof.
  intros Hll Hb Hlen. unfold handle_acl_from_host. safe_step; [by safe_step|].
  do 4 (safe_step; safe_step; [done|done|lia|]).
  safe_step. safe_step; [done|].
  destruct (conn_by_handle _ _) as [i|] eqn:Hi; [|by safe_step].
  apply conn_by_handle_lt in Hi; [|done].
  safe_step. apply conn_at_safe; [done..|]. intros c ? ?.
  set (dlen0 := if len <? _ then _ else _).
  assert (0 ≤ dlen0 ∧ 5 + dlen0 ≤ len) as [? ?].
  { unfold dlen0. pose proof (get16_range v1 v2).
    destruct (Z.ltb_spec len (5 + get16 v1 v2)); mlia. }
  set (dlen := if LE_ACL_MTU <? dlen0 then _ else _).
  assert (0 ≤ dlen ∧ dlen ≤ dlen0 ∧ dlen ≤ 251) as (? & ? & ?).
  { unfold dlen, LE_ACL_MTU. destruct (Z.ltb_spec 251 dlen0); lia. }
  safe_step. safe_step; [done|done|lia..|].
  safe_step. safe_step; [done|unfold LE_ACL_MTU; zlen_lia|].
  safe_step. eapply send_data_pdu_safe; [done..| |].
  { apply (pdu_intro LLID_START); [lia|lia|done|done]. }
  by apply evt_num_completed_safe.
Qed.

Lemma vbt_ll_hci_from_host_safe pkt len ll :
  ll_ok ll → bytes_ok pkt → 36 ≤ zlen pkt → len ≤ zlen pkt →
  llsafe (vbt_ll_hci_from_host pkt len) ll nopost.
Proof.
  intros. unfold vbt_ll_hci_from_host. safe_step; [by safe_step|].
  safe_step. safe_step; [done|done|lia|].
  safe_step; [by apply dispatch_command_safe|].
  safe_step; [by apply handle_acl_from_host_safe|by safe_step].
Qed.

(** ** Received PDUs *)

Lemma mark_encrypted_safe i ll :
  ll_ok ll → (i < 8)%nat → llsafe (mark_encrypted i) ll nopost.
Proof.
  intros Hll Hi. unfold mark_encrypted. safe_step. apply conn_at_safe; [done..|].
  intros c ? ?. safe_step; [done| |done]. safe_step. apply conn_set_safe; [done..|].
  intros c' ? Hok. pose proof (conn_ok_encrypted _ _ true Hok) as Hok'. split; [done|].
  pose proof (set_conns_ok ll i _ Hll Hi Hok') as Hll'.
  safe_step. apply conn_at_safe; [done..|]. intros c'' ? ?.
  by apply evt_encrypt_change_safe.
Qed.

Lemma ll_enc_req_safe i payload plen ll :
  ll_ok ll → (i < 8)%nat → bytes_ok payload → plen ≤ zlen payload →
  llsafe (ll_enc_req i payload plen) ll nopost.
Proof.
  intros Hll Hi Hb Hl. unfold ll_enc_req. safe_step. apply conn_set_safe; [done..|].
  intros c ? Hok. pose proof (conn_ok_encrypting _ _ true Hok) as Hok'. split; [done|].
  pose proof (set_conns_ok ll i _ Hll Hi Hok') as Hll'. revert Hll'.
  generalize (set_conns (<[i:=set_c_encrypting true c]> (conns ll)) ll). intros ll' Hll'.
  assert (∀ r e, bytes_ok r → zlen r = 8 → bytes_ok e → zlen e = 2 →
    llsafe (c ← conn_at i;
            send_ll_control c LL_ENC_RSP (replicate 12 0);;
            evt_le_ltk_request c r e) ll' nopost) as Htail.
  { intros. safe_step. apply conn_at_safe; [done..|]. intros c' ? ?.
    safe_step. eapply send_ll_control_safe; [done..|bytes|done|].
    by apply evt_le_ltk_request_safe. }
  safe_step. safe_step.
  - safe_step. safe_step; [done|done|lia..|]. safe_step. safe_step; [done|done|lia..|].
    safe_step; [done|]. by apply Htail.
  - safe_step; [done|]. apply Htail; first [done|bytes].
Qed.

Lemma handle_ll_control_safe i payload plen ll :
  ll_ok ll → (i < 8)%nat → bytes_ok payload → plen ≤ zlen payload →
  llsafe (handle_ll_control i payload plen) ll nopost.
Proof.
  intros Hll Hi Hb Hl. unfold handle_ll_control. safe_step; [by safe_step|].
  assert (∀ op params, is_u8 op → bytes_ok params → zlen params ≤ 61 →
    llsafe (c ← conn_at i; send_ll_control c op params) ll nopost) as Hctl.
  { intros. safe_step. apply conn_at_safe; [done..|]. intros c ? ?.
    by eapply send_ll_control_safe. }
  safe_step. safe_step; [done|done|lia|].
  safe_step.
  { assert (∀ r, is_u8 r → llsafe (c ← conn_at i; let h := c_handle c in
       conn_set i (set_c_active false);; evt_disconn_complete h r) ll nopost) as Hterm.
    { intros r ?. safe_step. apply conn_at_safe; [done..|]. intros c ? ?. cbv zeta.
      safe_step. apply conn_set_safe; [done..|]. intros c' ? Hok.
      pose proof (conn_ok_inactive _ _ Hok). split; [done|].
      apply evt_disconn_complete_safe; [by apply set_conns_ok|done..]. }
    safe_step. safe_step; [safe_step; [done|done|lia|]|safe_step; [done|]]; by apply Hterm. }
  safe_step; [apply Hctl; [done|bytes|done]|].
  safe_step; [apply Hctl; [done|bytes|done]|].
  safe_step; [by apply ll_enc_req_safe|].
  safe_step; [by safe_step|].
  safe_step.
  { safe_step. apply conn_at_safe; [done..|]. intros c ? ?.
    safe_step. eapply send_ll_control_safe; [done..|bytes|done|]. by apply mark_encrypted_safe. }
  safe_step; [by apply mark_encrypted_safe|by safe_step].
Qed.

Lemma new_access_addr_u32 r : is_u32 r → is_u32 (new_access_addr r).
Proof.
  intros Hr. unfold new_access_addr.
  assert (0 ≤ Z.lor (Z.land r 0x7fffffff) 0x00400000 < 2 ^ 31) as Hlt.
  { split; [apply Z.lor_nonneg; split; [apply Z.land_nonneg|]; lia|].
    assert (0 ≤ Z.land r 0x7fffffff < 2 ^ 31).
    { change 0x7fffffff with (Z.ones 31). rewrite Z.land_ones by lia.
      apply Z.mod_pos_bound. lia. }
    destruct (Z.eq_dec (Z.lor (Z.land r 0x7fffffff) 0x00400000) 0) as [->|]; [lia|].
    apply Z.log2_lt_pow2.
    - pose proof (proj2 (Z.lor_nonneg (Z.land r 0x7fffffff) 0x00400000)). lia.
    - rewrite Z.log2_lor by lia. apply Z.max_lub_lt; [|done].
      destruct (Z.eq_dec (Z.land r 0x7fffffff) 0) as [->|]; [done|].
      apply Z.log2_lt_pow2; lia. }
  destruct (Z.eqb_spec (Z.lor (Z.land r 0x7fffffff) 0x00400000) VBT_ADV_ACCESS_ADDR) as [E|].
  - rewrite E in Hlt. unfold VBT_ADV_ACCESS_ADDR in Hlt. lia.
  - unfold is_u32. lia.
Qed.

Lemma conn_set_safe' {O} i f ll (Q : unit → vbt_ll → Prop) :
  ll_ok ll → (i < 8)%nat → (∀ c, conn_ok i c → conn_ok i (f c)) →
  (∀ ll', ll_ok ll' → Q tt ll') → safe ll_ok O (conn_set i f) ll Q.
Proof.
  intros Hll Hi Hf HQ. apply conn_set_safe; [done..|]. intros c _ Hok.
  split; [auto|]. apply HQ. apply set_conns_ok; auto.
Qed.

(** Updating one field of a connection keeps [conn_ok]. *)
Ltac conn_ok_tac := intros ? []; split; cbn; auto.

Lemma initiate_safe adva txadd ll :
  ll_ok ll → addr_ok adva → is_u8 txadd → llsafe (initiate adva txadd) ll nopost.
Proof.
  intros Hll Ha Ht. unfold initiate. safe_step.
  apply conn_alloc_safe; [done|by safe_step|]. intros i ll1 H1 Hi.
  safe_step. apply ll_rand32_safe; [done|]. intros r ll2 H2 Hr _ _.
  pose proof (new_access_addr_u32 _ Hr).
  do 4 (safe_step; apply conn_set_safe'; [done|done|by conn_ok_tac|]; intros ? ?).
  safe_step. apply conn_at_safe; [done..|]. intros c ? ?.
  safe_step. eapply send_connect_ind_safe; [done..|].
  do 2 (safe_step; safe_step; [by ll_ok_tac|]).
  eapply evt_le_conn_complete_safe; [by ll_ok_tac|done..].
Qed.

Lemma adv_event_type_u8 t : is_u8 (adv_event_type t).
Proof. unfold adv_event_type. repeat destruct (_ =? _); done. Qed.

Lemma send_scan_req_safe adva txadd ll :
  ll_ok ll → addr_ok adva → is_u8 txadd → llsafe (send_scan_req adva txadd) ll nopost.
Proof.
  intros Hll [] Ht. unfold send_scan_req.
  pose proof (own_source_addr_ok ll (scan_own_addr_type ll) Hll) as Ha.
  pose proof (addr_ok_zlen _ Ha).
  safe_step. safe_step; [done|]. safe_step. safe_step; [done|zlen_lia|].
  apply send_adv_pdu_safe; auto with vbt; [done| |done]. change 12 with (u8 12).
  apply pdu_intro; [zlen_lia|lia|apply u8_range|bytes].
Qed.

(** The advertising data of a received PDU: what [report_adv] would copy. *)
Definition ad_len_of (pdu : list Z) (plen : Z) : Z :=
  clip_body (default 0 (pdu !! 1%nat)) plen - 6.

Section Receive.
Context (hdr : vbt_frame_hdr) (pdu : list Z) (plen body_len : Z).
Hypothesis (Hpdu : bytes_ok pdu) (Hlen : plen ≤ zlen pdu)
  (Hbody : 0 ≤ body_len ≤ 255) (Hfit : 2 + body_len ≤ plen).
Implicit Types (ll : vbt_ll).

Lemma rx_adv_ind_safe type txadd ll :
  ll_ok ll → is_u8 txadd → (scan_enabled ll = true → body_len - 6 ≤ 30) →
  llsafe (rx_adv_ind hdr pdu type txadd body_len) ll nopost.
Proof using Hpdu Hlen Hbody Hfit.
  intros Hll Ht Had. unfold rx_adv_ind. safe_step; [by safe_step|].
  safe_step. safe_step; [done|done|lia..|]. safe_step. safe_step; [done|].
  safe_step; [by apply initiate_safe|].
  assert (u8 (body_len - 6) = body_len - 6) as -> by (apply u8_small; unfold is_u8; lia).
  safe_step; [done| |done]. safe_step. safe_step; [done|done|lia..|].
  safe_step. pose proof (adv_event_type_u8 type).
  apply report_adv_safe; try done.
  { match goal with H : zlen (slice 8 _ _) = _ |- _ => rewrite H end. by apply Had. }
  safe_step; [done| |done]. by apply send_scan_req_safe.
Qed.

Lemma rx_scan_req_safe ll : ll_ok ll → llsafe (rx_scan_req pdu body_len) ll nopost.
Proof using Hpdu Hlen Hfit.
  intros. unfold rx_scan_req. safe_step. safe_step; [done|]. safe_step; [done| |done].
  apply andb_true_iff in H0 as [_ ?]. safe_step. safe_step; [done|done|lia..|].
  safe_step; [done| |done]. by apply send_scan_rsp_safe.
Qed.

Lemma rx_scan_rsp_safe txadd ll :
  ll_ok ll → is_u8 txadd → (scan_enabled ll = true → body_len - 6 ≤ 30) →
  llsafe (rx_scan_rsp hdr pdu txadd body_len) ll nopost.
Proof using Hpdu Hlen Hbody Hfit.
  intros Hll Ht Had. unfold rx_scan_rsp. safe_step. safe_step; [done|].
  safe_step; [done| |done]. apply andb_true_iff in H as [Hs ?].
  assert (u8 (body_len - 6) = body_len - 6) as -> by (apply u8_small; unfold is_u8; lia).
  safe_step. safe_step; [done|done|lia..|]. safe_step. safe_step; [done|done|lia..|].
  apply report_adv_safe; try done.
  match goal with H : zlen (slice 8 _ _) = _ |- _ => rewrite H end. by apply Had.
Qed.

Lemma rx_connect_ind_safe ll : ll_ok ll → llsafe (rx_connect_ind pdu body_len) ll nopost.
Proof using Hpdu Hlen Hfit.
  intros Hll. unfold rx_connect_ind. safe_step. safe_step; [done|].
  safe_step; [by safe_step|]. apply orb_false_iff in H as [_ ?].
  safe_step. safe_step; [done|done|lia..|]. safe_step. safe_step; [done|done|lia..|].
  safe_step; [by safe_step|]. safe_step.
  apply conn_alloc_safe; [done|by safe_step|]. intros i ll1 H1' Hi.
  safe_step. safe_step; [done|done|lia..|].
  assert (is_u32 (le_join (slice 14 4 pdu))).
  { pose proof (le_join_range (slice 14 4 pdu) ltac:(done)) as Hr.
    unfold zlen in *. replace (length (slice 14 4 pdu)) with 4%nat in Hr by lia.
    exact Hr. }
  do 2 (safe_step; apply conn_set_safe'; [done|done|by conn_ok_tac|]; intros ? ?).
  safe_step. safe_step; [done|done|lia|].
  assert (is_u8 (if Z.testbit v 6 then 1 else 0)) by (destruct (Z.testbit v 6); done).
  do 2 (safe_step; apply conn_set_safe'; [done|done|by conn_ok_tac|]; intros ? ?).
  do 2 (safe_step; safe_step; [by ll_ok_tac|]).
  safe_step. apply conn_at_safe; [by ll_ok_tac|done|]. intros c ? ?.
  eapply evt_le_conn_complete_safe; [by ll_ok_tac|done..].
Qed.
End Receive.

Lemma clip_body_bounds b plen :
  is_u8 b → 2 ≤ plen → 0 ≤ clip_body b plen ≤ 255 ∧ 2 + clip_body b plen ≤ plen.
Proof. unfold clip_body. intros. destruct (Z.ltb_spec plen (2 + b)); mlia. Qed.

Lemma rx_adv_safe hdr pdu plen ll :
  ll_ok ll → bytes_ok pdu → 2 ≤ plen ≤ zlen pdu →
  (scan_enabled ll = true → ad_len_of pdu plen ≤ 30) →
  llsafe (rx_adv hdr pdu plen) ll nopost.
Proof.
  intros Hll Hb Hl Had. unfold rx_adv.
  safe_step. safe_step; [done|done|lia|]. safe_step. safe_step; [done|done|lia|].
  destruct (clip_body_bounds v0 plen) as [? ?]; [done|lia|].
  unfold ad_len_of in Had. change 1%nat with (Z.to_nat 1) in Had. rewrite H1 in Had.
  cbn [default] in Had.
  assert (is_u8 (if Z.testbit v 6 then 1 else 0)) by (destruct (Z.testbit v 6); done).
  safe_step; [apply rx_adv_ind_safe with plen; try done; lia|].
  safe_step; [apply rx_scan_req_safe with plen; try done; lia|].
  safe_step; [apply rx_scan_rsp_safe with plen; try done; lia|].
  safe_step; [apply rx_connect_ind_safe with plen; try done; lia|by safe_step].
Qed.

Lemma rx_data_safe hdr pdu plen ll :
  ll_ok ll → bytes_ok pdu → 2 ≤ plen ≤ zlen pdu → llsafe (rx_data hdr pdu plen) ll nopost.
Proof.
  intros Hll Hb Hl. unfold rx_data. safe_step. safe_step; [done|].
  destruct (conn_by_aa _ _) as [i|] eqn:Hi; [|by safe_step].
  apply conn_by_aa_lt in Hi; [|done].
  safe_step. safe_step; [done|done|lia|]. safe_step. safe_step; [done|done|lia|].
  destruct (clip_body_bounds v0 plen) as [? ?]; [done|lia|].
  safe_step.
  - apply handle_ll_control_safe; [done|done|by apply Forall_drop|].
    unfold zlen in *. rewrite length_drop. lia.
  - safe_step; [done| |done]. safe_step. apply conn_at_safe; [done..|]. intros c ? ?.
    safe_step. safe_step; [done|done|lia..|]. by apply acl_to_host_safe.
Qed.

Lemma vbt_ll_pdu_from_medium_safe hdr pdu plen ll :
  ll_ok ll → bytes_ok pdu → plen ≤ zlen pdu →
  (ll_type hdr = VBT_LL_ADV → scan_enabled ll = true → ad_len_of pdu plen ≤ 30) →
  llsafe (vbt_ll_pdu_from_medium hdr pdu plen) ll nopost.
Proof.
  intros ??? Had. unfold vbt_ll_pdu_from_medium. safe_step; [by safe_step|].
  safe_step; [apply rx_adv_safe; try done; [lia|]; intros; apply Had; [lia|done]|].
  safe_step; [apply rx_data_safe; try done; lia|by safe_step].
Qed.

Lemma vbt_ll_tick_safe t ll : ll_ok ll → llsafe (vbt_ll_tick t) ll nopost.
Proof.
  intros. unfold vbt_ll_tick. safe_step. safe_step; [done|].
  safe_step; [done| |done]. safe_step; [done| |done].
  safe_step. apply emit_advertisement_safe; [done|]. safe_step; [by ll_ok_tac|done].
Qed.

Lemma vbt_ll_new_ok o a : addr_ok a → ll_ok (vbt_ll_new o a).
Proof.
  intros [Ha Hl]. destruct (zlen_6 _ Hl) as (a0&a1&a2&a3&a4&a5&->).
  split; cbn -[u32 Z.mul]; try done; try (by split; [bytes|done]).
  - apply replicate_conns_ok.
  - apply u32_range.
Qed.
