(* ===== verification/LLProps.v ===== *)
(** * The controller core: correctness

    The controller as a state machine over its three inputs, its invariant on
    every reachable state, the command/acknowledgement discipline, the bounds
    of the advertising-report buffer and of the advertising-data copy, the
    Access Address generator and the advertising timer. *)

From stdpp Require Import base list numbers option relations.
From Stdlib Require Import ZArith Lia.
From S2P Require Import Prelude Wire LLState LLEmit LLCmd LLAir LLInv.

(** ** The state machine *)

Inductive input : Type :=
  | InHci (pkt : list Z) (len : Z)
  | InPdu (hdr : vbt_frame_hdr) (pdu : list Z) (plen : Z)
  | InTick (now_ms : Z).

Definition ll_input (i : input) : LL unit :=
  match i with
  | InHci pkt len => vbt_ll_hci_from_host pkt len
  | InPdu hdr pdu plen => vbt_ll_pdu_from_medium hdr pdu plen
  | InTick t => vbt_ll_tick t
  end.

(** What the transports guarantee of an input: HCI packets arrive in a buffer
    of [VBT_MAX_MSG_SIZE] bytes, PDUs in the receive buffer behind a header;
    and, because of the size of [report_adv]'s array, that a scanning
    controller is handed at most 30 bytes of advertising data. *)
Definition input_ok (ll : vbt_ll) (i : input) : Prop :=
  match i with
  | InHci pkt len => bytes_ok pkt ∧ zlen pkt = VBT_MAX_MSG_SIZE ∧ len ≤ zlen pkt
  | InPdu hdr pdu plen =>
      bytes_ok pdu ∧ plen ≤ zlen pdu ∧
      (ll_type hdr = VBT_LL_ADV → scan_enabled ll = true → ad_len_of pdu plen ≤ 30)
  | InTick _ => True
  end.

Inductive ll_step : vbt_ll → vbt_ll → Prop :=
  | ll_step_input i ll ll' o :
      input_ok ll i → ll_input i ll = Ok (tt, ll', o) → ll_step ll ll'.

(** The states a controller can be in. *)
Definition ll_reachable (a : list Z) (o : vbt_ll_ops) (ll : vbt_ll) : Prop :=
  rtc ll_step (vbt_ll_new o a) ll.

Lemma ll_input_safe i ll : ll_ok ll → input_ok ll i → llsafe (ll_input i) ll nopost.
Proof.
  intros Hll. destruct i as [pkt len|hdr pdu plen|t]; simpl.
  - intros (? & E & ?). apply vbt_ll_hci_from_host_safe; try done.
    rewrite E. unfold VBT_MAX_MSG_SIZE, VBT_HDR_SIZE, VBT_MAX_PDU_SIZE. lia.
  - intros (? & ? & ?). by apply vbt_ll_pdu_from_medium_safe.
  - intros _. by apply vbt_ll_tick_safe.
Qed.

Lemma ll_step_ok ll ll' : ll_ok ll → ll_step ll ll' → ll_ok ll'.
Proof.
  intros Hll Hs. destruct Hs as [i ll ll' o Hi E].
  pose proof (ll_input_safe _ _ Hll Hi) as H. unfold safe, wp in H. rewrite E in H.
  by destruct H.
Qed.

Lemma ll_reachable_ok a o ll : addr_ok a → ll_reachable a o ll → ll_ok ll.
Proof.
  intros Ha%(vbt_ll_new_ok o). unfold ll_reachable. revert Ha.
  generalize (vbt_ll_new o a). intros s Hs. induction 1; eauto using ll_step_ok.
Qed.

(** C1: In every reachable state of a controller, every admissible input (HCI
    packet, PDU from the medium, tick) is handled without undefined behaviour,
    leads to a well-formed state, and hands the transport only well-formed HCI
    packets and medium frames, their length fields agreeing with their
    contents. *)
Theorem controller_safe a o ll i :
  addr_ok a → ll_reachable a o ll → input_ok ll i →
  ∃ ll' outs, ll_input i ll = Ok (tt, ll', outs) ∧ ll_ok ll' ∧ Forall out_ok outs.
Proof.
  intros Ha Hr Hi.
  pose proof (ll_input_safe _ _ (ll_reachable_ok _ _ _ Ha Hr) Hi) as H.
  apply wp_elim in H as ([] & ll' & outs & E & ? & ? & _). eauto.
Qed.

(** ** One acknowledgement per command *)

(** The packet acknowledges [op]: Command Complete or Command Status. *)
Definition acks (op : Z) (pkt : list Z) : Prop :=
  (∃ n k params, pkt = [HCI_EVT_PKT; EVT_CMD_COMPLETE; n; k; lo8 op; hi8 op] ++ params
                 ∧ 1 ≤ k) ∨
  (∃ st k, pkt = [HCI_EVT_PKT; EVT_CMD_STATUS; 4; st; k; lo8 op; hi8 op] ∧ 1 ≤ k).

(** Any event that is not an acknowledgement. *)
Definition not_ack (o : out) : Prop :=
  match o with
  | ToHost pkt => pkt !! 1%nat ≠ Some EVT_CMD_COMPLETE ∧ pkt !! 1%nat ≠ Some EVT_CMD_STATUS
  | ToMedium _ _ => True
  end.

Abbreviation quiet := (safe ll_ok not_ack).

Lemma send_local_quiet cap pkt ll Q :
  ll_ok ll → zlen pkt ≤ cap → not_ack (ToHost pkt) → Q tt ll →
  quiet (local_buf cap pkt ≫= send_hci) ll Q.
Proof.
  intros. safe_step. safe_step; [done|done|]. unfold send_hci. safe_step.
  safe_step; [done|]. safe_step; [done| |done]. by safe_step.
Qed.

Lemma send_ll_control_quiet c op params ll Q :
  ll_ok ll → zlen params ≤ 61 → Q tt ll → quiet (send_ll_control c op params) ll Q.
Proof.
  intros. unfold send_ll_control. safe_step. safe_step; [done|zlen_lia|].
  unfold send_data_pdu, to_medium. safe_step. safe_step; [done|]. safe_step.
  safe_step; [done|]. safe_step; [done| |done]. by safe_step.
Qed.

(** [m] acknowledges [op] first and then emits no further acknowledgement. *)
Definition answers (op : Z) (m : LL unit) (ll : vbt_ll) : Prop :=
  wp m ll (λ _ ll' o, ∃ a r, o = ToHost a :: r ∧ acks op a ∧ Forall not_ack r).

Lemma cmd_credits_pos ll : ll_ok ll → 1 ≤ cmd_credits ll.
Proof.
  intros []. unfold cmd_credits. destruct (Z.eqb_spec (num_hci_cmd ll) 0); [done|].
  unfold is_u8 in *. lia.
Qed.

Section Answers.
Context (pkt : list Z) (plen op : Z).
Hypothesis (Hpkt : bytes_ok pkt) (Hbuf : 36 ≤ zlen pkt).
Implicit Types (ll : vbt_ll).

(** The host callback is installed. *)
Definition host_up ll : Prop := hci_to_host (ops ll) = true.

Lemma cmd_complete_answers ret ll :
  ll_ok ll → host_up ll → zlen ret ≤ 252 → answers op (cmd_complete op ret) ll.
Proof.
  intros Hll Hup Hr. unfold answers, cmd_complete. wp_step. wp_step. wp_step.
  apply wp_local_buf; [zlen_lia|]. unfold send_hci. wp_step. wp_step. rewrite Hup.
  apply wp_emit. eexists _, []. split; [reflexivity|]. split; [|done].
  left. eexists _, (cmd_credits ll), ret. split; [reflexivity|by apply cmd_credits_pos].
Qed.

(** A status reply, followed by steps that send no acknowledgement. *)
Lemma cmd_status_then st (k : LL unit) ll :
  ll_ok ll → host_up ll → quiet k ll nopost → answers op (cmd_status op st;; k) ll.
Proof.
  intros Hll Hup Hk. unfold answers, cmd_status. wp_step. wp_step. wp_step. wp_step.
  apply wp_local_buf; [done|]. unfold send_hci. wp_step. wp_step. rewrite Hup.
  apply wp_emit. eapply wp_mono; [exact Hk|]. intros [] ll' o (_ & Ho & _).
  eexists _, o. split; [reflexivity|]. split; [|done].
  right. exists st, (cmd_credits ll). split; [done|by apply cmd_credits_pos].
Qed.


Lemma cmd_complete_then ret (k : LL unit) ll :
  ll_ok ll → host_up ll → zlen ret ≤ 252 → quiet k ll nopost →
  answers op (cmd_complete op ret;; k) ll.
Proof.
  intros Hll Hup Hr Hk. unfold answers, cmd_complete. wp_step. wp_step. wp_step. wp_step.
  apply wp_local_buf; [zlen_lia|]. unfold send_hci. wp_step. wp_step. rewrite Hup.
  apply wp_emit. eapply wp_mono; [exact Hk|]. intros [] ll' o (_ & Ho & _).
  eexists _, o. split; [reflexivity|]. split; [|done].
  left. eexists _, (cmd_credits ll), ret. split; [reflexivity|by apply cmd_credits_pos].
Qed.

Lemma cmd_status_answers st ll :
  ll_ok ll → host_up ll → answers op (cmd_status op st) ll.
Proof.
  intros Hll Hup. unfold answers, cmd_status. wp_step. wp_step. wp_step.
  apply wp_local_buf; [done|]. unfold send_hci. wp_step. wp_step. rewrite Hup.
  apply wp_emit. eexists _, []. split; [reflexivity|]. split; [|done].
  right. exists st, (cmd_credits ll). split; [done|by apply cmd_credits_pos].
Qed.

(** Steps that emit nothing, before the reply. *)
Lemma answers_bind {A} (p : LL A) (f : A → LL unit) ll :
  safe ll_ok (λ _, False) p ll (λ a ll', answers op (f a) ll') → answers op (p ≫= f) ll.
Proof.
  unfold safe, answers. intros H. wp_step. eapply wp_mono; [exact H|].
  intros a ll' [|? o] (_ & Ho & Hf); [exact Hf|]. by inversion Ho.
Qed.

Lemma pre_status_answers (m : LL unit) st ll :
  host_up ll → safe ll_ok (λ _, False) m ll (pre_ok ll) →
  answers op (m;; cmd_complete_status op st) ll.
Proof.
  intros Hup Hm. apply answers_bind. eapply safe_mono; [exact Hm|]. intros [] ll' ? E.
  apply cmd_complete_answers; [done| |done]. unfold host_up. by rewrite E.
Qed.

Lemma answers_if (b : bool) (m k : LL unit) ll :
  (b = true → answers op m ll) → (b = false → answers op k ll) →
  answers op (if b then m else k) ll.
Proof. destruct b; auto. Qed.

Lemma create_conn_answers ll :
  op = OP_LE_CREATE_CONN → ll_ok ll → host_up ll →
  answers op (handle_le_create_conn pkt plen) ll.
Proof using Hpkt Hbuf.
  intros E ? Hup. unfold handle_le_create_conn. rewrite <- E.
  apply answers_if; intros ?; [by apply cmd_status_answers|].
  apply answers_bind, param_safe; [done|done|lia..|]. intros t ?.
  apply answers_bind. safe_step; [by ll_ok_tac|].
  apply answers_bind, params_n_safe; [done|by ll_ok_tac|lia..|]. intros a ??.
  apply answers_bind. safe_step; [by ll_ok_tac|].
  apply answers_bind, param_safe; [done|by ll_ok_tac|lia..|]. intros w ?.
  do 2 (apply answers_bind; safe_step; [by ll_ok_tac|]).
  apply cmd_status_answers; [by ll_ok_tac|done].
Qed.

Lemma enable_answers ll :
  ll_ok ll → host_up ll →
  answers op (do_set_adv_enable op pkt plen) ll ∧
  answers op (do_set_scan_enable op pkt plen) ll.
Proof using Hpkt Hbuf.
  intros Hll Hup. split.
  all: apply answers_bind, param_flag_safe; [done|done|done|]; intros e.
  all: apply answers_bind; safe_step; [by ll_ok_tac|].
  all: apply answers_bind, safe_modify;
    [first [apply (adv_enable_ok e ll Hll) | apply (scan_enable_ok e ll Hll)]|].
  all: apply cmd_complete_answers;
    [first [apply (adv_enable_ok e ll Hll) | apply (scan_enable_ok e ll Hll)]| |done].
  all: unfold host_up; cbn [adv_enabled set_adv_enabled scan_enabled set_scan_enabled].
  all: destruct e; [done|]; by case_decide.
Qed.

Lemma reset_cancel_answers ll :
  ll_ok ll → host_up ll →
  answers op (do_reset op) ll ∧ answers op (do_create_conn_cancel op) ll.
Proof.
  intros Hll Hup. split.
  - assert (ll_ok (set_conns (replicate (Z.to_nat VBT_LL_MAX_CONN) zero_conn) ll))
      by (ll_ok_tac; apply replicate_conns_ok). clear Hll.
    do 3 (apply answers_bind; safe_step; [by ll_ok_tac|]).
    apply cmd_complete_answers; [by ll_ok_tac|done|done].
  - apply answers_bind, safe_modify; case_decide; try (by ll_ok_tac).
    all: apply cmd_complete_answers; [by ll_ok_tac|done|done].
Qed.

Lemma rand_encrypt_answers len ll :
  ll_ok ll → host_up ll → len ≤ zlen pkt → 4 + plen ≤ len →
  answers op (do_le_rand op) ll ∧ answers op (do_le_encrypt op pkt plen) ll.
Proof using Hpkt Hbuf.
  intros Hll Hup ??. unfold host_up in *. split.
  - apply answers_bind, ll_rand32_safe; [done|]. intros a ll1 ??? E1.
    apply answers_bind, ll_rand32_safe; [done|]. intros b ll2 ??? E2.
    apply cmd_complete_answers; [done| |done]. unfold host_up. by rewrite E2, E1.
  - apply answers_bind. safe_step.
    + apply params_n_safe; [done|done|lia..|]. intros v ??.
      apply cmd_complete_answers; [done|done|]. zlen_lia.
    + safe_step; [done|]. by apply cmd_complete_answers.
Qed.

Ltac not_ack_tac := split; cbn; intros [=].

Lemma handle_events_answer ll :
  ll_ok ll → host_up ll →
  answers op (do_conn_update op pkt plen) ll ∧
  answers op (do_read_remote_features op pkt plen) ll ∧
  answers op (do_read_remote_version op pkt plen) ll.
Proof using Hpkt Hbuf.
  intros Hll Hup. split_and!.
  all: apply cmd_status_then; [done|done|]; safe_step; [done| |done].
  all: safe_step; apply param_handle_safe; [done|done|done|]; intros h ?.
  - safe_step. safe_step; [done|]. destruct (conn_by_handle ll h); [|by safe_step].
    by apply send_local_quiet; [done|done|not_ack_tac|].
  - by apply send_local_quiet; [done|done|not_ack_tac|].
  - by apply send_local_quiet; [done|done|not_ack_tac|].
Qed.

Lemma start_encryption_answers ll :
  ll_ok ll → host_up ll → answers op (do_start_encryption op pkt plen) ll.
Proof using Hpkt Hbuf.
  intros Hll Hup. apply cmd_status_then; [done|done|]. safe_step; [done| |done].
  safe_step. apply param_handle_safe; [done|done|done|]. intros h ?.
  safe_step. safe_step; [done|].
  destruct (conn_by_handle ll h) as [i|] eqn:Hi; [|by safe_step].
  apply conn_by_handle_lt in Hi; [|done].
  safe_step. apply conn_set_safe'; [done|done|by conn_ok_tac|]. intros ll1 ?.
  safe_step.
  assert (∀ req, zlen req = 22 →
    quiet (c ← conn_at i; send_ll_control c LL_ENC_REQ req) ll1 nopost) as Hsend.
  { intros req ?. safe_step. apply conn_at_safe; [done..|]. intros c' ? ?.
    apply send_ll_control_quiet; [done|lia|done]. }
  safe_step.
  - safe_step. apply params_n_safe; [done|done|lia..|]. intros d ??. safe_step; [done|].
    apply Hsend. zlen_simpl. rewrite zlen_replicate. lia.
  - safe_step; [done|]. by apply Hsend.
Qed.

Lemma ltk_answers ll :
  ll_ok ll → host_up ll →
  answers op (do_ltk_req_reply op pkt plen) ll ∧
  answers op (do_ltk_req_neg_reply op pkt plen) ll.
Proof using Hpkt Hbuf.
  intros Hll Hup. split.
  all: apply answers_bind, opt_handle_safe; [done|done|done|]; intros h ?.
  - apply answers_bind. safe_step; [done|]. apply cmd_complete_then; [done|done|done|].
    destruct (conn_by_handle ll h) as [i|] eqn:Hi; [|by safe_step].
    apply conn_by_handle_lt in Hi; [|done].
    safe_step. apply conn_at_safe; [done..|]. intros c ? ?.
    by apply send_ll_control_quiet.
  - by apply cmd_complete_answers.
Qed.

Lemma disconnect_answers ll :
  ll_ok ll → host_up ll → answers op (do_disconnect op pkt plen) ll.
Proof using Hpkt Hbuf.
  intros Hll Hup. apply cmd_status_then; [done|done|]. safe_step; [done| |done].
  safe_step. apply param_handle_safe; [done|done|done|]. intros h ?.
  safe_step. apply param_safe; [done|done|lia..|]. intros r ?.
  safe_step. safe_step; [done|].
  destruct (conn_by_handle ll h) as [i|] eqn:Hi; [|by safe_step].
  apply conn_by_handle_lt in Hi; [|done].
  safe_step. apply conn_at_safe; [done..|]. intros c ? ?.
  safe_step. apply send_ll_control_quiet; [done|done|].
  safe_step. apply conn_set_safe'; [done|done|by conn_ok_tac|]. intros ll1 ?.
  by apply send_local_quiet; [done|done|not_ack_tac|].
Qed.

Ltac literal := apply cmd_complete_answers; [assumption|assumption|done].

Lemma switch_answers len ll :
  ll_ok ll → host_up ll → len ≤ zlen pkt → 0 ≤ plen → 4 + plen ≤ len →
  answers op (switch_opcode op pkt plen) ll.
Proof using Hpkt Hbuf.
  intros Hll Hup Hl Hp Hf. unfold switch_opcode.
  destruct (enable_answers ll Hll Hup) as [? ?].
  destruct (reset_cancel_answers ll Hll Hup) as [? ?].
  destruct (rand_encrypt_answers len ll Hll Hup Hl Hf) as [? ?].
  destruct (handle_events_answer ll Hll Hup) as (? & ? & ?).
  destruct (ltk_answers ll Hll Hup) as [? ?].
  apply answers_if; [done|intros _].
  apply answers_if; [intros _; literal|intros _].
  apply answers_if; [intros _; unfold do_read_local_version; literal|intros _].
  apply answers_if; [intros _; unfold do_read_local_commands; literal|intros _].
  apply answers_if; [intros _; unfold do_read_features;
    destruct (op =? OP_LE_READ_LOCAL_FEATURES); literal|intros _].
  apply answers_if; [intros _; unfold do_read_buffer_size; literal|intros _].
  apply answers_if; [intros _; unfold do_le_read_buffer_size; literal|intros _].
  apply answers_if; [intros _|intros _].
  { pose proof (addr_ok_zlen _ (lok_public _ Hll)). unfold do_read_bd_addr.
    apply answers_bind. safe_step; [done|].
    apply cmd_complete_answers; [done|done|zlen_lia]. }
  apply answers_if; [intros _; literal|intros _].
  apply answers_if; [intros _; literal|intros _].
  apply answers_if; [intros _; unfold do_read_supported_states; literal|intros _].
  apply answers_if; [intros _; by apply pre_status_answers, set_random_address_pre|intros _].
  apply answers_if; [intros _; by apply pre_status_answers, set_adv_parameters_pre|intros _].
  apply answers_if; [intros _; by apply pre_status_answers, set_adv_data_pre|intros _].
  apply answers_if; [intros _; by apply pre_status_answers, set_scan_rsp_data_pre|intros _].
  apply answers_if; [done|intros _].
  apply answers_if; [intros _; by apply pre_status_answers, set_scan_parameters_pre|intros _].
  apply answers_if; [done|intros _].
  apply answers_if; [intros E; apply create_conn_answers; [lia|done|done]|intros _].
  do 4 (apply answers_if; [done|intros _]).
  apply answers_if; [done|intros _].
  apply answers_if; [intros _; by apply start_encryption_answers|intros _].
  do 2 (apply answers_if; [done|intros _]).
  apply answers_if; [intros _; by apply disconnect_answers|intros _].
  apply answers_if; [done|intros _].
  unfold do_unknown. apply answers_if; intros _; literal.
Qed.
End Answers.

(** C13: Every HCI command packet (at least its 4-byte header) that a
    controller with a host callback receives is answered by exactly one
    Command Complete or Command Status event: it carries the command's opcode
    and at least one command credit, it is emitted before anything else, and no
    other acknowledgement follows.  Unknown opcodes included. *)
Theorem command_answered ll pkt len b1 b2 :
  ll_ok ll → hci_to_host (ops ll) = true →
  bytes_ok pkt → 36 ≤ zlen pkt → 4 ≤ len ≤ zlen pkt →
  pkt !! 1%nat = Some b1 → pkt !! 2%nat = Some b2 →
  ∃ ll' ack rest, dispatch_command pkt len ll = Ok (tt, ll', ToHost ack :: rest) ∧
    acks (get16 b1 b2) ack ∧ Forall not_ack rest.
Proof.
  intros Hll Hup Hb Hbuf Hlen H1 H2.
  enough (answers (get16 b1 b2) (dispatch_command pkt len) ll) as H.
  { apply wp_elim in H as ([] & ll' & o & E & a & r & -> & ? & ?). eauto 10. }
  unfold dispatch_command. destruct (Z.ltb_spec len 4); [lia|].
  apply answers_bind. safe_step; [done|done|lia|].
  apply answers_bind. safe_step; [done|done|lia|].
  apply answers_bind. safe_step; [done|done|lia|].
  assert (v = b1) as -> by (change (Z.to_nat 1) with 1%nat in *; congruence).
  assert (v0 = b2) as -> by (change (Z.to_nat 2) with 2%nat in *; congruence).
  apply switch_answers with len; try done; try lia.
  all: destruct (Z.ltb_spec len (4 + v1)); mlia.
Qed.

(** A fresh controller with both callbacks, and an HCI Reset in a transport
    buffer. *)
Definition demo_ll : vbt_ll := vbt_ll_new (Ops true true) [2; 190; 1; 2; 3; 4].
Definition in_buf (pkt : list Z) : list Z :=
  pkt ++ replicate (Z.to_nat VBT_MAX_MSG_SIZE - length pkt) 0.

Lemma demo_ll_ok : ll_ok demo_ll.
Proof. apply vbt_ll_new_ok. split; [bytes|done]. Qed.

Lemma in_buf_ok pkt :
  bytes_ok pkt → zlen pkt ≤ VBT_MAX_MSG_SIZE →
  bytes_ok (in_buf pkt) ∧ zlen (in_buf pkt) = VBT_MAX_MSG_SIZE.
Proof.
  intros. unfold in_buf. split; [bytes|]. rewrite zlen_app, zlen_replicate.
  unfold zlen, VBT_MAX_MSG_SIZE, VBT_HDR_SIZE, VBT_MAX_PDU_SIZE in *. lia.
Qed.

(** The host turns scanning on; then an advertisement arrives. *)
Definition scan_on : list Z := in_buf [1; 0x0c; 0x20; 2; 1; 0].
Definition demo_scanning : vbt_ll :=
  match ll_input (InHci scan_on 6) demo_ll with Ok (_, ll, _) => ll | Fault _ => demo_ll end.
Definition heard_adv : input :=
  InPdu (Hdr VBT_MAGIC VBT_VERSION 11 VBT_ADV_ACCESS_ADDR 0 0 0 [1; 2; 3; 4; 5; 6] 0 VBT_LL_ADV 37 VBT_PHY_1M 0 0 0
    (replicate 6 0)) [0; 9; 1; 2; 3; 4; 5; 6; 2; 1; 6] 11.

Lemma controller_safe_witness :
  ∃ ll' outs, ll_input heard_adv demo_scanning = Ok (tt, ll', outs) ∧ ll_ok ll' ∧ Forall out_ok outs.
Proof.
  apply (controller_safe [2; 190; 1; 2; 3; 4] (Ops true true)).
  - split; [by repeat constructor|done].
  - apply rtc_once. eapply (ll_step_input (InHci scan_on 6)); [|vm_compute; reflexivity].
    destruct (in_buf_ok [1; 0x0c; 0x20; 2; 1; 0]) as [Hb Hl]; [bytes|done|].
    split; [done|]. split; [done|]. unfold scan_on. rewrite Hl. done.
  - split; [bytes|]. split; [done|]. by vm_compute.
Defined.

Lemma command_answered_witness :
  ∃ ll' ack rest, dispatch_command (in_buf [1; 3; 12; 0]) 4 demo_ll
                  = Ok (tt, ll', ToHost ack :: rest) ∧
    acks OP_RESET ack ∧ Forall not_ack rest.
Proof.
  destruct (in_buf_ok [1; 3; 12; 0]) as [Hb Hl]; [bytes|done|].
  apply (command_answered demo_ll (in_buf [1; 3; 12; 0]) 4 3 12);
    [apply demo_ll_ok|done|done|rewrite Hl; done|rewrite Hl; done|done|done].
Defined.

(** ** Bounds of the advertising report *)

(** A controller that is scanning and not initiating. *)
Definition scanning (ll : vbt_ll) : Prop :=
  scan_enabled ll = true ∧ state ll ≠ LL_INITIATING.

(** An ADV_IND PDU with [data] as its AdvData. *)
Definition adv_ind_pdu (b0 : Z) (adva data : list Z) : list Z :=
  [b0; 6 + zlen data] ++ adva ++ data.

(** What a scanning controller does with a well-formed ADV_IND. *)
Lemma rx_adv_ind_scanning ll h b0 adva data :
  scanning ll → ll_type h = VBT_LL_ADV → Z.land b0 15 = 0 → addr_ok adva → zlen data ≤ 249 →
  vbt_ll_pdu_from_medium h (adv_ind_pdu b0 adva data) (8 + zlen data) ll =
  (report_adv 0 (if Z.testbit b0 6 then 1 else 0) adva data (rssi h);;
   when (scan_type ll =? 1) (send_scan_req adva (if Z.testbit b0 6 then 1 else 0))) ll.
Proof.
  intros [Hs Hi] Ht Hb [_ Hal] Hd. pose proof (zlen_nonneg data).
  destruct (zlen_6 _ Hal) as (a0&a1&a2&a3&a4&a5&->).
  unfold vbt_ll_pdu_from_medium. rewrite if_false by lia. rewrite Ht.
  unfold rx_adv, adv_ind_pdu. rewrite if_true by done.
  rewrite (bind_rd _ 0 b0) by done. rewrite (bind_rd _ 1 (6 + zlen data)) by done.
  cbv zeta. generalize (if Z.testbit b0 6 then 1 else 0). intros tx.
  unfold VBT_ADV_PDU_TYPE_MASK. rewrite Hb. rewrite if_true by done.
  unfold clip_body. rewrite if_false by lia. unfold rx_adv_ind. rewrite if_false by lia.
  rewrite bind_rdn by (rewrite ?zlen_app; unfold zlen; simpl; lia). cbv zeta. exec.
  rewrite bool_decide_false by done. cbn [andb].
  rewrite when_true by done. rewrite u8_small by (unfold is_u8; lia).
  rewrite bind_rdn by (rewrite ?zlen_app; unfold zlen in *; simpl; lia).
  replace (slice 8 (6 + zlen data - 6) _) with data.
  - cbn [Z.eqb VBT_ADV_IND orb]. by rewrite andb_true_r.
  - rewrite app_assoc, slice_app_r by done. symmetry. apply slice_all. 
    change (8 - _) with 0. lia.
Qed.

(** C23: The array [report_adv] fills is one byte too short for a legal
    advertisement: a scanning controller that receives an ADV_IND with 31 (or
    more) bytes of advertising data writes past the end of it. *)
Theorem report_adv_overflow ll h b0 adva data :
  scanning ll → ll_type h = VBT_LL_ADV → Z.land b0 15 = 0 → addr_ok adva →
  31 ≤ zlen data ≤ 249 →
  vbt_ll_pdu_from_medium h (adv_ind_pdu b0 adva data) (8 + zlen data) ll = Fault OobWrite.
Proof.
  intros ? ? ? [Ha Hal] ?. rewrite rx_adv_ind_scanning by (done || lia).
  apply bind_fault. unfold report_adv. apply bind_fault, local_buf_fault.
  unfold le_meta, report_adv_cap. zlen_lia.
Qed.

(** A scanning controller, and the header of an advertising frame. *)
Definition demo_scan_ll : vbt_ll :=
  set_scan_enabled true (set_state LL_SCANNING demo_ll).
Definition demo_adv_hdr (n : Z) : vbt_frame_hdr :=
  fill_hdr VBT_LL_ADV VBT_ADV_ACCESS_ADDR 37 [9; 8; 7; 6; 5; 4] 0 n.

Lemma report_adv_overflow_witness :
  vbt_ll_pdu_from_medium (demo_adv_hdr 39)
    (adv_ind_pdu 0 [9; 8; 7; 6; 5; 4] (replicate 31 0xff)) 39 demo_scan_ll = Fault OobWrite.
Proof.
  apply (report_adv_overflow demo_scan_ll (demo_adv_hdr 39) 0 [9; 8; 7; 6; 5; 4]
           (replicate 31 0xff)); [by split|done|done|by split; [bytes|]|done].
Defined.

(** With at most 30 bytes of data the advertisement is reported to the
    host as an LE Advertising Report that carries the event type, the address
    type, AdvA, the data and the RSSI of the frame; an active scanner then asks
    the advertiser for its scan response. *)
Theorem advertisement_reported ll h b0 adva data :
  ll_ok ll → ops ll = Ops true true →
  scanning ll → ll_type h = VBT_LL_ADV → Z.land b0 15 = 0 → addr_ok adva → zlen data ≤ 30 →
  let txadd := if Z.testbit b0 6 then 1 else 0 in
  let sa := own_source_addr ll (scan_own_addr_type ll) in
  let st := own_source_addr_type ll (scan_own_addr_type ll) in
  vbt_ll_pdu_from_medium h (adv_ind_pdu b0 adva data) (8 + zlen data) ll =
  Ok (tt, ll,
      ToHost (le_meta ([SUB_LE_ADV_REPORT; 1; 0; txadd] ++ adva ++
                       [zlen data] ++ data ++ [u8 (rssi h)])) ::
      (if scan_type ll =? 1 then
         [ToMedium (fill_hdr VBT_LL_ADV VBT_ADV_ACCESS_ADDR 37 sa st 14)
            ([u8 (Z.lor (Z.lor VBT_SCAN_REQ (hdr_bit st 6)) (hdr_bit txadd 7)); 12]
             ++ sa ++ adva)]
       else [])).
Proof.
  intros Hll Hops ? ? ? [Ha Hal] Hd txadd sa st. pose proof (zlen_nonneg data).
  pose proof (addr_ok_zlen _ (own_source_addr_ok ll (scan_own_addr_type ll) Hll)) as Hsl.
  rewrite rx_adv_ind_scanning by (done || (split; done) || lia).
  unfold report_adv. rewrite u8_small by (unfold is_u8; lia). exec.
  rewrite bind_local_buf by (unfold le_meta, report_adv_cap; zlen_lia).
  unfold send_hci. exec. rewrite Hops. cbn [hci_to_host when]. rewrite bind_emit.
  destruct (scan_type ll =? 1); [|done]. cbn [when].
  unfold send_scan_req. exec. rewrite bind_local_buf by zlen_lia.
  unfold send_adv_pdu, to_medium. exec. rewrite Hops. cbn [pdu_to_medium when].
  unfold emit. rewrite !zlen_app, Hal, Hsl. done.
Qed.

Lemma advertisement_reported_witness :
  ∃ outs, vbt_ll_pdu_from_medium (demo_adv_hdr 11)
    (adv_ind_pdu 0 [9; 8; 7; 6; 5; 4] [2; 1; 6]) 11 demo_scan_ll = Ok (tt, demo_scan_ll, outs).
Proof.
  eexists. apply (advertisement_reported demo_scan_ll (demo_adv_hdr 11) 0 [9; 8; 7; 6; 5; 4]
                    [2; 1; 6]); [|done|by split|done|done|by split; [bytes|]|done].
  pose proof demo_ll_ok. by ll_ok_tac.
Defined.
