(* ===== verification/LLLink.v ===== *)
(** * Two controllers and the air between them

    What one controller hands to the medium, the other understands: a
    connection is opened at both ends with the same Access Address, and ACL
    data of one host reaches the other.  The medium may change the RSSI and
    the flags of a header, never the fields the receiver acts on. *)

From stdpp Require Import base list numbers option.
From Stdlib Require Import ZArith Lia.
From S2P Require Import Prelude Wire LLState LLEmit LLCmd LLAir LLInv LLProps.

(** Two headers the receiver treats alike. *)
Definition same_air (h h' : vbt_frame_hdr) : Prop :=
  ll_type h' = ll_type h ∧ access_addr h' = access_addr h.

Definition both_ways (ll : vbt_ll) : Prop := ops ll = Ops true true.

Lemma conn_at_run i c ll : conns ll !! i = Some c → conn_at i ll = Ok (c, ll, []).
Proof. intros E. unfold conn_at. rewrite bind_get. by rewrite E. Qed.
Lemma conn_set_run i c f ll :
  conns ll !! i = Some c → conn_set i f ll = Ok (tt, set_conns (<[i := f c]> (conns ll)) ll, []).
Proof. intros E. unfold conn_set. by erewrite bind_silent by by apply conn_at_run. Qed.

Lemma to_medium_run h pdu ll :
  both_ways ll → to_medium h pdu ll = Ok (tt, ll, [ToMedium h pdu]).
Proof. intros Ho. unfold to_medium. rewrite bind_gets, Ho. done. Qed.
Lemma send_hci_run pkt ll : both_ways ll → send_hci pkt ll = Ok (tt, ll, [ToHost pkt]).
Proof. intros Ho. unfold send_hci. rewrite bind_gets, Ho. done. Qed.

(** ** ACL data *)

(** An H4 ACL packet with handle and flags [hf]. *)
Definition acl_packet (hf : Z) (data : list Z) : list Z :=
  [HCI_ACL_PKT; lo8 hf; hi8 hf; lo8 (zlen data); hi8 (zlen data)] ++ data.
Definition completed_packet (handle : Z) : list Z :=
  [HCI_EVT_PKT; EVT_NUM_COMPLETED_PACKETS; 5; 1; lo8 handle; hi8 handle; 1; 0].

(** The data PDU a controller sends for ACL data on connection [c]. *)
Definition acl_hdr (ll : vbt_ll) (c : ll_conn) (data : list Z) : vbt_frame_hdr :=
  set_conn_handle (c_handle c)
    (fill_hdr VBT_LL_DATA (c_access_addr c) 5 (own_source_addr ll (conn_own_type ll c))
      (own_source_addr_type ll (conn_own_type ll c)) (2 + zlen data)).
Definition acl_pdu (data : list Z) : list Z := [LLID_START; zlen data] ++ data.

Lemma acl_sent ll i c hf data tail :
  both_ways ll → is_u16 hf → conn_by_handle ll (Z.land hf 0xfff) = Some i →
  conns ll !! i = Some c → zlen data ≤ LE_ACL_MTU →
  vbt_ll_hci_from_host (acl_packet hf data ++ tail) (5 + zlen data) ll =
    Ok (tt, ll, [ToMedium (acl_hdr ll c data) (acl_pdu data);
                 ToHost (completed_packet (Z.land hf 0xfff))]).
Proof.
  intros Ho Hhf Hi Hc Hd. pose proof (zlen_nonneg data). unfold LE_ACL_MTU in Hd.
  unfold vbt_ll_hci_from_host. rewrite if_false by lia.
  unfold acl_packet. erewrite bind_rd by done. rewrite if_false by done. rewrite if_true by done.
  unfold handle_acl_from_host. rewrite if_false by lia.
  do 4 (erewrite bind_rd by done). cbv zeta.
  rewrite !get16_lo_hi by (done || mlia).
  rewrite (if_false _ _ (5 + zlen data <? 5 + zlen data)) by lia. exec. rewrite Hi.
  erewrite bind_silent by by apply conn_at_run. rewrite (if_false _ _ (LE_ACL_MTU <? zlen data)) by (unfold LE_ACL_MTU; lia).
  assert (slice 5 (zlen data) (([HCI_ACL_PKT; lo8 hf; hi8 hf; lo8 (zlen data);
    hi8 (zlen data)] ++ data) ++ tail) = data) as Hs.
  { rewrite <- app_assoc, slice_app_r by done. apply slice_app_exact. }
  rewrite bind_rdn, Hs by (rewrite ?zlen_app; pose proof (zlen_nonneg tail); zlen_lia).
  rewrite bind_local_buf by (unfold LE_ACL_MTU; zlen_lia).
  unfold send_data_pdu. exec. erewrite bind_ok by by apply to_medium_run.
  unfold evt_num_completed. rewrite bind_local_buf by done. rewrite send_hci_run by done.
  rewrite u8_small by mlia. unfold acl_hdr, acl_pdu. rewrite zlen_app.
  change (zlen [LLID_START; zlen data]) with 2. by rewrite u16_small by mlia.
Qed.

Lemma acl_received ll j c hdr data :
  both_ways ll → ll_type hdr = VBT_LL_DATA → conn_by_aa ll (access_addr hdr) = Some j →
  conns ll !! j = Some c → is_u16 (Z.lor (c_handle c) (Z.shiftl 2 12)) →
  1 ≤ zlen data ≤ LE_ACL_MTU →
  vbt_ll_pdu_from_medium hdr (acl_pdu data) (2 + zlen data) ll =
    Ok (tt, ll, [ToHost (acl_packet (Z.lor (c_handle c) (Z.shiftl 2 12)) data)]).
Proof.
  intros Ho Ht Hj Hc Hhf Hd. unfold LE_ACL_MTU in Hd. unfold vbt_ll_pdu_from_medium.
  rewrite if_false by lia. rewrite Ht. cbn [Z.eqb VBT_LL_DATA VBT_LL_ADV Pos.eqb].
  unfold rx_data. exec. rewrite Hj. do 2 (erewrite bind_rd by done). cbv zeta.
  change (Z.land LLID_START 3 =? LLID_CONTROL) with false. cbv iota.
  assert (clip_body (zlen data) (2 + zlen data) = zlen data) as ->.
  { unfold clip_body. by rewrite if_false by lia. }
  rewrite when_true by (change (Z.land LLID_START 3 =? LLID_START) with true; cbn [orb andb]; lia).
  erewrite bind_silent by by apply conn_at_run.
  assert (slice 2 (zlen data) (acl_pdu data) = data) as Hs.
  { unfold acl_pdu. rewrite slice_app_r by done. by apply slice_all. }
  rewrite bind_rdn, Hs by (unfold acl_pdu; rewrite ?zlen_app; zlen_lia).
  unfold acl_to_host. cbv zeta. rewrite if_false by (unfold LE_ACL_MTU; lia).
  rewrite bind_local_buf by (unfold LE_ACL_MTU; zlen_lia). rewrite u16_small by done.
  by apply send_hci_run.
Qed.

(** A live connection has the handle of its slot. *)
Lemma live_handle ll aa j c :
  ll_ok ll → conn_by_aa ll aa = Some j → conns ll !! j = Some c →
  c_handle c = BASE_CONN_HANDLE + Z.of_nat j ∧ (j < 8)%nat.
Proof.
  intros Hll Hj Hc. pose proof (lookup_lt_Some _ _ _ Hc) as Hlt. rewrite (lok_conns_len _ Hll) in Hlt.
  split; [|done]. apply find_idx_sat in Hj as (c' & Hc' & [Ha _]%andb_true_iff).
  rewrite Hc in Hc'. injection Hc' as <-. by apply (lok_conns _ Hll j c Hc).
Qed.

Lemma handle_flags_u16 j : (j < 8)%nat → is_u16 (Z.lor (BASE_CONN_HANDLE + Z.of_nat j) (Z.shiftl 2 12)).
Proof. intros. do 8 (destruct j as [|j]; [done|]). lia. Qed.

(** The frame that carries ACL data is well-formed. *)
Lemma acl_frame_ok ll i c data :
  ll_ok ll → conns ll !! i = Some c → bytes_ok data → 1 ≤ zlen data ≤ LE_ACL_MTU →
  frame_ok (acl_hdr ll c data) (acl_pdu data).
Proof.
  intros Hll Hc Hb Hd. pose proof (lok_conns _ Hll i c Hc) as Hcok. unfold LE_ACL_MTU in Hd.
  split_and!; [|done..| |].
  - apply set_conn_handle_ok; [|apply Hcok].
    apply fill_hdr_ok; [done|apply Hcok|done|by apply own_source_addr_ok|
      apply own_source_addr_type_u8|mlia].
  - unfold acl_pdu. rewrite zlen_app. done.
  - exists LLID_START, data. split_and!; [done|lia|done|done].
Qed.

(** ACL data is delivered.  An ACL packet of up to 251 bytes that one host
    writes on a connection goes out as one well-formed data PDU with the
    connection's Access Address, is acknowledged to the host, and the other
    end of the connection hands its host the same bytes under its own
    handle, whatever RSSI and TTL the medium puts into the header.  The
    packet boundary flag is not preserved: every packet arrives as the first
    fragment of a message. *)
Theorem acl_delivered (A B : vbt_ll) (i j : nat) (ca cb : ll_conn) (hf : Z) (data tail : list Z) :
  ll_ok A → ll_ok B → both_ways A → both_ways B → is_u16 hf →
  conn_by_handle A (Z.land hf 0xfff) = Some i → conns A !! i = Some ca →
  conn_by_aa B (c_access_addr ca) = Some j → conns B !! j = Some cb →
  bytes_ok data → bytes_ok tail → 1 ≤ zlen data ≤ LE_ACL_MTU →
  ∃ hdr pdu, vbt_ll_hci_from_host (acl_packet hf data ++ tail) (5 + zlen data) A =
      Ok (tt, A, [ToMedium hdr pdu; ToHost (completed_packet (Z.land hf 0xfff))]) ∧
    frame_ok hdr pdu ∧ access_addr hdr = c_access_addr ca ∧
    ∀ hdr', same_air hdr hdr' →
      vbt_ll_pdu_from_medium hdr' pdu (pdu_len hdr) B =
        Ok (tt, B, [ToHost (acl_packet (Z.lor (c_handle cb) (Z.shiftl 2 12)) data)]).
Proof.
  intros HA HB HoA HoB Hhf Hi Hca Hj Hcb Hb Ht Hd.
  destruct (live_handle _ _ _ _ HB Hj Hcb) as [Hh Hj8].
  exists (acl_hdr A ca data), (acl_pdu data). split.
  { eapply acl_sent; [done..|lia]. }
  assert (frame_ok (acl_hdr A ca data) (acl_pdu data)) as Hok by by apply (acl_frame_ok _ i).
  split; [done|]. split; [done|]. intros hdr' [Hty Haa].
  change (pdu_len (acl_hdr A ca data)) with (2 + zlen data).
  apply (acl_received _ j cb); [done|done|by rewrite Haa|done| |done].
  rewrite Hh. by apply handle_flags_u16.
Qed.

(** ** Opening a connection *)

(** The advertisement a controller puts on the air. *)
Definition adv_air_pdu (ll : vbt_ll) : list Z :=
  [u8 (Z.lor (adv_pdu_type ll) (hdr_bit (own_source_addr_type ll (adv_own_addr_type ll)) 6));
   6 + adv_data_len ll] ++
  own_source_addr ll (adv_own_addr_type ll) ++ slice 0 (adv_data_len ll) (adv_data ll).
Definition adv_air_hdr (ll : vbt_ll) (ch : Z) : vbt_frame_hdr :=
  fill_hdr VBT_LL_ADV VBT_ADV_ACCESS_ADDR ch (own_source_addr ll (adv_own_addr_type ll))
    (own_source_addr_type ll (adv_own_addr_type ll)) (8 + adv_data_len ll).

Lemma adv_air_len ll : ll_ok ll → zlen (adv_air_pdu ll) = 8 + adv_data_len ll.
Proof.
  intros Hll. unfold adv_air_pdu. rewrite !zlen_app.
  rewrite (addr_ok_zlen _ (own_source_addr_ok ll _ Hll)). pose proof (lok_adv_len _ Hll).
  rewrite zlen_slice by (rewrite ?(proj2 (lok_adv_data _ Hll)); lia). zlen_lia.
Qed.

Lemma advertised ll :
  ll_ok ll → both_ways ll →
  emit_advertisement ll = Ok (tt, ll, [ToMedium (adv_air_hdr ll 37) (adv_air_pdu ll);
    ToMedium (adv_air_hdr ll 38) (adv_air_pdu ll); ToMedium (adv_air_hdr ll 39) (adv_air_pdu ll)]).
Proof.
  intros Hll Ho. pose proof (adv_air_len _ Hll) as Hl. pose proof (lok_adv_len _ Hll).
  unfold emit_advertisement. exec.
  rewrite bind_rdn by (rewrite ?(proj2 (lok_adv_data _ Hll)); lia).
  rewrite (u8_small (6 + adv_data_len ll)) by mlia. fold (adv_air_pdu ll).
  rewrite bind_local_buf by lia. unfold send_adv_pdu. rewrite Hl, u16_small by mlia.
  do 2 (erewrite bind_ok by by apply to_medium_run). by rewrite to_medium_run.
Qed.

(** The fresh connection in slot [i]. *)
Definition opened (i : nat) (aa role : Z) (addr : list Z) (atype : Z) : ll_conn :=
  LLConn true (BASE_CONN_HANDLE + Z.of_nat i) aa role addr atype false false.

Lemma conn_set_again i f c l ll :
  (i < length l)%nat →
  conn_set i f (set_conns (<[i:=c]> l) ll) = Ok (tt, set_conns (<[i:=f c]> l) ll, []).
Proof.
  intros Hi. erewrite conn_set_run by by apply list_lookup_insert_eq.
  cbn [conns set_conns]. by rewrite list_insert_insert_eq.
Qed.
Lemma conn_at_again i c l ll :
  (i < length l)%nat →
  conn_at i (set_conns (<[i:=c]> l) ll) = Ok (c, set_conns (<[i:=c]> l) ll, []).
Proof. intros Hi. apply conn_at_run. by apply list_lookup_insert_eq. Qed.

Definition free_slot (ll : vbt_ll) (i : nat) : Prop :=
  find_idx (λ c, negb (c_active c)) (conns ll) = Some i.

Lemma conn_alloc_run i ll :
  ll_ok ll → free_slot ll i →
  conn_alloc ll = Ok (Some i, set_conns (<[i:=opened i 0 0 (replicate 6 0) 0]> (conns ll)) ll, []).
Proof.
  intros Hll Hi. pose proof (find_idx_lt _ _ _ Hi) as Hlt. rewrite (lok_conns_len _ Hll) in Hlt.
  unfold conn_alloc. exec. rewrite Hi. apply find_idx_sat in Hi as (c & Hc & _).
  erewrite bind_silent by by apply conn_set_run.
  rewrite u16_small by (unfold BASE_CONN_HANDLE; mlia). done.
Qed.

(** The LE Connection Complete event for [c]. *)
Definition conn_complete_packet (c : ll_conn) : list Z :=
  le_meta ([SUB_LE_CONN_COMPLETE; HCI_SUCCESS; lo8 (c_handle c); hi8 (c_handle c);
            c_role c; c_peer_addr_type c] ++ c_peer_addr c ++
           [0x18; 0x00; 0x00; 0x00; 0x2a; 0x00; 0x00]).

Lemma conn_complete_run c ll :
  both_ways ll → zlen (c_peer_addr c) = 6 →
  evt_le_conn_complete c HCI_SUCCESS ll = Ok (tt, ll, [ToHost (conn_complete_packet c)]).
Proof.
  intros Ho Hp. unfold evt_le_conn_complete. rewrite bind_local_buf; [by apply send_hci_run|].
  unfold le_meta. zlen_lia.
Qed.

Definition next_rand (ll : vbt_ll) : Z := u32 (u32 (next_aa ll * 1664525) + 1013904223).
Definition init_aa (ll : vbt_ll) : Z := new_access_addr (next_rand ll).

(** The state of an initiator after it has opened [c] in slot [i]. *)
Definition after_initiate (ll : vbt_ll) (i : nat) (c : ll_conn) : vbt_ll :=
  set_scan_enabled false (set_state LL_IDLE
    (set_conns (<[i:=c]> (conns ll)) (set_next_aa (next_rand ll) ll))).
Definition connect_air_hdr (ll : vbt_ll) : vbt_frame_hdr :=
  fill_hdr VBT_LL_ADV VBT_ADV_ACCESS_ADDR 37 (own_source_addr ll (init_own_addr_type ll))
    (own_source_addr_type ll (init_own_addr_type ll)) 36.
Definition connect_air_pdu (ll : vbt_ll) (adva : list Z) (txadd : Z) : list Z :=
  connect_ind_pdu (own_source_addr_type ll (init_own_addr_type ll)) txadd
    (own_source_addr ll (init_own_addr_type ll)) adva (init_aa ll).

Lemma initiate_run ll i adva txadd :
  ll_ok ll → both_ways ll → free_slot ll i → addr_ok adva →
  let c := opened i (init_aa ll) 0 adva txadd in
  initiate adva txadd ll =
    Ok (tt, after_initiate ll i c,
        [ToMedium (connect_air_hdr ll) (connect_air_pdu ll adva txadd);
         ToHost (conn_complete_packet c)]).
Proof.
  intros Hll Ho Hi Ha c. pose proof (find_idx_lt _ _ _ Hi) as Hlt.
  unfold initiate. erewrite bind_silent by by apply conn_alloc_run.
  unfold ll_rand32. exec. change (next_aa (set_next_aa _ _)) with (next_rand ll).
  set (ll1 := set_next_aa (next_rand ll) ll).
  change (set_next_aa _ (set_conns ?l ll)) with (set_conns l ll1).
  do 4 (erewrite bind_silent by by apply conn_set_again).
  erewrite bind_silent by by apply conn_at_again. fold (init_aa ll).
  change (set_c_peer_addr _ _) with c. set (ll2 := set_conns _ ll1).
  pose proof (addr_ok_zlen _ (own_source_addr_ok ll (init_own_addr_type ll) Hll)) as Hsl.
  assert (zlen (connect_air_pdu ll adva txadd) = 36) as Hpl.
  { unfold connect_air_pdu, connect_ind_pdu. rewrite !zlen_app, zlen_le_split, Hsl, (addr_ok_zlen _ Ha).
    done. }
  assert (send_connect_ind adva txadd c ll2 =
    Ok (tt, ll2, [ToMedium (connect_air_hdr ll) (connect_air_pdu ll adva txadd)])) as Hsend.
  { unfold send_connect_ind. exec.
    change (connect_ind_pdu _ _ _ _ _) with (connect_air_pdu ll adva txadd).
    rewrite bind_local_buf by lia. unfold send_adv_pdu. rewrite Hpl. by apply to_medium_run. }
  erewrite bind_ok by exact Hsend. exec. rewrite conn_complete_run; [done|done|apply Ha].
Qed.

(** An initiator answers the advertisement of its target. *)
Lemma initiator_hears ll h b0 data :
  state ll = LL_INITIATING → ll_type h = VBT_LL_ADV → Z.land b0 15 = 0 →
  addr_ok (init_peer_addr ll) → zlen data ≤ 31 →
  vbt_ll_pdu_from_medium h (adv_ind_pdu b0 (init_peer_addr ll) data) (8 + zlen data) ll =
  initiate (init_peer_addr ll) (if Z.testbit b0 6 then 1 else 0) ll.
Proof.
  intros Hs Ht Hb [_ Hal] Hd. pose proof (zlen_nonneg data).
  unfold vbt_ll_pdu_from_medium. rewrite if_false by lia. rewrite Ht.
  unfold rx_adv, adv_ind_pdu. rewrite if_true by done.
  rewrite (bind_rd _ 0 b0) by done. rewrite (bind_rd _ 1 (6 + zlen data)) by done.
  cbv zeta. generalize (if Z.testbit b0 6 then 1 else 0). intros tx.
  unfold VBT_ADV_PDU_TYPE_MASK. rewrite Hb. rewrite if_true by done.
  unfold clip_body. rewrite if_false by lia. unfold rx_adv_ind. rewrite if_false by lia.
  assert (slice 2 6 ([b0; 6 + zlen data] ++ init_peer_addr ll ++ data) = init_peer_addr ll) as Hsl.
  { rewrite slice_app_r by done. by apply slice_prefix. }
  rewrite bind_rdn, Hsl by (rewrite ?zlen_app, ?Hal; zlen_lia). exec.
  rewrite !bool_decide_eq_true_2 by done. done.
Qed.

(** The octet in front of a CONNECT_IND. *)
Definition connect_b0 (itype adva_type : Z) : Z :=
  u8 (Z.lor (Z.lor VBT_CONNECT_IND (hdr_bit itype 6)) (hdr_bit adva_type 7)).
Lemma connect_b0_type itype t : Z.land (connect_b0 itype t) 15 = VBT_CONNECT_IND.
Proof. unfold connect_b0, hdr_bit. by destruct (itype =? 0), (t =? 0). Qed.
Lemma connect_b0_txadd itype t : itype = 0 ∨ itype = 1 →
  (if Z.testbit (connect_b0 itype t) 6 then 1 else 0) = itype.
Proof. unfold connect_b0, hdr_bit. intros [->| ->]; by destruct (t =? 0). Qed.

Definition after_connect_ind (ll : vbt_ll) (i : nat) (c : ll_conn) : vbt_ll :=
  set_state LL_IDLE (set_adv_enabled false (set_conns (<[i:=c]> (conns ll)) ll)).

(** An advertiser accepts the connection request for its address. *)
Lemma advertiser_hears ll h j itype t inita aa :
  ll_ok ll → both_ways ll → adv_enabled ll = true → free_slot ll j → ll_type h = VBT_LL_ADV →
  itype = 0 ∨ itype = 1 → addr_ok inita → is_u32 aa →
  let c := opened j aa 1 inita itype in
  vbt_ll_pdu_from_medium h
    (connect_ind_pdu itype t inita (own_source_addr ll (adv_own_addr_type ll)) aa) 36 ll =
  Ok (tt, after_connect_ind ll j c, [ToHost (conn_complete_packet c)]).
Proof.
  intros Hll Ho Hadv Hj Ht Hit [Hib Hil] Haa c. pose proof (find_idx_lt _ _ _ Hj) as Hlt.
  pose proof (addr_ok_zlen _ (own_source_addr_ok ll (adv_own_addr_type ll) Hll)) as Hal.
  set (adva := own_source_addr ll (adv_own_addr_type ll)) in *.
  set (pdu := connect_ind_pdu itype t inita adva aa).
  assert (zlen pdu = 36) as Hpl.
  { unfold pdu, connect_ind_pdu. rewrite !zlen_app, zlen_le_split, Hil, Hal. done. }
  assert (slice 2 6 pdu = inita) as Hs1.
  { unfold pdu, connect_ind_pdu. rewrite slice_app_r by done.
    by apply slice_prefix. }
  assert (slice 8 6 pdu = adva) as Hs2.
  { unfold pdu, connect_ind_pdu. rewrite slice_app_r, slice_app_r by (rewrite ?Hil; done).
    rewrite Hil. by apply slice_prefix. }
  assert (slice 14 4 pdu = le_split 4 aa) as Hs3.
  { unfold pdu, connect_ind_pdu. rewrite !slice_app_r by (rewrite ?Hil, ?Hal; done).
    rewrite Hil, Hal. by apply slice_prefix. }
  assert (pdu !! 0%nat = Some (connect_b0 itype t) ∧ pdu !! 1%nat = Some 34) as [Hb0 Hb1] by done.
  clearbody pdu. unfold vbt_ll_pdu_from_medium. rewrite if_false by done. rewrite Ht, if_true by done.
  unfold rx_adv. rewrite (bind_rd _ 0 (connect_b0 itype t)), (bind_rd _ 1 34) by done. cbv zeta.
  unfold VBT_ADV_PDU_TYPE_MASK. rewrite connect_b0_type.
  change (clip_body 34 36) with 34. do 3 rewrite (if_false _ _ _) by done. rewrite if_true by done.
  unfold rx_connect_ind. exec. rewrite Hadv. rewrite if_false by done.
  rewrite bind_rdn, Hs1 by lia. rewrite bind_rdn, Hs2 by lia. fold adva.
  rewrite bool_decide_eq_true_2 by done. rewrite if_false by done.
  erewrite bind_silent by by apply conn_alloc_run.
  cbv beta iota. rewrite bind_rdn, Hs3 by lia. do 2 (erewrite bind_silent by by apply conn_set_again).
  rewrite (bind_rd _ 0 (connect_b0 itype t)) by done. rewrite connect_b0_txadd by done.
  do 2 (erewrite bind_silent by by apply conn_set_again). exec.
  rewrite le_join_split4 by done.
  erewrite bind_silent by by apply (conn_at_run j c), list_lookup_insert_eq.
  by apply conn_complete_run.
Qed.

(** A connection seen from both ends. *)
Definition linked (A B : vbt_ll) (i j : nat) (aa : Z) (addrA addrB : list Z) : Prop :=
  ∃ ca cb, conns A !! i = Some ca ∧ conns B !! j = Some cb ∧
    c_active ca = true ∧ c_active cb = true ∧ c_access_addr ca = aa ∧ c_access_addr cb = aa ∧
    c_role ca = 0 ∧ c_role cb = 1 ∧ c_peer_addr ca = addrB ∧ c_peer_addr cb = addrA.

(** The two halves: the initiator [A] answers the advertisement of [B], and [B]
    accepts the connection request of [A]. *)
Section Open.
Context (A B : vbt_ll) (i j : nat).
Context (HA : ll_ok A) (HB : ll_ok B) (HoA : both_ways A) (HoB : both_ways B).
Context (Hi : free_slot A i) (Hj : free_slot B j).
Let addrA := own_source_addr A (init_own_addr_type A).
Let addrB := own_source_addr B (adv_own_addr_type B).
Let atype := own_source_addr_type B (adv_own_addr_type B).
Let ca := opened i (init_aa A) 0 addrB atype.
Let cb := opened j (init_aa A) 1 addrA (own_source_addr_type A (init_own_addr_type A)).

Lemma advert_answered h :
  state A = LL_INITIATING → adv_pdu_type B = VBT_ADV_IND → init_peer_addr A = addrB → ll_type h = VBT_LL_ADV →
  vbt_ll_pdu_from_medium h (adv_air_pdu B) (8 + adv_data_len B) A =
    Ok (tt, after_initiate A i ca,
      [ToMedium (connect_air_hdr A) (connect_air_pdu A addrB atype); ToHost (conn_complete_packet ca)]).
Proof using HA HB HoA Hi.
  intros Hst Hty Hpeer Ht. pose proof (lok_adv_len _ HB) as Hlen.
  set (d := slice 0 (adv_data_len B) (adv_data B)).
  assert (zlen d = adv_data_len B) as Hdl.
  { apply zlen_slice; rewrite ?(proj2 (lok_adv_data _ HB)); lia. }
  set (b0 := u8 (Z.lor VBT_ADV_IND (hdr_bit atype 6))).
  assert (Z.land b0 15 = 0 ∧ (if Z.testbit b0 6 then 1 else 0) = atype) as [Hb0 Htx].
  { subst b0. by destruct (own_source_addr_type_01 B (adv_own_addr_type B)) as [E|E];
      fold atype in E; rewrite E. }
  assert (adv_air_pdu B = adv_ind_pdu b0 (init_peer_addr A) d) as ->.
  { unfold adv_air_pdu, adv_ind_pdu. by rewrite Hty, Hpeer, Hdl. }
  rewrite <- Hdl. rewrite initiator_hears; [|done..|apply HA|lia].
  rewrite Htx, Hpeer. apply (initiate_run A i); [done..|by apply own_source_addr_ok].
Qed.

Lemma request_accepted h :
  adv_enabled B = true → ll_type h = VBT_LL_ADV →
  vbt_ll_pdu_from_medium h (connect_air_pdu A addrB atype) 36 B =
    Ok (tt, after_connect_ind B j cb, [ToHost (conn_complete_packet cb)]).
Proof using HA HB HoB Hj.
  intros Hadv Ht. apply (advertiser_hears B h j); [done..| | |].
  - apply own_source_addr_type_01.
  - by apply own_source_addr_ok.
  - apply new_access_addr_u32, u32_range.
Qed.

Lemma link_established :
  linked (after_initiate A i ca) (after_connect_ind B j cb) i j (init_aa A) addrA addrB.
Proof using Hi Hj.
  exists ca, cb. pose proof (find_idx_lt _ _ _ Hi). pose proof (find_idx_lt _ _ _ Hj).
  split; [by apply list_lookup_insert_eq|]. split; [by apply list_lookup_insert_eq|done].
Qed.
End Open.

(** Initiator and advertiser open the same connection.  The advertisement
    of its target makes an initiator send a CONNECT_IND and report the
    connection to its host; the advertiser that receives the CONNECT_IND
    reports it to its own.  Both ends then hold a live connection with the
    same Access Address, opposite roles and each other's addresses, whatever
    RSSI and TTL the medium puts into the headers. *)
Theorem connection_opened (A B : vbt_ll) (i j : nat) :
  ll_ok A → ll_ok B → both_ways A → both_ways B →
  state A = LL_INITIATING → free_slot A i → adv_enabled B = true → adv_pdu_type B = VBT_ADV_IND →
  free_slot B j → init_peer_addr A = own_source_addr B (adv_own_addr_type B) →
  let addrA := own_source_addr A (init_own_addr_type A) in
  let addrB := own_source_addr B (adv_own_addr_type B) in
  ∃ hdr pdu outs hdr2 pdu2 A' B' pktA pktB,
    emit_advertisement B = Ok (tt, B, ToMedium hdr pdu :: outs) ∧
    (∀ h, same_air hdr h → vbt_ll_pdu_from_medium h pdu (pdu_len hdr) A =
       Ok (tt, A', [ToMedium hdr2 pdu2; ToHost pktA])) ∧
    (∀ h, same_air hdr2 h → vbt_ll_pdu_from_medium h pdu2 (pdu_len hdr2) B =
       Ok (tt, B', [ToHost pktB])) ∧
    linked A' B' i j (init_aa A) addrA addrB.
Proof.
  intros HA HB HoA HoB Hst Hi Hadv Hty Hj Hpeer addrA addrB.
  eexists _, _, _, (connect_air_hdr A), (connect_air_pdu A addrB _), _, _, _, _.
  split; [by apply advertised|]. split; [|split; [|by apply link_established]].
  - intros h [Ht _]. by apply (advert_answered A B i).
  - intros h [Ht _]. by apply (request_accepted A B j).
Qed.

(** ** Two example controllers *)

Definition bd1 : list Z := [2; 190; 1; 2; 3; 4].
Definition bd2 : list Z := [2; 190; 5; 6; 7; 8].
Definition initiator : vbt_ll :=
  set_init_peer_addr bd2 (set_state LL_INITIATING (vbt_ll_new (Ops true true) bd1)).
Definition advertiser : vbt_ll :=
  set_adv_enabled true (set_state LL_ADVERTISING (vbt_ll_new (Ops true true) bd2)).

Lemma bd_ok : addr_ok bd1 ∧ addr_ok bd2.
Proof. split; (split; [bytes|done]). Qed.
Lemma initiator_ok : ll_ok initiator.
Proof.
  pose proof (vbt_ll_new_ok (Ops true true) bd1 (proj1 bd_ok)) as []. split; try done. apply bd_ok.
Qed.
Lemma advertiser_ok : ll_ok advertiser.
Proof. pose proof (vbt_ll_new_ok (Ops true true) bd2 (proj2 bd_ok)) as []. by split. Qed.

Lemma connection_opened_witness :
  ∃ hdr pdu outs hdr2 pdu2 A' B' pktA pktB,
    emit_advertisement advertiser = Ok (tt, advertiser, ToMedium hdr pdu :: outs) ∧
    (∀ h, same_air hdr h → vbt_ll_pdu_from_medium h pdu (pdu_len hdr) initiator =
       Ok (tt, A', [ToMedium hdr2 pdu2; ToHost pktA])) ∧
    (∀ h, same_air hdr2 h → vbt_ll_pdu_from_medium h pdu2 (pdu_len hdr2) advertiser =
       Ok (tt, B', [ToHost pktB])) ∧
    linked A' B' 0 0 (init_aa initiator) bd1 bd2.
Proof.
  apply (connection_opened initiator advertiser 0 0); [apply initiator_ok|apply advertiser_ok|
    reflexivity..].
Defined.

(** The same two with a connection open. *)
Definition central : vbt_ll :=
  set_conns (<[0%nat:=opened 0 0x12345678 0 bd2 0]> (conns demo_ll)) (vbt_ll_new (Ops true true) bd1).
Definition peripheral : vbt_ll :=
  set_conns (<[3%nat:=opened 3 0x12345678 1 bd1 0]> (conns demo_ll)) (vbt_ll_new (Ops true true) bd2).

Lemma with_conn_ok bd k role peer :
  addr_ok bd → addr_ok peer → (k < 8)%nat → role = 0 ∨ role = 1 →
  ll_ok (set_conns (<[k:=opened k 0x12345678 role peer 0]> (conns demo_ll))
    (vbt_ll_new (Ops true true) bd)).
Proof.
  intros Hbd Hpeer Hk Hrole. pose proof (vbt_ll_new_ok (Ops true true) bd Hbd) as Hnew.
  destruct Hnew. split; try done.
  - cbn [conns set_conns]. by rewrite length_insert.
  - intros i c. cbn [conns set_conns]. intros [(-> & <- & _)|[_ Hc]]%list_lookup_insert_Some.
    + split; try done; cbn; unfold BASE_CONN_HANDLE; mlia.
    + by apply lok_conns.
Qed.

Lemma acl_delivered_witness :
  ∃ hdr pdu, vbt_ll_hci_from_host (acl_packet 0x1040 [1; 2; 3] ++ replicate 40 0) (5 + 3) central =
      Ok (tt, central, [ToMedium hdr pdu; ToHost (completed_packet 0x40)]) ∧
    frame_ok hdr pdu ∧ access_addr hdr = 0x12345678 ∧
    ∀ hdr', same_air hdr hdr' →
      vbt_ll_pdu_from_medium hdr' pdu (pdu_len hdr) peripheral =
        Ok (tt, peripheral, [ToHost (acl_packet 0x2043 [1; 2; 3])]).
Proof.
  apply (acl_delivered central peripheral 0 3 (opened 0 0x12345678 0 bd2 0)
    (opened 3 0x12345678 1 bd1 0) 0x1040 [1; 2; 3] (replicate 40 0)); try reflexivity.
  - apply with_conn_ok; [apply bd_ok..|lia|auto].
  - apply with_conn_ok; [apply bd_ok..|lia|auto].
  - mlia.
  - bytes.
  - bytes.
  - done.
Defined.
