(* ===== verification/LLControl.v ===== *)
(** * Link-Layer control between two controllers

    Disconnecting at one end ends the connection at both; and the exchange of
    version numbers, which has no end. *)

From stdpp Require Import base list numbers option.
From Stdlib Require Import ZArith Lia.
From S2P Require Import Prelude Wire LLState LLEmit LLCmd LLAir LLInv LLProps LLLink.

(** The header and PDU of a control message on connection [c]. *)
Definition control_hdr (ll : vbt_ll) (c : ll_conn) (params : list Z) : vbt_frame_hdr :=
  set_conn_handle (c_handle c)
    (fill_hdr VBT_LL_DATA (c_access_addr c) 5 (own_source_addr ll (conn_own_type ll c))
      (own_source_addr_type ll (conn_own_type ll c)) (3 + zlen params)).
Definition control_pdu (op : Z) (params : list Z) : list Z :=
  [LLID_CONTROL; 1 + zlen params; op] ++ params.

Lemma control_sent ll c op params :
  both_ways ll → zlen params ≤ 61 →
  send_ll_control c op params ll =
    Ok (tt, ll, [ToMedium (control_hdr ll c params) (control_pdu op params)]).
Proof.
  intros Ho Hp. pose proof (zlen_nonneg params). unfold send_ll_control.
  rewrite u8_small by mlia. rewrite bind_local_buf by zlen_lia.
  unfold send_data_pdu. exec. rewrite to_medium_run by done.
  unfold control_hdr. rewrite zlen_app. change (zlen [_; _; op]) with 3.
  by rewrite u16_small by mlia.
Qed.

(** A control message reaches the handler of its connection. *)
Lemma control_received ll h j op params :
  ll_type h = VBT_LL_DATA → conn_by_aa ll (access_addr h) = Some j → zlen params ≤ 61 →
  vbt_ll_pdu_from_medium h (control_pdu op params) (3 + zlen params) ll =
  handle_ll_control j (op :: params) (1 + zlen params) ll.
Proof.
  intros Ht Hj Hp. pose proof (zlen_nonneg params). unfold vbt_ll_pdu_from_medium.
  rewrite if_false by lia. rewrite Ht. cbn [Z.eqb VBT_LL_DATA VBT_LL_ADV Pos.eqb].
  unfold rx_data. exec. rewrite Hj. do 2 (erewrite bind_rd by done). cbv zeta.
  change (Z.land LLID_CONTROL 3 =? LLID_CONTROL) with true. cbv iota.
  unfold clip_body. by rewrite if_false by lia.
Qed.

(** An HCI command packet, and the branch of the command it names. *)
Definition cmd_packet (op : Z) (params : list Z) : list Z :=
  [HCI_CMD_PKT; lo8 op; hi8 op; zlen params] ++ params.

Lemma command_dispatched op params tail ll :
  is_u16 op → zlen params ≤ 255 →
  vbt_ll_hci_from_host (cmd_packet op params ++ tail) (4 + zlen params) ll =
  switch_opcode op (cmd_packet op params ++ tail) (zlen params) ll.
Proof.
  intros Hop Hp. pose proof (zlen_nonneg params). unfold vbt_ll_hci_from_host. rewrite if_false by lia.
  erewrite bind_rd by done. rewrite if_true by done.
  unfold dispatch_command. rewrite if_false by lia. do 2 (erewrite bind_rd by done). cbv zeta.
  erewrite bind_rd by done. rewrite if_false by lia. by rewrite get16_lo_hi.
Qed.

(** ** Disconnecting *)

Definition disconnect_cmd (handle reason : Z) : list Z :=
  [HCI_CMD_PKT; lo8 OP_DISCONNECT; hi8 OP_DISCONNECT; 3; lo8 handle; hi8 handle; reason].
Definition status_packet (ll : vbt_ll) (opcode : Z) : list Z :=
  [HCI_EVT_PKT; EVT_CMD_STATUS; 4; HCI_SUCCESS; cmd_credits ll; lo8 opcode; hi8 opcode].
Definition disconnected_packet (handle reason : Z) : list Z :=
  [HCI_EVT_PKT; EVT_DISCONN_COMPLETE; 4; HCI_SUCCESS; lo8 handle; hi8 handle; reason].
Definition drop_slot (i : nat) (c : ll_conn) (ll : vbt_ll) : vbt_ll :=
  set_conns (<[i := set_c_active false c]> (conns ll)) ll.

Lemma disconnect_sent ll i c reason tail :
  both_ways ll → is_u16 (c_handle c) → conn_by_handle ll (c_handle c) = Some i →
  conns ll !! i = Some c →
  vbt_ll_hci_from_host (disconnect_cmd (c_handle c) reason ++ tail) 7 ll =
    Ok (tt, drop_slot i c ll,
        [ToHost (status_packet ll OP_DISCONNECT);
         ToMedium (control_hdr ll c [reason]) (control_pdu LL_TERMINATE_IND [reason]);
         ToHost (disconnected_packet (c_handle c) HCI_CONN_TERM_LOCAL_HOST)]).
Proof.
  intros Ho Hh Hi Hc. change (disconnect_cmd (c_handle c) reason) with
    (cmd_packet OP_DISCONNECT [lo8 (c_handle c); hi8 (c_handle c); reason]).
  change 7 with (4 + zlen [lo8 (c_handle c); hi8 (c_handle c); reason]).
  rewrite command_dispatched by (done || mlia). change (zlen [_; _; reason]) with 3.
  change (switch_opcode OP_DISCONNECT ?p 3) with (do_disconnect OP_DISCONNECT p 3).
  unfold do_disconnect, cmd_status. exec. rewrite bind_local_buf by done.
  erewrite bind_ok by by apply send_hci_run. rewrite when_true by done.
  unfold param_handle, param. do 3 (exec; erewrite bind_rd by done).
  rewrite get16_lo_hi by done. exec. rewrite Hi.
  erewrite bind_silent by by apply conn_at_run.
  erewrite bind_ok by by apply control_sent.
  erewrite bind_silent by by apply conn_set_run.
  unfold evt_disconn_complete. rewrite bind_local_buf by done. by rewrite send_hci_run.
Qed.

Lemma disconnect_received ll h j c reason :
  both_ways ll → ll_type h = VBT_LL_DATA → conn_by_aa ll (access_addr h) = Some j →
  conns ll !! j = Some c →
  vbt_ll_pdu_from_medium h (control_pdu LL_TERMINATE_IND [reason]) 4 ll =
    Ok (tt, drop_slot j c ll, [ToHost (disconnected_packet (c_handle c) reason)]).
Proof.
  intros Ho Ht Hj Hc. change 4 with (3 + zlen [reason]). rewrite (control_received _ _ j) by done.
  unfold handle_ll_control. change (zlen [reason]) with 1. rewrite if_false by done.
  erewrite bind_rd by done. rewrite if_true by done. rewrite (if_true _ _ (2 <=? _)) by done.
  erewrite bind_rd by done. erewrite bind_silent by by apply conn_at_run. cbv zeta.
  erewrite bind_silent by by apply conn_set_run.
  unfold evt_disconn_complete. rewrite bind_local_buf by done. by rewrite send_hci_run.
Qed.

Lemma control_frame_ok ll i c op params :
  ll_ok ll → conns ll !! i = Some c → is_u8 op → bytes_ok params → zlen params ≤ 61 →
  frame_ok (control_hdr ll c params) (control_pdu op params).
Proof.
  intros Hll Hc Hop Hb Hp. pose proof (lok_conns _ Hll i c Hc) as Hcok.
  pose proof (zlen_nonneg params). split_and!; [|done..| |].
  - apply set_conn_handle_ok; [|apply Hcok].
    apply fill_hdr_ok; [done|apply Hcok|done|by apply own_source_addr_ok|
      apply own_source_addr_type_u8|mlia].
  - unfold control_pdu. rewrite zlen_app. done.
  - exists LLID_CONTROL, (op :: params). rewrite zlen_cons. split_and!; [done|lia|done|].
    by apply Forall_cons_2.
Qed.

Lemma drop_slot_None i c ll (f : ll_conn → bool) :
  (∀ k c', k ≠ i → conns ll !! k = Some c' → c_active c' = true → f c' = false) →
  find_idx (λ c, c_active c && f c) (conns (drop_slot i c ll)) = None.
Proof.
  intros Hf. apply find_idx_None. intros k c'. cbn [conns drop_slot set_conns].
  intros [(-> & <- & _)|[Hk Hc]]%list_lookup_insert_Some; [done|].
  destruct (c_active c') eqn:Ha; [|done]. by eapply Hf.
Qed.

(** A dropped connection is found neither by its handle nor by its Access
    Address. *)
Lemma dropped_handle ll i c :
  ll_ok ll → conn_by_handle ll (c_handle c) = Some i → conns ll !! i = Some c →
  conn_by_handle (drop_slot i c ll) (c_handle c) = None.
Proof.
  intros Hll Hi Hc. pose proof (lok_conns _ Hll i c Hc) as Hcok.
  apply drop_slot_None. intros k c' Hki Hk Hact. apply Z.eqb_neq.
  rewrite (cok_handle _ _ (lok_conns _ Hll k c' Hk) Hact).
  apply find_idx_sat in Hi as (c2 & Hc2 & [Hact' _]%andb_true_iff).
  rewrite Hc in Hc2. injection Hc2 as <-. rewrite (cok_handle _ _ Hcok Hact'). lia.
Qed.
Lemma dropped_aa ll j c aa :
  (∀ k c', conns ll !! k = Some c' → c_active c' = true → c_access_addr c' = aa → k = j) →
  conn_by_aa (drop_slot j c ll) aa = None.
Proof.
  intros Huniq. apply drop_slot_None. intros k c' Hki Hk Hact. apply Z.eqb_neq. intros E.
  by specialize (Huniq k c' Hk Hact E).
Qed.

(** Disconnecting one end disconnects both.  The host that disconnects gets
    a command status and a Disconnection Complete event; the other controller
    is told in one well-formed control PDU, drops its connection and tells
    its host the reason.  Neither end routes the Access Address any more. *)
Theorem disconnect_tears_down (A B : vbt_ll) (i j : nat) (ca cb : ll_conn) (reason : Z)
    (tail : list Z) :
  ll_ok A → ll_ok B → both_ways A → both_ways B → is_u8 reason →
  conn_by_handle A (c_handle ca) = Some i → conns A !! i = Some ca →
  conn_by_aa B (c_access_addr ca) = Some j → conns B !! j = Some cb →
  (∀ k c, conns B !! k = Some c → c_active c = true → c_access_addr c = c_access_addr ca → k = j) →
  ∃ hdr pdu B', vbt_ll_hci_from_host (disconnect_cmd (c_handle ca) reason ++ tail) 7 A =
      Ok (tt, drop_slot i ca A,
          [ToHost (status_packet A OP_DISCONNECT); ToMedium hdr pdu;
           ToHost (disconnected_packet (c_handle ca) HCI_CONN_TERM_LOCAL_HOST)]) ∧
    frame_ok hdr pdu ∧
    (∀ hdr', same_air hdr hdr' → vbt_ll_pdu_from_medium hdr' pdu (pdu_len hdr) B =
       Ok (tt, B', [ToHost (disconnected_packet (c_handle cb) reason)])) ∧
    conn_by_handle (drop_slot i ca A) (c_handle ca) = None ∧
    conn_by_aa B' (c_access_addr ca) = None.
Proof.
  intros HA HB HoA HoB Hr Hi Hca Hj Hcb Huniq.
  pose proof (lok_conns _ HA i ca Hca) as Hcok.
  exists (control_hdr A ca [reason]), (control_pdu LL_TERMINATE_IND [reason]), (drop_slot j cb B).
  split; [by apply disconnect_sent; [|apply Hcok|..]|]. split.
  { eapply control_frame_ok; [done..|bytes|done]. }
  split; [|split].
  - intros hdr' [Hty Haa]. change (pdu_len _) with 4.
    apply disconnect_received; [done|by rewrite Hty|by rewrite Haa|done].
  - by apply dropped_handle.
  - by apply dropped_aa.
Qed.

Lemma disconnect_tears_down_witness :
  ∃ hdr pdu B', vbt_ll_hci_from_host (disconnect_cmd 0x40 0x13 ++ replicate 40 0) 7 central =
      Ok (tt, drop_slot 0 (opened 0 0x12345678 0 bd2 0) central,
          [ToHost (status_packet central OP_DISCONNECT); ToMedium hdr pdu;
           ToHost (disconnected_packet 0x40 HCI_CONN_TERM_LOCAL_HOST)]) ∧
    frame_ok hdr pdu ∧
    (∀ hdr', same_air hdr hdr' → vbt_ll_pdu_from_medium hdr' pdu (pdu_len hdr) peripheral =
       Ok (tt, B', [ToHost (disconnected_packet 0x43 0x13)])) ∧
    conn_by_handle (drop_slot 0 (opened 0 0x12345678 0 bd2 0) central) 0x40 = None ∧
    conn_by_aa B' 0x12345678 = None.
Proof.
  apply (disconnect_tears_down central peripheral 0 3 (opened 0 0x12345678 0 bd2 0)
    (opened 3 0x12345678 1 bd1 0) 0x13 (replicate 40 0)); try reflexivity.
  - apply with_conn_ok; [apply bd_ok..|lia|auto].
  - apply with_conn_ok; [apply bd_ok..|lia|auto].
  - done.
  - intros k c Hk Ha _. do 8 (destruct k as [|k]; [by injection Hk as <-|]). done.
Defined.

(** ** Version numbers *)

Definition version_pdu : list Z := control_pdu LL_VERSION_IND [0x0c; 0x0f; 0x00; 0x0f; 0x00].

(** [n] times over: what one controller sends is handed to the other. *)
Fixpoint bounce (n : nat) (sender receiver : vbt_ll) (hdr : vbt_frame_hdr) (pdu : list Z) :
    option (list Z) :=
  match n with
  | O => Some pdu
  | S n =>
      match vbt_ll_pdu_from_medium hdr pdu (zlen pdu) receiver with
      | Ok (_, receiver', [ToMedium hdr' pdu']) => bounce n receiver' sender hdr' pdu'
      | _ => None
      end
  end.

Lemma version_answered ll h j c :
  both_ways ll → ll_type h = VBT_LL_DATA → conn_by_aa ll (access_addr h) = Some j →
  conns ll !! j = Some c →
  vbt_ll_pdu_from_medium h version_pdu 8 ll =
    Ok (tt, ll, [ToMedium (control_hdr ll c [0x0c; 0x0f; 0x00; 0x0f; 0x00]) version_pdu]).
Proof.
  intros Ho Ht Hj Hc. unfold version_pdu at 1.
  change 8 with (3 + zlen [0x0c; 0x0f; 0x00; 0x0f; 0x00]). rewrite (control_received _ _ j) by done.
  unfold handle_ll_control. rewrite if_false by done. erewrite bind_rd by done.
  rewrite if_false by done. rewrite if_true by done.
  erewrite bind_silent by by apply conn_at_run. by apply control_sent.
Qed.

(** An exchange of version numbers never ends.  A controller answers every
    LL_VERSION_IND with an LL_VERSION_IND, not only the first, so that once
    one is on the air the two ends of a connection send it back and forth
    for ever. *)
Theorem version_exchange_endless (A B : vbt_ll) (i j : nat) (ca cb : ll_conn) (aa : Z)
    (hdr : vbt_frame_hdr) :
  both_ways A → both_ways B → conn_by_aa A aa = Some i → conns A !! i = Some ca →
  conn_by_aa B aa = Some j → conns B !! j = Some cb →
  c_access_addr ca = aa → c_access_addr cb = aa →
  ll_type hdr = VBT_LL_DATA → access_addr hdr = aa →
  ∀ n, bounce n A B hdr version_pdu = Some version_pdu.
Proof.
  intros HoA HoB HiA HcA HjB HcB Ea Eb Ht Haa n.
  revert A B i j ca cb hdr HoA HoB HiA HcA HjB HcB Ea Eb Ht Haa.
  induction n as [|n IH]; intros A B i j ca cb hdr HoA HoB HiA HcA HjB HcB Ea Eb Ht Haa; [done|].
  cbn [bounce]. change (zlen version_pdu) with 8.
  rewrite (version_answered B hdr j cb) by (done || by rewrite Haa).
  by apply (IH B A j i cb ca).
Qed.

Lemma version_exchange_endless_witness :
  bounce 1000 central peripheral
    (fill_hdr VBT_LL_DATA 0x12345678 5 bd1 0 8) version_pdu = Some version_pdu.
Proof.
  apply (version_exchange_endless central peripheral 0 3 (opened 0 0x12345678 0 bd2 0)
    (opened 3 0x12345678 1 bd1 0) 0x12345678); reflexivity.
Defined.
