(* ===== verification/LLEncrypt.v ===== *)
(** * Starting encryption

    The LL handshake that one host starts and the other answers: LL_ENC_REQ and
    LL_ENC_RSP, the request for a long-term key, LL_START_ENC_REQ and
    LL_START_ENC_RSP.  Nothing is enciphered: the handshake only makes both
    hosts believe the link encrypted. *)

From stdpp Require Import base list numbers option.
From Stdlib Require Import ZArith Lia.
From S2P Require Import Prelude Wire LLState LLEmit LLCmd LLAir LLInv LLProps LLLink LLControl.

(** ** Packets *)

Definition start_encryption_cmd (handle : Z) (rand ediv ltk : list Z) : list Z :=
  cmd_packet OP_LE_START_ENCRYPTION ([lo8 handle; hi8 handle] ++ rand ++ ediv ++ ltk).
Definition ltk_reply_cmd (handle : Z) (ltk : list Z) : list Z :=
  cmd_packet OP_LE_LTK_REQ_REPLY ([lo8 handle; hi8 handle] ++ ltk).
Definition ltk_request_packet (handle : Z) (rand ediv : list Z) : list Z :=
  [HCI_EVT_PKT; EVT_LE_META; 13; SUB_LE_LTK_REQUEST; lo8 handle; hi8 handle] ++ rand ++ ediv.
Definition ltk_reply_packet (ll : vbt_ll) (handle : Z) : list Z :=
  [HCI_EVT_PKT; EVT_CMD_COMPLETE; 6; cmd_credits ll; lo8 OP_LE_LTK_REQ_REPLY; hi8 OP_LE_LTK_REQ_REPLY;
   HCI_SUCCESS; lo8 handle; hi8 handle].
Definition encrypted_packet (handle : Z) : list Z :=
  [HCI_EVT_PKT; EVT_ENCRYPT_CHANGE; 4; HCI_SUCCESS; lo8 handle; hi8 handle; 1].

(** What the central sends for [rand] and [ediv]; the session key parts are 0. *)
Definition enc_req_params (rand ediv : list Z) : list Z := rand ++ ediv ++ replicate 12 0.

Lemma enc_req_len rand ediv : zlen rand = 8 → zlen ediv = 2 → zlen (enc_req_params rand ediv) = 22.
Proof. intros Hr He. unfold enc_req_params. by rewrite !zlen_app, Hr, He. Qed.

Definition set_conn (i : nat) (c : ll_conn) (ll : vbt_ll) : vbt_ll := set_conns (<[i := c]> (conns ll)) ll.

(** ** One message after the other *)

Section Steps.
Context (ll : vbt_ll) (i : nat) (c : ll_conn).
Context (Ho : both_ways ll) (Hc : conns ll !! i = Some c).

Lemma set_conn_at c' : conns (set_conn i c' ll) !! i = Some c'.
Proof using Hc. apply list_lookup_insert_eq. by eapply lookup_lt_Some. Qed.
Lemma set_conn_twice c1 c2 : set_conn i c2 (set_conn i c1 ll) = set_conn i c2 ll.
Proof using. unfold set_conn. cbn [conns set_conns]. by rewrite list_insert_insert_eq. Qed.

Lemma start_encryption_sent rand ediv ltk tail :
  is_u16 (c_handle c) → conn_by_handle ll (c_handle c) = Some i →
  zlen rand = 8 → zlen ediv = 2 → zlen ltk = 16 →
  let c' := set_c_encrypting true c in
  vbt_ll_hci_from_host (start_encryption_cmd (c_handle c) rand ediv ltk ++ tail) 32 ll =
    Ok (tt, set_conn i c' ll,
        [ToHost (status_packet ll OP_LE_START_ENCRYPTION);
         ToMedium (control_hdr (set_conn i c' ll) c' (enc_req_params rand ediv))
           (control_pdu LL_ENC_REQ (enc_req_params rand ediv))]).
Proof using Ho Hc.
  intros Hh Hi Hr He Hk c'.
  set (ps := [lo8 (c_handle c); hi8 (c_handle c)] ++ rand ++ ediv ++ ltk).
  assert (zlen ps = 28) as Hps by (unfold ps; rewrite !zlen_app, Hr, He, Hk; done).
  change (start_encryption_cmd (c_handle c) rand ediv ltk) with (cmd_packet OP_LE_START_ENCRYPTION ps).
  change 32 with (4 + 28). rewrite <- Hps, command_dispatched by (done || lia). rewrite Hps.
  change (switch_opcode OP_LE_START_ENCRYPTION ?p 28) with (do_start_encryption OP_LE_START_ENCRYPTION p 28).
  unfold do_start_encryption, cmd_status. exec. rewrite bind_local_buf by done.
  erewrite bind_ok by by apply send_hci_run. rewrite when_true by done.
  unfold param_handle, param. do 2 (exec; erewrite bind_rd by done). exec.
  rewrite get16_lo_hi by done. rewrite Hi. erewrite bind_silent by by apply conn_set_run.
  rewrite if_true by done. unfold params_n. exec.
  assert (slice 6 10 (cmd_packet OP_LE_START_ENCRYPTION ps ++ tail) = rand ++ ediv) as Hsl.
  { unfold cmd_packet, ps. rewrite <- !app_assoc. rewrite !slice_app_r by done.
    change (slice _ 10) with (slice 0 10 (A:=Z)). rewrite !(app_assoc rand). apply slice_prefix.
    by rewrite zlen_app, Hr, He. }
  rewrite bind_rdn by (unfold cmd_packet; rewrite ?zlen_app, ?Hps; pose proof (zlen_nonneg tail); zlen_lia).
  change (4 + 2) with 6. rewrite Hsl. exec.
  erewrite bind_silent by (apply (conn_at_run _ c'), set_conn_at). rewrite <- app_assoc.
  fold (enc_req_params rand ediv). rewrite control_sent; [done|done|]. by rewrite enc_req_len.
Qed.

(** Messages from the air, on the Access Address of the connection. *)
Section Air.
Context (h : vbt_frame_hdr) (Ht : ll_type h = VBT_LL_DATA) (Hi : conn_by_aa ll (access_addr h) = Some i).

Lemma enc_req_received rand ediv :
  zlen rand = 8 → zlen ediv = 2 →
  let c' := set_c_encrypting true c in
  vbt_ll_pdu_from_medium h (control_pdu LL_ENC_REQ (enc_req_params rand ediv)) 25 ll =
    Ok (tt, set_conn i c' ll,
        [ToMedium (control_hdr (set_conn i c' ll) c' (replicate 12 0)) (control_pdu LL_ENC_RSP (replicate 12 0));
         ToHost (ltk_request_packet (c_handle c) rand ediv)]).
Proof using All.
  intros Hr He c'. pose proof (enc_req_len rand ediv Hr He) as Hl.
  change 25 with (3 + 22). rewrite <- Hl, (control_received _ _ i), Hl by (done || lia).
  unfold handle_ll_control. rewrite if_false by done. erewrite bind_rd by done.
  do 3 rewrite (if_false _ _ (_ : bool)) by done. rewrite if_true by done.
  unfold ll_enc_req. erewrite bind_silent by by apply conn_set_run.
  rewrite if_true by done. exec.
  assert (zlen (LL_ENC_REQ :: enc_req_params rand ediv) = 23) as Hl' by (rewrite zlen_cons, Hl; done).
  rewrite bind_rdn by (rewrite ?Hl'; lia). exec. rewrite bind_rdn by (rewrite ?Hl'; lia). exec.
  assert (slice 1 8 (LL_ENC_REQ :: enc_req_params rand ediv) = rand) as ->.
  { unfold enc_req_params. change (LL_ENC_REQ :: ?l) with ([LL_ENC_REQ] ++ l). rewrite slice_app_r by done.
    by apply slice_prefix. }
  assert (slice 9 2 (LL_ENC_REQ :: enc_req_params rand ediv) = ediv) as ->.
  { unfold enc_req_params. change (LL_ENC_REQ :: ?l) with ([LL_ENC_REQ] ++ l).
    rewrite !slice_app_r by (rewrite ?Hr; done). rewrite Hr. by apply slice_prefix. }
  erewrite bind_silent by (apply (conn_at_run _ c'), set_conn_at).
  erewrite bind_ok by by apply control_sent. cbn [fst snd].
  unfold evt_le_ltk_request. rewrite bind_local_buf by (unfold le_meta; rewrite !zlen_app, Hr, He; done).
  rewrite send_hci_run by done. unfold le_meta. rewrite !zlen_app, Hr, He. done.
Qed.

Lemma enc_rsp_received :
  vbt_ll_pdu_from_medium h (control_pdu LL_ENC_RSP (replicate 12 0)) 15 ll = Ok (tt, ll, []).
Proof using All.
  change 15 with (3 + zlen (replicate 12 0)). by rewrite (control_received _ _ i) by done.
Qed.

(** The connection becomes encrypted and the host is told, unless it was. *)
Definition now_encrypted : vbt_ll := set_conn i (set_c_encrypted true c) ll.

Lemma mark_encrypted_run :
  c_encrypted c = false →
  mark_encrypted i ll = Ok (tt, now_encrypted, [ToHost (encrypted_packet (c_handle c))]).
Proof using Ho Hc.
  intros He. unfold mark_encrypted. erewrite bind_silent by by apply conn_at_run. rewrite He. cbn [negb when].
  erewrite bind_silent by by apply conn_set_run.
  erewrite bind_silent by (apply (conn_at_run _ (set_c_encrypted true c)), set_conn_at).
  unfold evt_encrypt_change. rewrite bind_local_buf by done. by rewrite send_hci_run.
Qed.

Lemma start_enc_req_received :
  c_encrypted c = false →
  vbt_ll_pdu_from_medium h (control_pdu LL_START_ENC_REQ []) 3 ll =
    Ok (tt, now_encrypted,
        [ToMedium (control_hdr ll c []) (control_pdu LL_START_ENC_RSP []);
         ToHost (encrypted_packet (c_handle c))]).
Proof using All.
  intros He. change 3 with (3 + zlen (@nil Z)). rewrite (control_received _ _ i) by done.
  unfold handle_ll_control. rewrite if_false by done. erewrite bind_rd by done.
  do 5 rewrite (if_false _ _ (_ : bool)) by done. rewrite if_true by done.
  erewrite bind_silent by by apply conn_at_run. erewrite bind_ok by by apply control_sent.
  by rewrite mark_encrypted_run.
Qed.

Lemma start_enc_rsp_received :
  c_encrypted c = false →
  vbt_ll_pdu_from_medium h (control_pdu LL_START_ENC_RSP []) 3 ll =
    Ok (tt, now_encrypted, [ToHost (encrypted_packet (c_handle c))]).
Proof using All.
  intros He. change 3 with (3 + zlen (@nil Z)). rewrite (control_received _ _ i) by done.
  unfold handle_ll_control. rewrite if_false by done. erewrite bind_rd by done.
  do 6 rewrite (if_false _ _ (_ : bool)) by done. rewrite if_true by done. by apply mark_encrypted_run.
Qed.
End Air.

Lemma ltk_reply_sent ltk tail :
  is_u16 (c_handle c) → conn_by_handle ll (c_handle c) = Some i → zlen ltk = 16 →
  vbt_ll_hci_from_host (ltk_reply_cmd (c_handle c) ltk ++ tail) 22 ll =
    Ok (tt, ll, [ToHost (ltk_reply_packet ll (c_handle c));
                 ToMedium (control_hdr ll c []) (control_pdu LL_START_ENC_REQ [])]).
Proof using Ho Hc.
  intros Hh Hi Hk. set (ps := [lo8 (c_handle c); hi8 (c_handle c)] ++ ltk).
  assert (zlen ps = 18) as Hps by (unfold ps; rewrite !zlen_app, Hk; done).
  change (ltk_reply_cmd (c_handle c) ltk) with (cmd_packet OP_LE_LTK_REQ_REPLY ps).
  change 22 with (4 + 18). rewrite <- Hps, command_dispatched by (done || lia). rewrite Hps.
  change (switch_opcode OP_LE_LTK_REQ_REPLY ?p 18) with (do_ltk_req_reply OP_LE_LTK_REQ_REPLY p 18).
  unfold do_ltk_req_reply. rewrite if_true by done. unfold param_handle, param.
  do 2 (exec; erewrite bind_rd by done). exec. rewrite get16_lo_hi by done.
  unfold cmd_complete. exec. rewrite bind_local_buf by done. erewrite bind_ok by by apply send_hci_run.
  rewrite Hi. erewrite bind_silent by by apply conn_at_run. by rewrite control_sent.
Qed.
End Steps.

(** ** The handshake *)

(** Changing the flags of a connection changes no lookup. *)
Lemma find_idx_insert {A} (f : A → bool) (l : list A) i x y :
  l !! i = Some x → f y = f x → find_idx f (<[i := y]> l) = find_idx f l.
Proof.
  revert i. induction l as [|z l IH]; intros [|i] Hi Hf; try done; cbn in *.
  - injection Hi as ->. by rewrite Hf.
  - destruct (f z); [done|]. by rewrite IH.
Qed.

Record same_ids (c c' : ll_conn) : Prop := SameIds {
  si_active : c_active c' = c_active c;
  si_handle : c_handle c' = c_handle c;
  si_aa : c_access_addr c' = c_access_addr c
}.
Lemma conn_by_aa_set ll i c c' aa :
  conns ll !! i = Some c → same_ids c c' → conn_by_aa (set_conn i c' ll) aa = conn_by_aa ll aa.
Proof. intros Hc [Ha Hh He]. unfold conn_by_aa. apply (find_idx_insert _ _ _ c); [done|]. by rewrite Ha, He. Qed.
Lemma conn_by_handle_set ll i c c' h :
  conns ll !! i = Some c → same_ids c c' → conn_by_handle (set_conn i c' ll) h = conn_by_handle ll h.
Proof. intros Hc [Ha Hh He]. unfold conn_by_handle. apply (find_idx_insert _ _ _ c); [done|]. by rewrite Ha, Hh. Qed.

(** A live connection that the host can name and the air can reach. *)
Record live (ll : vbt_ll) (i : nat) (c : ll_conn) (aa : Z) : Prop := Live {
  lv_ok : ll_ok ll;
  lv_ops : both_ways ll;
  lv_conn : conns ll !! i = Some c;
  lv_handle : conn_by_handle ll (c_handle c) = Some i;
  lv_by_aa : conn_by_aa ll aa = Some i;
  lv_aa : c_access_addr c = aa
}.

Lemma live_set ll i c c' aa :
  live ll i c aa → same_ids c c' → (conn_ok i c → conn_ok i c') → live (set_conn i c' ll) i c' aa.
Proof.
  intros [Hok Ho Hc Hh Ha Haa] Hs Hcok. pose proof (lookup_lt_Some _ _ _ Hc) as Hlt. split.
  - destruct Hok. split; try done; [cbn; by rewrite length_insert|].
    intros k d [(-> & <- & _)|[_ Hd]]%list_lookup_insert_Some; [by apply Hcok, lok_conns|by apply lok_conns].
  - done.
  - by apply list_lookup_insert_eq.
  - by rewrite (si_handle _ _ Hs), (conn_by_handle_set _ _ _ _ _ Hc Hs).
  - by rewrite (conn_by_aa_set _ _ _ _ _ Hc Hs).
  - by rewrite (si_aa _ _ Hs).
Qed.
Lemma live_encrypting ll i c aa :
  live ll i c aa → live (set_conn i (set_c_encrypting true c) ll) i (set_c_encrypting true c) aa.
Proof. intros Hl. eapply live_set; [done|by split|]. intros []. by split. Qed.
Lemma live_encrypted ll i c aa :
  live ll i c aa → live (now_encrypted ll i c) i (set_c_encrypted true c) aa.
Proof. intros Hl. eapply live_set; [done|by split|]. intros []. by split. Qed.
Lemma live_u16 ll i c aa : live ll i c aa → is_u16 (c_handle c).
Proof. intros [Hok _ Hc _ _ _]. apply (lok_conns _ Hok i c Hc). Qed.

(** C9: encryption is started at both ends.  When one host starts encryption,
    the other is asked for the key of that Rand and EDIV; when it supplies a
    key, the link becomes encrypted at both ends and both hosts are told,
    the other end after this one.  The keys themselves stay where they are:
    the handshake is the same whatever they are, equal or not.  In between,
    the LL_ENC_RSP changes nothing. *)
Theorem encryption_established (A B : vbt_ll) (i j : nat) (ca cb : ll_conn) (aa : Z)
    (rand ediv ltkA ltkB tailA tailB : list Z) :
  live A i ca aa → live B j cb aa → c_encrypted ca = false → c_encrypted cb = false →
  zlen rand = 8 → zlen ediv = 2 → zlen ltkA = 16 → zlen ltkB = 16 →
  ∃ hdr1 pdu1 A1 hdr2 pdu2 B1 hdr3 pdu3 hdr4 pdu4 A2 B2 ca' cb',
    vbt_ll_hci_from_host (start_encryption_cmd (c_handle ca) rand ediv ltkA ++ tailA) 32 A =
      Ok (tt, A1, [ToHost (status_packet A OP_LE_START_ENCRYPTION); ToMedium hdr1 pdu1]) ∧
    (∀ h, same_air hdr1 h → vbt_ll_pdu_from_medium h pdu1 (pdu_len hdr1) B =
      Ok (tt, B1, [ToMedium hdr2 pdu2; ToHost (ltk_request_packet (c_handle cb) rand ediv)])) ∧
    (∀ h, same_air hdr2 h → vbt_ll_pdu_from_medium h pdu2 (pdu_len hdr2) A1 = Ok (tt, A1, [])) ∧
    vbt_ll_hci_from_host (ltk_reply_cmd (c_handle cb) ltkB ++ tailB) 22 B1 =
      Ok (tt, B1, [ToHost (ltk_reply_packet B (c_handle cb)); ToMedium hdr3 pdu3]) ∧
    (∀ h, same_air hdr3 h → vbt_ll_pdu_from_medium h pdu3 (pdu_len hdr3) A1 =
      Ok (tt, A2, [ToMedium hdr4 pdu4; ToHost (encrypted_packet (c_handle ca))])) ∧
    (∀ h, same_air hdr4 h → vbt_ll_pdu_from_medium h pdu4 (pdu_len hdr4) B1 =
      Ok (tt, B2, [ToHost (encrypted_packet (c_handle cb))])) ∧
    live A2 i ca' aa ∧ c_encrypted ca' = true ∧ live B2 j cb' aa ∧ c_encrypted cb' = true.
Proof.
  intros HA HB HeA HeB Hr He HkA HkB. pose proof (live_u16 _ _ _ _ HA) as HuA. pose proof (live_u16 _ _ _ _ HB) as HuB.
  pose proof (live_encrypting _ _ _ _ HA) as HA1. pose proof (live_encrypting _ _ _ _ HB) as HB1.
  set (ca1 := set_c_encrypting true ca) in *. set (cb1 := set_c_encrypting true cb) in *.
  set (A1 := set_conn i ca1 A) in *. set (B1 := set_conn j cb1 B) in *.
  eexists _, _, A1, _, _, B1, _, _, _, _, _, _, (set_c_encrypted true ca1), (set_c_encrypted true cb1).
  split; [eapply start_encryption_sent; try done; apply HA|].
  split.
  { intros h [Ht Ha]. cbn in Ht, Ha. change (pdu_len (control_hdr _ _ ?p)) with (3 + zlen p).
    rewrite enc_req_len by done. apply (enc_req_received B j cb); try done; [apply HB..|].
    rewrite Ha, (lv_aa _ _ _ _ HA). apply HB. }
  split; [intros h [Ht Ha]; cbn in Ht, Ha; apply (enc_rsp_received _ i ca1); try done; [apply HA1..|]|].
  { rewrite Ha, (lv_aa _ _ _ _ HB). apply HA1. }
  split; [eapply (ltk_reply_sent B1 j cb1); try done; apply HB1|].
  split; [intros h [Ht Ha]; cbn in Ht, Ha; apply (start_enc_req_received A1 i ca1); try done; [apply HA1..|]|].
  { rewrite Ha, (lv_aa _ _ _ _ HB). apply HA1. }
  split; [intros h [Ht Ha]; cbn in Ht, Ha; apply (start_enc_rsp_received B1 j cb1); try done; [apply HB1..|]|].
  { rewrite Ha, (lv_aa _ _ _ _ HA). apply HB1. }
  split_and!; [by apply live_encrypted|done|by apply live_encrypted|done].
Qed.

Lemma encryption_established_witness :
  ∃ hdr1 pdu1 A1 hdr2 pdu2 B1 hdr3 pdu3 hdr4 pdu4 A2 B2 ca' cb',
    vbt_ll_hci_from_host (start_encryption_cmd 0x40 (replicate 8 7) [1; 2] (replicate 16 3) ++ []) 32 central =
      Ok (tt, A1, [ToHost (status_packet central OP_LE_START_ENCRYPTION); ToMedium hdr1 pdu1]) ∧
    (∀ h, same_air hdr1 h → vbt_ll_pdu_from_medium h pdu1 (pdu_len hdr1) peripheral =
      Ok (tt, B1, [ToMedium hdr2 pdu2; ToHost (ltk_request_packet 0x43 (replicate 8 7) [1; 2])])) ∧
    (∀ h, same_air hdr2 h → vbt_ll_pdu_from_medium h pdu2 (pdu_len hdr2) A1 = Ok (tt, A1, [])) ∧
    vbt_ll_hci_from_host (ltk_reply_cmd 0x43 (replicate 16 4) ++ []) 22 B1 =
      Ok (tt, B1, [ToHost (ltk_reply_packet peripheral 0x43); ToMedium hdr3 pdu3]) ∧
    (∀ h, same_air hdr3 h → vbt_ll_pdu_from_medium h pdu3 (pdu_len hdr3) A1 =
      Ok (tt, A2, [ToMedium hdr4 pdu4; ToHost (encrypted_packet 0x40)])) ∧
    (∀ h, same_air hdr4 h → vbt_ll_pdu_from_medium h pdu4 (pdu_len hdr4) B1 =
      Ok (tt, B2, [ToHost (encrypted_packet 0x43)])) ∧
    live A2 0 ca' 0x12345678 ∧ c_encrypted ca' = true ∧ live B2 3 cb' 0x12345678 ∧ c_encrypted cb' = true.
Proof.
  apply (encryption_established central peripheral 0 3 (opened 0 0x12345678 0 bd2 0)
    (opened 3 0x12345678 1 bd1 0) 0x12345678 (replicate 8 7) [1; 2] (replicate 16 3) (replicate 16 4) [] []);
    try reflexivity.
  - split; try reflexivity. apply with_conn_ok; [apply bd_ok..|lia|auto].
  - split; try reflexivity. apply with_conn_ok; [apply bd_ok..|lia|auto].
Defined.
