(* ===== verification/LLScan.v ===== *)
(** * Active scanning

    What a scanner reports of an advertiser, and the exchange of SCAN_REQ and
    SCAN_RSP that fetches the rest of its data. *)

From stdpp Require Import base list numbers option.
From Stdlib Require Import ZArith Lia.
From S2P Require Import Prelude Wire LLState LLEmit LLCmd LLAir LLInv LLProps LLLink.

(** The LE Advertising Report for one advertisement. *)
Definition adv_report (event_type addr_type : Z) (addr data : list Z) (r : Z) : list Z :=
  le_meta ([SUB_LE_ADV_REPORT; 1; event_type; addr_type] ++ addr ++ [zlen data] ++ data ++ [u8 r]).

Lemma report_adv_run ll et at_ addr data r :
  both_ways ll → zlen addr = 6 → zlen data ≤ 30 →
  report_adv et at_ addr data r ll = Ok (tt, ll, [ToHost (adv_report et at_ addr data r)]).
Proof.
  intros Ho Ha Hd. pose proof (zlen_nonneg data). unfold report_adv. rewrite u8_small by mlia.
  rewrite bind_local_buf by (unfold le_meta, report_adv_cap; zlen_lia). by rewrite send_hci_run.
Qed.

(** The requests and responses on the air. *)
Definition scan_req_hdr (ll : vbt_ll) : vbt_frame_hdr :=
  fill_hdr VBT_LL_ADV VBT_ADV_ACCESS_ADDR 37 (own_source_addr ll (scan_own_addr_type ll))
    (own_source_addr_type ll (scan_own_addr_type ll)) 14.
Definition scan_req_pdu (ll : vbt_ll) (adva : list Z) (txadd : Z) : list Z :=
  [u8 (Z.lor (Z.lor VBT_SCAN_REQ (hdr_bit (own_source_addr_type ll (scan_own_addr_type ll)) 6)) (hdr_bit txadd 7)); 12]
  ++ own_source_addr ll (scan_own_addr_type ll) ++ adva.
Definition scan_rsp_hdr (ll : vbt_ll) : vbt_frame_hdr :=
  fill_hdr VBT_LL_ADV VBT_ADV_ACCESS_ADDR 37 (own_source_addr ll (adv_own_addr_type ll))
    (own_source_addr_type ll (adv_own_addr_type ll)) (8 + scan_rsp_data_len ll).
Definition scan_rsp_pdu (ll : vbt_ll) : list Z :=
  [u8 (Z.lor VBT_SCAN_RSP (hdr_bit (own_source_addr_type ll (adv_own_addr_type ll)) 6)); 6 + scan_rsp_data_len ll] ++
  own_source_addr ll (adv_own_addr_type ll) ++ slice 0 (scan_rsp_data_len ll) (scan_rsp_data ll).

Lemma send_scan_req_run ll adva txadd :
  ll_ok ll → both_ways ll → zlen adva = 6 →
  send_scan_req adva txadd ll = Ok (tt, ll, [ToMedium (scan_req_hdr ll) (scan_req_pdu ll adva txadd)]).
Proof.
  intros Hll Ho Ha. pose proof (addr_ok_zlen _ (own_source_addr_ok ll (scan_own_addr_type ll) Hll)) as Hs.
  unfold send_scan_req. exec. rewrite bind_local_buf by zlen_lia. fold (scan_req_pdu ll adva txadd).
  unfold send_adv_pdu. assert (zlen (scan_req_pdu ll adva txadd) = 14) as ->; [|by apply to_medium_run].
  unfold scan_req_pdu. rewrite !zlen_app, Hs, Ha. done.
Qed.

(** ** The advertiser's answer *)

Lemma scan_rsp_data_len_ok ll : ll_ok ll →
  0 ≤ scan_rsp_data_len ll ≤ 31 ∧ zlen (slice 0 (scan_rsp_data_len ll) (scan_rsp_data ll)) = scan_rsp_data_len ll.
Proof.
  intros Hll. pose proof (lok_rsp_len _ Hll) as Hl. split; [lia|].
  apply zlen_slice; rewrite ?(proj2 (lok_rsp_data _ Hll)); lia.
Qed.

Lemma scan_answered ll h t0 sa :
  ll_ok ll → both_ways ll → adv_enabled ll = true → ll_type h = VBT_LL_ADV → zlen sa = 6 →
  Z.land t0 15 = VBT_SCAN_REQ →
  vbt_ll_pdu_from_medium h ([t0; 12] ++ sa ++ own_source_addr ll (adv_own_addr_type ll)) 14 ll =
    Ok (tt, ll, [ToMedium (scan_rsp_hdr ll) (scan_rsp_pdu ll)]).
Proof.
  intros Hll Ho Hadv Ht Hs Ht0.
  pose proof (addr_ok_zlen _ (own_source_addr_ok ll (adv_own_addr_type ll) Hll)) as Ha.
  destruct (scan_rsp_data_len_ok ll Hll) as [Hlen Hsl].
  unfold vbt_ll_pdu_from_medium. rewrite if_false by done. rewrite Ht, if_true by done.
  unfold rx_adv. do 2 (erewrite bind_rd by done). cbv zeta. unfold VBT_ADV_PDU_TYPE_MASK. rewrite Ht0.
  rewrite if_false by done. rewrite if_true by done. change (clip_body 12 14) with 12.
  unfold rx_scan_req. exec. rewrite Hadv, when_true by done.
  rewrite bind_rdn by (rewrite ?zlen_app, ?Hs, ?Ha; zlen_lia).
  assert (slice 8 6 ([t0; 12] ++ sa ++ own_source_addr ll (adv_own_addr_type ll)) =
    own_source_addr ll (adv_own_addr_type ll)) as ->.
  { rewrite !slice_app_r by (rewrite ?Hs; done). rewrite Hs. by apply slice_all. }
  rewrite bool_decide_eq_true_2 by done. cbn [when].
  unfold send_scan_rsp. exec. rewrite bind_rdn by (rewrite ?(proj2 (lok_rsp_data _ Hll)); lia).
  rewrite (u8_small (6 + scan_rsp_data_len ll)) by mlia. fold (scan_rsp_pdu ll).
  assert (zlen (scan_rsp_pdu ll) = 8 + scan_rsp_data_len ll) as Hpl.
  { unfold scan_rsp_pdu. rewrite !zlen_app, Ha, Hsl. zlen_lia. }
  rewrite bind_local_buf by lia. unfold send_adv_pdu. rewrite Hpl, u16_small by mlia. by apply to_medium_run.
Qed.

(** ** What the scanner hears *)

(** The advertising PDU types that are reported. *)
Definition reported_type (t : Z) : bool :=
  (t =? VBT_ADV_IND) || (t =? VBT_ADV_DIRECT_IND) || (t =? VBT_ADV_NONCONN_IND) || (t =? VBT_ADV_SCAN_IND).
(** Those that an active scanner follows up. *)
Definition scannable_type (t : Z) : bool := (t =? VBT_ADV_IND) || (t =? VBT_ADV_SCAN_IND).

Section Hears.
Context (ll : vbt_ll) (h : vbt_frame_hdr) (b0 : Z) (adva data : list Z).
Context (Hll : ll_ok ll) (Ho : both_ways ll) (Hs : scanning ll) (Ht : ll_type h = VBT_LL_ADV).
Context (Ha : zlen adva = 6) (Hd : zlen data ≤ 30).
Let txadd := if Z.testbit b0 6 then 1 else 0.

Lemma advert_heard :
  reported_type (Z.land b0 15) = true →
  vbt_ll_pdu_from_medium h (adv_ind_pdu b0 adva data) (8 + zlen data) ll =
    Ok (tt, ll, ToHost (adv_report (adv_event_type (Z.land b0 15)) txadd adva data (rssi h)) ::
      (if (scan_type ll =? 1) && scannable_type (Z.land b0 15)
       then [ToMedium (scan_req_hdr ll) (scan_req_pdu ll adva txadd)] else [])).
Proof using All.
  intros Hty. destruct Hs as [Hsc Hst]. pose proof (zlen_nonneg data). unfold vbt_ll_pdu_from_medium.
  rewrite if_false by lia. rewrite Ht, if_true by done. unfold rx_adv, adv_ind_pdu.
  rewrite (bind_rd _ 0 b0), (bind_rd _ 1 (6 + zlen data)) by done. cbv zeta. fold txadd.
  unfold VBT_ADV_PDU_TYPE_MASK. rewrite if_true by exact Hty.
  unfold clip_body. rewrite if_false by lia. unfold rx_adv_ind. rewrite if_false by lia.
  rewrite bind_rdn by (rewrite ?zlen_app, ?Ha; zlen_lia). cbv zeta.
  assert (slice 2 6 ([b0; 6 + zlen data] ++ adva ++ data) = adva) as ->.
  { rewrite slice_app_r by done. by apply slice_prefix. }
  exec. rewrite bool_decide_eq_false_2 by done. cbn [andb]. rewrite Hsc. cbn [when].
  rewrite Z.add_simpl_l, u8_small by mlia. rewrite bind_rdn by (rewrite ?zlen_app, ?Ha; zlen_lia).
  assert (slice 8 (zlen data) ([b0; 6 + zlen data] ++ adva ++ data) = data) as ->.
  { rewrite !slice_app_r by (rewrite ?Ha; done). rewrite Ha. by apply slice_all. }
  erewrite bind_ok by by apply report_adv_run. fold (scannable_type (Z.land b0 15)).
  destruct (_ && _); [|done]. cbn [when]. by rewrite send_scan_req_run.
Qed.

Lemma scan_rsp_heard :
  Z.land b0 15 = VBT_SCAN_RSP →
  vbt_ll_pdu_from_medium h (adv_ind_pdu b0 adva data) (8 + zlen data) ll =
    Ok (tt, ll, [ToHost (adv_report 0x04 txadd adva data (rssi h))]).
Proof using Ho Hs Ht Ha Hd.
  intros Hty. destruct Hs as [Hsc Hst]. pose proof (zlen_nonneg data). unfold vbt_ll_pdu_from_medium.
  rewrite if_false by lia. rewrite Ht, if_true by done. unfold rx_adv, adv_ind_pdu.
  rewrite (bind_rd _ 0 b0), (bind_rd _ 1 (6 + zlen data)) by done. cbv zeta. fold txadd.
  unfold VBT_ADV_PDU_TYPE_MASK. rewrite Hty. do 2 rewrite (if_false _ _ (_ : bool)) by done. rewrite if_true by done.
  unfold clip_body. rewrite if_false by lia. unfold rx_scan_rsp. exec. rewrite Hsc, when_true by (cbn; lia).
  rewrite bind_rdn by (rewrite ?zlen_app, ?Ha; zlen_lia).
  assert (slice 2 6 ([b0; 6 + zlen data] ++ adva ++ data) = adva) as ->.
  { rewrite slice_app_r by done. by apply slice_prefix. }
  rewrite Z.add_simpl_l, u8_small by mlia. rewrite bind_rdn by (rewrite ?zlen_app, ?Ha; zlen_lia).
  assert (slice 8 (zlen data) ([b0; 6 + zlen data] ++ adva ++ data) = data) as ->.
  { rewrite !slice_app_r by (rewrite ?Ha; done). rewrite Ha. by apply slice_all. }
  by apply report_adv_run.
Qed.
End Hears.

(** The octet in front of an advertisement or scan response. *)
Lemma adv_b0 t atype : 0 ≤ t < 8 → atype = 0 ∨ atype = 1 →
  Z.land (u8 (Z.lor t (hdr_bit atype 6))) 15 = t ∧
  (if Z.testbit (u8 (Z.lor t (hdr_bit atype 6))) 6 then 1 else 0) = atype.
Proof.
  intros Ht Ha. assert (t = 0 ∨ t = 1 ∨ t = 2 ∨ t = 3 ∨ t = 4 ∨ t = 5 ∨ t = 6 ∨ t = 7) as Ht' by lia.
  destruct Ha as [->| ->]; repeat (destruct Ht' as [->|Ht']; [done|]); by subst t.
Qed.

Section Exchange.
Context (A B : vbt_ll).
Context (HA : ll_ok A) (HB : ll_ok B) (HoA : both_ways A) (HoB : both_ways B).
Context (Hs : scanning A) (Hadv : adv_data_len B ≤ 30).
Let addrB := own_source_addr B (adv_own_addr_type B).
Let atype := own_source_addr_type B (adv_own_addr_type B).

Lemma adv_pdu_type_range : adv_pdu_type B = 0 ∨ adv_pdu_type B = 2 ∨ adv_pdu_type B = 6.
Proof using.
  unfold adv_pdu_type. destruct (_ =? 0x02); [auto|]. destruct (_ =? 0x03); [auto|].
  destruct (_ =? 0x06); auto.
Qed.

(** The advertisement of [B] at [A]. *)
Lemma air_advert_heard h :
  ll_type h = VBT_LL_ADV →
  vbt_ll_pdu_from_medium h (adv_air_pdu B) (8 + adv_data_len B) A =
    Ok (tt, A, ToHost (adv_report (adv_event_type (adv_pdu_type B)) atype addrB
        (slice 0 (adv_data_len B) (adv_data B)) (rssi h)) ::
      (if (scan_type A =? 1) && scannable_type (adv_pdu_type B)
       then [ToMedium (scan_req_hdr A) (scan_req_pdu A addrB atype)] else [])).
Proof using All.
  intros Ht. pose proof (lok_adv_len _ HB) as Hlen. set (d := slice 0 (adv_data_len B) (adv_data B)).
  assert (zlen d = adv_data_len B) as Hdl.
  { apply zlen_slice; rewrite ?(proj2 (lok_adv_data _ HB)); lia. }
  set (b0 := u8 (Z.lor (adv_pdu_type B) (hdr_bit atype 6))).
  destruct (adv_b0 (adv_pdu_type B) atype) as [E1 E2].
  { destruct adv_pdu_type_range as [->|[->| ->]]; lia. }
  { apply own_source_addr_type_01. }
  fold b0 in E1, E2. assert (adv_air_pdu B = adv_ind_pdu b0 addrB d) as ->.
  { unfold adv_air_pdu, adv_ind_pdu. by rewrite Hdl. }
  rewrite <- Hdl, advert_heard; try done; [by rewrite E1, E2|by apply addr_ok_zlen, own_source_addr_ok|lia|].
  rewrite E1. by destruct adv_pdu_type_range as [->|[->| ->]].
Qed.

(** Its scan response. *)
Lemma air_scan_rsp_heard h :
  scan_rsp_data_len B ≤ 30 → ll_type h = VBT_LL_ADV →
  vbt_ll_pdu_from_medium h (scan_rsp_pdu B) (8 + scan_rsp_data_len B) A =
    Ok (tt, A, [ToHost (adv_report 0x04 atype addrB
      (slice 0 (scan_rsp_data_len B) (scan_rsp_data B)) (rssi h))]).
Proof using All.
  intros Hr Ht. destruct (scan_rsp_data_len_ok B HB) as [_ Hdl].
  set (d := slice 0 (scan_rsp_data_len B) (scan_rsp_data B)) in *.
  set (b0 := u8 (Z.lor VBT_SCAN_RSP (hdr_bit atype 6))).
  destruct (adv_b0 VBT_SCAN_RSP atype) as [E1 E2]; [done|apply own_source_addr_type_01|].
  fold b0 in E1, E2. assert (scan_rsp_pdu B = adv_ind_pdu b0 addrB d) as ->.
  { unfold scan_rsp_pdu, adv_ind_pdu. by rewrite Hdl. }
  rewrite <- Hdl, scan_rsp_heard; try done; [by rewrite E2|by apply addr_ok_zlen, own_source_addr_ok|lia].
Qed.
End Exchange.

(** C10: an active scan fetches everything an advertiser offers, if its
    advertising data and its scan response have at most 30 bytes each (31 are
    legal, but overrun the array of [report_adv], see [report_adv_overflow]).
    The host of the scanner is told of the advertisement with its type, address and data; the
    scanner asks for more, the advertiser answers without being disturbed,
    and the host is told of the scan response with the same address: two
    reports, with the signal strength of the frame each came in, whatever
    else the medium writes into the headers. *)
Theorem active_scan (A B : vbt_ll) :
  ll_ok A → ll_ok B → both_ways A → both_ways B → scanning A → scan_type A = 1 →
  adv_enabled B = true → scannable_type (adv_pdu_type B) = true →
  adv_data_len B ≤ 30 → scan_rsp_data_len B ≤ 30 →
  let addrB := own_source_addr B (adv_own_addr_type B) in
  let atype := own_source_addr_type B (adv_own_addr_type B) in
  ∃ hdr1 pdu1 outs hdr2 pdu2 hdr3 pdu3,
    emit_advertisement B = Ok (tt, B, ToMedium hdr1 pdu1 :: outs) ∧
    (∀ h, same_air hdr1 h → vbt_ll_pdu_from_medium h pdu1 (pdu_len hdr1) A =
       Ok (tt, A, [ToHost (adv_report (adv_event_type (adv_pdu_type B)) atype addrB
                     (slice 0 (adv_data_len B) (adv_data B)) (rssi h)); ToMedium hdr2 pdu2])) ∧
    (∀ h, same_air hdr2 h → vbt_ll_pdu_from_medium h pdu2 (pdu_len hdr2) B =
       Ok (tt, B, [ToMedium hdr3 pdu3])) ∧
    (∀ h, same_air hdr3 h → vbt_ll_pdu_from_medium h pdu3 (pdu_len hdr3) A =
       Ok (tt, A, [ToHost (adv_report 0x04 atype addrB
                     (slice 0 (scan_rsp_data_len B) (scan_rsp_data B)) (rssi h))])).
Proof.
  intros HA HB HoA HoB Hs Hst Hon Hty Hd Hr addrB atype.
  eexists _, _, _, (scan_req_hdr A), (scan_req_pdu A addrB atype), (scan_rsp_hdr B), (scan_rsp_pdu B).
  split; [by apply advertised|]. split_and!.
  - intros h [Ht _]. change (pdu_len _) with (8 + adv_data_len B). rewrite air_advert_heard by done.
    by rewrite Hst, Hty.
  - intros h [Ht _]. unfold scan_req_pdu. apply scan_answered; try done.
    + by apply addr_ok_zlen, own_source_addr_ok.
    + by destruct (own_source_addr_type_01 A (scan_own_addr_type A)) as [->| ->],
        (own_source_addr_type_01 B (adv_own_addr_type B)) as [E|E]; subst atype; rewrite E.
  - intros h [Ht _]. change (pdu_len _) with (8 + scan_rsp_data_len B). by apply air_scan_rsp_heard.
Qed.

(** An active scanner, and an advertiser with a scan response. *)
Definition scanning_ll : vbt_ll :=
  set_scan_type 1 (set_scan_enabled true (set_state LL_SCANNING (vbt_ll_new (Ops true true) bd1))).
Definition responder : vbt_ll := set_scan_rsp_data_len 3 (set_adv_data_len 2 advertiser).

Lemma scanning_ll_ok : ll_ok scanning_ll.
Proof. pose proof (vbt_ll_new_ok (Ops true true) bd1 (proj1 bd_ok)) as []. by split. Qed.
Lemma responder_ok : ll_ok responder.
Proof. pose proof advertiser_ok as []. by split. Qed.

Lemma active_scan_witness :
  ∃ hdr1 pdu1 outs hdr2 pdu2 hdr3 pdu3,
    emit_advertisement responder = Ok (tt, responder, ToMedium hdr1 pdu1 :: outs) ∧
    (∀ h, same_air hdr1 h → vbt_ll_pdu_from_medium h pdu1 (pdu_len hdr1) scanning_ll =
       Ok (tt, scanning_ll, [ToHost (adv_report 0 0 bd2 [0; 0] (rssi h)); ToMedium hdr2 pdu2])) ∧
    (∀ h, same_air hdr2 h → vbt_ll_pdu_from_medium h pdu2 (pdu_len hdr2) responder =
       Ok (tt, responder, [ToMedium hdr3 pdu3])) ∧
    (∀ h, same_air hdr3 h → vbt_ll_pdu_from_medium h pdu3 (pdu_len hdr3) scanning_ll =
       Ok (tt, scanning_ll, [ToHost (adv_report 0x04 0 bd2 [0; 0; 0] (rssi h))])).
Proof.
  apply (active_scan scanning_ll responder); try done; [apply scanning_ll_ok|apply responder_ok].
Defined.

(** ** Scannable advertising *)

(** The advertising types a host can choose (LE Set Advertising Parameters). *)
Definition HCI_ADV_SCAN_IND : Z := 0x02.

(** C40: scannable advertising is not scannable.  The host's choice of type 0x02,
    scannable undirected advertising, is put on the air as ADV_NONCONN_IND (in
    three copies): a scanner that gets the first of them, with at most 30 bytes
    of data, reports it as non-connectable and does not ask for the scan
    response, so its data reaches nobody. *)
Theorem scannable_never_asked (A B : vbt_ll) :
  ll_ok A → ll_ok B → both_ways A → both_ways B → scanning A →
  adv_type B = HCI_ADV_SCAN_IND → adv_data_len B ≤ 30 →
  let addrB := own_source_addr B (adv_own_addr_type B) in
  let atype := own_source_addr_type B (adv_own_addr_type B) in
  ∃ hdr pdu outs, emit_advertisement B = Ok (tt, B, ToMedium hdr pdu :: outs) ∧
    (∀ h, same_air hdr h → vbt_ll_pdu_from_medium h pdu (pdu_len hdr) A =
       Ok (tt, A, [ToHost (adv_report 0x03 atype addrB (slice 0 (adv_data_len B) (adv_data B)) (rssi h))])).
Proof.
  intros HA HB HoA HoB Hs Hty Hd addrB atype.
  eexists _, _, _. split; [by apply advertised|]. intros h [Ht _].
  change (pdu_len _) with (8 + adv_data_len B). rewrite air_advert_heard by done.
  assert (adv_pdu_type B = VBT_ADV_NONCONN_IND) as -> by (unfold adv_pdu_type; by rewrite Hty).
  by rewrite andb_false_r.
Qed.

Definition scannable_responder : vbt_ll := set_adv_type HCI_ADV_SCAN_IND responder.
Lemma scannable_never_asked_witness :
  ∃ hdr pdu outs, emit_advertisement scannable_responder =
      Ok (tt, scannable_responder, ToMedium hdr pdu :: outs) ∧
    (∀ h, same_air hdr h → vbt_ll_pdu_from_medium h pdu (pdu_len hdr) scanning_ll =
       Ok (tt, scanning_ll, [ToHost (adv_report 0x03 0 bd2 [0; 0] (rssi h))])).
Proof.
  apply (scannable_never_asked scanning_ll scannable_responder); try done; [apply scanning_ll_ok|].
  pose proof responder_ok as []. by split.
Defined.
