(* ===== verification/LLFrame.v ===== *)
(** * A received PDU is read within its own length

    The transports hand the controller a pointer into their receive buffer,
    where stale bytes follow the PDU.  The controller never looks at them. *)

From stdpp Require Import base list numbers option.
From Stdlib Require Import ZArith Lia.
From S2P Require Import Prelude Wire LLState LLEmit LLCmd LLAir LLInv LLProps.

Section Stale.
Context {S W : Type} (b t : list Z).

Lemma rd_app i : 0 ≤ i < zlen b → rd (S:=S) (W:=W) (b ++ t) i = rd b i.
Proof using.
  intros Hi. unfold rd. case_decide; [|done]. by rewrite lookup_app_l by (unfold zlen in Hi; lia).
Qed.
Lemma rdn_app off n :
  0 ≤ off → 0 ≤ n → off + n ≤ zlen b → rdn (S:=S) (W:=W) (b ++ t) off n = rdn b off n.
Proof using.
  intros. unfold rdn. pose proof (zlen_nonneg t). rewrite zlen_app.
  rewrite !decide_True by lia. by rewrite slice_app_l.
Qed.
End Stale.

Section Rx.
Context (pdu tail : list Z).

Lemma rx_adv_ind_app h type txadd bl ll :
  bl + 2 ≤ zlen pdu → bl ≤ 255 →
  rx_adv_ind h (pdu ++ tail) type txadd bl ll = rx_adv_ind h pdu type txadd bl ll.
Proof using.
  intros Hbl Hb. unfold rx_adv_ind. destruct (bl <? 6) eqn:E; [done|].
  rewrite (rdn_app _ _ 2 6) by lia. rewrite u8_small by mlia. by rewrite (rdn_app _ _ 8) by lia.
Qed.

Lemma rx_scan_req_app bl ll :
  bl + 2 ≤ zlen pdu → rx_scan_req (pdu ++ tail) bl ll = rx_scan_req pdu bl ll.
Proof using.
  intros Hbl. unfold rx_scan_req. rewrite !bind_get.
  destruct (12 <=? bl) eqn:E; [by rewrite rdn_app by lia|]. by rewrite andb_false_r.
Qed.

Lemma rx_scan_rsp_app h txadd bl ll :
  bl + 2 ≤ zlen pdu → bl ≤ 255 →
  rx_scan_rsp h (pdu ++ tail) txadd bl ll = rx_scan_rsp h pdu txadd bl ll.
Proof using.
  intros Hbl Hb. unfold rx_scan_rsp. rewrite !bind_get.
  destruct (6 <=? bl) eqn:E; [|by rewrite andb_false_r].
  rewrite (rdn_app _ _ 2 6) by lia. rewrite u8_small by mlia. by rewrite (rdn_app _ _ 8) by lia.
Qed.

Lemma rx_connect_ind_app bl ll :
  bl + 2 ≤ zlen pdu → rx_connect_ind (pdu ++ tail) bl ll = rx_connect_ind pdu bl ll.
Proof using.
  intros Hbl. unfold rx_connect_ind. rewrite !bind_get.
  destruct (bl <? 34) eqn:E; [by rewrite orb_true_r|].
  rewrite !rdn_app by lia. by rewrite rd_app by lia.
Qed.

Lemma handle_ll_control_app i (payload : list Z) bl ll :
  bl ≤ zlen payload →
  handle_ll_control i (payload ++ tail) bl ll = handle_ll_control i payload bl ll.
Proof using.
  intros Hbl. unfold handle_ll_control. destruct (bl <? 1) eqn:E; [done|].
  rewrite (rd_app _ _ 0) by lia. unfold ll_enc_req.
  assert ((if 2 <=? bl then rd (payload ++ tail) 1 else mret HCI_REMOTE_USER_TERM) =
    (if 2 <=? bl then rd payload 1 else mret HCI_REMOTE_USER_TERM : LL Z)) as ->.
  { destruct (2 <=? bl) eqn:E2; [by rewrite rd_app by lia|done]. }
  destruct (1 + 8 + 2 + 8 + 4 <=? bl) eqn:E3; [by rewrite !rdn_app by lia|done].
Qed.

Lemma clip_body_fits b1 plen :
  is_u8 b1 → 2 ≤ plen → clip_body b1 plen + 2 ≤ plen ∧ clip_body b1 plen ≤ 255.
Proof using. intros Hb Hl. unfold clip_body. destruct (_ <? _) eqn:E; mlia. Qed.
End Rx.

Lemma pdu_from_medium_app (ll : vbt_ll) (h : vbt_frame_hdr) (pdu tail : list Z) :
  bytes_ok pdu →
  vbt_ll_pdu_from_medium h (pdu ++ tail) (zlen pdu) ll =
  vbt_ll_pdu_from_medium h pdu (zlen pdu) ll.
Proof.
  intros Hb. unfold vbt_ll_pdu_from_medium. destruct (zlen pdu <? 2) eqn:E; [done|].
  assert (∃ b0 b1 body, pdu = b0 :: b1 :: body) as (b0 & b1 & body & Hp).
  { destruct pdu as [|b0 [|b1 body]]; [done|done|eauto]. }
  assert (is_u8 b1) as Hb1.
  { rewrite Hp in Hb. by apply Forall_cons_1 in Hb as [_ [? _]%Forall_cons_1]. }
  destruct (clip_body_fits b1 (zlen pdu) Hb1) as [Hc1 Hc2]; [lia|].
  destruct (_ =? VBT_LL_ADV); [|destruct (_ =? VBT_LL_DATA); [|done]].
  - unfold rx_adv. rewrite (rd_app _ _ 0), (rd_app _ _ 1) by lia.
    rewrite !(bind_rd _ 0 b0), !(bind_rd _ 1 b1) by (lia || by rewrite Hp). cbv zeta.
    destruct (_ || _); [by apply rx_adv_ind_app|].
    destruct (_ =? VBT_SCAN_REQ); [by apply rx_scan_req_app|].
    destruct (_ =? VBT_SCAN_RSP); [by apply rx_scan_rsp_app|].
    destruct (_ =? VBT_CONNECT_IND); [by apply rx_connect_ind_app|done].
  - unfold rx_data. rewrite !bind_get. destruct (conn_by_aa _ _) as [i|]; [|done].
    rewrite (rd_app _ _ 0), (rd_app _ _ 1) by lia.
    rewrite !(bind_rd _ 0 b0), !(bind_rd _ 1 b1) by (lia || by rewrite Hp). cbv zeta.
    destruct (_ =? LLID_CONTROL).
    + rewrite drop_app_le by (rewrite Hp; cbn; lia). apply handle_ll_control_app.
      unfold zlen in *. rewrite length_drop. lia.
    + destruct (0 <? clip_body b1 (zlen pdu)) eqn:E2; [|by rewrite andb_false_r].
      by rewrite rdn_app by lia.
Qed.
