(* ===== verification/Client.v ===== *)
(** * The client of the medium socket (src/vbt_controller.c,
    src/vbt_vhost_user.c, src/src/vbt_virtio.c)

    The three transports embed the same code: a receive buffer that
    reassembles the hub's stream and hands its frames to the controller core,
    and a loop that writes a frame to the socket.  What a transport supplies
    is the class [Transport]: where the core and the receive buffer live in
    its state, its two callbacks, and whether it counts a frame.  The reader
    is written against that class. *)

From stdpp Require Import base list numbers option.
From Stdlib Require Import ZArith Lia.
From S2P Require Import Prelude Wire LLState LLEmit LLCmd LLAir.

(** ** Results of system calls and what a transport does *)

(** [write] accepted bytes, must be tried again (EINTR, EAGAIN), or failed. *)
Inductive os_write : Type := OsBytes (n : Z) | OsRetry | OsError.
Inductive os_read : Type :=
  | RdBytes (l : list Z)
  | RdEof
  | RdAgain     (* EINTR or EAGAIN *)
  | RdError.

(** One attempt to reach the hub: [socket] fails, [connect] fails, or the
    socket [fd] is connected and [w] is the result of writing the hello. *)
Inductive dial : Type := NoSocket | Refused (fd : Z) | Dialled (fd : Z) (w : os_write).

Inductive pev : Type :=
  | PWrite (fd : Z) (b : list Z)       (* bytes accepted by [write(fd)] *)
  | PClose (fd : Z)
  | PHost (pkt : list Z)               (* a packet passed to [write] on vhci *)
  | PWatch (fd : Z) (on : bool)        (* a handler set or removed for [fd] *)
  | PPush (b : list Z) (len : Z)       (* an RX element returned holding [b], [len] reported *)
  | PUsed                              (* a TX element returned *)
  | PNotify.

(** ** The receive side *)

Record client : Type := Client {
  cl_ll : vbt_ll;
  cl_rxbuf : list Z;
  cl_rxused : Z;
  cl_rx_pdus : Z
}.
Definition set_cl_ll (v : vbt_ll) (c : client) : client :=
  Client v (cl_rxbuf c) (cl_rxused c) (cl_rx_pdus c).
Definition set_cl_rx (b : list Z) (u : Z) (c : client) : client :=
  Client (cl_ll c) b u (cl_rx_pdus c).
Definition set_cl_rx_pdus (v : Z) (c : client) : client :=
  Client (cl_ll c) (cl_rxbuf c) (cl_rxused c) v.

Class Transport (T : Type) : Type := {
  client_of : T → client;
  set_client : client → T → T;
  (** [cb_hci_to_host] and [cb_pdu_to_medium] *)
  callback : out → cmd T pev unit;
  (** Whether a frame is counted, given that its length agrees or not. *)
  counted : bool → bool
}.

Section Reader.
Context {T : Type} `{Transport T}.
Abbreviation TR := (cmd T pev).

Definition upd_client (f : client → client) : TR unit :=
  modify (λ t, set_client (f (client_of t)) t).

(** A call into the controller core.  The callbacks touch neither the core
    nor the receive buffer, so the calls the core makes to them are carried
    out, in their order, when it returns. *)
Definition core (m : LL unit) : TR unit := λ t,
  match m (cl_ll (client_of t)) with
  | Ok (_, ll, outs) => for_each outs callback (set_client (set_cl_ll ll (client_of t)) t)
  | Fault e => Fault e
  end.

(** A frame with the right magic; the PDU is passed as a pointer into the
    receive buffer. *)
Definition client_frame (hdr : vbt_frame_hdr) (plen : Z) : TR unit :=
  c ← gets client_of;
  let n := plen - VBT_HDR_SIZE in
  when (n =? pdu_len hdr)
    (core (vbt_ll_pdu_from_medium hdr (drop (Z.to_nat (4 + VBT_HDR_SIZE)) (cl_rxbuf c)) n));;
  when (counted (n =? pdu_len hdr)) (upd_client (λ c, set_cl_rx_pdus (u64 (cl_rx_pdus c + 1)) c)).

Definition client_message (plen : Z) : TR unit :=
  when (VBT_HDR_SIZE <=? plen)
    (c ← gets client_of;
     hb ← rdn (cl_rxbuf c) 4 VBT_HDR_SIZE;
     let hdr := hdr_of_bytes hb in
     when (magic hdr =? VBT_MAGIC) (client_frame hdr plen)).

Definition client_consume (total : Z) : TR unit :=
  c ← gets client_of;
  let used := u32 (cl_rxused c - total) in
  if 0 <? used then
    rest ← rdn (cl_rxbuf c) total used;
    upd_client (λ c, set_cl_rx (splice 0 rest (cl_rxbuf c)) used c)
  else upd_client (λ c, set_cl_rx (cl_rxbuf c) used c).

(** [while (rxused >= 4)]; an oversized length empties the buffer. *)
Fixpoint client_loop (fuel : nat) : TR unit :=
  c ← gets client_of;
  if cl_rxused c <? 4 then skip
  else
    match fuel with
    | O => fail NoFuel
    | S fuel =>
        hd ← rdn (cl_rxbuf c) 0 4;
        let plen := of_be32 hd in
        if VBT_MAX_MSG_SIZE <? plen then upd_client (λ c, set_cl_rx (cl_rxbuf c) 0 c)
        else if cl_rxused c <? 4 + plen then skip
        else client_message plen;; client_consume (4 + plen);; client_loop fuel
    end.

(** Each iteration consumes at least a length prefix. *)
Definition client_fuel : nat := Z.to_nat (VBT_RXBUF_SIZE / 4 + 1).

(** The room [read] is given: a full buffer is emptied first. *)
Definition rx_start (c : client) : Z :=
  if VBT_RXBUF_SIZE <=? cl_rxused c then 0 else cl_rxused c.

(** [read] returned the bytes [l], no more than there was room for. *)
Definition client_input (l : list Z) : TR unit :=
  c ← gets client_of;
  let used := rx_start c in
  let l := take (Z.to_nat (VBT_RXBUF_SIZE - used)) l in
  upd_client (λ c, set_cl_rx (splice used l (cl_rxbuf c)) (u32 (used + zlen l)) c);;
  client_loop client_fuel.
End Reader.

(** ** The send side *)

(** [while (off < total) { n = write(fd, wire + off, total - off); ... }]: the
    chunks accepted, the results left over, and whether all was written.
    Once the given results are used up, [write] accepts everything. *)
Fixpoint send_loop (ws : list os_write) (data : list Z) : list (list Z) * list os_write * bool :=
  match data with
  | [] => ([], ws, true)
  | _ =>
      match ws with
      | [] => ([data], [], true)
      | OsBytes n :: ws =>
          if 0 <? n then
            let k := Z.to_nat (Z.min n (zlen data)) in
            let '(cs, ws', ok) := send_loop ws (drop k data) in
            (take k data :: cs, ws', ok)
          else ([], ws, false)
      | OsRetry :: ws => send_loop ws data
      | OsError :: ws => ([], ws, false)
      end
  end.

(** The same loop on the rest of the write results of a transport's state. *)
Definition send_wire {T} (writes : T → list os_write) (set_writes : list os_write → T → T)
    (fd : Z) (data : list Z) : cmd T pev bool :=
  t ← get;
  let '(cs, ws, ok) := send_loop (writes t) data in
  modify (set_writes ws);;
  for_each cs (λ c, emit (PWrite fd c));;
  mret ok.

(** The hello of a node: [\[len\]\[VBT_HELLO_MAGIC\]\[node_id\0\]]. *)
Definition hello_wire (nid : list Z) : list Z :=
  be32 (4 + (zlen nid + 1)) ++ le_split 4 VBT_HELLO_MAGIC ++ nid ++ [0].

(** ** The device address derived from the node id (FNV-1a) *)

Definition fnv1a (s : list Z) : Z :=
  foldl (λ h c, u32 (Z.lxor h c * 0x01000193)) 0x811c9dc5 s.
Definition derive_bdaddr (nid : list Z) : list Z :=
  let h := fnv1a nid in
  [0x02; 0xbe; u8 (Z.shiftr h 24); u8 (Z.shiftr h 16); u8 (Z.shiftr h 8); u8 h].
