(* ===== verification/ClientProps.v ===== *)
(** * The transports' reader hands over every frame

    The laws a transport's callbacks must satisfy, and, for every transport
    that satisfies them, what the shared reader does with the hub's stream:
    however the stream is split into reads, the core is handed exactly the
    frames in it, each once, whole and in order, and the callbacks are made
    in that order. *)

From stdpp Require Import base list numbers option.
From Stdlib Require Import ZArith Lia.
From S2P Require Import Prelude Wire Framing LLState LLEmit LLCmd LLAir LLInv LLProps LLFrame.
From S2P Require Import Client.

(** The same run from and to states changed by [f]. *)
Definition map_state {S W A} (f : S → S) (r : res (A * S * list W)) : res (A * S * list W) :=
  match r with
  | Ok (a, s, o) => Ok (a, f s, o)
  | Fault e => Fault e
  end.

(** ** The laws of a transport *)

Class TransportLaws (T : Type) `{Transport T} : Type := {
  (** The rest of the transport's state is well-formed. *)
  transport_ok : T → Prop;
  client_set c (t : T) : client_of (set_client c t) = c;
  set_client_twice c c' (t : T) : set_client c (set_client c' t) = set_client c t;
  set_client_same (t : T) : set_client (client_of t) t = t;
  (** The callbacks neither read nor write the core and the receive buffer. *)
  callback_client w c (t : T) :
    callback w (set_client c t) = map_state (set_client c) (callback w t);
  (** They carry out what the core asks for. *)
  callback_safe w (t : T) :
    transport_ok t → out_ok w → ∃ t' o, callback w t = Ok (tt, t', o) ∧ transport_ok t';
  transport_ok_client c (t : T) : transport_ok t → transport_ok (set_client c t)
}.

(** ** Programs that do not depend on the client part *)

Section Commute.
Context {S W : Type} (f : S → S).
Implicit Types (s : S).

Definition blind {A} (m : cmd S W A) : Prop := ∀ s, m (f s) = map_state f (m s).

Lemma blind_ret {A} (a : A) : blind (mret a).
Proof. done. Qed.
Lemma blind_bind {A B} (m : cmd S W A) (k : A → cmd S W B) :
  blind m → (∀ a, blind (k a)) → blind (m ≫= k).
Proof.
  intros Hm Hk s. unfold mbind, cmd_bind. rewrite Hm.
  destruct (m s) as [[[a s'] o]|]; [|done]. cbn. rewrite Hk. by destruct (k a s') as [[[b s2] o2]|].
Qed.
Lemma blind_when b (m : cmd S W unit) : blind m → blind (when b m).
Proof. intros. by destruct b. Qed.
Lemma blind_if {A} (b : bool) (m k : cmd S W A) : blind m → blind k → blind (if b then m else k).
Proof. intros. by destruct b. Qed.
Lemma blind_emit w : blind (emit w).
Proof. done. Qed.
Lemma blind_for_each {A} (l : list A) (k : A → cmd S W unit) :
  (∀ x, blind (k x)) → blind (for_each l k).
Proof. intros Hk. induction l; [done|]. cbn [for_each]. by apply blind_bind. Qed.
Lemma blind_modify g : (∀ s, g (f s) = f (g s)) → blind (modify g).
Proof. intros Hg s. unfold modify. by rewrite Hg. Qed.
Lemma blind_gets {A} (g : S → A) : (∀ s, g (f s) = g s) → blind (gets g).
Proof. intros Hg s. unfold gets. by rewrite Hg. Qed.
Lemma blind_local_buf cap l : blind (local_buf cap l).
Proof. intros s. unfold local_buf. by case_decide. Qed.
End Commute.

(** A program that does not see a field does not change it either. *)
Lemma blind_keeps {S W A} (f : S → S) (m : cmd S W A) s a s' o :
  blind f m → f s = s → m s = Ok (a, s', o) → ∃ s0, s' = f s0.
Proof. intros Hb Hf E. rewrite <- Hf, Hb in E. destruct (m s) as [[[b t] u]|]; naive_solver. Qed.

Section Reader.
Context {T : Type} `{TransportLaws T}.
Implicit Types (t : T) (c : client).

(** [t] with another receive buffer. *)
Definition set_rx (b : list Z) (u : Z) t : T := set_client (set_cl_rx b u (client_of t)) t.

Lemma client_of_rx b u t : client_of (set_rx b u t) = set_cl_rx b u (client_of t).
Proof. apply client_set. Qed.
Lemma set_rx_twice b u b' u' t : set_rx b u (set_rx b' u' t) = set_rx b u t.
Proof. unfold set_rx. by rewrite client_set, set_client_twice. Qed.
Lemma set_rx_same t : set_rx (cl_rxbuf (client_of t)) (cl_rxused (client_of t)) t = t.
Proof.
  transitivity (set_client (client_of t) t); [|apply set_client_same].
  unfold set_rx. f_equal. by destruct (client_of t).
Qed.

Lemma callbacks_client outs c : blind (set_client c) (for_each outs callback).
Proof. apply blind_for_each. intros w t. apply callback_client. Qed.

Lemma core_rx m b u : blind (set_rx b u) (core m).
Proof.
  intros t. unfold core. rewrite client_of_rx. cbn [cl_ll set_cl_rx].
  destruct (m _) as [[[x ll] outs]|]; [|done].
  unfold set_rx at 1. rewrite set_client_twice, !callbacks_client.
  destruct (for_each outs callback t) as [[[y t'] o]|]; [|done]. cbn.
  unfold set_rx. by rewrite client_set, set_client_twice.
Qed.

(** ** What a payload means to a transport *)

(** The header of a payload and its PDU. *)
Definition payload_hdr (p : list Z) : vbt_frame_hdr := hdr_of_bytes (take 44 p).
Definition payload_pdu (p : list Z) : list Z := drop 44 p.
Definition is_frame (p : list Z) : bool :=
  (VBT_HDR_SIZE <=? zlen p) && (magic (payload_hdr p) =? VBT_MAGIC).
Definition agrees (p : list Z) : bool := zlen (payload_pdu p) =? pdu_len (payload_hdr p).

Lemma payload_of_frame h pdu :
  hdr_ok h → payload_hdr (frame_payload h pdu) = h ∧ payload_pdu (frame_payload h pdu) = pdu.
Proof using.
  intros Hh. pose proof (length_hdr_bytes _ Hh) as Hl. unfold payload_hdr, payload_pdu, frame_payload.
  assert (length (hdr_bytes h) = 44%nat) as Hn by (unfold zlen, VBT_HDR_SIZE in Hl; lia).
  rewrite take_app_length', drop_app_length' by done. by rewrite hdr_of_bytes_hdr_bytes.
Qed.

Definition take_payload (p : list Z) : cmd T pev unit :=
  when (is_frame p)
    (when (agrees p)
       (core (vbt_ll_pdu_from_medium (payload_hdr p) (payload_pdu p) (zlen (payload_pdu p))));;
     when (counted (agrees p)) (upd_client (λ c, set_cl_rx_pdus (u64 (cl_rx_pdus c + 1)) c))).
Definition feed (ps : list (list Z)) : cmd T pev unit := for_each ps take_payload.

Lemma upd_client_rx g b u :
  (∀ c, g (set_cl_rx b u c) = set_cl_rx b u (g c)) → blind (set_rx b u) (upd_client (T:=T) g).
Proof.
  intros Hg. apply blind_modify. intros t. rewrite client_of_rx, Hg. unfold set_rx.
  by rewrite client_set, !set_client_twice.
Qed.
Lemma take_payload_rx p b u : blind (set_rx b u) (take_payload p).
Proof.
  unfold take_payload. apply blind_when, blind_bind; [apply blind_when, core_rx|].
  intros []. apply blind_when. by apply upd_client_rx.
Qed.
Lemma feed_rx ps b u : blind (set_rx b u) (feed ps).
Proof. apply blind_for_each. intros. apply take_payload_rx. Qed.

Lemma take_payload_keeps p t t' o :
  take_payload p t = Ok (tt, t', o) →
  cl_rxbuf (client_of t') = cl_rxbuf (client_of t) ∧ cl_rxused (client_of t') = cl_rxused (client_of t).
Proof.
  intros E. destruct (blind_keeps _ _ _ _ _ _
    (take_payload_rx p (cl_rxbuf (client_of t)) (cl_rxused (client_of t))) (set_rx_same t) E)
    as [s0 ->]. by rewrite client_of_rx.
Qed.

(** ** One payload out of the buffer *)

(** The buffer is well-formed and its first bytes are [d]. *)
Definition holds (d b : list Z) : Prop :=
  bytes_ok b ∧ zlen b = VBT_RXBUF_SIZE ∧ ∃ tail, b = d ++ tail.
Definition pending_rx (d : list Z) t : Prop :=
  cl_rxused (client_of t) = zlen d ∧ holds d (cl_rxbuf (client_of t)).

Lemma pending_rx_set d b t : holds d b → pending_rx d (set_rx b (zlen d) t).
Proof. intros Hb. unfold pending_rx. by rewrite client_of_rx. Qed.

Lemma holds_len d b : holds d b → zlen d ≤ VBT_RXBUF_SIZE.
Proof.
  intros (_ & Hl & tail & ->). rewrite zlen_app in Hl. pose proof (zlen_nonneg tail). lia.
Qed.
Lemma holds_bytes d b : holds d b → bytes_ok d.
Proof. intros (Hb & _ & tail & ->). by apply Forall_app in Hb as [? _]. Qed.

Lemma client_message_run p rest t :
  pending_rx (wire p ++ rest) t → client_message (zlen p) t = take_payload p t.
Proof.
  intros [_ Hh]. pose proof (holds_bytes _ _ Hh) as Hb. destruct Hh as (_ & Hl & tail & Htail).
  unfold client_message, take_payload, is_frame.
  destruct (VBT_HDR_SIZE <=? zlen p) eqn:E; [|done]. apply Z.leb_le in E. cbn [andb].
  rewrite when_true by done. exec.
  assert (cl_rxbuf (client_of t) = be32 (zlen p) ++ p ++ rest ++ tail) as Hbuf.
  { rewrite Htail. unfold wire. by rewrite <- !app_assoc. }
  pose proof (f_equal zlen Hbuf) as Hz. rewrite !zlen_app in Hz. change (zlen (be32 _)) with 4 in Hz.
  pose proof (zlen_nonneg rest). pose proof (zlen_nonneg tail).
  rewrite bind_rdn by (unfold VBT_HDR_SIZE in *; lia). cbv zeta.
  assert (slice 4 VBT_HDR_SIZE (cl_rxbuf (client_of t)) = take 44 p) as ->.
  { rewrite Hbuf, slice_app_r by done. change (4 - zlen (be32 (zlen p))) with 0.
    rewrite slice_app_l by (unfold VBT_HDR_SIZE in *; lia). done. }
  fold (payload_hdr p). destruct (magic _ =? _); [|done]. unfold client_frame, agrees. cbn [when].
  assert (zlen (payload_pdu p) = zlen p - VBT_HDR_SIZE) as Hn.
  { unfold payload_pdu, zlen in *. rewrite length_drop. unfold VBT_HDR_SIZE in *. lia. }
  rewrite Hn. exec. apply bind_cong; [|done]. destruct (_ =? _); [|done]. cbn [when].
  unfold core. rewrite <- Hn.
  assert (drop (Z.to_nat (4 + VBT_HDR_SIZE)) (cl_rxbuf (client_of t)) =
    payload_pdu p ++ rest ++ tail) as ->.
  { rewrite Hbuf. change (Z.to_nat (4 + VBT_HDR_SIZE)) with (4 + 44)%nat.
    rewrite <- drop_drop, drop_app_length' by done. unfold payload_pdu.
    apply drop_app_le. unfold zlen, VBT_HDR_SIZE in *. lia. }
  rewrite pdu_from_medium_app; [done|]. apply Forall_drop.
  apply Forall_app in Hb as [Hb _]. by apply Forall_app in Hb as [_ Hb].
Qed.

Lemma holds_drop d rest b :
  holds (d ++ rest) b → holds rest (splice 0 rest b).
Proof.
  intros Hh. pose proof (holds_len _ _ Hh) as Hl. pose proof (holds_bytes _ _ Hh) as Hd.
  destruct Hh as (Hb & Hz & _). rewrite zlen_app in Hl. pose proof (zlen_nonneg d).
  split_and!.
  - apply bytes_ok_splice; [|done]. by apply Forall_app in Hd as [_ ?].
  - rewrite zlen_splice; lia.
  - by eexists.
Qed.

Lemma client_consume_run d rest t :
  pending_rx (d ++ rest) t →
  ∃ b, client_consume (zlen d) t = Ok (tt, set_rx b (zlen rest) t, []) ∧ holds rest b.
Proof.
  intros [Hu Hh]. pose proof (holds_len _ _ Hh) as Hmax.
  unfold client_consume. rewrite bind_gets. cbv zeta. rewrite Hu, zlen_app.
  rewrite zlen_app in Hmax. pose proof (zlen_nonneg d). pose proof (zlen_nonneg rest).
  replace (zlen d + zlen rest - zlen d) with (zlen rest) by lia.
  change VBT_RXBUF_SIZE with 560 in Hmax. rewrite u32_small by mlia.
  destruct (0 <? zlen rest) eqn:E.
  - destruct Hh as (Hb & Hz & tail & Ht). change VBT_RXBUF_SIZE with 560 in Hz.
    rewrite bind_rdn by lia.
    assert (slice (zlen d) (zlen rest) (cl_rxbuf (client_of t)) = rest) as ->.
    { rewrite Ht, <- app_assoc, slice_app_r, Z.sub_diag by lia. apply slice_app_exact. }
    eexists. split; [done|]. apply (holds_drop d). by split_and!; [| |exists tail].
  - assert (rest = []) as -> by (destruct rest; [done|rewrite zlen_cons in *; pose proof (zlen_nonneg rest); lia]).
    exists (cl_rxbuf (client_of t)). split; [done|]. split_and!; [apply Hh..|by eexists].
Qed.

(** ** The loop *)

(** [r] is the run [spec] except that the receive buffer holds [rest]. *)
Definition leaves (rest : list Z) (r spec : res (unit * T * list pev)) : Prop :=
  match spec with
  | Ok (_, t, o) => ∃ b, r = Ok (tt, set_rx b (zlen rest) t, o) ∧ holds rest b
  | Fault e => r = Fault e
  end.

(** A length no message can have. *)
Definition oversized (d : list Z) : Prop :=
  4 ≤ zlen d ∧ VBT_MAX_MSG_SIZE < of_be32 (take 4 d).
#[export] Instance oversized_dec d : Decision (oversized d).
Proof using. unfold oversized. apply _. Defined.
(** The loop stops at [d], and what it leaves of [d] in the buffer. *)
Definition settled (d : list Z) : Prop := incomplete d ∨ oversized d.
Definition residue (d : list Z) : list Z := if bool_decide (oversized d) then [] else d.

(** With no whole payload in the buffer the loop ends. *)
Lemma client_loop_settled rest fuel t :
  settled rest → pending_rx rest t → leaves (residue rest) (client_loop (Datatypes.S fuel) t) (feed [] t).
Proof.
  intros Hrest Hp. cbn [client_loop]. rewrite bind_gets.
  destruct Hp as [Hu Hh]. pose proof (holds_len _ _ Hh) as Hmax.
  destruct Hh as (Hb & Hz & tail & Ht). rewrite Hu. change VBT_RXBUF_SIZE with 560 in *.
  assert (residue rest = rest → leaves (residue rest) (skip t) (feed [] t)) as Hskip.
  { intros ->. exists (cl_rxbuf (client_of t)). rewrite <- Hu, set_rx_same. split; [done|].
    by split_and!; [| |exists tail]. }
  destruct (zlen rest <? 4) eqn:E; [by apply Hskip; unfold residue, oversized; rewrite bool_decide_false by lia|].
  rewrite bind_rdn by lia. cbv zeta.
  assert (slice 0 4 (cl_rxbuf (client_of t)) = take 4 rest) as ->.
  { rewrite Ht, slice_app_l by lia. done. }
  destruct (VBT_MAX_MSG_SIZE <? of_be32 (take 4 rest)) eqn:Eo.
  { unfold residue, oversized. rewrite bool_decide_true by lia.
    exists (cl_rxbuf (client_of t)). split; [done|]. by split_and!; [| |eexists]. }
  assert (¬ oversized rest) as Hno by (unfold oversized; lia).
  destruct Hrest as [[?|[Hm Hmore]]|?]; [lia| |done]. rewrite if_true by lia.
  apply Hskip. unfold residue. by rewrite bool_decide_false.
Qed.

Lemma client_loop_run ps rest fuel t :
  Forall payload_ok ps → settled rest → (length ps < fuel)%nat →
  pending_rx (concat (map wire ps) ++ rest) t →
  leaves (residue rest) (client_loop fuel t) (feed ps t).
Proof.
  revert fuel t. induction ps as [|p ps IH]; intros fuel t Hps Hrest Hf Hp;
    (destruct fuel as [|fuel]; [cbn in Hf; lia|]).
  - by apply client_loop_settled.
  - cbn [client_loop]. rewrite bind_gets.
    pose proof Hp as [Hu Hh]. pose proof (holds_len _ _ Hh) as Hmax.
    destruct Hh as (Hb & Hz & tail & Ht). rewrite Hu.
    apply Forall_cons_1 in Hps as [[Hpb Hpm] Hps]. cbn [map concat] in *.
    rewrite <- app_assoc in *. rewrite zlen_app, zlen_wire in *.
    pose proof (zlen_nonneg p). pose proof (zlen_nonneg (concat (map wire ps) ++ rest)).
    change VBT_RXBUF_SIZE with 560 in *.
    rewrite if_false by lia. rewrite bind_rdn by lia. cbv zeta.
    assert (of_be32 (slice 0 4 (cl_rxbuf (client_of t))) = zlen p) as ->.
    { rewrite Ht. unfold wire. rewrite <- !app_assoc. rewrite slice_prefix by done.
      apply of_be32_be32. change VBT_MAX_MSG_SIZE with 556 in Hpm. mlia. }
    rewrite if_false by lia. rewrite if_false by lia.
    pose proof (client_message_run p _ t Hp) as Hm. unfold feed. cbn [for_each].
    destruct (take_payload p t) as [[[[] t1] o1]|e] eqn:E1;
      [|rewrite (bind_fault _ _ _ _ E1); by apply bind_fault].
    rewrite (bind_ok _ _ _ _ _ _ E1), (bind_ok _ _ _ _ _ _ Hm). unfold leaves.
    destruct (take_payload_keeps _ _ _ _ E1) as [Kb Ku].
    assert (pending_rx (wire p ++ concat (map wire ps) ++ rest) t1) as Hp1.
    { unfold pending_rx. rewrite Kb, Ku. exact Hp. }
    destruct (client_consume_run _ _ _ Hp1) as (b1 & Hc & Hb1). rewrite zlen_wire in Hc.
    rewrite (bind_silent _ _ _ _ _ Hc).
    pose proof (IH fuel _ Hps Hrest ltac:(cbn in Hf; lia) (pending_rx_set _ _ t1 Hb1)) as IH1.
    rewrite feed_rx in IH1.
    change (for_each ps take_payload t1) with (feed ps t1).
    destruct (feed ps t1) as [[[[] t2] o2]|e] eqn:E2; cbn in IH1.
    + destruct IH1 as (b & -> & Hb2). exists b. by rewrite set_rx_twice.
    + by rewrite IH1.
Qed.
(** ** Reads *)

Lemma rx_start_of d t : pending_rx d t → zlen d < VBT_RXBUF_SIZE → rx_start (client_of t) = zlen d.
Proof. intros [Hu _] Hl. unfold rx_start. rewrite Hu. by rewrite if_false by lia. Qed.

Lemma holds_append d l b :
  holds d b → bytes_ok l → zlen d + zlen l ≤ VBT_RXBUF_SIZE → holds (d ++ l) (splice (zlen d) l b).
Proof.
  intros (Hb & Hz & tail & Ht) Hl Hroom. pose proof (zlen_nonneg d). split_and!.
  - by apply bytes_ok_splice.
  - rewrite zlen_splice; lia.
  - unfold splice. rewrite Ht. unfold zlen. rewrite Nat2Z.id, take_app_length, app_assoc. by eexists.
Qed.

Lemma client_input_run d l ps rest t :
  pending_rx d t → zlen d + zlen l ≤ VBT_RXBUF_SIZE → zlen d < VBT_RXBUF_SIZE → bytes_ok l →
  Forall payload_ok ps → settled rest → d ++ l = concat (map wire ps) ++ rest →
  leaves (residue rest) (client_input l t) (feed ps t).
Proof.
  intros Hp Hroom Hlt Hl Hps Hrest Hd. unfold client_input. rewrite bind_gets. cbv zeta.
  rewrite (rx_start_of _ _ Hp Hlt). pose proof (zlen_nonneg d). pose proof (zlen_nonneg l).
  rewrite take_ge by (unfold zlen in *; lia). unfold upd_client. rewrite bind_modify.
  change VBT_RXBUF_SIZE with 560 in Hroom. rewrite u32_small, <- zlen_app by mlia.
  destruct Hp as [_ Hh]. pose proof (holds_append _ _ _ Hh Hl Hroom) as Hh'.
  fold (set_rx (splice (zlen d) l (cl_rxbuf (client_of t))) (zlen (d ++ l)) t).
  pose proof (pending_rx_set _ _ t Hh') as Hp'. rewrite Hd in Hp'.
  rewrite Hd. set (t0 := set_rx _ _ t) in *.
  pose proof (client_loop_run ps rest client_fuel t0 Hps Hrest) as Hrun.
  assert (feed ps t0 = map_state (set_rx (splice (zlen d) l (cl_rxbuf (client_of t)))
    (zlen (concat (map wire ps) ++ rest))) (feed ps t)) as Hfeed by apply feed_rx.
  rewrite Hfeed in Hrun. pose proof (wires_len ps) as Hw. pose proof (zlen_nonneg rest).
  apply (f_equal zlen) in Hd. rewrite !zlen_app in Hd.
  specialize (Hrun ltac:(change client_fuel with 141%nat; lia) Hp').
  destruct (feed ps t) as [[[[] t1] o1]|e]; [|done]. cbn in Hrun.
  destruct Hrun as (b & -> & Hb). exists b. unfold t0. by rewrite set_rx_twice.
Qed.

(** The kernel's side: [s] is what the hub has sent and the transport has not
    read; each read returns at most [n] bytes, and no more than it asks for. *)
Fixpoint client_recv (ns : list nat) (s : list Z) : cmd T pev (list Z) :=
  match ns, s with
  | n :: ns, _ :: _ =>
      c ← gets client_of;
      let k := Nat.min n (Z.to_nat (VBT_RXBUF_SIZE - rx_start c)) in
      client_input (take k s);;
      client_recv ns (drop k s)
  | _, _ => mret s
  end.

Lemma residue_incomplete d : incomplete d → residue d = d.
Proof using.
  intros Hi. unfold residue. apply if_false, bool_decide_false. unfold oversized, incomplete in *. lia.
Qed.

(** With everything read, everything has been handed over. *)
Lemma client_recv_done ns ps d t :
  pending_rx d t → incomplete d → Forall payload_ok ps → d ++ [] = concat (map wire ps) →
  ps = [] ∧ client_recv ns [] t = Ok ([], t, []) ∧ pending_rx [] t.
Proof.
  intros Hp Hi Hps Hd. rewrite app_nil_r in Hd.
  assert (ps = []) as -> by (apply incomplete_wires; [done|by rewrite <- Hd]).
  cbn in Hd. subst d. by destruct ns.
Qed.

Lemma client_recv_run ns s ps d t :
  pending_rx d t → incomplete d → Forall payload_ok ps → bytes_ok s →
  Forall (λ n, 0 < n)%nat ns → (length s ≤ length ns)%nat → d ++ s = concat (map wire ps) →
  match feed ps t with
  | Ok (_, t', o) => ∃ b, client_recv ns s t = Ok ([], set_rx b 0 t', o) ∧ holds [] b
  | Fault e => client_recv ns s t = Fault e
  end.
Proof.
  revert s ps d t. induction ns as [|n ns IH]; intros s ps d t Hp Hi Hps Hb Hns Hlen Hd.
  { destruct s; [|cbn in Hlen; lia].
    destruct (client_recv_done [] _ _ _ Hp Hi Hps Hd) as (-> & Hr & Hu & Hh). rewrite Hr. cbn.
    exists (cl_rxbuf (client_of t)). change 0 with (zlen (@nil Z)). by rewrite <- Hu, set_rx_same. }
  destruct (decide (s = [])) as [->|Hne].
  { destruct (client_recv_done (n :: ns) _ _ _ Hp Hi Hps Hd) as (-> & Hr & Hu & Hh). rewrite Hr. cbn.
    exists (cl_rxbuf (client_of t)). change 0 with (zlen (@nil Z)). by rewrite <- Hu, set_rx_same. }
  apply Forall_cons_1 in Hns as [Hn Hns]. pose proof (incomplete_room _ Hi) as Hroom.
  pose proof (zlen_nonneg d).
  set (k := Nat.min n (Z.to_nat (VBT_RXBUF_SIZE - zlen d))).
  destruct (split_wires ps (d ++ take k s) (drop k s)) as (ps1 & ps2 & rest & -> & Hd1 & Hd2 & Hi').
  { done. }
  { by rewrite <- app_assoc, take_drop. }
  apply Forall_app in Hps as [Hps1 Hps2].
  assert (client_recv (n :: ns) s t = (client_input (take k s);; client_recv ns (drop k s)) t) as ->.
  { destruct s as [|x s]; [done|]. cbn [client_recv]. rewrite bind_gets. cbv zeta.
    by rewrite (rx_start_of _ _ Hp Hroom). }
  pose proof (client_input_run d (take k s) ps1 rest t Hp) as Hrun.
  rewrite residue_incomplete in Hrun by done.
  specialize (Hrun ltac:(unfold zlen in *; rewrite length_take; lia) Hroom
    ltac:(by apply Forall_take) Hps1 ltac:(by left) Hd1).
  unfold feed. rewrite for_each_app. fold (feed ps1) (feed ps2). unfold leaves in Hrun.
  destruct (feed ps1 t) as [[[[] t1] o1]|e] eqn:E1;
    [|rewrite (bind_fault _ _ _ _ E1); by apply bind_fault].
  rewrite (bind_ok _ _ _ _ _ _ E1). destruct Hrun as (b & Hrun & Hh).
  rewrite (bind_ok _ _ _ _ _ _ Hrun).
  pose proof (IH (drop k s) ps2 rest _ (pending_rx_set _ _ t1 Hh) Hi' Hps2
    ltac:(by apply Forall_drop) Hns) as IH1.
  rewrite feed_rx in IH1.
  assert (length (drop k s) ≤ length ns)%nat as Hl'.
  { rewrite length_drop. destruct s; cbn in Hlen |- *; [done|]. lia. }
  specialize (IH1 Hl' Hd2). destruct (feed ps2 t1) as [[[[] t2] o2]|e]; cbn in IH1.
  - destruct IH1 as (b2 & -> & Hb2). exists b2. by rewrite set_rx_twice.
  - by rewrite IH1.
Qed.
End Reader.
