(* ===== verification/ClientInv.v ===== *)
(** * The transports' reader is safe

    For every transport that satisfies the laws: from a well-formed state the
    reader handles whatever bytes the hub sends without undefined behaviour
    and leaves a well-formed state, provided no frame among them carries more
    advertising data than [report_adv] has room for. *)

From stdpp Require Import base list numbers option.
From Stdlib Require Import ZArith Lia.
From S2P Require Import Prelude Wire Framing LLState LLEmit LLCmd LLAir LLInv LLProps LLFrame.
From S2P Require Import Client ClientProps.

(** A payload the core can take in any state. *)
Definition payload_safe (p : list Z) : Prop :=
  is_frame p = true → agrees p = true → ll_type (payload_hdr p) = VBT_LL_ADV →
  ad_len_of (payload_pdu p) (zlen (payload_pdu p)) ≤ 30.
#[export] Instance payload_safe_dec p : Decision (payload_safe p).
Proof. unfold payload_safe. apply _. Defined.

(** Every payload the reader finds in [d] is such. *)
Definition stream_safe (d : list Z) : Prop :=
  ∀ ps rest, Forall payload_ok ps → d = concat (map wire ps) ++ rest → Forall payload_safe ps.

(** Any bytes are a sequence of payloads and a rest the reader stops at. *)
Lemma split_any d :
  bytes_ok d → ∃ ps rest, Forall payload_ok ps ∧ settled rest ∧ d = concat (map wire ps) ++ rest.
Proof.
  remember (length d) as n eqn:Hn. revert d Hn.
  induction (lt_wf n) as [n _ IH]. intros d -> Hb.
  destruct (decide (zlen d < 4)) as [H4|H4].
  { exists [], d. split_and!; [done| |done]. left. by left. }
  destruct (decide (VBT_MAX_MSG_SIZE < of_be32 (take 4 d))) as [Ho|Ho].
  { exists [], d. split_and!; [done| |done]. right. split; lia. }
  destruct (decide (zlen d < 4 + of_be32 (take 4 d))) as [Hs|Hs].
  { exists [], d. split_and!; [done| |done]. left. right. lia. }
  set (k := of_be32 (take 4 d)) in *. set (p := slice 4 k d).
  assert (0 ≤ k) as Hk.
  { unfold k, of_be32. apply le_join_range, Forall_rev, Forall_take, Hb. }
  assert (zlen p = k) as Hp by (apply zlen_slice; lia).
  assert (d = wire p ++ drop (Z.to_nat (4 + k)) d) as Hd.
  { unfold wire. rewrite Hp. unfold k at 1.
    assert (be32 (of_be32 (take 4 d)) = take 4 d) as ->.
    { unfold be32, of_be32. assert (length (rev (take 4 d)) = 4%nat) as Hl4.
      { rewrite length_rev, length_take. unfold zlen in *. lia. }
      rewrite <- Hl4 at 1. rewrite le_split_join by (apply Forall_rev, Forall_take, Hb).
      apply rev_involutive. }
    unfold p, slice. rewrite <- app_assoc. change (Z.to_nat 4) with 4%nat.
    replace (Z.to_nat (4 + k)) with (4 + Z.to_nat k)%nat by lia.
    by rewrite <- drop_drop, take_drop, take_drop. }
  destruct (IH (length (drop (Z.to_nat (4 + k)) d))) with (d := drop (Z.to_nat (4 + k)) d)
    as (ps & rest & Hps & Hr & E); [|done|by apply Forall_drop|].
  { rewrite length_drop. unfold zlen in *. lia. }
  exists (p :: ps), rest. split_and!; [|done|].
  - apply Forall_cons_2; [|done]. split; [by apply Forall_take, Forall_drop|lia].
  - cbn [map concat]. by rewrite <- app_assoc, <- E.
Qed.

Section Safe.
Context {T : Type} `{TransportLaws T}.
Implicit Types (t : T).

Record client_ok t : Prop := ClientOk {
  clok_transport : transport_ok t;
  clok_ll : ll_ok (cl_ll (client_of t));
  clok_rx : ∃ d, pending_rx d t ∧ zlen d < VBT_RXBUF_SIZE
}.

Lemma callbacks_safe outs t :
  transport_ok t → Forall out_ok outs →
  ∃ t' o, for_each outs callback t = Ok (tt, t', o) ∧ transport_ok t' ∧ client_of t' = client_of t.
Proof.
  revert t. induction outs as [|w outs IH]; intros t Ht Ho; [by exists t, []|].
  apply Forall_cons_1 in Ho as [Hw Ho]. cbn [for_each].
  destruct (callback_safe w t Ht Hw) as (t1 & o1 & E1 & Ht1).
  destruct (blind_keeps _ _ _ _ _ _ (λ s, callback_client w (client_of t) s) (set_client_same t) E1)
    as [s0 Es].
  destruct (IH t1 Ht1 Ho) as (t2 & o2 & E2 & Ht2 & Hc2). exists t2, (o1 ++ o2).
  rewrite (bind_ok _ _ _ _ _ _ E1), E2. split_and!; [done..|]. by rewrite Hc2, Es, client_set.
Qed.

(** A call into the core. *)
Lemma core_safe (m : LL unit) t :
  client_ok t → llsafe m (cl_ll (client_of t)) nopost →
  ∃ t' o, core m t = Ok (tt, t', o) ∧ client_ok t' ∧
    cl_rxbuf (client_of t') = cl_rxbuf (client_of t) ∧
    cl_rxused (client_of t') = cl_rxused (client_of t).
Proof.
  intros Hc (x & ll & outs & Em & Hll & Hout & _)%wp_elim. unfold core. rewrite Em.
  destruct (callbacks_safe outs (set_client (set_cl_ll ll (client_of t)) t))
    as (t' & o & -> & Ht' & Hcl); [by apply transport_ok_client, Hc|done|].
  rewrite client_set in Hcl. exists t', o. split_and!; [done| |by rewrite Hcl..].
  split; [done|by rewrite Hcl|]. destruct (clok_rx _ Hc) as (d & [? ?] & ?). exists d.
  unfold pending_rx. by rewrite Hcl.
Qed.

Lemma upd_client_ok g t :
  client_ok t → cl_ll (g (client_of t)) = cl_ll (client_of t) →
  cl_rxbuf (g (client_of t)) = cl_rxbuf (client_of t) →
  cl_rxused (g (client_of t)) = cl_rxused (client_of t) →
  client_ok (set_client (g (client_of t)) t).
Proof.
  intros [Ht Hl (d & [Hu Hb] & Hd)] E1 E2 E3. split.
  - by apply transport_ok_client.
  - by rewrite client_set, E1.
  - exists d. unfold pending_rx. by rewrite client_set, E2, E3.
Qed.

Lemma take_payload_safe p t :
  client_ok t → bytes_ok p → payload_safe p →
  ∃ t' o, take_payload p t = Ok (tt, t', o) ∧ client_ok t'.
Proof.
  intros Hc Hb Hs. unfold take_payload.
  destruct (is_frame p) eqn:Ef; [|by exists t, []]. cbn [when].
  assert (∃ t1 o1, when (agrees p) (core (vbt_ll_pdu_from_medium (payload_hdr p) (payload_pdu p)
    (zlen (payload_pdu p)))) t = Ok (tt, t1, o1) ∧ client_ok t1) as (t1 & o1 & E1 & Hc1).
  { destruct (agrees p) eqn:Ea; [|by exists t, []]. cbn [when].
    destruct (core_safe (vbt_ll_pdu_from_medium (payload_hdr p) (payload_pdu p)
      (zlen (payload_pdu p))) t Hc) as (t1 & o1 & ? & ? & _); [|by exists t1, o1].
    apply vbt_ll_pdu_from_medium_safe; [apply Hc|by apply Forall_drop|done|].
    intros Ht _. by apply Hs. }
  rewrite (bind_ok _ _ _ _ _ _ E1). destruct (counted _); cbn [when].
  - eexists _, _. split; [done|]. by apply upd_client_ok.
  - by eexists _, _.
Qed.

Lemma feed_safe ps t :
  client_ok t → Forall payload_ok ps → Forall payload_safe ps →
  ∃ t' o, feed ps t = Ok (tt, t', o) ∧ client_ok t'.
Proof.
  revert t. induction ps as [|p ps IH]; intros t Hc Hps Hs; [by exists t, []|].
  apply Forall_cons_1 in Hps as [[Hb _] Hps]. apply Forall_cons_1 in Hs as [Hs Hss].
  unfold feed. cbn [for_each]. destruct (take_payload_safe p t Hc Hb Hs) as (t1 & o1 & E1 & Hc1).
  rewrite (bind_ok _ _ _ _ _ _ E1). destruct (IH t1 Hc1 Hps Hss) as (t2 & o2 & E2 & Hc2).
  unfold feed in E2. rewrite E2. by eexists _, _.
Qed.

Lemma residue_room rest : settled rest → zlen (residue rest) < VBT_RXBUF_SIZE.
Proof using.
  intros [Hi|Ho].
  - rewrite residue_incomplete by done. by apply incomplete_room.
  - unfold residue. by rewrite bool_decide_true.
Qed.

(** The bytes of [d] and a read of [l] are handled. *)
Lemma client_input_safe d l t :
  client_ok t → pending_rx d t → bytes_ok l → zlen l ≤ VBT_RXBUF_SIZE - zlen d →
  stream_safe (d ++ l) →
  ∃ t' o, client_input l t = Ok (tt, t', o) ∧ client_ok t'.
Proof.
  intros Hc Hp Hl Hroom Hs.
  assert (zlen d < VBT_RXBUF_SIZE) as Hlt.
  { destruct (clok_rx _ Hc) as (d' & [Hu' _] & Hd'). destruct Hp as [Hu _]. lia. }
  pose proof (holds_bytes _ _ (proj2 Hp)) as Hd.
  destruct (split_any (d ++ l)) as (ps & rest & Hps & Hr & E); [by apply Forall_app_2|].
  pose proof (client_input_run d l ps rest t Hp ltac:(lia) Hlt Hl Hps Hr E) as Hrun.
  destruct (feed_safe ps t Hc Hps (Hs _ _ Hps E)) as (t1 & o1 & E1 & Hc1).
  unfold leaves in Hrun. rewrite E1 in Hrun. destruct Hrun as (b & -> & Hh).
  eexists _, _. split; [done|]. split.
  - unfold set_rx. apply transport_ok_client, Hc1.
  - rewrite client_of_rx. apply Hc1.
  - exists (residue rest). split; [by apply pending_rx_set|by apply residue_room].
Qed.

(** A property of the rest of the state that the callbacks keep is kept by
    the calls into the core. *)
Section Keep.
Context (P : T → Prop).
Context (Hset : ∀ c t, P t → P (set_client c t)).
Context (Hcall : ∀ w t t' o, P t → callback w t = Ok (tt, t', o) → P t').

Lemma callbacks_keep outs t t' o : P t → for_each outs callback t = Ok (tt, t', o) → P t'.
Proof using Hcall.
  revert t o. induction outs as [|w outs IH]; intros t o Ht E; cbn [for_each] in E.
  { injection E as <- _. done. }
  destruct (callback w t) as [[[[] t1] o1]|] eqn:E1; [|by rewrite (bind_fault _ _ _ _ E1) in E].
  rewrite (bind_ok _ _ _ _ _ _ E1) in E.
  destruct (for_each outs callback t1) as [[[[] t2] o2]|] eqn:E2; [|done]. injection E as <- _.
  eauto.
Qed.

Lemma core_keep m t t' o : P t → core m t = Ok (tt, t', o) → P t'.
Proof using Hset Hcall.
  unfold core. intros Ht E. destruct (m _) as [[[x ll] outs]|]; [|done].
  eapply callbacks_keep; [|exact E]. by apply Hset.
Qed.
End Keep.

(** ** Programs of a transport *)

(** [m] ends, in a well-formed state that satisfies [Q]. *)
Definition tsafe {A} (m : cmd T pev A) t (Q : T → Prop) : Prop :=
  ∃ a t' o, m t = Ok (a, t', o) ∧ client_ok t' ∧ Q t'.

Lemma tsafe_bind {A B} (m : cmd T pev A) (k : A → cmd T pev B) t P Q :
  tsafe m t P → (∀ a t', client_ok t' → P t' → tsafe (k a) t' Q) → tsafe (m ≫= k) t Q.
Proof.
  intros (a & t1 & o1 & E1 & Ht1 & HP) Hk. destruct (Hk a t1 Ht1 HP) as (b & t2 & o2 & E2 & Ht2 & HQ).
  exists b, t2, (o1 ++ o2). split_and!; [|done..]. by rewrite (bind_ok _ _ _ _ _ _ E1), E2.
Qed.
(** The same, with what is known of the run of [m]. *)
Lemma tsafe_bind_run {A B} (m : cmd T pev A) (k : A → cmd T pev B) t P Q :
  tsafe m t P → (∀ a t' o, m t = Ok (a, t', o) → client_ok t' → tsafe (k a) t' Q) →
  tsafe (m ≫= k) t Q.
Proof.
  intros (a & t1 & o1 & E1 & Ht1 & _) Hk. destruct (Hk a t1 o1 E1 Ht1) as (b & t2 & o2 & E2 & Ht2 & HQ).
  exists b, t2, (o1 ++ o2). split_and!; [|done..]. by rewrite (bind_ok _ _ _ _ _ _ E1), E2.
Qed.
Lemma tsafe_when b (m : cmd T pev unit) t (Q : T → Prop) :
  client_ok t → Q t → (b = true → tsafe m t Q) → tsafe (when b m) t Q.
Proof. intros ?? Hm. destruct b; [by apply Hm|]. by exists tt, t, []. Qed.
Lemma tsafe_modify f t (Q : T → Prop) : client_ok (f t) → Q (f t) → tsafe (modify f) t Q.
Proof. intros. by eexists _, _, _. Qed.
Lemma tsafe_emit w t (Q : T → Prop) : client_ok t → Q t → tsafe (emit w) t Q.
Proof. intros. by eexists _, _, _. Qed.
Lemma tsafe_ret {A} (a : A) t (Q : T → Prop) : client_ok t → Q t → tsafe (mret a) t Q.
Proof. intros. by eexists _, _, _. Qed.
Lemma tsafe_get {A} (k : T → cmd T pev A) t Q : tsafe (k t) t Q → tsafe (get ≫= k) t Q.
Proof. intros (a & t' & o & E & H'). exists a, t', o. by rewrite bind_get. Qed.
Lemma tsafe_for_each {A} (l : list A) (f : A → cmd T pev unit) t (Q : T → Prop) :
  client_ok t → Q t → (∀ x t', x ∈ l → client_ok t' → Q t' → tsafe (f x) t' Q) →
  tsafe (for_each l f) t Q.
Proof.
  revert t. induction l as [|x l IH]; intros t Ht HQ Hf; cbn [for_each]; [by apply tsafe_ret|].
  apply (tsafe_bind _ _ _ Q); [apply Hf; [left|done..]|]. intros _ t1 Ht1 HQ1.
  apply IH; [done..|]. intros y t' Hy. apply Hf. by right.
Qed.

(** The bytes received and not yet handled. *)
Definition rx_held (c : client) : list Z := take (Z.to_nat (cl_rxused c)) (cl_rxbuf c).

Lemma pending_rx_held t d : pending_rx d t → rx_held (client_of t) = d.
Proof.
  intros [Hu (_ & _ & tail & Hb)]. unfold rx_held. rewrite Hu, Hb. unfold zlen.
  rewrite Nat2Z.id. apply take_app_length.
Qed.

(** What a read on the medium may return: bytes, no more than asked for, that
    hold no frame the core cannot take. *)
Definition medium_ok (c : client) (r : os_read) : Prop :=
  match r with
  | RdBytes l => bytes_ok l ∧ zlen l ≤ VBT_RXBUF_SIZE - cl_rxused c ∧ stream_safe (rx_held c ++ l)
  | _ => True
  end.

Lemma client_read_safe l t :
  client_ok t → medium_ok (client_of t) (RdBytes l) → tsafe (client_input l) t (λ _, True).
Proof.
  intros Ht (Hb & Hl & Hs). destruct (clok_rx _ Ht) as (d & Hp & Hd).
  rewrite (pending_rx_held t _ Hp) in Hs. rewrite (proj1 Hp) in Hl.
  destruct (client_input_safe d l t Ht Hp Hb Hl Hs) as (t' & o & E & Ht'). by exists tt, t', o.
Qed.

(** A new connection starts with an empty buffer. *)
Lemma set_rx_empty_ok t : client_ok t → client_ok (set_rx (cl_rxbuf (client_of t)) 0 t).
Proof.
  intros Ht. destruct (clok_rx _ Ht) as (d & [_ (Hb & Hz & _)] & _). split.
  - apply transport_ok_client, Ht.
  - rewrite client_of_rx. apply Ht.
  - exists []. split; [|done]. apply (pending_rx_set []). by split_and!; [| |eexists].
Qed.

Lemma core_tsafe m t :
  client_ok t → llsafe m (cl_ll (client_of t)) nopost →
  tsafe (core m) t (λ t', cl_rxbuf (client_of t') = cl_rxbuf (client_of t) ∧
    cl_rxused (client_of t') = cl_rxused (client_of t)).
Proof.
  intros Ht Hm. destruct (core_safe m t Ht Hm) as (t' & o & E & Ht' & Hk). by exists tt, t', o.
Qed.

(** An HCI packet of [l] in an array of [VBT_MAX_MSG_SIZE] bytes. *)
Lemma hci_tsafe l stale t :
  client_ok t → bytes_ok l → zlen l ≤ VBT_MAX_MSG_SIZE → bytes_ok stale →
  zlen stale = VBT_MAX_MSG_SIZE →
  tsafe (core (vbt_ll_hci_from_host (splice 0 l stale) (zlen l))) t
    (λ t', cl_rxbuf (client_of t') = cl_rxbuf (client_of t) ∧
      cl_rxused (client_of t') = cl_rxused (client_of t)).
Proof.
  intros Ht Hb Hl Hs Hsl. destruct (splice_ok l stale Hb Hs) as [Hsb Hz]; [lia|]. rewrite Hsl in Hz.
  apply core_tsafe; [done|]. apply vbt_ll_hci_from_host_safe; [apply Ht|done|..]; by rewrite Hz.
Qed.
End Safe.
