(* ===== verification/SendProps.v ===== *)
(** * The write loop of the transports

    However the kernel splits a write, the bytes accepted are a prefix of the
    data, and all of it exactly when the loop succeeds. *)

From stdpp Require Import base list numbers option.
From Stdlib Require Import ZArith Lia.
From S2P Require Import Prelude Wire LLState LLInv LLProps Client ClientProps.

(** The chunks are the data, or a prefix of it when sending fails. *)
Lemma send_loop_prefix ws data cs ws' ok :
  send_loop ws data = (cs, ws', ok) →
  ∃ todo, data = concat cs ++ todo ∧ (ok = true ↔ todo = []).
Proof.
  revert data cs ws' ok. induction ws as [|w ws IH]; intros data cs ws' ok E;
    destruct data as [|x data]; cbn in E.
  1,3: injection E as <- <- <-; by exists [].
  { injection E as <- <- <-. exists []. cbn. by rewrite !app_nil_r. }
  destruct w as [n| |].
  - destruct (0 <? n); [|injection E as <- <- <-; by exists (x :: data)].
    destruct (send_loop ws _) as [[cs1 ws1] ok1] eqn:E1. injection E as <- <- <-.
    destruct (IH _ _ _ _ E1) as (todo & Hd & Hok). exists todo. split; [|done].
    cbn [concat]. rewrite <- app_assoc, <- Hd. symmetry. apply take_drop.
  - by eapply IH.
  - injection E as <- <- <-. by exists (x :: data).
Qed.

Lemma emit_each {S W A} (l : list A) (f : A → W) (s : S) :
  for_each l (λ x, emit (f x)) s = Ok (tt, s, map f l).
Proof.
  induction l as [|x l IH]; [done|]. cbn [for_each map].
  by rewrite (bind_ok _ _ _ _ _ _ (eq_refl : emit (f x) s = Ok (tt, s, [f x]))), IH.
Qed.

Section Send.
Context {T : Type} (writes : T → list os_write) (set_writes : list os_write → T → T).

Lemma send_wire_run fd data t cs ws ok :
  send_loop (writes t) data = (cs, ws, ok) →
  send_wire writes set_writes fd data t = Ok (ok, set_writes ws t, map (PWrite fd) cs).
Proof using.
  intros E. unfold send_wire. rewrite bind_get, E, bind_modify.
  rewrite (bind_ok _ _ _ _ _ _ (emit_each cs (PWrite fd) _)).
  cbn. by rewrite app_nil_r.
Qed.

Lemma send_wire_blind (f : T → T) fd data :
  (∀ t, writes (f t) = writes t) → (∀ ws t, set_writes ws (f t) = f (set_writes ws t)) →
  blind f (send_wire writes set_writes fd data).
Proof using.
  intros Hw Hs t. destruct (send_loop (writes t) data) as [[cs ws] ok] eqn:E.
  rewrite (send_wire_run _ _ (f t) cs ws ok) by by rewrite Hw.
  rewrite (send_wire_run _ _ t cs ws ok) by done. cbn. by rewrite Hs.
Qed.
End Send.

(** A frame of the core fits the wire buffers. *)
Lemma frame_fits h pdu : frame_ok h pdu → zlen (frame_bytes h pdu) ≤ 4 + VBT_MAX_MSG_SIZE.
Proof.
  intros (Hh & _ & _ & _ & b0 & body & -> & Hb & _). pose proof (length_hdr_bytes _ Hh) as Hl.
  unfold frame_bytes. rewrite !zlen_app, Hl. change (zlen (be32 _)) with 4.
  change (zlen [b0; zlen body]) with 2. unfold VBT_MAX_MSG_SIZE, VBT_MAX_PDU_SIZE. lia.
Qed.

(** A frame for the examples. *)
Lemma demo_frame_ok : frame_ok (demo_adv_hdr 3) [0; 1; 7].
Proof.
  split_and!; try done.
  - split; cbn; try done; try (split; [bytes|done]).
  - exists 0, [7]. split_and!; [reflexivity|done|done|bytes].
Qed.

