(* ===== verification/Endpoint.v ===== *)
(** * One end of the air

    What any of the three transports promises to the system it is a part of,
    as an interface: a packet the host hands over runs the controller core,
    the timer runs it, what the core sends to the medium is written on the
    socket, what it sends to the host arrives there, and a frame that comes
    over the socket, in whatever pieces, is handed to the core.  The end-to-end
    theorems are proved against this interface; HostEnd, VhostEnd and VirtioEnd
    discharge it for vbt-controller, the vhost-user back end and the virtio
    device. *)

From Stdlib Require Import String ZArith Lia.
From stdpp Require Import base list numbers option.
From S2P Require Import Prelude Wire Framing LLState LLEmit LLCmd LLAir LLInv LLProps.
From S2P Require Import Client ClientProps ClientInv SendProps.

(** ** What can be seen of a transport *)

(** The bytes written to a descriptor. *)
Definition sent_by (fd : Z) (e : pev) : list Z :=
  match e with PWrite fd' b => if fd' =? fd then b else [] | _ => [] end.
Definition sent (fd : Z) (o : list pev) : list Z := concat (map (sent_by fd) o).

(** The packets that arrive at the host or guest, each with the length it is
    told. *)
Definition arrival (e : pev) : option (list Z * Z) :=
  match e with
  | PHost p => Some (p, zlen p)
  | PPush b n => Some (b, n)
  | _ => None
  end.
Definition arrivals (o : list pev) : list (list Z * Z) := omap arrival o.

(** Packets that arrive in full, with their lengths. *)
Definition whole (ps : list (list Z)) : list (list Z * Z) := map (λ p, (p, zlen p)) ps.

(** An event that is neither. *)
Definition quiet (e : pev) : Prop :=
  match e with PUsed | PNotify => True | _ => False end.

Lemma sent_app fd o o' : sent fd (o ++ o') = sent fd o ++ sent fd o'.
Proof. unfold sent. by rewrite map_app, concat_app. Qed.
Lemma arrivals_app o o' : arrivals (o ++ o') = arrivals o ++ arrivals o'.
Proof. apply omap_app. Qed.
Lemma sent_chunks fd cs : sent fd (map (PWrite fd) cs) = concat cs.
Proof. unfold sent. induction cs as [|c cs IH]; [done|]. cbn. by rewrite Z.eqb_refl, IH. Qed.
Lemma sent_one fd b : sent fd [PWrite fd b] = b.
Proof. unfold sent. cbn. by rewrite Z.eqb_refl, app_nil_r. Qed.
Lemma arrivals_chunks fd cs : arrivals (map (PWrite fd) cs) = [].
Proof. by induction cs. Qed.
Lemma quiet_nothing q fd : Forall quiet q → sent fd q = [] ∧ arrivals q = [].
Proof. induction 1 as [|e q He _ [IH1 IH2]]; [done|]. destruct e; try done. Qed.

(** The kernel accepts what is written, in pieces. *)
Definition willing (w : os_write) : Prop :=
  match w with OsBytes n => 0 < n | OsRetry => True | OsError => False end.

Lemma willing_sends ws data :
  Forall willing ws →
  ∃ cs ws', send_loop ws data = (cs, ws', true) ∧ concat cs = data ∧ Forall willing ws'.
Proof.
  intros Hw. assert ((send_loop ws data).2 = true ∧ Forall willing (send_loop ws data).1.2) as [Hok Hws].
  { revert data. induction Hw as [|w ws Hw Hws IH]; intros data; destruct data as [|b data]; cbn; try done.
    { split; [done|by apply Forall_cons_2]. }
    destruct w as [n| |]; [|done|done]. cbn in Hw. rewrite if_true by lia.
    specialize (IH (drop (Z.to_nat (Z.min n (zlen (b :: data)))) (b :: data))).
    by destruct (send_loop ws _) as [[cs ws'] ok]. }
  destruct (send_loop ws data) as [[cs ws'] ok] eqn:E. cbn in Hok, Hws. subst ok.
  destruct (send_loop_prefix _ _ _ _ _ E) as (todo & -> & Ht). exists cs, ws'.
  rewrite (proj1 Ht eq_refl). by rewrite app_nil_r.
Qed.

(** ** The interface *)

Class EndpointOps (T : Type) : Type := {
  (** The descriptor of the medium socket. *)
  ep_fd : T → Z;
  (** The socket is open and takes what is written. *)
  ep_open : T → Prop;
  (** Nothing waits for the host, and it takes [k] packets at once. *)
  ep_takes : nat → T → Prop;
  (** The host hands over a packet, in segments; what the array it is copied
      to holds before. *)
  ep_give : list (list Z) → list Z → cmd T pev unit;
  (** The timer fires, with the clock at its start and end. *)
  ep_tick : Z → Z → cmd T pev unit;
  ep_due : Z → T → Prop;
  (** The hub is dialled, under this name. *)
  ep_dial : dial → cmd T pev bool;
  ep_name : T → list Z;
  ep_idle : T → Prop
}.

(** From [t] to [t'] the link stays, and at most [n] packets were taken. *)
Record goes `{EndpointOps T} (n : nat) (t t' : T) : Prop := Goes {
  go_fd : ep_fd t' = ep_fd t;
  go_open : ep_open t → ep_open t';
  go_takes k : ep_takes (n + k) t → ep_takes k t'
}.
Arguments go_fd {_ _ _ _ _} _.
Arguments go_open {_ _ _ _ _} _ _.
Arguments go_takes {_ _ _ _ _} _ _ _.

Lemma goes_refl `{EndpointOps T} (t : T) : goes 0 t t.
Proof. by split. Qed.
Lemma goes_trans `{EndpointOps T} n m (t t1 t2 : T) : goes n t t1 → goes m t1 t2 → goes (n + m) t t2.
Proof.
  intros [F1 O1 K1] [F2 O2 K2]. split; [congruence|tauto|].
  intros k Hk. apply K2, K1. by rewrite Nat.add_assoc.
Qed.

Definition hci_core (pkt stale : list Z) : LL unit :=
  vbt_ll_hci_from_host (pkt ++ drop (length pkt) stale) (zlen pkt).

Class Endpoint (T : Type) `{TransportLaws T, EndpointOps T} : Prop := {
  ep_client c (t : T) : goes 0 t (set_client c t);
  ep_takes_le j k (t : T) : (j ≤ k)%nat → ep_takes k t → ep_takes j t;
  (** The callbacks do what they are called for. *)
  ep_air hdr pdu (t : T) :
    ep_open t → frame_ok hdr pdu →
    ∃ t' cs, callback (ToMedium hdr pdu) t = Ok (tt, t', map (PWrite (ep_fd t)) cs) ∧
      concat cs = frame_bytes hdr pdu ∧ goes 0 t t';
  ep_host pkt (t : T) :
    ep_takes 1 t → zlen pkt ≤ VBT_MAX_MSG_SIZE →
    ∃ t' o, callback (ToHost pkt) t = Ok (tt, t', o) ∧ arrivals o = [(pkt, zlen pkt)] ∧
      (∀ fd, sent fd o = []) ∧ goes 1 t t';
  (** A packet of the host and the timer run the core. *)
  ep_give_core segs stale (t : T) :
    concat segs ≠ [] → zlen (concat segs) ≤ VBT_MAX_MSG_SIZE → zlen stale = VBT_MAX_MSG_SIZE →
    ∃ t0, client_of t0 = client_of t ∧ goes 0 t t0 ∧
      ∀ t1 o, core (hci_core (concat segs) stale) t0 = Ok (tt, t1, o) →
        ∃ q, ep_give segs stale t = Ok (tt, t1, o ++ q) ∧ Forall quiet q;
  ep_tick_core now now' (t : T) :
    ep_due now t →
    ∃ t0, client_of t0 = client_of t ∧ goes 0 t t0 ∧
      ∀ t1 o, core (vbt_ll_tick now) t0 = Ok (tt, t1, o) → ep_takes 0 t1 →
        ∃ t2 q, ep_tick now now' t = Ok (tt, t2, o ++ q) ∧ client_of t2 = client_of t1 ∧
          goes 0 t1 t2 ∧ Forall quiet q;
  (** An idle end that is let in says its name. *)
  ep_dial_run fd n (t : T) :
    ep_idle t → transport_ok t → zlen (hello_wire (ep_name t)) ≤ n →
    ∃ t' o, ep_dial (Dialled fd (OsBytes n)) t = Ok (true, t', o) ∧
      sent fd o = hello_wire (ep_name t) ∧ ep_fd t' = fd;
  ep_name_len (t : T) : transport_ok t → zlen (ep_name t) ≤ 63
}.

(** ** The calls of the core, carried out *)

Definition air_bytes (w : out) : list Z :=
  match w with ToMedium hdr pdu => frame_bytes hdr pdu | ToHost _ => [] end.
Definition told (ws : list out) : list (list Z * Z) :=
  omap (λ w, match w with ToHost p => Some (p, zlen p) | ToMedium _ _ => None end) ws.
Definition on_air (ws : list out) : list Z := concat (map air_bytes ws).

Lemma out_ok_short pkt : out_ok (ToHost pkt) → zlen pkt ≤ VBT_MAX_MSG_SIZE.
Proof.
  change VBT_MAX_MSG_SIZE with 556. intros [(code & ps & -> & Hl & _)|(hf & data & -> & _ & Hl & _)];
    unfold LE_ACL_MTU in *; zlen_lia.
Qed.

Abbreviation core_of t := (cl_ll (client_of t)) (only parsing).

Section End.
Context {T : Type} `{Endpoint T}.
Implicit Types (t : T).

(** The transport can carry out a call of the core. *)
Definition can t (w : out) : Prop :=
  out_ok w ∧ match w with ToMedium _ _ => ep_open t | ToHost _ => True end.

Lemma can_open t ws : ep_open t → Forall out_ok ws → Forall (can t) ws.
Proof using. intros Ht. apply Forall_impl. by intros [] ?. Qed.
Lemma can_goes n t t' ws : goes n t t' → Forall (can t) ws → Forall (can t') ws.
Proof using. intros Hg. apply Forall_impl. intros [pkt|hdr pdu] [Hw Ht]; split; try done. by apply Hg. Qed.

Lemma callback_keeps w t t' o : callback w t = Ok (tt, t', o) → client_of t' = client_of t.
Proof.
  intros E. destruct (blind_keeps _ _ _ _ _ _ (λ s, callback_client w (client_of t) s) (set_client_same t) E)
    as [s0 Es]. by rewrite Es, client_set.
Qed.

(** One call. *)
Lemma callback_run w t :
  can t w → ep_takes (length (told [w])) t →
  ∃ t' o, callback w t = Ok (tt, t', o) ∧ goes (length (told [w])) t t' ∧
    sent (ep_fd t) o = air_bytes w ∧ arrivals o = told [w].
Proof.
  intros [Hw Ht] Hk. destruct w as [pkt|hdr pdu]; cbn [told omap list_omap length] in *.
  - destruct (ep_host pkt t Hk (out_ok_short _ Hw)) as (t' & o & E & Ha & Hs & Hg). by exists t', o.
  - destruct (ep_air hdr pdu t Ht Hw) as (t' & cs & E & Hc & Hg). eexists t', _.
    by rewrite sent_chunks, arrivals_chunks.
Qed.

Lemma callbacks_run ws t :
  Forall (can t) ws → ep_takes (length (told ws)) t →
  ∃ t' o, for_each ws callback t = Ok (tt, t', o) ∧ client_of t' = client_of t ∧
    goes (length (told ws)) t t' ∧ sent (ep_fd t) o = on_air ws ∧ arrivals o = told ws.
Proof.
  revert t. induction ws as [|w ws IH]; intros t Hws Hk.
  { exists t, []. split_and!; done. }
  apply Forall_cons_1 in Hws as [Hw Hws]. cbn [for_each].
  assert (told (w :: ws) = told [w] ++ told ws) as Ht by (change (w :: ws) with ([w] ++ ws); apply omap_app).
  rewrite Ht, length_app in *.
  destruct (callback_run w t Hw) as (t1 & o1 & E1 & Hg1 & Hs1 & Ha1); [by eapply ep_takes_le, Hk; lia|].
  destruct (IH t1) as (t2 & o2 & E2 & Hc2 & Hg2 & Hs2 & Ha2); [by eapply can_goes|by apply Hg1|].
  exists t2, (o1 ++ o2). rewrite (bind_ok _ _ _ _ _ _ E1), E2. split_and!; [done| | | |].
  - rewrite Hc2. by eapply callback_keeps.
  - by eapply goes_trans.
  - rewrite (go_fd Hg1) in Hs2. by rewrite sent_app, Hs1, Hs2.
  - by rewrite arrivals_app, Ha1, Ha2.
Qed.

(** A call into the core. *)
Lemma core_run (m : LL unit) t ll ws :
  m (core_of t) = Ok (tt, ll, ws) → Forall (can t) ws → ep_takes (length (told ws)) t →
  ∃ t' o, core m t = Ok (tt, t', o) ∧ client_of t' = set_cl_ll ll (client_of t) ∧
    goes (length (told ws)) t t' ∧ sent (ep_fd t) o = on_air ws ∧ arrivals o = told ws.
Proof.
  intros E Hws Hk. unfold core. rewrite E. pose proof (ep_client (set_cl_ll ll (client_of t)) t) as Hg.
  destruct (callbacks_run ws (set_client (set_cl_ll ll (client_of t)) t)) as (t' & o & Er & Hc & Hg' & Hs & Ha).
  { by apply (can_goes 0 t). } { by apply Hg. }
  exists t', o. rewrite client_set in Hc. rewrite (go_fd Hg) in Hs. split_and!; try done.
  exact (goes_trans 0 _ _ _ _ Hg Hg').
Qed.

(** A packet of the host. *)
Lemma give_run t segs stale ll ws :
  hci_core (concat segs) stale (core_of t) = Ok (tt, ll, ws) →
  concat segs ≠ [] → zlen (concat segs) ≤ VBT_MAX_MSG_SIZE → zlen stale = VBT_MAX_MSG_SIZE →
  Forall (can t) ws → ep_takes (length (told ws)) t →
  ∃ t' o, ep_give segs stale t = Ok (tt, t', o) ∧ client_of t' = set_cl_ll ll (client_of t) ∧
    goes (length (told ws)) t t' ∧ sent (ep_fd t) o = on_air ws ∧ arrivals o = told ws.
Proof.
  intros E Hne Hl Hst Hws Hk. destruct (ep_give_core segs stale t Hne Hl Hst) as (t0 & Hc0 & Hg0 & Hgive).
  destruct (core_run (hci_core (concat segs) stale) t0 ll ws) as (t1 & o & Er & Hc1 & Hg1 & Hs & Ha).
  { by rewrite Hc0. } { by apply (can_goes 0 t). } { by apply Hg0. }
  destruct (Hgive _ _ Er) as (q & Eq & Hq). destruct (quiet_nothing q (ep_fd t) Hq) as [Hqs Hqa].
  exists t1, (o ++ q). rewrite Hc0 in Hc1. rewrite (go_fd Hg0) in Hs.
  rewrite sent_app, arrivals_app, Hs, Ha, Hqs, Hqa, !app_nil_r. split_and!; try done.
  exact (goes_trans 0 _ _ _ _ Hg0 Hg1).
Qed.

(** The timer, when it has nothing to tell the host. *)
Lemma tick_run t now now' ll ws :
  vbt_ll_tick now (core_of t) = Ok (tt, ll, ws) → ep_due now t →
  Forall (can t) ws → told ws = [] → ep_takes 0 t →
  ∃ t' o, ep_tick now now' t = Ok (tt, t', o) ∧ client_of t' = set_cl_ll ll (client_of t) ∧
    goes 0 t t' ∧ sent (ep_fd t) o = on_air ws ∧ arrivals o = [].
Proof.
  intros E Hd Hws Hno Hk. destruct (ep_tick_core now now' t Hd) as (t0 & Hc0 & Hg0 & Htick).
  destruct (core_run (vbt_ll_tick now) t0 ll ws) as (t1 & o & Er & Hc1 & Hg1 & Hs & Ha).
  { by rewrite Hc0. } { by apply (can_goes 0 t). } { rewrite Hno. by apply Hg0. }
  rewrite Hno in *. cbn [length] in Hg1.
  destruct (Htick _ _ Er) as (t2 & q & Eq & Hc2 & Hg2 & Hq); [by apply Hg1, Hg0|].
  destruct (quiet_nothing q (ep_fd t) Hq) as [Hqs Hqa]. exists t2, (o ++ q).
  rewrite (go_fd Hg0) in Hs. rewrite sent_app, arrivals_app, Hs, Ha, Hqs, Hqa, !app_nil_r.
  split_and!; try done; [by rewrite Hc2, Hc1, Hc0|].
  exact (goes_trans 0 0 _ _ _ Hg0 (goes_trans 0 0 _ _ _ Hg1 Hg2)).
Qed.

(** ** A frame from the socket *)

(** Enough reads for any frame, each of at least a byte. *)
Definition reads_ok (ns : list nat) : Prop := Forall (λ n, 0 < n)%nat ns ∧ (303 ≤ length ns)%nat.

(** The core of [t'] is [ll], and the rest of its client is as before. *)
Record heard_by t t' (ll : vbt_ll) (ws : list out) : Prop := HeardBy {
  hb_ll : core_of t' = ll;
  hb_rx : pending_rx [] t';
  hb_goes : goes (length (told ws)) t t'
}.

(** A payload that is a frame. *)
Lemma takes_frame t hdr pdu ll ws :
  vbt_ll_pdu_from_medium hdr pdu (zlen pdu) (core_of t) = Ok (tt, ll, ws) →
  Forall (can t) ws → ep_takes (length (told ws)) t → hdr_ok hdr → magic hdr = VBT_MAGIC → pdu_len hdr = zlen pdu →
  ∃ t' o, take_payload (frame_payload hdr pdu) t = Ok (tt, t', o) ∧ core_of t' = ll ∧
    goes (length (told ws)) t t' ∧ sent (ep_fd t) o = on_air ws ∧ arrivals o = told ws.
Proof.
  intros E Hws Hk Hh Hm Hlen. set (p := frame_payload hdr pdu).
  destruct (payload_of_frame hdr pdu Hh) as [Ehdr Epdu]. fold p in Ehdr, Epdu.
  pose proof (zlen_frame_payload hdr pdu Hh) as Hpz. fold p in Hpz. pose proof (zlen_nonneg pdu).
  assert (is_frame p = true ∧ agrees p = true) as [Hf Ha].
  { unfold is_frame, agrees. rewrite Ehdr, Epdu, Hm, Hpz, Hlen, !Z.eqb_refl, andb_true_r.
    split; [unfold VBT_HDR_SIZE; lia|done]. }
  destruct (core_run _ _ _ _ E Hws Hk) as (t1 & o & E1 & Hc1 & Hg1 & Hs1 & Ha1).
  set (f := λ c, set_cl_rx_pdus (u64 (cl_rx_pdus c + 1)) c).
  exists (if counted (T:=T) true then set_client (f (client_of t1)) t1 else t1), o.
  split; [|split_and!; [| |done|done]].
  - unfold take_payload. rewrite Hf, Ha, Ehdr, Epdu. cbn [when]. rewrite (bind_ok _ _ _ _ _ _ E1).
    destruct (counted true); cbn; by rewrite app_nil_r.
  - destruct (counted true); rewrite ?client_set; cbn; by rewrite Hc1.
  - rewrite <- (Nat.add_0_r (length _)). eapply goes_trans; [exact Hg1|].
    destruct (counted true); [apply ep_client|apply goes_refl].
Qed.

Lemma hears t hdr pdu ns ll ws :
  vbt_ll_pdu_from_medium hdr pdu (zlen pdu) (core_of t) = Ok (tt, ll, ws) →
  Forall (can t) ws → ep_takes (length (told ws)) t → pending_rx [] t →
  hdr_ok hdr → magic hdr = VBT_MAGIC → pdu_len hdr = zlen pdu → bytes_ok pdu → zlen pdu ≤ 255 → reads_ok ns →
  ∃ t' o, client_recv ns (wire (frame_payload hdr pdu)) t = Ok ([], t', o) ∧ heard_by t t' ll ws ∧
    sent (ep_fd t) o = on_air ws ∧ arrivals o = told ws.
Proof.
  intros E Hws Hk Hrx Hh Hm Hlen Hb Hz [Hns Hnl]. set (p := frame_payload hdr pdu).
  pose proof (zlen_frame_payload hdr pdu Hh) as Hpz. fold p in Hpz.
  assert (payload_ok p) as Hp by (apply frame_payload_ok; try done; unfold VBT_MAX_PDU_SIZE; lia).
  destruct (takes_frame t hdr pdu ll ws E Hws Hk Hh Hm Hlen) as (t2 & o & Hrun & Hll & Hg & Hs & Ha). fold p in Hrun.
  pose proof (client_recv_run ns (wire p) [p] [] t Hrx ltac:(by left)) as Hrecv.
  assert (wire p = concat (map wire [p])) as Hw by (cbn; by rewrite app_nil_r).
  specialize (Hrecv ltac:(by apply Forall_cons_2) ltac:(apply Forall_app_2; [apply be32_ok|apply Hp]) Hns).
  specialize (Hrecv ltac:(pose proof (zlen_wire p) as Hwz; unfold zlen, VBT_HDR_SIZE in *; lia) Hw).
  unfold feed in Hrecv. cbn [for_each] in Hrecv. rewrite (bind_ok _ _ _ _ _ _ Hrun) in Hrecv.
  destruct Hrecv as (b & Hr & Hh'). cbn in Hr. rewrite app_nil_r in Hr.
  exists (set_rx b 0 t2), o. split_and!; [exact Hr| |done|done]. split.
  - by rewrite client_of_rx.
  - exact (pending_rx_set [] b t2 Hh').
  - rewrite <- (Nat.add_0_r (length _)). eapply goes_trans; [exact Hg|apply ep_client].
Qed.
End End.
