(* ===== verification/Host.v ===== *)
(** * The host bridge vbt-controller (src/vbt_controller.c)

    One controller core between a Linux Bluetooth host (the vhci device) and
    the hub.  [ctx] is [struct ctx] with [g_running] and the two time stamps
    of [main]; the results the kernel gives are arguments, except those of the
    writes the callbacks make, which are the list [x_writes].  An iteration of
    the main loop is a function of what [poll], the reads and the clock
    returned. *)

From Stdlib Require Import String ZArith Lia.
From stdpp Require Import base list numbers option.
From S2P Require Import Prelude Wire Text LLState LLEmit LLCmd LLAir Client.

Definition HCI_VENDOR_PKT : Z := 0xff.
Definition HCI_PRIMARY : Z := 0x00.
Definition MEDIUM_RECONNECT_MS : Z := 2000.
Definition TICK_MS : Z := 5.

Record ctx : Type := Ctx {
  x_client : client;          (* [ll], [rxbuf], [rxused], [rx_pdus] *)
  x_vhci_fd : Z;
  x_medium_fd : Z;
  x_node_id : list Z;
  x_tx_pdus : Z;
  x_hci_in : Z;
  x_hci_out : Z;
  x_running : bool;
  x_last_tick : Z;
  x_last_reconnect : Z;
  x_writes : list os_write
}.
Definition set_x_client (v : client) (x : ctx) : ctx :=
  Ctx v (x_vhci_fd x) (x_medium_fd x) (x_node_id x) (x_tx_pdus x) (x_hci_in x) (x_hci_out x)
    (x_running x) (x_last_tick x) (x_last_reconnect x) (x_writes x).
Definition set_x_vhci_fd (v : Z) (x : ctx) : ctx :=
  Ctx (x_client x) v (x_medium_fd x) (x_node_id x) (x_tx_pdus x) (x_hci_in x) (x_hci_out x)
    (x_running x) (x_last_tick x) (x_last_reconnect x) (x_writes x).
Definition set_x_medium_fd (v : Z) (x : ctx) : ctx :=
  Ctx (x_client x) (x_vhci_fd x) v (x_node_id x) (x_tx_pdus x) (x_hci_in x) (x_hci_out x)
    (x_running x) (x_last_tick x) (x_last_reconnect x) (x_writes x).
Definition set_x_tx_pdus (v : Z) (x : ctx) : ctx :=
  Ctx (x_client x) (x_vhci_fd x) (x_medium_fd x) (x_node_id x) v (x_hci_in x) (x_hci_out x)
    (x_running x) (x_last_tick x) (x_last_reconnect x) (x_writes x).
Definition set_x_hci_in (v : Z) (x : ctx) : ctx :=
  Ctx (x_client x) (x_vhci_fd x) (x_medium_fd x) (x_node_id x) (x_tx_pdus x) v (x_hci_out x)
    (x_running x) (x_last_tick x) (x_last_reconnect x) (x_writes x).
Definition set_x_hci_out (v : Z) (x : ctx) : ctx :=
  Ctx (x_client x) (x_vhci_fd x) (x_medium_fd x) (x_node_id x) (x_tx_pdus x) (x_hci_in x) v
    (x_running x) (x_last_tick x) (x_last_reconnect x) (x_writes x).
Definition set_x_running (v : bool) (x : ctx) : ctx :=
  Ctx (x_client x) (x_vhci_fd x) (x_medium_fd x) (x_node_id x) (x_tx_pdus x) (x_hci_in x)
    (x_hci_out x) v (x_last_tick x) (x_last_reconnect x) (x_writes x).
Definition set_x_last_tick (v : Z) (x : ctx) : ctx :=
  Ctx (x_client x) (x_vhci_fd x) (x_medium_fd x) (x_node_id x) (x_tx_pdus x) (x_hci_in x)
    (x_hci_out x) (x_running x) v (x_last_reconnect x) (x_writes x).
Definition set_x_last_reconnect (v : Z) (x : ctx) : ctx :=
  Ctx (x_client x) (x_vhci_fd x) (x_medium_fd x) (x_node_id x) (x_tx_pdus x) (x_hci_in x)
    (x_hci_out x) (x_running x) (x_last_tick x) v (x_writes x).
Definition set_x_writes (v : list os_write) (x : ctx) : ctx :=
  Ctx (x_client x) (x_vhci_fd x) (x_medium_fd x) (x_node_id x) (x_tx_pdus x) (x_hci_in x)
    (x_hci_out x) (x_running x) (x_last_tick x) (x_last_reconnect x) v.

Abbreviation HOST := (cmd ctx pev).

(** ** The callbacks *)

(** A failed write is only logged. *)
Definition cb_hci_to_host (pkt : list Z) : HOST unit :=
  emit (PHost pkt);;
  modify (λ x, set_x_hci_out (u64 (x_hci_out x + 1)) x).

Definition cb_pdu_to_medium (hdr : vbt_frame_hdr) (pdu : list Z) : HOST unit :=
  x ← get;
  if x_medium_fd x <? 0 then skip
  else
    wire ← local_buf (4 + VBT_MAX_MSG_SIZE) (frame_bytes hdr pdu);
    ok ← send_wire x_writes set_x_writes (x_medium_fd x) wire;
    if ok : bool then modify (λ x, set_x_tx_pdus (u64 (x_tx_pdus x + 1)) x)
    else
      emit (PClose (x_medium_fd x));;
      modify (set_x_medium_fd (-1)).

(** Every frame with the right magic is counted. *)
#[export] Instance host_transport : Transport ctx := {
  client_of := x_client;
  set_client := set_x_client;
  callback w := match w with
                | ToHost pkt => cb_hci_to_host pkt
                | ToMedium hdr pdu => cb_pdu_to_medium hdr pdu
                end;
  counted _ := true
}.

(** ** The medium connection *)

(** One [write] sends the hello; a short write is not noticed. *)
Definition connect_medium (d : dial) : HOST bool :=
  match d with
  | NoSocket => mret false
  | Refused fd => emit (PClose fd);; mret false
  | Dialled fd w =>
      x ← get;
      hb ← local_buf (4 + 4 + 64) (hello_wire (x_node_id x));
      match w with
      | OsBytes n =>
          emit (PWrite fd (take (Z.to_nat n) hb));;
          modify (set_x_medium_fd fd);;
          upd_client (λ c, set_cl_rx (cl_rxbuf c) 0 c);;
          mret true
      | _ => emit (PClose fd);; mret false
      end
  end.

(** [read] on a closed descriptor fails. *)
Definition medium_readable (r : os_read) : HOST unit :=
  x ← get;
  match (if x_medium_fd x <? 0 then RdError else r) with
  | RdBytes (b :: l) => client_input (b :: l)
  | RdAgain => skip
  | _ =>
      emit (PClose (x_medium_fd x));;
      modify (set_x_medium_fd (-1))
  end.

(** [stale] is what the uninitialised array [buf] holds before the read. *)
Definition vhci_readable (r : os_read) (stale : list Z) : HOST unit :=
  match r with
  | RdBytes (b :: l) =>
      let l := take (Z.to_nat VBT_MAX_MSG_SIZE) (b :: l) in
      modify (λ x, set_x_hci_in (u64 (x_hci_in x + 1)) x);;
      core (vbt_ll_hci_from_host (splice 0 l stale) (zlen l))
  | RdAgain => skip
  | _ => modify (set_x_running false)
  end.

(** ** The main loop *)

(** [poll] and what follows it: [r > 0], POLLERR or POLLHUP and POLLIN on the
    vhci device, POLLIN on the medium socket, the results of the reads, the
    clock and of an attempt to reconnect. *)
Record poll_in : Type := PollIn {
  pi_ready : bool;
  pi_vhci_err : bool;
  pi_vhci_in : bool;
  pi_medium_in : bool;
  pi_vhci : os_read;
  pi_stale : list Z;
  pi_medium : os_read;
  pi_now : Z;
  pi_dial : dial
}.

Definition host_tick (t : Z) : HOST unit :=
  x ← get;
  when (TICK_MS <=? u64 (t - x_last_tick x))
    (core (vbt_ll_tick t);; modify (set_x_last_tick t)).

Definition host_reconnect (t : Z) (d : dial) : HOST unit :=
  x ← get;
  when ((x_medium_fd x <? 0) && (MEDIUM_RECONNECT_MS <=? u64 (t - x_last_reconnect x)))
    (modify (set_x_last_reconnect t);; _ ← connect_medium d; skip).

Definition host_iter (p : poll_in) : HOST unit :=
  x ← get;
  let medium_row := 0 <=? x_medium_fd x in
  if pi_ready p && pi_vhci_err p then modify (set_x_running false)
  else
    when (pi_ready p)
      (when (pi_vhci_in p) (vhci_readable (pi_vhci p) (pi_stale p));;
       when (medium_row && pi_medium_in p) (medium_readable (pi_medium p)));;
    host_tick (pi_now p);;
    host_reconnect (pi_now p) (pi_dial p).

(** [while (g_running)] over the given results. *)
Fixpoint host_loop (ps : list poll_in) : HOST unit :=
  match ps with
  | [] => skip
  | p :: ps => x ← get; when (x_running x) (host_iter p;; host_loop ps)
  end.

(** ** Start-up *)

(** Values above 0xff are accepted and cut down. *)
Definition parse_addr (s : list Z) : option (list Z) := map u8 <$> scan_addr s.

(** The options [--node-id] and [--bdaddr] (the last of each); [None] is the
    exit on a malformed address. *)
Definition host_config (node_id bdaddr : option (list Z)) : option (list Z * list Z) :=
  let nid := match node_id with Some s => take 63 (c_str s) | None => str "vbt-host" end in
  match bdaddr with
  | Some s => a ← parse_addr s; Some (nid, a)
  | None => Some (nid, derive_bdaddr nid)
  end.

Definition zero_client (ll : vbt_ll) : client :=
  Client ll (replicate (Z.to_nat VBT_RXBUF_SIZE) 0) 0 0.

(** The context as [main] fills it before it opens vhci. *)
Definition host_new (nid bdaddr : list Z) (ws : list os_write) : ctx :=
  {| x_client := zero_client (vbt_ll_new (Ops true true) bdaddr);
     x_vhci_fd := -1; x_medium_fd := -1; x_node_id := nid;
     x_tx_pdus := 0; x_hci_in := 0; x_hci_out := 0; x_running := true;
     x_last_tick := 0; x_last_reconnect := 0; x_writes := ws |}.

(** [open] (a negative [fd] is a failure) and the creation of the device;
    [false] is the exit of [main]. *)
Definition host_open (fd : Z) (created : bool) : HOST bool :=
  modify (set_x_vhci_fd fd);;
  if fd <? 0 then mret false
  else
    emit (PHost [HCI_VENDOR_PKT; HCI_PRIMARY]);;
    mret created.

Definition host_main (fd : Z) (created : bool) (d : dial) (t0 : Z) (ps : list poll_in) : HOST unit :=
  ok ← host_open fd created;
  when ok
    (_ ← connect_medium d;
     modify (set_x_last_tick t0);;
     host_loop ps;;
     x ← get;
     when (0 <=? x_vhci_fd x) (emit (PClose (x_vhci_fd x)));;
     when (0 <=? x_medium_fd x) (emit (PClose (x_medium_fd x)))).
