(* ===== verification/HostInv.v ===== *)
(** * vbt-controller is a transport, and its main loop is safe *)

From Stdlib Require Import String ZArith Lia.
From stdpp Require Import base list numbers option relations.
From S2P Require Import Prelude Wire Framing Text LLState LLEmit LLCmd LLAir LLInv LLProps LLFrame.
From S2P Require Import Client ClientProps ClientInv SendProps Host.

(** ** The laws *)

Lemma cb_pdu_to_medium_blind c hdr pdu : blind (set_x_client c) (cb_pdu_to_medium hdr pdu).
Proof.
  intros x. unfold cb_pdu_to_medium. rewrite !bind_get.
  change (x_medium_fd (set_x_client c x)) with (x_medium_fd x).
  apply blind_if; [done|]. apply blind_bind; [apply blind_local_buf|]. intros w.
  apply blind_bind; [by apply send_wire_blind|]. intros ok. by apply blind_if.
Qed.

(** What the rest of the program relies on of the context. *)
Definition host_rest_ok (x : ctx) : Prop := zlen (x_node_id x) ≤ 63 ∧ bytes_ok (x_node_id x).

Lemma cb_pdu_to_medium_run hdr pdu x :
  0 ≤ x_medium_fd x → frame_ok hdr pdu →
  ∀ cs ws ok, send_loop (x_writes x) (frame_bytes hdr pdu) = (cs, ws, ok) →
  cb_pdu_to_medium hdr pdu x =
    if ok then Ok (tt, set_x_tx_pdus (u64 (x_tx_pdus x + 1)) (set_x_writes ws x),
                   map (PWrite (x_medium_fd x)) cs)
    else Ok (tt, set_x_medium_fd (-1) (set_x_writes ws x),
             map (PWrite (x_medium_fd x)) cs ++ [PClose (x_medium_fd x)]).
Proof.
  intros Hfd Hf cs ws ok E. unfold cb_pdu_to_medium. rewrite bind_get, if_false by lia.
  rewrite bind_local_buf by by apply frame_fits.
  rewrite (bind_ok _ _ _ _ _ _ (send_wire_run _ _ _ _ _ _ _ _ E)).
  destruct ok; cbn; by rewrite ?app_nil_r.
Qed.

Lemma cb_pdu_to_medium_safe hdr pdu x :
  host_rest_ok x → frame_ok hdr pdu →
  ∃ x' o, cb_pdu_to_medium hdr pdu x = Ok (tt, x', o) ∧ host_rest_ok x'.
Proof.
  intros Hx Hf. destruct (decide (0 ≤ x_medium_fd x)) as [Hfd|Hfd].
  - destruct (send_loop (x_writes x) (frame_bytes hdr pdu)) as [[cs ws] ok] eqn:E.
    rewrite (cb_pdu_to_medium_run _ _ _ Hfd Hf _ _ _ E). destruct ok; by eexists _, _.
  - exists x, []. split; [|done]. unfold cb_pdu_to_medium. rewrite bind_get. by rewrite if_true by lia.
Qed.

#[export] Instance host_laws : TransportLaws ctx.
Proof.
  refine {| transport_ok := host_rest_ok |}; try done.
  - by intros [].
  - intros [pkt|hdr pdu] c x; [done|]. apply cb_pdu_to_medium_blind.
  - intros [pkt|hdr pdu] x Hx Hw; [by eexists _, _|]. by apply cb_pdu_to_medium_safe.
Defined.

(** ** Safety of the main loop *)

Abbreviation host_ok := (client_ok (T:=ctx)).

(** What a read on vhci may return. *)
Definition vhci_ok (r : os_read) : Prop :=
  match r with RdBytes l => bytes_ok l | _ => True end.
Record poll_ok (x : ctx) (p : poll_in) : Prop := PollOk {
  pok_vhci : vhci_ok (pi_vhci p);
  pok_stale : bytes_ok (pi_stale p) ∧ zlen (pi_stale p) = VBT_MAX_MSG_SIZE;
  pok_medium : medium_ok (x_client x) (pi_medium p)
}.

Lemma host_ok_ext (x y : ctx) :
  host_ok x → x_client y = x_client x → x_node_id y = x_node_id x → host_ok y.
Proof.
  intros [Ht Hl (d & [Hu Hb] & Hd)] E1 E2. split.
  - unfold transport_ok, host_laws, host_rest_ok in *. by rewrite E2.
  - cbn in *. by rewrite E1.
  - exists d. unfold pending_rx. cbn in *. by rewrite E1.
Qed.

Abbreviation hostsafe := (tsafe (T:=ctx)).

(** The receive buffer is as before. *)
Definition same_rx (x y : ctx) : Prop :=
  cl_rxbuf (x_client y) = cl_rxbuf (x_client x) ∧ cl_rxused (x_client y) = cl_rxused (x_client x).

Lemma vhci_readable_safe r stale x :
  host_ok x → vhci_ok r → bytes_ok stale → zlen stale = VBT_MAX_MSG_SIZE →
  hostsafe (vhci_readable r stale) x (same_rx x).
Proof.
  intros Hx Hr Hs Hl. unfold vhci_readable. destruct r as [[|b l]| | |];
    try (apply tsafe_modify; [by eapply host_ok_ext|done]).
  set (d := take _ (b :: l)).
  assert (bytes_ok d ∧ zlen d ≤ VBT_MAX_MSG_SIZE) as [Hd Hdl].
  { split; [by apply Forall_take|]. unfold d, zlen. rewrite length_take. unfold VBT_MAX_MSG_SIZE, VBT_HDR_SIZE, VBT_MAX_PDU_SIZE. lia. }
  apply (tsafe_bind _ _ _ (same_rx x));
    [by apply tsafe_modify; [eapply host_ok_ext|]|]. intros _ y Hy [Kb Ku].
  destruct (hci_tsafe d stale y Hy Hd Hdl Hs Hl) as (a & y' & o & E & Hy' & Kb' & Ku').
  exists a, y', o. split_and!; [done..|]. cbn in *. split; congruence.
Qed.

Lemma medium_readable_safe r x :
  host_ok x → medium_ok (x_client x) r → hostsafe (medium_readable r) x (λ _, True).
Proof.
  intros Hx Hr. unfold tsafe, medium_readable.
  setoid_rewrite bind_get.
  assert (∃ a x' o, (emit (PClose (x_medium_fd x));; modify (set_x_medium_fd (-1))) x = Ok (a, x', o) ∧
    host_ok x' ∧ True) as Hclose.
  { eexists _, _, _. split; [done|]. split; [by eapply host_ok_ext|done]. }
  destruct (x_medium_fd x <? 0); [done|]. destruct r as [[|b l]| | |]; try done.
  - by apply client_read_safe.
  - by exists tt, x, [].
Qed.

Lemma host_tick_safe t x : host_ok x → hostsafe (host_tick t) x (λ _, True).
Proof.
  intros Hx. unfold tsafe, host_tick. setoid_rewrite bind_get.
  apply tsafe_when; [done..|]. intros _.
  destruct (core_safe (vbt_ll_tick t) x Hx) as (x' & o & E & Hx' & _).
  { apply vbt_ll_tick_safe, Hx. }
  apply (tsafe_bind _ _ _ (λ _, True)); [by exists tt, x', o|]. intros _ y Hy _.
  apply tsafe_modify; [by eapply host_ok_ext|done].
Qed.

Lemma hello_fits x : host_rest_ok x → zlen (hello_wire (x_node_id x)) ≤ 4 + 4 + 64.
Proof.
  intros [Hl _]. unfold hello_wire. rewrite !zlen_app, zlen_le_split.
  change (zlen (be32 _)) with 4. change (zlen [0]) with 1. lia.
Qed.

Lemma connect_medium_safe d x : host_ok x → hostsafe (connect_medium d) x (λ _, True).
Proof.
  intros Hx. destruct d as [|fd|fd w]; [by eexists _, _, _..|].
  unfold tsafe, connect_medium. setoid_rewrite bind_get.
  setoid_rewrite bind_local_buf; [|by apply hello_fits, Hx].
  destruct w as [n| |]; [|by eexists _, _, _..].
  eexists _, _, _. split; [done|]. split; [|done]. cbn.
  apply (host_ok_ext (set_rx (cl_rxbuf (x_client x)) 0 x)); [exact (set_rx_empty_ok x Hx)|done..].
Qed.

Lemma host_iter_safe p x :
  host_ok x → poll_ok x p → hostsafe (host_iter p) x (λ _, True).
Proof.
  intros Hx [Hv [Hs Hsl] Hm]. unfold tsafe, host_iter. setoid_rewrite bind_get. cbv zeta.
  destruct (pi_ready p && pi_vhci_err p);
    [by apply tsafe_modify; [eapply host_ok_ext|]|].
  apply (tsafe_bind _ _ _ (λ _, True)).
  - apply tsafe_when; [done..|]. intros _.
    apply (tsafe_bind _ _ _ (same_rx x)).
    { apply tsafe_when; [done..|]. intros _. by apply vhci_readable_safe. }
    intros _ y Hy [Kb Ku]. apply tsafe_when; [done..|]. intros _.
    apply medium_readable_safe; [done|]. unfold medium_ok, rx_held in *. by rewrite Kb, Ku.
  - intros _ y Hy _. apply (tsafe_bind _ _ _ (λ _, True)); [by apply host_tick_safe|].
    intros _ z Hz _. unfold tsafe, host_reconnect. setoid_rewrite bind_get.
    apply tsafe_when; [done..|]. intros _.
    apply (tsafe_bind _ _ _ (λ _, True)); [by apply tsafe_modify; [eapply host_ok_ext|]|].
    intros _ z' Hz' _. apply (tsafe_bind _ _ _ (λ _, True)); [by apply connect_medium_safe|].
    intros a z2 Hz2 _. by exists tt, z2, [].
Qed.

(** ** Reachable contexts *)

Lemma host_new_ok nid bd ws :
  zlen nid ≤ 63 → bytes_ok nid → addr_ok bd → host_ok (host_new nid bd ws).
Proof.
  intros Hn Hb Ha. split.
  - done.
  - by apply vbt_ll_new_ok.
  - exists []. split; [|done]. split; [done|]. split_and!; [by apply bytes_ok_replicate|done|by eexists].
Qed.
