(* ===== verification/HostProps.v ===== *)
(** * vbt-controller: correctness

    Safety from the command line on, reassembly of the hub's stream, what
    reaches the hub when a write fails, and reconnection. *)

From Stdlib Require Import String ZArith Lia.
From stdpp Require Import base list numbers option relations.
From S2P Require Import Prelude Wire Framing Text LLState LLEmit LLCmd LLAir LLInv LLProps LLFrame.
From S2P Require Import Client ClientProps ClientInv SendProps Host HostInv.

(** ** From the command line to the main loop *)

Lemma derive_bdaddr_ok nid : addr_ok (derive_bdaddr nid).
Proof. split; [|done]. unfold derive_bdaddr. forall_cons; try done; apply u8_range. Qed.

Lemma parse_addr_ok s a : parse_addr s = Some a → addr_ok a.
Proof.
  unfold parse_addr. intros (m & Hm & ->)%fmap_Some. split.
  - apply Forall_forall. intros b (z & -> & _)%list_elem_of_fmap. apply u8_range.
  - unfold scan_addr in Hm. unfold zlen. rewrite length_fmap.
    repeat match type of Hm with
    | (_ ≫= _) = Some _ => let p := fresh in apply bind_Some in Hm as ([? ?] & p & Hm); clear p
    end.
    by injection Hm as <-.
Qed.

Lemma c_str_bytes s : bytes_ok s → bytes_ok (c_str s).
Proof.
  induction 1 as [|b s Hb Hs IH]; [done|]. cbn [c_str]. destruct (b =? 0); [done|]. by constructor.
Qed.

(** An argument of the command line. *)
Definition arg_ok (s : option (list Z)) : Prop := match s with Some s => bytes_ok s | None => True end.

Lemma host_config_ok n b nid bd :
  arg_ok n → host_config n b = Some (nid, bd) → zlen nid ≤ 63 ∧ bytes_ok nid ∧ addr_ok bd.
Proof.
  intros Hn E. unfold host_config in E.
  set (i := match n with Some s => _ | None => _ end) in E.
  assert (zlen i ≤ 63 ∧ bytes_ok i) as [Hl Hb].
  { unfold i. destruct n as [s|].
    - split; [unfold zlen; rewrite length_take; lia|]. by apply Forall_take, c_str_bytes.
    - split; [done|]. apply (bool_decide_eq_true_1 _). vm_compute. reflexivity. }
  destruct b as [s|]; cbn in E.
  - destruct (parse_addr s) as [a|] eqn:Ea; [|done]. injection E as <- <-.
    split_and!; [done..|by eapply parse_addr_ok].
  - injection E as <- <-. split_and!; [done..|apply derive_bdaddr_ok].
Qed.

(** The context in which [main] enters its loop. *)
Definition host_entry (fd : Z) (d : dial) (t0 : Z) : HOST unit :=
  _ ← host_open fd true; _ ← connect_medium d; modify (set_x_last_tick t0).

(** Admissible inputs of the loop, along its run. *)
Fixpoint host_polls_ok (ps : list poll_in) (x : ctx) : Prop :=
  match ps with
  | [] => True
  | p :: ps => poll_ok x p ∧ ∀ x' o, host_iter p x = Ok (tt, x', o) → host_polls_ok ps x'
  end.

Lemma host_loop_ok ps x : host_ok x → host_polls_ok ps x → hostsafe (host_loop ps) x (λ _, True).
Proof.
  revert x. induction ps as [|p ps IH]; intros x Hx Hp; [by apply tsafe_ret|].
  destruct Hp as [Hp Hps]. apply tsafe_get, tsafe_when; [done..|]. intros _.
  apply (tsafe_bind_run _ _ _ (λ _, True)); [by apply host_iter_safe|].
  intros [] x' o E Hx'. by eapply IH, Hps.
Qed.

Lemma host_open_safe fd c x : host_ok x → hostsafe (host_open fd c) x (λ _, True).
Proof.
  intros Hx. unfold tsafe, host_open. setoid_rewrite bind_modify.
  destruct (fd <? 0); eexists _, _, _; (split; [done|]); (split; [|done]); by apply (host_ok_ext x).
Qed.

(** Vbt-controller is safe.  Whatever its command line, its [main] runs
    without undefined behaviour and leaves a well-formed context, for any
    outcome of opening vhci, of [poll], of the reads, the writes, the clock and
    the reconnections, provided the host and the hub send bytes and no frame
    of the hub carries more than 30 bytes of advertising data. *)
Theorem host_main_safe (n b : option (list Z)) (nid bd : list Z) (ws : list os_write)
    (fd : Z) (created : bool) (d : dial) (t0 : Z) (ps : list poll_in) :
  arg_ok n → host_config n b = Some (nid, bd) →
  (∀ x o, host_entry fd d t0 (host_new nid bd ws) = Ok (tt, x, o) → host_polls_ok ps x) →
  ∃ x' o, host_main fd created d t0 ps (host_new nid bd ws) = Ok (tt, x', o) ∧ host_ok x'.
Proof.
  intros Hn Hc Hps. destruct (host_config_ok _ _ _ _ Hn Hc) as (Hl & Hb & Ha).
  assert (hostsafe (host_main fd created d t0 ps) (host_new nid bd ws) (λ _, True))
    as ([] & x' & o & ? & ? & _); [|eauto].
  apply (tsafe_bind_run _ _ _ (λ _, True)); [by apply host_open_safe, host_new_ok|].
  intros ok x1 o1 E1 Hx1. apply tsafe_when; [done..|]. intros ->.
  apply (tsafe_bind_run _ _ _ (λ _, True)); [by apply connect_medium_safe|].
  intros ok2 x2 o2 E2 Hx2. apply (tsafe_bind_run _ _ _ (λ _, True)).
  { by apply tsafe_modify; [eapply host_ok_ext|]. }
  intros [] x3 o3 E3 Hx3. apply (tsafe_bind _ _ _ (λ _, True)).
  { apply host_loop_ok; [done|]. destruct created.
    - eapply Hps. unfold host_entry. by rewrite (bind_ok _ _ _ _ _ _ E1), (bind_ok _ _ _ _ _ _ E2), E3.
    - unfold host_open in E1. rewrite bind_modify in E1. by destruct (fd <? 0). }
  intros _ x4 Hx4 _. apply tsafe_get. apply (tsafe_bind _ _ _ (λ _, True)).
  { by apply tsafe_when; [done..|]; intros _; apply tsafe_emit. }
  intros _ x5 Hx5 _. by apply tsafe_when; [done..|]; intros _; apply tsafe_emit.
Qed.

(** A context, and an iteration in which the host sends HCI_Reset. *)
Definition demo_host : ctx :=
  set_x_last_tick 7 (set_x_medium_fd 4 (set_x_vhci_fd 3
    (host_new (str "vbt-host") (derive_bdaddr (str "vbt-host")) []))).
Definition demo_poll : poll_in :=
  PollIn true false true false (RdBytes [1; 3; 12; 0]) (replicate 556 0) RdAgain 20 NoSocket.

Lemma demo_host_ok : host_ok demo_host.
Proof.
  apply (host_ok_ext (host_new (str "vbt-host") (derive_bdaddr (str "vbt-host")) [])); [|done..].
  apply host_new_ok; [vm_compute; done| |apply derive_bdaddr_ok].
  apply (bool_decide_eq_true_1 _). vm_compute. reflexivity.
Qed.

Lemma demo_poll_ok x : poll_ok x demo_poll.
Proof. split; [cbn; bytes|split; [apply bytes_ok_replicate|done]|done]. Qed.

Lemma host_main_safe_witness :
  ∃ x' o, host_main 3 true (Dialled 4 (OsBytes 17)) 7 [demo_poll]
            (host_new (str "vbt-host") (derive_bdaddr (str "vbt-host")) []) = Ok (tt, x', o) ∧ host_ok x'.
Proof.
  apply (host_main_safe None None); [exact I|reflexivity|].
  intros x o _. split; [apply demo_poll_ok|done].
Defined.

(** ** The hub's stream *)

(** C29: the transports' reader loses and invents nothing.  However the kernel
    splits the hub's stream of payloads into reads, a transport that obeys
    the laws hands the core exactly the frames among them, each once, whole
    and in order, makes the callbacks the core asks for in that order, and is
    left with an empty buffer; or it faults exactly where handling the
    payloads one by one faults. *)
Theorem frames_handed_over {T : Type} `{TransportLaws T} (t : T) (ps : list (list Z)) (ns : list nat) :
  pending_rx [] t → Forall payload_ok ps → Forall (λ n, 0 < n)%nat ns →
  (length (concat (map wire ps)) ≤ length ns)%nat →
  match feed ps t with
  | Ok (_, t', o) =>
      ∃ b, client_recv ns (concat (map wire ps)) t = Ok ([], set_rx b 0 t', o) ∧ holds [] b
  | Fault e => client_recv ns (concat (map wire ps)) t = Fault e
  end.
Proof.
  intros Hp Hps Hns Hl. apply (client_recv_run ns _ ps []); try done; [by left|].
  clear -Hps. induction Hps as [|p ps [Hb _] _ IH]; [done|]. cbn [map concat].
  apply Forall_app_2; [|done]. apply Forall_app_2; [apply be32_ok|done].
Qed.

(** A hello-like payload, one with an unknown magic, and an advertisement. *)
Definition demo_payloads : list (list Z) :=
  [[1; 2; 3]; replicate 50 0; frame_payload (demo_adv_hdr 11) [0; 9; 9; 8; 7; 6; 5; 4; 2; 1; 6]].

Lemma frames_handed_over_witness :
  match feed demo_payloads demo_host with
  | Ok (_, t', o) =>
      ∃ b, client_recv (replicate 120 3%nat) (concat (map wire demo_payloads)) demo_host =
             Ok ([], set_rx b 0 t', o) ∧ holds [] b
  | Fault e => client_recv (replicate 120 3%nat) (concat (map wire demo_payloads)) demo_host = Fault e
  end.
Proof.
  apply (frames_handed_over demo_host).
  - split; [reflexivity|]. split_and!; [apply bytes_ok_replicate|reflexivity|by eexists].
  - repeat apply Forall_cons_2; try apply Forall_nil_2;
      (split; [apply (bool_decide_eq_true_1 _); vm_compute; reflexivity|vm_compute; done]).
  - apply Forall_replicate. lia.
  - vm_compute. lia.
Defined.

(** ** A frame on its way to the hub *)

(** C36: a frame of the core reaches the socket whole, however the kernel
    splits the write, and is counted; or, when a write fails, a proper prefix
    of it is followed by the close of the connection, so that the hub never
    sees another byte behind a torn frame. *)
Theorem host_frame_whole_or_closed (hdr : vbt_frame_hdr) (pdu : list Z) (x : ctx) :
  0 ≤ x_medium_fd x → frame_ok hdr pdu →
  ∃ cs x', (cb_pdu_to_medium hdr pdu x = Ok (tt, x', map (PWrite (x_medium_fd x)) cs) ∧
      concat cs = frame_bytes hdr pdu ∧ x_medium_fd x' = x_medium_fd x ∧
      x_tx_pdus x' = u64 (x_tx_pdus x + 1)) ∨
    (cb_pdu_to_medium hdr pdu x =
       Ok (tt, x', map (PWrite (x_medium_fd x)) cs ++ [PClose (x_medium_fd x)]) ∧
     (∃ todo, todo ≠ [] ∧ frame_bytes hdr pdu = concat cs ++ todo) ∧ x_medium_fd x' = -1 ∧
     x_tx_pdus x' = x_tx_pdus x).
Proof.
  intros Hfd Hf. destruct (send_loop (x_writes x) (frame_bytes hdr pdu)) as [[cs ws] ok] eqn:E.
  pose proof (cb_pdu_to_medium_run _ _ _ Hfd Hf _ _ _ E) as Hrun.
  destruct (send_loop_prefix _ _ _ _ _ E) as (todo & Hd & Hok). exists cs.
  destruct ok; eexists; [left|right]; split_and!; try exact Hrun; try done.
  - rewrite Hd, (proj1 Hok eq_refl). by rewrite app_nil_r.
  - exists todo. split; [|done]. intros Ht. by apply Hok in Ht.
Qed.

Lemma host_frame_whole_or_closed_witness :
  let x := set_x_writes [OsBytes 9; OsRetry; OsError] demo_host in
  ∃ cs x', (cb_pdu_to_medium (demo_adv_hdr 3) [0; 1; 7] x = Ok (tt, x', map (PWrite 4) cs) ∧
      concat cs = frame_bytes (demo_adv_hdr 3) [0; 1; 7] ∧ x_medium_fd x' = 4 ∧
      x_tx_pdus x' = 1) ∨
    (cb_pdu_to_medium (demo_adv_hdr 3) [0; 1; 7] x =
       Ok (tt, x', map (PWrite 4) cs ++ [PClose 4]) ∧
     (∃ todo, todo ≠ [] ∧ frame_bytes (demo_adv_hdr 3) [0; 1; 7] = concat cs ++ todo) ∧
     x_medium_fd x' = -1 ∧ x_tx_pdus x' = 0).
Proof.
  apply (host_frame_whole_or_closed (demo_adv_hdr 3) [0; 1; 7]
    (set_x_writes [OsBytes 9; OsRetry; OsError] demo_host)); [done|apply demo_frame_ok].
Defined.

(** ** Reconnection *)

(** Off the medium, with the node id and the time of the last attempt. *)
Definition offline (nid : list Z) (last : Z) (x : ctx) : Prop :=
  x_medium_fd x < 0 ∧ x_node_id x = nid ∧ x_last_reconnect x = last.

(** A call into the core leaves the connection as it is. *)
Lemma core_offline nid last m x x' o :
  offline nid last x → core m x = Ok (tt, x', o) → offline nid last x'.
Proof.
  apply (core_keep (offline nid last)); [done|].
  intros [pkt|hdr pdu] y y' o' Hy E; cbn in E.
  - by injection E as <- _.
  - unfold cb_pdu_to_medium in E. rewrite bind_get, if_true in E by (destruct Hy; lia).
    by injection E as <- _.
Qed.

Lemma vhci_readable_offline nid last r stale x x' o :
  offline nid last x → vhci_readable r stale x = Ok (tt, x', o) → offline nid last x'.
Proof.
  intros Hx E. unfold vhci_readable in E.
  destruct r as [[|b l]| | |]; try (by injection E as <- _).
  rewrite bind_modify in E. by eapply core_offline; [|exact E].
Qed.

(** The part of an iteration before the reconnection. *)
Lemma offline_prefix nid last p x :
  host_ok x → poll_ok x p → offline nid last x → pi_ready p && pi_vhci_err p = false →
  ∃ y o, host_ok y ∧ offline nid last y ∧ host_iter p x =
    match host_reconnect (pi_now p) (pi_dial p) y with
    | Ok (u, z, o') => Ok (u, z, o ++ o')
    | Fault e => Fault e
    end.
Proof.
  intros Hx [Hv [Hs Hsl] _] Hoff Hrun. unfold host_iter. rewrite bind_get. cbv zeta. rewrite Hrun.
  rewrite (proj2 (Z.leb_gt _ _)) by apply Hoff. cbn [andb when].
  assert (∃ y o, when (pi_ready p) (when (pi_vhci_in p) (vhci_readable (pi_vhci p) (pi_stale p));; skip) x =
    Ok (tt, y, o) ∧ host_ok y ∧ offline nid last y) as (y & o1 & E1 & Hy & Hyo).
  { destruct (pi_ready p); [|by exists x, []]. destruct (pi_vhci_in p); [|by exists x, []]. cbn [when].
    destruct (vhci_readable_safe _ _ x Hx Hv Hs Hsl) as ([] & y & o & E & Hy & _).
    exists y, o. rewrite (bind_ok _ _ _ _ _ _ E). cbn. rewrite app_nil_r.
    split_and!; [done..|]. by eapply vhci_readable_offline. }
  rewrite (bind_ok _ _ _ _ _ _ E1).
  destruct (host_tick_safe (pi_now p) y Hy) as ([] & z & o2 & E2 & Hz & _).
  exists z, (o1 ++ o2). split_and!; [done| |].
  - unfold host_tick in E2. rewrite bind_get in E2. destruct (_ <=? _); cbn [when] in E2.
    + destruct (core (vbt_ll_tick (pi_now p)) y) as [[[[] y'] o']|] eqn:E; [|by rewrite (bind_fault _ _ _ _ E) in E2].
      rewrite (bind_ok _ _ _ _ _ _ E) in E2. injection E2 as <- _. exact (core_offline _ _ _ _ _ _ Hyo E).
    + by injection E2 as <- _.
  - rewrite (bind_ok _ _ _ _ _ _ E2).
    destruct (host_reconnect _ _ z) as [[[u w] o3]|]; [|done]. by rewrite app_assoc.
Qed.

(** C34: vbt-controller reconnects.  While it is off the medium, the first
    iteration at least two seconds after the previous attempt in which the hub
    accepts leaves it connected: the last thing written is the whole hello
    with its node id, the receive buffer is empty, and the context is
    well-formed. *)
Theorem host_reconnects (x : ctx) (p : poll_in) (fd n : Z) :
  host_ok x → poll_ok x p → x_medium_fd x < 0 → pi_ready p && pi_vhci_err p = false →
  MEDIUM_RECONNECT_MS ≤ u64 (pi_now p - x_last_reconnect x) →
  pi_dial p = Dialled fd (OsBytes n) → zlen (hello_wire (x_node_id x)) ≤ n →
  ∃ x' o, host_iter p x = Ok (tt, x', o ++ [PWrite fd (hello_wire (x_node_id x))]) ∧
    x_medium_fd x' = fd ∧ x_last_reconnect x' = pi_now p ∧ pending_rx [] x' ∧ host_ok x'.
Proof.
  intros Hx Hp Hfd Hrun Ht Hd Hn.
  destruct (offline_prefix (x_node_id x) (x_last_reconnect x) p x Hx Hp) as (y & o & Hy & (Hyf & Hyn & Hyl) & E);
    [done..|].
  unfold host_reconnect in E. rewrite bind_get, when_true, bind_modify in E by (rewrite Hyl; lia).
  rewrite Hd in E. unfold connect_medium in E. rewrite !bind_assoc, bind_get, bind_assoc in E.
  set (y0 := set_x_last_reconnect (pi_now p) y) in E.
  assert (host_ok y0) as Hy0 by by eapply host_ok_ext.
  rewrite bind_local_buf in E by apply hello_fits, Hy0.
  change (x_node_id y0) with (x_node_id y) in E. rewrite Hyn, take_ge in E by (unfold zlen in Hn; lia).
  eexists _, o. split; [exact E|]. split_and!; [done..| |].
  - apply (pending_rx_set (T:=ctx) []). destruct (clok_rx _ Hy) as (d & [_ (Hb & Hz & _)] & _).
    by split_and!; [| |eexists].
  - apply (host_ok_ext (set_rx (cl_rxbuf (x_client y0)) 0 y0)); [exact (set_rx_empty_ok y0 Hy0)|done..].
Qed.

Lemma host_reconnects_witness :
  let x := set_x_medium_fd (-1) demo_host in
  let p := PollIn true false true false (RdBytes [1; 3; 12; 0]) (replicate 556 0) RdAgain 2500
             (Dialled 6 (OsBytes 72)) in
  ∃ x' o, host_iter p x = Ok (tt, x', o ++ [PWrite 6 (hello_wire (x_node_id x))]) ∧
    x_medium_fd x' = 6 ∧ x_last_reconnect x' = 2500 ∧ pending_rx [] x' ∧ host_ok x'.
Proof.
  apply (host_reconnects (set_x_medium_fd (-1) demo_host)
    (PollIn true false true false (RdBytes [1; 3; 12; 0]) (replicate 556 0) RdAgain 2500
       (Dialled 6 (OsBytes 72))) 6 72); try reflexivity; try done.
  - apply (host_ok_ext demo_host); [|done..]. apply demo_host_ok.
  - split; [cbn; bytes|split; [apply bytes_ok_replicate|done]|done].
Defined.
