(* ===== verification/HostStart.v ===== *)
(** * Start-up of vbt-controller (src/vbt_controller.c: [main])

    The options, the derived address, and the exit status; [host_program] is
    the whole of [main]. *)

From Stdlib Require Import String ZArith Lia.
From stdpp Require Import base list numbers option.
From S2P Require Import Prelude Wire Text Startup LLState LLEmit LLCmd LLAir LLInv Client ClientProps ClientInv.
From S2P Require Import Host HostInv HostProps.

(** ** The options *)

Definition VHCI_PATH : list Z := str "/dev/vhci".

Record host_opts : Type := HostOpts {
  ho_node_id : list Z;
  ho_bdaddr : option (list Z);    (* [bdaddr] if [bdaddr_set] *)
  ho_vhci_path : list Z;
  ho_verbose : bool
}.
Definition host_defaults : host_opts := HostOpts (str "vbt-host") None VHCI_PATH false.

Definition host_option (o : host_opts) (p : opt) : outcome host_opts :=
  let '(c, optarg) := p in
  if c =? 110 then Go (HostOpts (snprintf_arg 64 optarg) (ho_bdaddr o) (ho_vhci_path o) (ho_verbose o))
  else if c =? 98 then
    match parse_addr optarg with
    | Some a => Go (HostOpts (ho_node_id o) (Some a) (ho_vhci_path o) (ho_verbose o))
    | None => Exit 2
    end
  else if c =? 86 then Go (HostOpts (ho_node_id o) (ho_bdaddr o) optarg (ho_verbose o))
  else if c =? 118 then Go (HostOpts (ho_node_id o) (ho_bdaddr o) (ho_vhci_path o) true)
  else usage c.

(** The loop, [if (optind >= argc)], and the medium's path. *)
Definition host_options (l : list opt) (operand : option (list Z)) : outcome (list Z * host_opts) :=
  match getopts host_option host_defaults l with
  | Go o => match operand with Some path => Go (snprintf_arg 108 path, o) | None => Exit 2 end
  | Exit s => Exit s
  end.

Definition host_address (o : host_opts) : list Z := default (derive_bdaddr (ho_node_id o)) (ho_bdaddr o).

(** ** The program *)

(** The exit status, and the context and the calls if it got as far as vhci. *)
Record host_run : Type := HostRun {
  xr_status : Z;
  xr_served : option (ctx * list pev)
}.

(** [alloc]: [vbt_ll_new] finds memory; the rest as in [host_main]. *)
Definition host_program (l : list opt) (operand : option (list Z)) (alloc : bool) (ws : list os_write)
    (fd : Z) (created : bool) (d : dial) (t0 : Z) (ps : list poll_in) : res host_run :=
  match host_options l operand with
  | Exit s => Ok (HostRun s None)
  | Go (_, o) =>
      if negb alloc then Ok (HostRun 1 None)
      else
        match host_main fd created d t0 ps (host_new (ho_node_id o) (host_address o) ws) with
        | Fault f => Fault f
        | Ok (_, x, out) => Ok (HostRun (if (fd <? 0) || negb created then 1 else 0) (Some (x, out)))
        end
  end.

(** ** What the options come to *)

Definition host_ends (p : opt) : option Z :=
  if (p.1 =? 110) || (p.1 =? 86) || (p.1 =? 118) then None
  else if p.1 =? 98 then match parse_addr p.2 with Some _ => None | None => Some 2 end
  else Some (if p.1 =? 104 then 0 else 2).

Lemma host_option_ends o p :
  match host_ends p with Some s => host_option o p = Exit s | None => ∃ o', host_option o p = Go o' end.
Proof.
  destruct p as [c arg]. unfold host_ends, host_option, usage. cbn [fst snd].
  destruct (Z.eqb_spec c 110) as [->|]; [by eexists|]. destruct (Z.eqb_spec c 98) as [->|].
  { cbn. destruct (parse_addr arg); [by eexists|done]. }
  destruct (c =? 86); [by eexists|]. destruct (c =? 118); [by eexists|]. done.
Qed.

(** The last [--node-id] and the last [--bdaddr] count. *)
Lemma host_settle l :
  first_end host_ends l = None →
  let o := foldl (settle host_option) host_defaults l in
  ho_node_id o = match last_arg 110 l with Some s => snprintf_arg 64 s | None => str "vbt-host" end ∧
  ho_bdaddr o = last_arg 98 l ≫= parse_addr.
Proof.
  induction l as [|p l IH] using rev_ind; intros Hl; [done|].
  unfold first_end in *. rewrite omap_app in Hl. rewrite foldl_app.
  destruct (omap host_ends l) as [|s ss]; [|done]. destruct IH as [En Eb]; [done|]. cbn in Hl.
  set (o0 := foldl (settle host_option) host_defaults l) in *.
  destruct p as [c arg]. rewrite !last_arg_snoc. cbn [fst snd foldl].
  unfold settle, host_option. unfold host_ends in Hl. cbn [fst snd] in Hl.
  destruct (Z.eqb_spec c 110) as [->|]; [by rewrite Eb|]. destruct (Z.eqb_spec c 98) as [->|].
  { cbn. destruct (parse_addr arg) eqn:Ep; [|done]. cbn. by rewrite En. }
  destruct (Z.eqb_spec c 86) as [->|]; [by rewrite En, Eb|]. destruct (Z.eqb_spec c 118) as [->|]; [by rewrite En, Eb|].
  by destruct (c =? 104).
Qed.

(** The configuration of [host_config], from the options. *)
Lemma host_options_config l path :
  first_end host_ends l = None →
  ∃ o, host_options l (Some path) = Go (snprintf_arg 108 path, o) ∧
    host_config (last_arg 110 l) (last_arg 98 l) = Some (ho_node_id o, host_address o).
Proof.
  intros Hl. unfold host_options. rewrite (getopts_settle _ _ host_option_ends), Hl.
  eexists. split; [done|]. destruct (host_settle l Hl) as [En Eb]. unfold host_address, host_config. rewrite En, Eb.
  destruct (last_arg 98 l) as [s|] eqn:Es; [|done]. cbn.
  destruct (parse_addr s) as [a|] eqn:Ea; [done|].
  pose proof (first_end_None _ _ _ Hl (last_arg_elem _ _ _ Es)) as Hend.
  unfold host_ends in Hend. cbn in Hend. by rewrite Ea in Hend.
Qed.

(** C26: vbt-controller's [main] always ends in a defined way, as long as the host
    and the hub send bytes and no frame from the hub carries more than 30 bytes
    of advertising data (with 31, which is legal, [report_adv] overruns its
    array, see [report_adv_overflow]).  Whatever the command line holds, [-h] ends it with status 0 and a malformed address, an
    unknown option or a missing socket path with status 2, whichever comes
    first; otherwise the last of each option counts, the address is the given
    one or derived from the node id, and it ends with status 1 if memory or
    vhci are not to be had and 0 if they are, with a well-formed context. *)
Theorem host_program_ends (l : list opt) (operand : option (list Z)) (alloc : bool) (ws : list os_write)
    (fd : Z) (created : bool) (d : dial) (t0 : Z) (ps : list poll_in) :
  Forall (λ p, bytes_ok p.2) l →
  (∀ nid bd x o, host_config (last_arg 110 l) (last_arg 98 l) = Some (nid, bd) →
     host_entry fd d t0 (host_new nid bd ws) = Ok (tt, x, o) → host_polls_ok ps x) →
  ∃ r, host_program l operand alloc ws fd created d t0 ps = Ok r ∧
    match first_end host_ends l, operand with
    | Some s, _ => r = HostRun s None
    | None, None => r = HostRun 2 None
    | None, Some _ =>
        (∃ nid bd, host_config (last_arg 110 l) (last_arg 98 l) = Some (nid, bd) ∧ zlen nid ≤ 63 ∧ addr_ok bd) ∧
        match xr_served r with
        | None => alloc = false ∧ xr_status r = 1
        | Some (x, _) => host_ok x ∧ xr_status r = if (fd <? 0) || negb created then 1 else 0
        end
    end.
Proof.
  intros Hb Hps. unfold host_program. destruct (first_end host_ends l) as [s|] eqn:Hl.
  { unfold host_options. rewrite (getopts_settle _ _ host_option_ends), Hl. by eexists. }
  destruct operand as [path|].
  2: { unfold host_options. rewrite (getopts_settle _ _ host_option_ends), Hl. by eexists. }
  destruct (host_options_config l path Hl) as (o & -> & Hcfg).
  assert (arg_ok (last_arg 110 l)) as Harg.
  { destruct (last_arg 110 l) as [s|] eqn:Es; [|done]. apply last_arg_elem in Es.
    rewrite list.Forall_forall in Hb. exact (Hb _ Es). }
  assert (∃ nid bd, host_config (last_arg 110 l) (last_arg 98 l) = Some (nid, bd) ∧ zlen nid ≤ 63 ∧ addr_ok bd) as Hex.
  { destruct (host_config_ok _ _ _ _ Harg Hcfg) as (? & ? & ?). eauto. }
  destruct alloc; cbn [negb]; [|by eexists].
  destruct (host_main_safe _ _ _ _ ws fd created d t0 ps Harg Hcfg) as (x & out & E & Hx); [eauto|].
  rewrite E. by eexists.
Qed.

Lemma host_program_ends_witness :
  ∃ r, host_program [(110, str "lab"); (118, [])] (Some (str "/run/vbt")) true [] 3 true
      (Dialled 4 (OsBytes 14)) 7 [demo_poll] = Ok r ∧
    (∃ nid bd, host_config (Some (str "lab")) None = Some (nid, bd) ∧ zlen nid ≤ 63 ∧ addr_ok bd) ∧
    match xr_served r with
    | None => true = false ∧ xr_status r = 1
    | Some (x, _) => host_ok x ∧ xr_status r = 0
    end.
Proof.
  apply (host_program_ends [(110, str "lab"); (118, [])] (Some (str "/run/vbt")) true [] 3 true
    (Dialled 4 (OsBytes 14)) 7 [demo_poll]).
  - apply (bool_decide_eq_true_1 _). vm_compute. reflexivity.
  - intros nid bd x o _ _. split; [apply demo_poll_ok|done].
Defined.
