(* ===== verification/HostEnd.v ===== *)
(** * vbt-controller is an end of the air

    The host's packets are reads on vhci, what arrives there are writes on it;
    it takes any number of them. *)

From Stdlib Require Import String ZArith Lia.
From stdpp Require Import base list numbers option.
From S2P Require Import Prelude Wire Framing Text LLState LLEmit LLCmd LLAir LLInv LLProps.
From S2P Require Import Client ClientProps ClientInv SendProps Endpoint Host HostInv.

(** The socket is open and takes what is written. *)
Record attached (x : ctx) : Prop := Attached {
  at_fd : 0 ≤ x_medium_fd x;
  at_writes : Forall willing (x_writes x)
}.

#[export] Instance host_end_ops : EndpointOps ctx := {
  ep_fd := x_medium_fd;
  ep_open := attached;
  ep_takes _ _ := True;
  ep_give segs stale := vhci_readable (RdBytes (concat segs)) stale;
  ep_tick now _ := host_tick now;
  ep_due now x := TICK_MS ≤ u64 (now - x_last_tick x);
  ep_dial := connect_medium;
  ep_name := x_node_id;
  ep_idle _ := True
}.

(** Contexts with the same socket and write results. *)
Lemma host_goes n x x' :
  x_medium_fd x' = x_medium_fd x → x_writes x' = x_writes x → goes n x x'.
Proof. intros Hf Hw. split; [done| |done]. intros []. split; congruence. Qed.

Lemma host_air hdr pdu x :
  attached x → frame_ok hdr pdu →
  ∃ x' cs, cb_pdu_to_medium hdr pdu x = Ok (tt, x', map (PWrite (x_medium_fd x)) cs) ∧
    concat cs = frame_bytes hdr pdu ∧ goes 0 x x'.
Proof.
  intros [Hfd Hw] Hf. destruct (willing_sends (x_writes x) (frame_bytes hdr pdu) Hw) as (cs & ws & Es & Hcs & Hws).
  eexists _, cs. split; [exact (cb_pdu_to_medium_run _ _ x Hfd Hf _ _ _ Es)|]. split; [done|]. by split.
Qed.

Lemma host_give segs stale x :
  concat segs ≠ [] → zlen (concat segs) ≤ VBT_MAX_MSG_SIZE →
  vhci_readable (RdBytes (concat segs)) stale x =
    core (hci_core (concat segs) stale) (set_x_hci_in (u64 (x_hci_in x + 1)) x).
Proof.
  intros Hne Hl. unfold vhci_readable, hci_core. destruct (concat segs) as [|b l]; [done|].
  rewrite take_ge by (change VBT_MAX_MSG_SIZE with 556 in *; unfold zlen in *; lia). by rewrite bind_modify.
Qed.

#[export] Instance host_end : Endpoint ctx.
Proof.
  split.
  - intros c x. by apply host_goes.
  - done.
  - exact host_air.
  - intros pkt x _ _. eexists _, _. split; [done|]. split_and!; [done..|]. by apply host_goes.
  - intros segs stale x Hne Hl _. exists (set_x_hci_in (u64 (x_hci_in x + 1)) x).
    split; [done|]. split; [by apply host_goes|]. intros t1 o E. exists []. split; [|done].
    cbn [ep_give host_end_ops]. by rewrite host_give, E, app_nil_r.
  - intros now now' x Hd. exists x. split; [done|]. split; [apply goes_refl|]. intros t1 o E _.
    exists (set_x_last_tick now t1), []. split_and!; [|done|by apply host_goes|done].
    cbn [ep_tick host_end_ops]. unfold host_tick. cbn in Hd.
    by rewrite bind_get, when_true, (bind_ok _ _ _ _ _ _ E) by lia.
  - intros fd n x _ Hx Hn. cbn [ep_name host_end_ops] in Hn. eexists _, [PWrite fd (hello_wire (x_node_id x))].
    split; [|split; [apply sent_one|]].
    + cbn [ep_dial host_end_ops]. unfold connect_medium. rewrite bind_get, bind_local_buf by by apply hello_fits.
      rewrite take_ge by (unfold zlen in Hn; lia). reflexivity.
    + done.
  - intros x [Hx _]. exact Hx.
Qed.

(** ** A host bridge on the medium *)

Definition demo_ctx (fd : Z) (nid : string) (ll : vbt_ll) (ws : list os_write) : ctx :=
  set_x_client (zero_client ll) (set_x_medium_fd fd (set_x_vhci_fd 3 (host_new (str nid) (replicate 6 0) ws))).

Lemma demo_ctx_rx fd nid ll ws : pending_rx [] (demo_ctx fd nid ll ws).
Proof. split; [done|]. split_and!; [apply bytes_ok_replicate|done|by eexists]. Qed.
Lemma demo_ctx_ok fd ll ws nid :
  ll_ok ll → zlen (str nid) ≤ 63 → bytes_ok (str nid) → host_ok (demo_ctx fd nid ll ws).
Proof.
  intros Hll Hn Hb. split; [by split|done|]. exists []. split; [|done]. apply demo_ctx_rx.
Qed.
Lemma demo_ctx_open fd nid ll ws : 0 ≤ fd → Forall willing ws → attached (demo_ctx fd nid ll ws).
Proof. by split. Qed.
