(* ===== verification/Ring.v ===== *)
(** * The backlog toward the guest (src/vbt_vhost_user.c,
      src/src/vbt_virtio.c)

    Both virtio transports keep the HCI packets the guest has no buffer for in
    an array of [PENDING_MAX] slots with two free-running 32-bit counters.
    The array is a bounded first-in-first-out queue, also when the counters
    wrap around.  The scatter/gather copies of vbt_vhost_user.c are here as
    well. *)

From stdpp Require Import base list numbers option.
From Stdlib Require Import ZArith Lia.
From S2P Require Import Prelude Wire.

Definition PENDING_MAX : Z := 256.

Record pending_pkt : Type := Pkt { pk_data : list Z; pk_len : Z }.
Record ring : Type := Ring {
  pending : list pending_pkt;
  pend_head : Z;
  pend_tail : Z
}.

(** [pend_tail - pend_head] *)
Definition ring_count (r : ring) : Z := u32 (pend_tail r - pend_head r).
Definition ring_is_empty (r : ring) : bool := pend_head r =? pend_tail r.
Definition ring_is_full (r : ring) : bool := PENDING_MAX <=? ring_count r.
Definition ring_slot (c : Z) : nat := Z.to_nat (c mod PENDING_MAX).

(** The packet at the head, and stepping over it. *)
Definition ring_front {S W} (r : ring) : cmd S W pending_pkt :=
  match pending r !! ring_slot (pend_head r) with
  | Some p => mret p
  | None => fail OobRead
  end.
Definition ring_advance (r : ring) : ring :=
  Ring (pending r) (u32 (pend_head r + 1)) (pend_tail r).

(** [memcpy(p->data, pkt, len); p->len = len; pend_tail++] *)
Definition pkt_store (pkt : list Z) (p : pending_pkt) : pending_pkt :=
  Pkt (splice 0 pkt (pk_data p)) (u32 (zlen pkt)).
Definition ring_put {S W} (pkt : list Z) (r : ring) : cmd S W ring :=
  pkt ← local_buf VBT_MAX_MSG_SIZE pkt;
  match pending r !! ring_slot (pend_tail r) with
  | Some p =>
      mret (Ring (<[ring_slot (pend_tail r) := pkt_store pkt p]> (pending r)) (pend_head r)
              (u32 (pend_tail r + 1)))
  | None => fail OobWrite
  end.

(** A packet the core hands over: dropped when it is too long or the array
    is full ([None]), queued otherwise. *)
Definition ring_offer {S W} (pkt : list Z) (r : ring) : cmd S W (option ring) :=
  if VBT_MAX_MSG_SIZE <? zlen pkt then mret None
  else if ring_is_full r then mret None
  else r' ← ring_put pkt r; mret (Some r').

(** One round of the flush loop, seen from the array: nothing when it is
    empty, the oldest packet otherwise. *)
Definition ring_round {S W} (r : ring) : cmd S W (option (pending_pkt * ring)) :=
  if ring_is_empty r then mret None
  else p ← ring_front r; mret (Some (p, ring_advance r)).

(** [pend_head = pend_tail = 0] *)
Definition ring_reset (r : ring) : ring := Ring (pending r) 0 0.
Definition ring_zero : ring :=
  Ring (replicate (Z.to_nat PENDING_MAX) (Pkt (replicate (Z.to_nat VBT_MAX_MSG_SIZE) 0) 0)) 0 0.

(** ** Scatter/gather *)

(** The pieces copied from the guest's segments, at most [max] bytes, and the
    number of bytes. *)
Fixpoint iov_to_buf_loop (iov : list (list Z)) (max off : Z) : list Z * Z :=
  match iov with
  | [] => ([], off)
  | s :: iov =>
      if off <? max then
        let c := if max - off <? zlen s then max - off else zlen s in
        let '(d, n) := iov_to_buf_loop iov max (off + c) in
        (slice 0 c s ++ d, n)
      else ([], off)
  end.
Definition iov_to_buf (iov : list (list Z)) (max : Z) : list Z * Z := iov_to_buf_loop iov max 0.

(** The segments are given by their lengths; the bytes put into them and
    their number. *)
Fixpoint iov_from_buf_loop (iov : list Z) (buf : list Z) (len off : Z) : list Z * Z :=
  match iov with
  | [] => ([], off)
  | s :: iov =>
      if off <? len then
        let c := if len - off <? s then len - off else s in
        let '(d, n) := iov_from_buf_loop iov buf len (off + c) in
        (slice off c buf ++ d, n)
      else ([], off)
  end.
Definition iov_from_buf (iov : list Z) (buf : list Z) (len : Z) : list Z * Z :=
  iov_from_buf_loop iov buf len 0.

Definition iov_size (iov : list Z) : Z := foldr Z.add 0 iov.

Lemma iov_size_nonneg iov : Forall (Z.le 0) iov → 0 ≤ iov_size iov.
Proof. induction 1; cbn; [done|]. unfold iov_size in *. lia. Qed.

(** What [iov_to_buf] gathers is the start of the segments put together. *)
Lemma iov_to_buf_loop_spec iov max off :
  0 ≤ off ≤ max →
  iov_to_buf_loop iov max off =
    (take (Z.to_nat (max - off)) (concat iov), off + Z.min (max - off) (zlen (concat iov))).
Proof.
  revert off. induction iov as [|s iov IH]; intros off Hoff; cbn [iov_to_buf_loop concat].
  { rewrite take_nil. f_equal. change (zlen []) with 0. lia. }
  rewrite zlen_app. pose proof (zlen_nonneg s). pose proof (zlen_nonneg (concat iov)).
  destruct (off <? max) eqn:E.
  - destruct (max - off <? zlen s) eqn:E2; rewrite IH by lia.
    + replace (max - (off + (max - off))) with 0 by lia. f_equal; [|lia].
      change (take (Z.to_nat 0) (concat iov)) with (@nil Z). rewrite app_nil_r.
      unfold slice. cbn [drop Z.to_nat]. rewrite take_app_le by (unfold zlen in *; lia). done.
    + f_equal; [|lia]. rewrite slice_all by done.
      rewrite take_app_ge by (unfold zlen in *; lia). f_equal. f_equal. unfold zlen in *. lia.
  - assert (off = max) as -> by lia. rewrite Z.sub_diag. f_equal. lia.
Qed.

(** What [iov_from_buf] scatters is the start of the buffer. *)
Lemma iov_from_buf_loop_spec iov buf len off :
  Forall (Z.le 0) iov → 0 ≤ off ≤ len → len ≤ zlen buf →
  iov_from_buf_loop iov buf len off =
    (slice off (Z.min (len - off) (iov_size iov)) buf, off + Z.min (len - off) (iov_size iov)).
Proof.
  intros Hiov. revert off. induction Hiov as [|s iov Hs Hiov IH]; intros off Hoff Hlen;
    cbn [iov_from_buf_loop].
  { change (iov_size []) with 0. rewrite Z.min_r by lia. f_equal. lia. }
  pose proof (iov_size_nonneg _ Hiov) as Hn. change (iov_size (s :: iov)) with (s + iov_size iov).
  destruct (off <? len) eqn:E.
  - set (c := if len - off <? s then len - off else s).
    assert (0 ≤ c ≤ len - off ∧ Z.min (len - off) (s + iov_size iov) =
      c + Z.min (len - (off + c)) (iov_size iov)) as [Hc ->].
    { unfold c. destruct (len - off <? s) eqn:E2; lia. }
    rewrite IH by lia. f_equal; [|lia]. unfold slice.
    set (m := Z.min _ _). assert (0 ≤ m) by lia.
    rewrite (Z2Nat.inj_add c m), <- take_take_drop, drop_drop by lia. do 3 f_equal. lia.
  - assert (off = len) as -> by lia. rewrite Z.sub_diag, Z.min_l by lia. f_equal. lia.
Qed.
