(* ===== verification/RingProps.v ===== *)
(** * The backlog is a bounded queue *)

From stdpp Require Import base list numbers option.
From Stdlib Require Import ZArith Lia.
From S2P Require Import Prelude Wire Ring.

Record pkt_ok (p : pending_pkt) : Prop := PktOk {
  pkok_data : zlen (pk_data p) = VBT_MAX_MSG_SIZE;
  pkok_len : 0 ≤ pk_len p ≤ VBT_MAX_MSG_SIZE
}.
Record ring_ok (r : ring) : Prop := RingOk {
  rok_size : zlen (pending r) = PENDING_MAX;
  rok_head : is_u32 (pend_head r);
  rok_tail : is_u32 (pend_tail r);
  rok_count : ring_count r ≤ PENDING_MAX;
  rok_pkts : Forall pkt_ok (pending r)
}.

(** The bytes of a packet, and the packets waiting, oldest first. *)
Definition pkt_bytes (p : pending_pkt) : list Z := slice 0 (pk_len p) (pk_data p).
Definition slots_from (l : list pending_pkt) (head : Z) (n : nat) : list (list Z) :=
  map (λ k, default [] (pkt_bytes <$> l !! ring_slot (head + Z.of_nat k))) (seq 0 n).
Definition ring_list (r : ring) : list (list Z) :=
  slots_from (pending r) (pend_head r) (Z.to_nat (ring_count r)).

Lemma ring_slot_lt c : (ring_slot c < 256)%nat.
Proof. unfold ring_slot, PENDING_MAX. mlia. Qed.
(** The slot of a counter does not see its wrap-around. *)
Lemma ring_slot_u32 c : ring_slot (u32 c) = ring_slot c.
Proof. unfold ring_slot, PENDING_MAX, u32. f_equal. apply Z.mod_mod_divide. by exists 16777216. Qed.
Lemma ring_slot_inj a b : ring_slot a = ring_slot b → a mod 256 = b mod 256.
Proof. unfold ring_slot, PENDING_MAX. mlia. Qed.

Lemma ring_count_range r : 0 ≤ ring_count r < 4294967296.
Proof. unfold ring_count. mlia. Qed.
Lemma ring_empty_count r : ring_ok r → ring_is_empty r = (ring_count r =? 0).
Proof.
  intros [_ Hh Ht _ _]. unfold ring_is_empty, ring_count.
  apply eq_true_iff_eq. rewrite !Z.eqb_eq. mlia.
Qed.

Lemma length_ring_list r : length (ring_list r) = Z.to_nat (ring_count r).
Proof. unfold ring_list, slots_from. by rewrite length_map, length_seq. Qed.

Lemma slot_pkt r c : ring_ok r → ∃ p, pending r !! ring_slot c = Some p ∧ pkt_ok p.
Proof.
  intros Hr. destruct (lookup_lt_is_Some_2 (pending r) (ring_slot c)) as [p Hp].
  { pose proof (ring_slot_lt c). pose proof (rok_size _ Hr) as Hs. unfold zlen, PENDING_MAX in Hs. lia. }
  exists p. split; [done|]. by eapply (Forall_lookup_1 _ _ _ _ (rok_pkts _ Hr)).
Qed.

Lemma slots_from_succ l head n :
  slots_from l head (S n) =
    default [] (pkt_bytes <$> l !! ring_slot head) :: slots_from l (u32 (head + 1)) n.
Proof.
  unfold slots_from. cbn [seq map]. f_equal; [by rewrite Z.add_0_r|].
  rewrite <- seq_shift, map_map. apply map_ext. intros k.
  assert (ring_slot (head + Z.of_nat (S k)) = ring_slot (u32 (head + 1) + Z.of_nat k)) as ->; [|done].
  rewrite <- (ring_slot_u32 (u32 (head + 1) + _)), <- ring_slot_u32. f_equal. mlia.
Qed.

(** Taking the oldest packet. *)
Lemma ring_take_spec {St W} r (s : St) :
  ring_ok r → ring_is_empty r = false →
  ∃ p q, ring_front (W:=W) r s = Ok (p, s, []) ∧ pkt_ok p ∧ ring_list r = pkt_bytes p :: q ∧
    ring_list (ring_advance r) = q ∧ ring_ok (ring_advance r).
Proof.
  intros Hr Hne. rewrite ring_empty_count in Hne by done.
  destruct (slot_pkt r (pend_head r) Hr) as (p & Hp & Hpok).
  pose proof (ring_count_range r). pose proof (rok_count _ Hr) as Hc.
  assert (ring_count (ring_advance r) = ring_count r - 1) as Hc'.
  { unfold ring_count in *. cbn [pend_head pend_tail ring_advance]. pose proof (rok_head _ Hr).
    pose proof (rok_tail _ Hr). mlia. }
  exists p, (ring_list (ring_advance r)). split_and!; [|done| |done|].
  - unfold ring_front. by rewrite Hp.
  - unfold ring_list. rewrite Hc'. cbn [pending pend_head ring_advance].
    replace (Z.to_nat (ring_count r)) with (S (Z.to_nat (ring_count r - 1))) by lia.
    rewrite slots_from_succ, Hp. done.
  - destruct Hr. split; cbn; auto with vbt. lia.
Qed.

Lemma slots_from_insert l head n i p :
  (i < length l)%nat → (∀ k, (k < n)%nat → ring_slot (head + Z.of_nat k) ≠ i) →
  slots_from (<[i := p]> l) head n = slots_from l head n.
Proof.
  intros Hi Hk. unfold slots_from. apply map_ext_in. intros k [_ Hlt]%in_seq.
  rewrite list_lookup_insert_ne; [done|]. intros E. by apply (Hk k); [lia|].
Qed.

Lemma slots_from_snoc l head n :
  slots_from l head (S n) =
    slots_from l head n ++ [default [] (pkt_bytes <$> l !! ring_slot (head + Z.of_nat n))].
Proof. unfold slots_from. by rewrite seq_S, map_app. Qed.

(** Appending a packet. *)
Lemma ring_put_spec {St W} pkt r (s : St) :
  ring_ok r → ring_is_full r = false → zlen pkt ≤ VBT_MAX_MSG_SIZE →
  ∃ r', ring_put (W:=W) pkt r s = Ok (r', s, []) ∧ ring_list r' = ring_list r ++ [pkt] ∧ ring_ok r'.
Proof.
  intros Hr Hf Hl. unfold ring_put. rewrite bind_local_buf by done.
  destruct (slot_pkt r (pend_tail r) Hr) as (p & Hp & [Hpd Hpl]). rewrite Hp.
  unfold ring_is_full in Hf. pose proof (ring_count_range r) as Hcr.
  pose proof (rok_head _ Hr) as Hh. pose proof (rok_tail _ Hr) as Ht. pose proof (zlen_nonneg pkt) as Hz.
  change VBT_MAX_MSG_SIZE with 556 in *.
  set (r' := Ring _ _ _). exists r'. split; [done|].
  assert (ring_count r' = ring_count r + 1) as Hc'.
  { unfold ring_count, r', PENDING_MAX in *. cbn [pend_head pend_tail]. mlia. }
  assert (u32 (pend_head r + ring_count r) = pend_tail r) as Htl.
  { unfold ring_count. mlia. }
  assert (pkt_ok (pkt_store pkt p) ∧ pkt_bytes (pkt_store pkt p) = pkt) as [Hok Hbytes].
  { unfold pkt_store. rewrite u32_small by mlia. split.
    - split; cbn [pk_data pk_len]; [rewrite zlen_splice by lia; done|done].
    - unfold pkt_bytes, splice. cbn [pk_data pk_len Z.to_nat]. rewrite take_0. cbn [app]. apply slice_app_exact. }
  split.
  - unfold ring_list. rewrite Hc'. replace (Z.to_nat (ring_count r + 1)) with (S (Z.to_nat (ring_count r))) by lia.
    rewrite slots_from_snoc. cbn [pending pend_head r']. f_equal.
    + apply slots_from_insert; [by eapply lookup_lt_Some|]. intros k Hk E%ring_slot_inj.
      pose proof (rok_count _ Hr) as Hcm. unfold PENDING_MAX in *.
      rewrite <- Htl in E. clear - Hk E Hcr Hcm Hf Hh. mlia.
    + do 2 f_equal. rewrite <- ring_slot_u32, Z2Nat.id, Htl by lia.
      rewrite list_lookup_insert_eq by by eapply lookup_lt_Some. cbn. done.
  - destruct Hr. split; cbn [pending pend_head pend_tail r']; auto with vbt.
    + unfold zlen in *. by rewrite length_insert.
    + unfold PENDING_MAX in *. lia.
    + by apply Forall_insert.
Qed.

Lemma ring_offer_spec {St W} pkt r (s : St) :
  ring_ok r →
  (∃ r', ring_offer (W:=W) pkt r s = Ok (Some r', s, []) ∧ ring_list r' = ring_list r ++ [pkt] ∧
     ring_ok r' ∧ zlen pkt ≤ VBT_MAX_MSG_SIZE ∧ (length (ring_list r) < 256)%nat) ∨
  (ring_offer (W:=W) pkt r s = Ok (None, s, []) ∧
     (VBT_MAX_MSG_SIZE < zlen pkt ∨ length (ring_list r) = 256%nat)).
Proof.
  intros Hr. pose proof (length_ring_list r) as Hl. pose proof (rok_count _ Hr) as Hc.
  pose proof (ring_count_range r). unfold ring_offer, PENDING_MAX in *.
  destruct (VBT_MAX_MSG_SIZE <? zlen pkt) eqn:E1; [right; split; [done|left; lia]|].
  destruct (ring_is_full r) eqn:E2; unfold ring_is_full, PENDING_MAX in E2.
  - right. split; [done|]. right. lia.
  - left. destruct (ring_put_spec (W:=W) pkt r s Hr) as (r' & E & Hlist & Hok); [done|lia|].
    exists r'. split_and!; [by rewrite (bind_silent _ _ _ _ _ E)|done|done|lia|lia].
Qed.

Lemma ring_round_spec {St W} r (s : St) :
  ring_ok r →
  (ring_list r = [] ∧ ring_is_empty r = true ∧ ring_round (W:=W) r s = Ok (None, s, [])) ∨
  (∃ p r', ring_list r = pkt_bytes p :: ring_list r' ∧ pkt_ok p ∧ ring_ok r' ∧
     r' = ring_advance r ∧ ring_is_empty r = false ∧ ring_front (W:=W) r s = Ok (p, s, []) ∧
     ring_round (W:=W) r s = Ok (Some (p, r'), s, [])).
Proof.
  intros Hr. unfold ring_round. destruct (ring_is_empty r) eqn:E.
  - left. split_and!; [|done|done]. apply length_zero_iff_nil. rewrite length_ring_list.
    rewrite ring_empty_count in E by done. lia.
  - right. destruct (ring_take_spec (W:=W) r s Hr E) as (p & q & Hf & Hp & Hl & <- & Hr').
    exists p, (ring_advance r). split_and!; try done. by rewrite (bind_silent _ _ _ _ _ Hf).
Qed.

(** ** Refinement *)

Inductive queue_op : Type := QPut (pkt : list Z) | QTake.

(** What the array does, and what a queue of at most 256 packets does: the
    packet taken, if one is. *)
Definition ring_op (op : queue_op) : cmd ring unit (option (list Z)) :=
  r ← get;
  match op with
  | QPut pkt =>
      r' ← ring_offer pkt r;
      match r' with Some r' => modify (λ _, r');; mret None | None => mret None end
  | QTake =>
      x ← ring_round r;
      match x with Some (p, r') => modify (λ _, r');; mret (Some (pkt_bytes p)) | None => mret None end
  end.
Definition fifo_op (op : queue_op) (q : list (list Z)) : option (list Z) * list (list Z) :=
  match op with
  | QPut pkt =>
      if decide (zlen pkt ≤ VBT_MAX_MSG_SIZE ∧ (length q < 256)%nat) then (None, q ++ [pkt]) else (None, q)
  | QTake => match q with [] => (None, []) | x :: q => (Some x, q) end
  end.

Fixpoint ring_ops (ops : list queue_op) : cmd ring unit (list (option (list Z))) :=
  match ops with
  | [] => mret []
  | op :: ops => a ← ring_op op; l ← ring_ops ops; mret (a :: l)
  end.
Fixpoint fifo_ops (ops : list queue_op) (q : list (list Z)) :
    list (option (list Z)) * list (list Z) :=
  match ops with
  | [] => ([], q)
  | op :: ops => let '(a, q) := fifo_op op q in let '(l, q) := fifo_ops ops q in (a :: l, q)
  end.

Lemma ring_op_refines op r :
  ring_ok r → ∃ a r', ring_op op r = Ok (a, r', []) ∧ ring_ok r' ∧
    fifo_op op (ring_list r) = (a, ring_list r').
Proof.
  intros Hr. unfold ring_op. rewrite bind_get. destruct op as [pkt|].
  - destruct (ring_offer_spec (W:=unit) pkt r r Hr) as [(r' & E & Hl & Hok & ? & ?)|[E Hno]];
      rewrite (bind_silent _ _ _ _ _ E); cbn [fifo_op].
    + exists None, r'. split_and!; [done..|]. rewrite decide_True by lia. by rewrite Hl.
    + exists None, r. split_and!; [done..|]. rewrite decide_False; [done|].
      change VBT_MAX_MSG_SIZE with 556 in *. lia.
  - destruct (ring_round_spec (W:=unit) r r Hr) as [(Hl & _ & E)|(p & r' & Hl & _ & Hok & _ & _ & _ & E)];
      rewrite (bind_silent _ _ _ _ _ E), Hl; cbn [fifo_op].
    + exists None, r. by rewrite Hl.
    + by exists (Some (pkt_bytes p)), r'.
Qed.

(** C30: the backlog of the virtio transports is a first-in-first-out queue of
    at most 256 packets: every sequence of packets offered and taken gives
    exactly the packets a queue would give, from every well-formed state of
    the array, wherever its 32-bit counters stand and also across their
    wrap-around; no access leaves the array. *)
Theorem ring_refines_fifo (ops : list queue_op) (r : ring) :
  ring_ok r →
  ∃ l r', ring_ops ops r = Ok (l, r', []) ∧ ring_ok r' ∧ fifo_ops ops (ring_list r) = (l, ring_list r').
Proof.
  revert r. induction ops as [|op ops IH]; intros r Hr; cbn [ring_ops fifo_ops]; [by exists [], r|].
  destruct (ring_op_refines op r Hr) as (a & r1 & E1 & Hr1 & ->).
  destruct (IH r1 Hr1) as (l & r2 & E2 & Hr2 & ->). exists (a :: l), r2.
  split_and!; [|done..]. by rewrite (bind_silent _ _ _ _ _ E1), (bind_silent _ _ _ _ _ E2).
Qed.

(** An array whose counters are about to wrap around. *)
Definition wrap_ring : ring := Ring (pending ring_zero) 4294967295 4294967295.
Lemma wrap_ring_ok : ring_ok wrap_ring.
Proof. split; [done|done|done|vm_compute; done|]. apply Forall_replicate. by split. Qed.

Lemma ring_refines_fifo_witness :
  ∃ l r', ring_ops [QPut [1; 2]; QPut [3]; QTake; QTake; QTake] wrap_ring = Ok (l, r', []) ∧
    ring_ok r' ∧ fifo_ops [QPut [1; 2]; QPut [3]; QTake; QTake; QTake] (ring_list wrap_ring) = (l, ring_list r').
Proof. apply ring_refines_fifo, wrap_ring_ok. Defined.

Lemma ring_list_nil r : ring_ok r → ring_list r = [] → ring_is_empty r = true.
Proof.
  intros Hr He. rewrite ring_empty_count by done. pose proof (length_ring_list r) as Hl. rewrite He in Hl.
  pose proof (ring_count_range r). cbn in Hl. lia.
Qed.

(** ** The buffers a guest supplies *)

(** The next [k] elements popped are there and hold any packet. *)
Definition buffers (k : nat) (pops : list (option (list Z))) : Prop :=
  ∃ iovs rest, pops = map Some iovs ++ rest ∧ length iovs = k ∧
    Forall (λ iov, VBT_MAX_MSG_SIZE ≤ iov_size iov) iovs.

Lemma buffers_le j k pops : (j ≤ k)%nat → buffers k pops → buffers j pops.
Proof.
  intros Hj (iovs & rest & -> & Hl & Hb). exists (take j iovs), (map Some (drop j iovs) ++ rest). split_and!.
  - by rewrite app_assoc, <- map_app, take_drop.
  - rewrite length_take. lia.
  - by apply Forall_take.
Qed.
Lemma buffers_first k pops :
  buffers (S k) pops → ∃ iov rest, pops = Some iov :: rest ∧ VBT_MAX_MSG_SIZE ≤ iov_size iov ∧ buffers k rest.
Proof.
  intros (iovs & rest & -> & Hl & Hb). destruct iovs as [|iov iovs]; [done|].
  apply Forall_cons_1 in Hb as [Hi Hb]. injection Hl as Hl. exists iov, (map Some iovs ++ rest).
  split_and!; [done..|]. by exists iovs, rest.
Qed.
