(* ===== verification/Vhost.v ===== *)
(** * The vhost-user back end (src/vbt_vhost_user.c)

    One controller core behind a virtio-bluetooth device of an unmodified
    QEMU.  [vhost] is the static object [g] with [g_running] and the two time
    stamps of [serve_connection].  libvhost-user is not part of the program:
    what it returns is an input ([g_pops], the results of successive
    [vu_queue_pop] calls on the RX queue, each element by the lengths of its
    writable segments; [g_has_rx], whether [vu_get_queue] gives that queue),
    and what it does while it dispatches is an arbitrary sequence of calls
    back into the program ([vu_act]). *)

From Stdlib Require Import String ZArith Lia.
From stdpp Require Import base list numbers option.
From S2P Require Import Prelude Wire Text LLState LLEmit LLCmd LLAir Client Ring.

Definition VIRTIO_F_VERSION_1 : Z := 32.
Definition TX_VQ : Z := 0.
Definition RX_VQ : Z := 1.
Definition MAX_WATCH : Z := 32.
Definition MEDIUM_RECONNECT_MS : Z := 2000.
Definition TICK_MS : Z := 5.

(** A function pointer and its argument are opaque numbers; NULL is 0. *)
Record watch_ent : Type := Watch { w_fd : Z; w_cb : Z; w_data : Z; w_used : bool }.
Definition zero_watch : watch_ent := Watch 0 0 0 false.

Record vhost : Type := Vhost {
  g_client : client;
  g_node_id : list Z;
  g_medium_fd : Z;
  g_medium_connected : bool;
  g_dev_ready : bool;
  g_ring : ring;
  g_watches : list watch_ent;
  g_running : bool;
  g_last_tick : Z;
  g_last_reconnect : Z;
  g_writes : list os_write;
  g_pops : list (option (list Z));
  g_has_rx : bool
}.
Definition set_g_client (v : client) (s : vhost) : vhost :=
  Vhost v (g_node_id s) (g_medium_fd s) (g_medium_connected s) (g_dev_ready s) (g_ring s)
    (g_watches s) (g_running s) (g_last_tick s) (g_last_reconnect s) (g_writes s) (g_pops s)
    (g_has_rx s).
Definition set_g_node_id (v : list Z) (s : vhost) : vhost :=
  Vhost (g_client s) v (g_medium_fd s) (g_medium_connected s) (g_dev_ready s) (g_ring s)
    (g_watches s) (g_running s) (g_last_tick s) (g_last_reconnect s) (g_writes s) (g_pops s)
    (g_has_rx s).
Definition set_g_medium_fd (v : Z) (s : vhost) : vhost :=
  Vhost (g_client s) (g_node_id s) v (g_medium_connected s) (g_dev_ready s) (g_ring s)
    (g_watches s) (g_running s) (g_last_tick s) (g_last_reconnect s) (g_writes s) (g_pops s)
    (g_has_rx s).
Definition set_g_medium_connected (v : bool) (s : vhost) : vhost :=
  Vhost (g_client s) (g_node_id s) (g_medium_fd s) v (g_dev_ready s) (g_ring s) (g_watches s)
    (g_running s) (g_last_tick s) (g_last_reconnect s) (g_writes s) (g_pops s) (g_has_rx s).
Definition set_g_dev_ready (v : bool) (s : vhost) : vhost :=
  Vhost (g_client s) (g_node_id s) (g_medium_fd s) (g_medium_connected s) v (g_ring s)
    (g_watches s) (g_running s) (g_last_tick s) (g_last_reconnect s) (g_writes s) (g_pops s)
    (g_has_rx s).
Definition set_g_ring (v : ring) (s : vhost) : vhost :=
  Vhost (g_client s) (g_node_id s) (g_medium_fd s) (g_medium_connected s) (g_dev_ready s) v
    (g_watches s) (g_running s) (g_last_tick s) (g_last_reconnect s) (g_writes s) (g_pops s)
    (g_has_rx s).
Definition set_g_watches (v : list watch_ent) (s : vhost) : vhost :=
  Vhost (g_client s) (g_node_id s) (g_medium_fd s) (g_medium_connected s) (g_dev_ready s)
    (g_ring s) v (g_running s) (g_last_tick s) (g_last_reconnect s) (g_writes s) (g_pops s)
    (g_has_rx s).
Definition set_g_running (v : bool) (s : vhost) : vhost :=
  Vhost (g_client s) (g_node_id s) (g_medium_fd s) (g_medium_connected s) (g_dev_ready s)
    (g_ring s) (g_watches s) v (g_last_tick s) (g_last_reconnect s) (g_writes s) (g_pops s)
    (g_has_rx s).
Definition set_g_last_tick (v : Z) (s : vhost) : vhost :=
  Vhost (g_client s) (g_node_id s) (g_medium_fd s) (g_medium_connected s) (g_dev_ready s)
    (g_ring s) (g_watches s) (g_running s) v (g_last_reconnect s) (g_writes s) (g_pops s)
    (g_has_rx s).
Definition set_g_last_reconnect (v : Z) (s : vhost) : vhost :=
  Vhost (g_client s) (g_node_id s) (g_medium_fd s) (g_medium_connected s) (g_dev_ready s)
    (g_ring s) (g_watches s) (g_running s) (g_last_tick s) v (g_writes s) (g_pops s)
    (g_has_rx s).
Definition set_g_writes (v : list os_write) (s : vhost) : vhost :=
  Vhost (g_client s) (g_node_id s) (g_medium_fd s) (g_medium_connected s) (g_dev_ready s)
    (g_ring s) (g_watches s) (g_running s) (g_last_tick s) (g_last_reconnect s) v (g_pops s)
    (g_has_rx s).
Definition set_g_pops (v : list (option (list Z))) (s : vhost) : vhost :=
  Vhost (g_client s) (g_node_id s) (g_medium_fd s) (g_medium_connected s) (g_dev_ready s)
    (g_ring s) (g_watches s) (g_running s) (g_last_tick s) (g_last_reconnect s) (g_writes s) v
    (g_has_rx s).
Definition set_g_has_rx (v : bool) (s : vhost) : vhost :=
  Vhost (g_client s) (g_node_id s) (g_medium_fd s) (g_medium_connected s) (g_dev_ready s)
    (g_ring s) (g_watches s) (g_running s) (g_last_tick s) (g_last_reconnect s) (g_writes s)
    (g_pops s) v.

Abbreviation VU := (cmd vhost pev).

(** ** Toward the guest *)

(** One element is popped per packet; the length reported with it is that of
    the packet, whatever fitted. *)
Fixpoint flush_loop (pops : list (option (list Z))) : VU unit :=
  g ← get;
  if ring_is_empty (g_ring g) then skip
  else
    match pops with
    | [] => skip
    | e :: pops =>
        modify (set_g_pops pops);;
        match e with
        | None => skip
        | Some iov =>
            p ← ring_front (g_ring g);
            emit (PPush (fst (iov_from_buf iov (pk_data p) (pk_len p))) (pk_len p));;
            modify (λ g, set_g_ring (ring_advance (g_ring g)) g);;
            flush_loop pops
        end
    end.

Definition flush_pending : VU unit :=
  g ← get;
  if negb (g_dev_ready g) then skip
  else if negb (g_has_rx g) then skip
  else flush_loop (g_pops g);; emit PNotify.

(** ** The callbacks *)

Definition cb_hci_to_host (pkt : list Z) : VU unit :=
  g ← get;
  r ← ring_offer pkt (g_ring g);
  match r with
  | Some r => modify (set_g_ring r);; flush_pending
  | None => skip
  end.

Definition cb_pdu_to_medium (hdr : vbt_frame_hdr) (pdu : list Z) : VU unit :=
  g ← get;
  if negb (g_medium_connected g) || (g_medium_fd g <? 0) then skip
  else
    wire ← local_buf (4 + VBT_MAX_MSG_SIZE) (frame_bytes hdr pdu);
    ok ← send_wire g_writes set_g_writes (g_medium_fd g) wire;
    if ok : bool then skip
    else
      emit (PClose (g_medium_fd g));;
      modify (set_g_medium_fd (-1));;
      modify (set_g_medium_connected false).

(** Frames are not counted. *)
#[export] Instance vhost_transport : Transport vhost := {
  client_of := g_client;
  set_client := set_g_client;
  callback w := match w with
                | ToHost pkt => cb_hci_to_host pkt
                | ToMedium hdr pdu => cb_pdu_to_medium hdr pdu
                end;
  counted _ := false
}.

(** ** Virtqueue handlers *)

(** The elements popped until the queue is empty, each with what the
    uninitialised array [pkt] holds. *)
Definition handle_tx_elem (e : list (list Z) * list Z) : VU unit :=
  let '(d, n) := iov_to_buf (fst e) VBT_MAX_MSG_SIZE in
  when (0 <? n) (core (vbt_ll_hci_from_host (splice 0 d (snd e)) n));;
  emit PUsed.
Definition handle_tx (elems : list (list (list Z) * list Z)) : VU unit :=
  for_each elems handle_tx_elem;;
  emit PNotify.

Definition handle_rx : VU unit := flush_pending.

(** ** The interface to libvhost-user *)

Definition get_features : Z := Z.shiftl 1 VIRTIO_F_VERSION_1.
Definition set_features (features : Z) : VU unit := skip.
(** The bit number is a constant of libvhost-user. *)
Definition get_protocol_features (VHOST_USER_PROTOCOL_F_CONFIG : Z) : Z :=
  Z.shiftl 1 VHOST_USER_PROTOCOL_F_CONFIG.

Definition set_protocol_features (features : Z) : VU unit := skip.

(** [struct virtio_bt_config]: the bytes of the object, all zero. *)
Definition virtio_bt_config : list Z := [0; 0; 0; 0].
Definition get_config (config : list Z) (len : Z) : VU (list Z) :=
  let n := if len <? zlen virtio_bt_config then len else zlen virtio_bt_config in
  if zlen config <? n then fail OobWrite
  else mret (splice 0 (slice 0 n virtio_bt_config) config).

(** [has_vq]: [vu_get_queue] gives the queue.  Setting the handler is an
    effect inside the library. *)
Definition queue_set_started (qidx : Z) (has_vq started : bool) : VU unit :=
  if negb has_vq then skip
  else when (started && (qidx =? RX_VQ)) (modify (set_g_dev_ready true)).

Definition vu_panic : VU unit := modify (set_g_running false).

(** ** Watches *)

Definition watch_for (fd : Z) (w : watch_ent) : bool := w_used w && (w_fd w =? fd).

(** The entry for [fd] if there is one, else the first free one. *)
Definition set_watch (fd cb data : Z) : VU unit :=
  g ← get;
  match find_idx (watch_for fd) (g_watches g) with
  | Some i =>
      modify (set_g_watches (alter (λ w, Watch (w_fd w) cb data (w_used w)) i (g_watches g)))
  | None =>
      match find_idx (λ w, negb (w_used w)) (g_watches g) with
      | Some i => modify (set_g_watches (<[i := Watch fd cb data true]> (g_watches g)))
      | None => skip
      end
  end.

Definition unwatch (fd : Z) (w : watch_ent) : watch_ent :=
  if watch_for fd w then Watch (w_fd w) (w_cb w) (w_data w) false else w.
Definition remove_watch (fd : Z) : VU unit :=
  modify (λ g, set_g_watches (map (unwatch fd) (g_watches g)) g).

(** ** The medium *)

(** [idlen] is cut to 64 bytes, the last of which is the terminator. *)
Definition connect_medium (d : dial) : VU bool :=
  match d with
  | NoSocket => mret false
  | Refused fd => emit (PClose fd);; mret false
  | Dialled fd w =>
      g ← get;
      hb ← local_buf (4 + 4 + 64) (hello_wire (take 63 (g_node_id g)));
      match w with
      | OsBytes n =>
          emit (PWrite fd (take (Z.to_nat n) hb));;
          modify (set_g_medium_fd fd);;
          modify (set_g_medium_connected true);;
          upd_client (λ c, set_cl_rx (cl_rxbuf c) 0 c);;
          mret true
      | _ => emit (PClose fd);; mret false
      end
  end.

Definition medium_readable (r : os_read) : VU unit :=
  g ← get;
  match (if g_medium_fd g <? 0 then RdError else r) with
  | RdBytes (b :: l) => client_input (b :: l)
  | RdAgain => skip
  | _ =>
      emit (PClose (g_medium_fd g));;
      modify (set_g_medium_fd (-1));;
      modify (set_g_medium_connected false)
  end.

(** ** Serving one QEMU connection *)

(** What the library does to the program. *)
Inductive vu_act : Type :=
  | ASetWatch (fd cb data : Z)
  | ARemoveWatch (fd : Z)
  | AQueueStarted (qidx : Z) (has_vq started : bool)
  | ATx (elems : list (list (list Z) * list Z))
  | ARx
  | AGetConfig (config : list Z) (len : Z)
  | ASetFeatures (features : Z)
  | ASetProtocolFeatures (features : Z)
  | APanic.

Definition vu_do (a : vu_act) : VU unit :=
  match a with
  | ASetWatch fd cb data => set_watch fd cb data
  | ARemoveWatch fd => remove_watch fd
  | AQueueStarted q has started => queue_set_started q has started
  | ATx elems => handle_tx elems
  | ARx => handle_rx
  | AGetConfig config len => _ ← get_config config len; skip
  | ASetFeatures features => set_features features
  | ASetProtocolFeatures features => set_protocol_features features
  | APanic => vu_panic
  end.

(** A row of the poll set: [map[k]] is -1, -2 or an index. *)
Inductive row : Type := RowConn | RowMedium | RowWatch (i : nat).

Definition poll_rows (g : vhost) : list row :=
  let fixed := RowConn :: (if 0 <=? g_medium_fd g then [RowMedium] else []) in
  let used := map fst (filter (λ p, w_used (snd p) = true) (imap pair (g_watches g))) in
  fixed ++ map RowWatch (take (Z.to_nat (MAX_WATCH + 3) - length fixed) used).

(** The rows with POLLIN, POLLERR or POLLHUP, and what handling them gives:
    [vp_conn] is what [vu_dispatch] does and returns. *)
Record vu_poll : Type := VuPoll {
  vp_ready : bool;
  vp_conn : option (list vu_act * bool);
  vp_medium : option os_read;
  vp_watch : nat → option (list vu_act);
  vp_now : Z;
  vp_dial : dial
}.

(** The result is [false] when the connection is over. *)
Fixpoint serve_rows (p : vu_poll) (rows : list row) : VU bool :=
  match rows with
  | [] => mret true
  | RowConn :: rows =>
      match vp_conn p with
      | Some (acts, ok) => for_each acts vu_do;; if ok : bool then serve_rows p rows else mret false
      | None => serve_rows p rows
      end
  | RowMedium :: rows =>
      match vp_medium p with
      | Some r => medium_readable r;; serve_rows p rows
      | None => serve_rows p rows
      end
  | RowWatch i :: rows =>
      match vp_watch p i with
      | Some acts =>
          g ← get;
          match g_watches g !! i with
          | Some w => when (w_used w && negb (w_cb w =? 0)) (for_each acts vu_do);; serve_rows p rows
          | None => fail OobRead
          end
      | None => serve_rows p rows
      end
  end.

Definition serve_tick (t : Z) : VU unit :=
  g ← get;
  when (TICK_MS <=? u64 (t - g_last_tick g))
    (core (vbt_ll_tick t);; flush_pending;; modify (set_g_last_tick t)).

Definition serve_reconnect (t : Z) (d : dial) : VU unit :=
  g ← get;
  when ((g_medium_fd g <? 0) && (MEDIUM_RECONNECT_MS <=? u64 (t - g_last_reconnect g)))
    (modify (set_g_last_reconnect t);; _ ← connect_medium d; skip).

Definition serve_iter (p : vu_poll) : VU bool :=
  g ← get;
  alive ← (if vp_ready p then serve_rows p (poll_rows g) else mret true);
  serve_tick (vp_now p);;
  serve_reconnect (vp_now p) (vp_dial p);;
  mret alive.

Fixpoint serve_loop (ps : list vu_poll) : VU unit :=
  match ps with
  | [] => skip
  | p :: ps =>
      g ← get;
      when (g_running g) (alive ← serve_iter p; when alive (serve_loop ps))
  end.

(** [init]: what [vu_init] returns. *)
Definition serve_start : VU unit :=
  modify (set_g_watches (replicate (Z.to_nat MAX_WATCH) zero_watch));;
  modify (set_g_dev_ready false);;
  modify (λ g, set_g_ring (ring_reset (g_ring g)) g).
Definition serve_enter (t0 : Z) : VU unit :=
  modify (set_g_last_tick t0);;
  modify (set_g_last_reconnect 0).
Definition serve_leave : VU unit := modify (set_g_dev_ready false).
Definition serve_connection (init : bool) (t0 : Z) (ps : list vu_poll) : VU unit :=
  serve_start;;
  when init (serve_enter t0;; serve_loop ps;; serve_leave).

(** ** The accept loop *)

(** [accept] was interrupted, failed, or gave a connection that is then
    served. *)
Inductive accepted : Type :=
  | AccIntr
  | AccError
  | Acc (fd : Z) (init : bool) (t0 : Z) (ps : list vu_poll).

Fixpoint accept_loop (cs : list accepted) : VU unit :=
  match cs with
  | [] => skip
  | c :: cs =>
      g ← get;
      when (g_running g)
        match c with
        | AccIntr => accept_loop cs
        | AccError => skip
        | Acc fd init t0 ps => serve_connection init t0 ps;; emit (PClose fd);; accept_loop cs
        end
  end.

Definition vhost_main (listen_fd : Z) (d : dial) (cs : list accepted) : VU unit :=
  _ ← connect_medium d;
  accept_loop cs;;
  g ← get;
  when (0 <=? g_medium_fd g) (emit (PClose (g_medium_fd g)));;
  when (0 <=? listen_fd) (emit (PClose listen_fd)).

(** ** Start-up *)

Definition vhost_config (node_id bdaddr : option (list Z)) : option (list Z * list Z) :=
  let nid := match node_id with Some s => take 63 (c_str s) | None => str "vbt-vm" end in
  match bdaddr with
  | Some s => a ← (map u8 <$> scan_addr s); Some (nid, a)
  | None => Some (nid, derive_bdaddr nid)
  end.

Definition vhost_new (nid bdaddr : list Z) (ws : list os_write) (pops : list (option (list Z))) : vhost :=
  {| g_client := Client (vbt_ll_new (Ops true true) bdaddr) (replicate (Z.to_nat VBT_RXBUF_SIZE) 0) 0 0;
     g_node_id := nid; g_medium_fd := -1; g_medium_connected := false; g_dev_ready := false;
     g_ring := ring_zero; g_watches := replicate (Z.to_nat MAX_WATCH) zero_watch;
     g_running := true; g_last_tick := 0; g_last_reconnect := 0;
     g_writes := ws; g_pops := pops; g_has_rx := true |}.
