(* ===== verification/VhostInv.v ===== *)
(** * The vhost-user back end is a transport, and its loop is safe *)

From Stdlib Require Import String ZArith Lia.
From stdpp Require Import base list numbers option.
From S2P Require Import Prelude Wire Framing Text LLState LLEmit LLCmd LLAir LLInv LLProps LLFrame.
From S2P Require Import Client ClientProps ClientInv Ring RingProps SendProps Vhost.

(** ** The callbacks do not see the client *)

Lemma vflush_loop_blind c pops : blind (set_g_client c) (flush_loop pops).
Proof.
  induction pops as [|e pops IH]; intros g; cbn [flush_loop]; rewrite !bind_get;
    change (g_ring (set_g_client c g)) with (g_ring g); (destruct (ring_is_empty _); [done|]); [done|].
  apply blind_bind; [done|]. intros _. destruct e as [iov|]; [|done].
  apply blind_bind; [intros g'; unfold ring_front; by destruct (pending _ !! _)|]. intros p.
  apply blind_bind; [done|]. intros _. apply blind_bind; [done|]. intros _. exact IH.
Qed.

Lemma flush_pending_blind c : blind (set_g_client c) flush_pending.
Proof.
  intros g. unfold flush_pending. rewrite !bind_get.
  change (g_dev_ready (set_g_client c g)) with (g_dev_ready g).
  change (g_has_rx (set_g_client c g)) with (g_has_rx g).
  change (g_pops (set_g_client c g)) with (g_pops g).
  apply blind_if; [done|]. apply blind_if; [done|].
  apply blind_bind; [apply vflush_loop_blind|done].
Qed.

Lemma cb_hci_to_host_blind c pkt : blind (set_g_client c) (cb_hci_to_host pkt).
Proof.
  intros g. unfold cb_hci_to_host. rewrite !bind_get.
  change (g_ring (set_g_client c g)) with (g_ring g).
  apply blind_bind.
  - intros g'. unfold ring_offer. apply blind_if; [done|]. apply blind_if; [done|].
    apply blind_bind; [|done]. unfold ring_put. apply blind_bind; [apply blind_local_buf|].
    intros d. by destruct (pending _ !! _).
  - intros [r|]; [|done]. apply blind_bind; [done|]. intros _. apply flush_pending_blind.
Qed.

Lemma vcb_pdu_blind c hdr pdu : blind (set_g_client c) (cb_pdu_to_medium hdr pdu).
Proof.
  intros g. unfold cb_pdu_to_medium. rewrite !bind_get.
  change (g_medium_fd (set_g_client c g)) with (g_medium_fd g).
  change (g_medium_connected (set_g_client c g)) with (g_medium_connected g).
  apply blind_if; [done|]. apply blind_bind; [apply blind_local_buf|]. intros w.
  apply blind_bind; [by apply send_wire_blind|]. intros ok. apply blind_if; [done|].
  apply blind_bind; [done|]. intros _. by apply blind_bind.
Qed.

(** ** Delivery to the guest *)

(** What happens to the packets [q] when the guest's buffers are [pops]: what
    is pushed, the packets left, and the results of [vu_queue_pop] left. *)
Fixpoint deliver (q : list (list Z)) (pops : list (option (list Z))) :
    list pev * list (list Z) * list (option (list Z)) :=
  match q, pops with
  | pkt :: q, Some iov :: pops =>
      let '(o, q', pops') := deliver q pops in
      (PPush (slice 0 (Z.min (zlen pkt) (iov_size iov)) pkt) (zlen pkt) :: o, q', pops')
  | pkt :: q, None :: pops => ([], pkt :: q, pops)
  | _, _ => ([], q, pops)
  end.

Definition iov_ok (e : option (list Z)) : Prop :=
  match e with Some iov => Forall (Z.le 0) iov | None => True end.

Lemma zlen_pkt_bytes p : pkt_ok p → zlen (pkt_bytes p) = pk_len p.
Proof. intros [Hd Hl]. unfold pkt_bytes. apply zlen_slice; lia. Qed.

Lemma push_bytes iov p :
  pkt_ok p → Forall (Z.le 0) iov →
  fst (iov_from_buf iov (pk_data p) (pk_len p)) =
    slice 0 (Z.min (zlen (pkt_bytes p)) (iov_size iov)) (pkt_bytes p).
Proof.
  intros Hp Hi. pose proof (zlen_pkt_bytes _ Hp) as Hz. destruct Hp as [Hd Hl].
  unfold iov_from_buf. rewrite iov_from_buf_loop_spec by (done || lia).
  cbn [fst]. rewrite Z.sub_0_r, Hz. pose proof (iov_size_nonneg _ Hi).
  unfold pkt_bytes. by rewrite slice_slice by lia.
Qed.

Lemma flush_loop_run pops g :
  ring_ok (g_ring g) → Forall iov_ok pops → g_pops g = pops →
  ∃ r', ring_ok r' ∧
    let '(o, q, pops') := deliver (ring_list (g_ring g)) pops in
    flush_loop pops g = Ok (tt, set_g_pops pops' (set_g_ring r' g), o) ∧ ring_list r' = q.
Proof.
  revert g. induction pops as [|e pops IH]; intros g Hr Hp Hg; cbn [flush_loop]; rewrite bind_get;
    destruct (ring_round_spec (W:=pev) (g_ring g) g Hr) as [(Hl & He & _)|(p & r' & Hl & Hpk & Hr' & -> & He & Hf & _)].
  - rewrite He, Hl. exists (g_ring g). split; [done|]. cbn [deliver]. split; [|done].
    rewrite <- Hg. by destruct g.
  - rewrite He, Hl. exists (g_ring g). split; [done|]. cbn [deliver]. split; [|done]. rewrite <- Hg. by destruct g.
  - rewrite He, Hl. exists (g_ring g). split; [done|]. cbn [deliver]. split; [|done].
    rewrite <- Hg. by destruct g.
  - rewrite He, Hl. apply Forall_cons_1 in Hp as [Hpe Hp]. rewrite bind_modify. cbv beta.
    destruct e as [iov|]; cbn [deliver].
    + set (g1 := set_g_pops pops g).
      assert (ring_front (W:=pev) (g_ring g) g1 = Ok (p, g1, [])) as Hf1.
      { unfold ring_front in *. destruct (pending _ !! _); [|done]. by injection Hf as ->. }
      rewrite (bind_silent _ _ _ _ _ Hf1), bind_emit, bind_modify.
      set (g2 := set_g_ring _ g1).
      destruct (IH g2) as (r2 & Hr2 & HIH); [done..|]. change (g_ring g2) with (ring_advance (g_ring g)) in HIH.
      destruct (deliver (ring_list (ring_advance (g_ring g))) pops) as [[o q] pops'].
      destruct HIH as [E Hq]. exists r2. split; [done|]. rewrite E. split; [|done].
      rewrite push_bytes, <- (zlen_pkt_bytes p) by done. done.
    + exists (g_ring g). split; [done|]. split; [|done]. by destruct g.
Qed.

(** The guest takes what it has room for, in order. *)
Lemma flush_pending_run g :
  ring_ok (g_ring g) → Forall iov_ok (g_pops g) → g_dev_ready g = true → g_has_rx g = true →
  ∃ r', ring_ok r' ∧
    let '(o, q, pops') := deliver (ring_list (g_ring g)) (g_pops g) in
    flush_pending g = Ok (tt, set_g_pops pops' (set_g_ring r' g), o ++ [PNotify]) ∧ ring_list r' = q.
Proof.
  intros Hr Hp Hd Hv. destruct (flush_loop_run (g_pops g) g Hr Hp eq_refl) as (r' & Hr' & H).
  exists r'. split; [done|]. destruct (deliver _ _) as [[o q] pops']. destruct H as [E Hq].
  split; [|done]. unfold flush_pending. rewrite bind_get, Hd, Hv. cbn [negb].
  by rewrite (bind_ok _ _ _ _ _ _ E).
Qed.

Lemma deliver_pops q pops o q' pops' :
  deliver q pops = (o, q', pops') → Forall iov_ok pops → Forall iov_ok pops'.
Proof.
  revert pops o q' pops'. induction q as [|pkt q IH]; intros pops o q' pops' E Hp.
  { destruct pops; by injection E as <- <- <-. }
  destruct pops as [|[iov|] pops]; cbn in E.
  - by injection E as <- <- <-.
  - destruct (deliver q pops) as [[o1 q1] pops1] eqn:E1. injection E as <- <- <-.
    apply Forall_cons_1 in Hp as [_ Hp]. by eapply IH.
  - injection E as <- <- <-. by apply Forall_cons_1 in Hp as [_ Hp].
Qed.

(** ** The laws *)

Record vhost_rest_ok (g : vhost) : Prop := VhostRestOk {
  vok_ring : ring_ok (g_ring g);
  vok_pops : Forall iov_ok (g_pops g);
  vok_watches : length (g_watches g) = 32%nat
}.

Lemma flush_pending_safe g :
  vhost_rest_ok g →
  ∃ g' o, flush_pending g = Ok (tt, g', o) ∧ vhost_rest_ok g' ∧ g_client g' = g_client g ∧
    g_watches g' = g_watches g.
Proof.
  intros [Hr Hp Hw]. destruct (g_dev_ready g) eqn:Hd; [destruct (g_has_rx g) eqn:Hv|].
  - destruct (flush_pending_run g Hr Hp Hd Hv) as (r' & Hr' & H).
    destruct (deliver _ _) as [[o q] pops'] eqn:E. destruct H as [-> _].
    eexists _, _. split; [done|]. split_and!; [|done..]. split; [done|by eapply deliver_pops|done].
  - exists g, []. unfold flush_pending. by rewrite bind_get, Hd, Hv.
  - exists g, []. unfold flush_pending. by rewrite bind_get, Hd.
Qed.

Lemma cb_hci_to_host_safe pkt g :
  vhost_rest_ok g → ∃ g' o, cb_hci_to_host pkt g = Ok (tt, g', o) ∧ vhost_rest_ok g'.
Proof.
  intros Hg. unfold cb_hci_to_host. rewrite bind_get.
  destruct (ring_offer_spec (W:=pev) pkt (g_ring g) g (vok_ring _ Hg)) as [(r & E & _ & Hr & _)|[E _]];
    rewrite (bind_silent _ _ _ _ _ E); [|by exists g, []].
  rewrite bind_modify. destruct (flush_pending_safe (set_g_ring r g)) as (g' & o & ? & ? & _);
    [by destruct Hg|]. by exists g', o.
Qed.

Lemma vcb_pdu_run hdr pdu g cs ws ok :
  g_medium_connected g = true → 0 ≤ g_medium_fd g → frame_ok hdr pdu →
  send_loop (g_writes g) (frame_bytes hdr pdu) = (cs, ws, ok) →
  cb_pdu_to_medium hdr pdu g =
    if ok then Ok (tt, set_g_writes ws g, map (PWrite (g_medium_fd g)) cs)
    else Ok (tt, set_g_medium_connected false (set_g_medium_fd (-1) (set_g_writes ws g)),
             map (PWrite (g_medium_fd g)) cs ++ [PClose (g_medium_fd g)]).
Proof.
  intros Hc Hfd Hf E. unfold cb_pdu_to_medium. rewrite bind_get, Hc. cbn [negb orb].
  rewrite if_false by lia. rewrite bind_local_buf by by apply frame_fits.
  rewrite (bind_ok _ _ _ _ _ _ (send_wire_run _ _ _ _ _ _ _ _ E)).
  destruct ok; cbn; by rewrite ?app_nil_r.
Qed.

Lemma vcb_pdu_safe hdr pdu g :
  vhost_rest_ok g → frame_ok hdr pdu →
  ∃ g' o, cb_pdu_to_medium hdr pdu g = Ok (tt, g', o) ∧ vhost_rest_ok g'.
Proof.
  intros Hg Hf. destruct (negb (g_medium_connected g) || (g_medium_fd g <? 0)) eqn:E.
  - exists g, []. split; [|done]. unfold cb_pdu_to_medium. by rewrite bind_get, E.
  - apply orb_false_iff in E as [Hc%negb_false_iff Hfd].
    destruct (send_loop (g_writes g) (frame_bytes hdr pdu)) as [[cs ws] ok] eqn:Es.
    rewrite (vcb_pdu_run _ _ _ _ _ _ Hc ltac:(lia) Hf Es).
    destruct ok; eexists _, _; (split; [done|]); by destruct Hg.
Qed.

#[export] Instance vhost_laws : TransportLaws vhost.
Proof.
  refine {| transport_ok := vhost_rest_ok |}; try done.
  - by intros [].
  - intros [pkt|hdr pdu] c g; [apply cb_hci_to_host_blind|apply vcb_pdu_blind].
  - intros [pkt|hdr pdu] g Hg Hw; [by apply cb_hci_to_host_safe|by apply vcb_pdu_safe].
  - intros c g []. by split.
Defined.

(** ** Safety of the loop *)

Abbreviation vhost_ok := (client_ok (T:=vhost)).
Abbreviation vsafe := (tsafe (T:=vhost)).

Lemma vhost_ok_ext (g g' : vhost) :
  vhost_ok g → g_client g' = g_client g → vhost_rest_ok g' → vhost_ok g'.
Proof.
  intros [_ Hl (d & [Hu Hb] & Hd)] E Hr. split; [done|cbn in *; by rewrite E|].
  exists d. unfold pending_rx. cbn in *. by rewrite E.
Qed.

(** The receive buffer is as before. *)
Definition same_rx (g g' : vhost) : Prop :=
  cl_rxbuf (g_client g') = cl_rxbuf (g_client g) ∧ cl_rxused (g_client g') = cl_rxused (g_client g).
#[export] Instance same_rx_preorder : PreOrder same_rx.
Proof. split; [done|]. intros x y z [] []. split; congruence. Qed.

Lemma flush_pending_vsafe g : vhost_ok g → vsafe flush_pending g (same_rx g).
Proof.
  intros Hg. destruct (flush_pending_safe g (clok_transport _ Hg)) as (g' & o & E & Hr & Hc & _).
  exists tt, g', o. split_and!; [done|by eapply vhost_ok_ext|]. unfold same_rx. by rewrite Hc.
Qed.

(** What the library may hand over. *)
Definition elem_ok (e : list (list Z) * list Z) : Prop :=
  Forall bytes_ok (fst e) ∧ bytes_ok (snd e) ∧ zlen (snd e) = VBT_MAX_MSG_SIZE.
Definition act_ok (a : vu_act) : Prop :=
  match a with
  | ATx elems => Forall elem_ok elems
  | AGetConfig config len => 0 ≤ len ≤ zlen config
  | _ => True
  end.

Lemma vhandle_tx_elem_safe e g : vhost_ok g → elem_ok e → vsafe (handle_tx_elem e) g (same_rx g).
Proof.
  intros Hg (Hb & Hs & Hl). unfold handle_tx_elem, iov_to_buf.
  rewrite iov_to_buf_loop_spec by done. set (d := take _ (concat (fst e))).
  assert (0 + Z.min (VBT_MAX_MSG_SIZE - 0) (zlen (concat (fst e))) = zlen d) as ->.
  { unfold d, zlen. rewrite length_take. change VBT_MAX_MSG_SIZE with 556. lia. }
  apply (tsafe_bind _ _ _ (same_rx g)); [|by intros; apply tsafe_emit].
  apply tsafe_when; [done..|]. intros _. refine (hci_tsafe d (snd e) g Hg _ _ Hs Hl).
  - apply Forall_take. by apply Forall_concat.
  - unfold d, zlen. rewrite length_take. change VBT_MAX_MSG_SIZE with 556. lia.
Qed.

Lemma set_watch_safe fd cb data g : vhost_ok g → vsafe (set_watch fd cb data) g (same_rx g).
Proof.
  intros Hg. apply tsafe_get. destruct (clok_transport _ Hg) as [Hr Hp Hw].
  destruct (find_idx _ _) as [i|].
  - apply tsafe_modify; [|done]. apply (vhost_ok_ext g); [done..|]. split; [done..|].
    cbn. by rewrite length_alter.
  - destruct (find_idx _ _) as [i|]; [|by apply tsafe_ret].
    apply tsafe_modify; [|done]. apply (vhost_ok_ext g); [done..|]. split; [done..|].
    cbn. by rewrite length_insert.
Qed.

Lemma vu_do_safe a g : vhost_ok g → act_ok a → vsafe (vu_do a) g (same_rx g).
Proof.
  intros Hg Ha. destruct (clok_transport _ Hg) as [Hr Hp Hw].
  destruct a as [fd cb data|fd|q has started|elems| |config len|features|features|]; cbn [vu_do].
  - by apply set_watch_safe.
  - apply tsafe_modify; [|done]. apply (vhost_ok_ext g); [done..|]. split; [done..|].
    cbn. by rewrite length_map.
  - unfold queue_set_started. destruct has; cbn [negb]; [|by apply tsafe_ret].
    apply tsafe_when; [done..|]. intros _. apply tsafe_modify; [|done]. by apply (vhost_ok_ext g).
  - apply (tsafe_bind _ _ _ (same_rx g)); [|by intros; apply tsafe_emit].
    apply tsafe_for_each; [done..|]. intros e g' He Hg' Hs.
    destruct (vhandle_tx_elem_safe e g' Hg') as (a & g2 & o & E & Hg2 & Hs2);
      [by apply (proj1 (list.Forall_forall _ _) Ha)|]. exists a, g2, o. split_and!; [done..|]. by transitivity g'.
  - by apply flush_pending_vsafe.
  - apply (tsafe_bind _ _ _ (same_rx g)); [|by intros; apply tsafe_ret].
    unfold get_config. cbn [act_ok] in Ha. cbv zeta.
    rewrite if_false; [by apply tsafe_ret|]. destruct (len <? zlen virtio_bt_config) eqn:E; lia.
  - by apply tsafe_ret.
  - by apply tsafe_ret.
  - apply tsafe_modify; [|done]. by apply (vhost_ok_ext g).
Qed.

Lemma vu_acts_safe acts g : vhost_ok g → Forall act_ok acts → vsafe (for_each acts vu_do) g (same_rx g).
Proof.
  intros Hg Ha. apply tsafe_for_each; [done..|]. intros a g' Hin Hg' Hs.
  destruct (vu_do_safe a g' Hg') as (x & g2 & o & E & Hg2 & Hs2); [by apply (proj1 (list.Forall_forall _ _) Ha)|].
  exists x, g2, o. split_and!; [done..|]. by transitivity g'.
Qed.

Record vp_ok (g : vhost) (p : vu_poll) : Prop := VpOk {
  vpok_conn : match vp_conn p with Some (acts, _) => Forall act_ok acts | None => True end;
  vpok_medium : match vp_medium p with Some r => medium_ok (g_client g) r | None => True end;
  vpok_watch : ∀ i acts, vp_watch p i = Some acts → Forall act_ok acts
}.

Lemma vmedium_readable_safe r g :
  vhost_ok g → medium_ok (g_client g) r → vsafe (medium_readable r) g (λ _, True).
Proof.
  intros Hg Hr. apply tsafe_get.
  assert (vsafe (emit (PClose (g_medium_fd g));; modify (set_g_medium_fd (-1));;
    modify (set_g_medium_connected false)) g (λ _, True)) as Hclose.
  { eexists _, _, _. split; [done|]. split; [|done].
    apply (vhost_ok_ext g); [done..|]. by destruct (clok_transport _ Hg). }
  destruct (g_medium_fd g <? 0); [done|]. destruct r as [[|b l]| | |]; try done.
  - by apply client_read_safe.
  - by apply tsafe_ret.
Qed.

(** Rows of watches, whose indices are within the table. *)
Definition watch_row (r : row) : Prop :=
  match r with RowWatch i => (i < 32)%nat | _ => False end.

Lemma watch_rows_safe p rows g :
  vhost_ok g → (∀ i acts, vp_watch p i = Some acts → Forall act_ok acts) → Forall watch_row rows →
  vsafe (serve_rows p rows) g (λ _, True).
Proof.
  intros Hg Hp Hrows. revert g Hg. induction Hrows as [|r rows Hr Hrows IH]; intros g Hg;
    [by apply tsafe_ret|]. destruct r as [| |i]; [done..|]. cbn [serve_rows].
  destruct (vp_watch p i) as [acts|] eqn:E; [|by apply IH]. apply tsafe_get.
  destruct (lookup_lt_is_Some_2 (g_watches g) i) as [w ->].
  { by rewrite (vok_watches _ (clok_transport _ Hg)). }
  apply (tsafe_bind _ _ _ (λ _, True)); [|by intros _ g' ? _; apply IH].
  apply tsafe_when; [done..|]. intros _.
  destruct (vu_acts_safe acts g Hg) as (a & g' & o & ? & ? & _); [by eapply Hp|]. by exists a, g', o.
Qed.

Lemma serve_rows_safe p g : vhost_ok g → vp_ok g p → vsafe (serve_rows p (poll_rows g)) g (λ _, True).
Proof.
  intros Hg [Hc Hm Hw]. unfold poll_rows. set (rows := map RowWatch _).
  assert (Forall watch_row rows) as Hrows.
  { apply Forall_map, Forall_take, Forall_map, list.Forall_forall. intros [i w] Hin. cbn.
    apply list_elem_of_filter in Hin as [_ Hin]. apply elem_of_lookup_imap in Hin as (j & w' & [= -> ->] & Hj).
    apply lookup_lt_Some in Hj. by rewrite (vok_watches _ (clok_transport _ Hg)) in Hj. }
  assert (∀ rows' g', vhost_ok g' → same_rx g g' → (rows' = rows ∨ rows' = RowMedium :: rows) →
    vsafe (serve_rows p rows') g' (λ _, True)) as Hrest.
  { intros rows' g' Hg' [Kb Ku] [->| ->]; [by apply watch_rows_safe|]. cbn [serve_rows].
    destruct (vp_medium p) as [r|]; [|by apply watch_rows_safe].
    apply (tsafe_bind _ _ _ (λ _, True)); [|by intros _ g2 ? _; apply watch_rows_safe].
    apply vmedium_readable_safe; [done|]. unfold medium_ok, rx_held in *. by rewrite Kb, Ku. }
  set (rows' := (if 0 <=? g_medium_fd g then [RowMedium] else []) ++ rows).
  assert (rows' = rows ∨ rows' = RowMedium :: rows) as Hrows'.
  { unfold rows'. destruct (0 <=? g_medium_fd g); [by right|by left]. }
  change (vsafe (serve_rows p (RowConn :: rows')) g (λ _, True)). cbn [serve_rows].
  destruct (vp_conn p) as [[acts ok]|]; [|by apply Hrest].
  apply (tsafe_bind _ _ _ (same_rx g)); [by apply vu_acts_safe|]. intros _ g' Hg' Hs.
  destruct ok; [by apply Hrest|by apply tsafe_ret].
Qed.

Lemma serve_tick_safe t g : vhost_ok g → vsafe (serve_tick t) g (λ _, True).
Proof.
  intros Hg. apply tsafe_get, tsafe_when; [done..|]. intros _.
  apply (tsafe_bind _ _ _ (λ _, True)).
  { destruct (core_safe (vbt_ll_tick t) g Hg) as (g' & o & E & Hg' & _); [by apply vbt_ll_tick_safe, Hg|].
    by exists tt, g', o. }
  intros _ g1 Hg1 _. apply (tsafe_bind _ _ _ (λ _, True)).
  { destruct (flush_pending_vsafe g1 Hg1) as (a & g' & o & ? & ? & _). by exists a, g', o. }
  intros _ g2 Hg2 _. apply tsafe_modify; [|done]. apply (vhost_ok_ext g2); [done..|].
  by destruct (clok_transport _ Hg2).
Qed.

Lemma vhello_fits nid : zlen (hello_wire (take 63 nid)) ≤ 4 + 4 + 64.
Proof.
  unfold hello_wire. rewrite !zlen_app, zlen_le_split.
  change (zlen (be32 _)) with 4. change (zlen [0]) with 1. unfold zlen. rewrite length_take. lia.
Qed.

Lemma vconnect_medium_safe d g : vhost_ok g → vsafe (connect_medium d) g (λ _, True).
Proof.
  intros Hg. destruct d as [|fd|fd w]; [by eexists _, _, _..|]. apply tsafe_get.
  unfold tsafe. setoid_rewrite bind_local_buf; [|apply vhello_fits].
  destruct w as [n| |]; [|by eexists _, _, _..].
  eexists _, _, _. split; [done|]. split; [|done]. cbn.
  apply (vhost_ok_ext (set_rx (cl_rxbuf (g_client g)) 0 g));
    [exact (set_rx_empty_ok g Hg)|done|by destruct (clok_transport _ Hg)].
Qed.

Lemma serve_iter_safe p g : vhost_ok g → vp_ok g p → vsafe (serve_iter p) g (λ _, True).
Proof.
  intros Hg Hp. apply tsafe_get. apply (tsafe_bind _ _ _ (λ _, True)).
  { destruct (vp_ready p); [by apply serve_rows_safe|by apply tsafe_ret]. }
  intros alive g1 Hg1 _. apply (tsafe_bind _ _ _ (λ _, True)); [by apply serve_tick_safe|].
  intros _ g2 Hg2 _. apply (tsafe_bind _ _ _ (λ _, True)); [|by intros; apply tsafe_ret].
  apply tsafe_get, tsafe_when; [done..|]. intros _.
  apply (tsafe_bind _ _ _ (λ _, True)).
  { apply tsafe_modify; [|done]. apply (vhost_ok_ext g2); [done..|]. by destruct (clok_transport _ Hg2). }
  intros _ g3 Hg3 _. apply (tsafe_bind _ _ _ (λ _, True)); [by apply vconnect_medium_safe|].
  by intros; apply tsafe_ret.
Qed.

(** A new QEMU connection starts from a clean table and an empty backlog. *)
Lemma serve_start_safe g : vhost_ok g → vsafe serve_start g (λ g', ring_list (g_ring g') = []).
Proof.
  intros Hg. eexists _, _, _. split; [done|]. split; [|done]. cbn.
  apply (vhost_ok_ext g); [done..|]. destruct (clok_transport _ Hg) as [[Hz _ _ _ Hk] Hp _].
  split; [by split|done|done].
Qed.

Lemma vhost_new_ok nid bd ws pops :
  addr_ok bd → Forall iov_ok pops → vhost_ok (vhost_new nid bd ws pops).
Proof.
  intros Ha Hp. split.
  - split; [|done|done]. split; [done|done|done|vm_compute; done|]. apply Forall_replicate. by split.
  - by apply vbt_ll_new_ok.
  - exists []. split; [|done]. split; [done|]. split_and!; [by apply bytes_ok_replicate|done|by eexists].
Qed.
