(* ===== verification/VhostEnd.v ===== *)
(** * The vhost-user back end is an end of the air

    The guest's packets come from its TX queue, what arrives goes into the
    buffers of its RX queue. *)

From Stdlib Require Import String ZArith Lia.
From stdpp Require Import base list numbers option.
From S2P Require Import Prelude Wire Framing Text LLState LLEmit LLCmd LLAir LLInv LLProps.
From S2P Require Import Client ClientProps ClientInv SendProps Endpoint Ring RingProps Vhost VhostInv.

(** The socket is open and takes what is written. *)
Record vhost_attached (g : vhost) : Prop := VhostAttached {
  vat_connected : g_medium_connected g = true;
  vat_fd : 0 ≤ g_medium_fd g;
  vat_writes : Forall willing (g_writes g)
}.
(** The device is started, nothing is queued and the guest has supplied [k]
    buffers. *)
Record vhost_takes (k : nat) (g : vhost) : Prop := VhostTakes {
  vtk_rest : vhost_rest_ok g;
  vtk_dev : g_dev_ready g = true;
  vtk_rx : g_has_rx g = true;
  vtk_empty : ring_list (g_ring g) = [];
  vtk_buffers : buffers k (g_pops g)
}.

#[export] Instance vhost_end_ops : EndpointOps vhost := {
  ep_fd := g_medium_fd;
  ep_open := vhost_attached;
  ep_takes := vhost_takes;
  ep_give segs stale := handle_tx [(segs, stale)];
  ep_tick now _ := serve_tick now;
  ep_due now g := TICK_MS ≤ u64 (now - g_last_tick g);
  ep_dial := connect_medium;
  ep_name g := take 63 (g_node_id g);
  ep_idle _ := True
}.

Lemma vhost_air hdr pdu g :
  vhost_attached g → frame_ok hdr pdu →
  ∃ g' cs, cb_pdu_to_medium hdr pdu g = Ok (tt, g', map (PWrite (g_medium_fd g)) cs) ∧
    concat cs = frame_bytes hdr pdu ∧ goes 0 g g'.
Proof.
  intros [Hc Hfd Hw] Hf. destruct (willing_sends (g_writes g) (frame_bytes hdr pdu) Hw) as (cs & ws & Es & Hcs & Hws).
  eexists _, cs. split; [exact (vcb_pdu_run _ _ g _ _ _ Hc Hfd Hf Es)|]. split; [done|]. split; [done|by split|].
  intros k [[] ? ? ? ?]. by split.
Qed.

(** With nothing queued a flush does nothing. *)
Lemma vflush_empty g : vhost_takes 0 g → flush_pending g = Ok (tt, g, [PNotify]).
Proof.
  intros [Hr Hd Hv He _]. destruct Hr as [Hr Hp _].
  pose proof (ring_list_nil _ Hr He) as Hemp.
  unfold flush_pending. rewrite bind_get, Hd, Hv. cbn [negb].
  destruct (g_pops g); cbn [flush_loop]; by rewrite bind_assoc, bind_get, Hemp.
Qed.

(** A packet goes straight into the first buffer. *)
Lemma vhost_delivers pkt g :
  vhost_takes 1 g → zlen pkt ≤ VBT_MAX_MSG_SIZE →
  ∃ g', cb_hci_to_host pkt g = Ok (tt, g', [PPush pkt (zlen pkt); PNotify]) ∧ goes 1 g g'.
Proof.
  intros [Hrest Hd Hv He Hb] Hl. destruct (buffers_first _ _ Hb) as (iov & rest & Ep & Hi & _).
  unfold cb_hci_to_host. rewrite bind_get.
  destruct (ring_offer_spec (W:=pev) pkt (g_ring g) g (vok_ring _ Hrest)) as [(r & E & Hlist & Hr & _)|[_ [?|Hfull]]];
    [|lia|by rewrite He in Hfull].
  rewrite (bind_silent _ _ _ _ _ E), bind_modify, He in *. cbn [app] in Hlist.
  destruct (flush_pending_run (set_g_ring r g) Hr (vok_pops _ Hrest) Hd Hv) as (r' & Hr' & Hrun).
  change (g_ring (set_g_ring r g)) with r in Hrun. change (g_pops (set_g_ring r g)) with (g_pops g) in Hrun.
  assert (Forall iov_ok rest) as Hrest'.
  { destruct Hrest as [_ Hp _]. rewrite Ep in Hp. by apply Forall_cons_1 in Hp as [_ ?]. }
  rewrite Hlist, Ep in Hrun. cbn [deliver] in Hrun. destruct Hrun as [Hrun Hl'].
  rewrite Z.min_l, slice_all in Hrun by lia. eexists. split; [exact Hrun|]. split; [done|by intros []|].
  intros k [_ _ _ _ Hk]. rewrite Ep in Hk. destruct (buffers_first _ _ Hk) as (iov' & rest' & E' & _ & Hk').
  injection E' as <- <-. split; [|done..]. by destruct Hrest.
Qed.

Lemma vhost_give segs stale t1 o g :
  concat segs ≠ [] → zlen (concat segs) ≤ VBT_MAX_MSG_SIZE →
  core (hci_core (concat segs) stale) g = Ok (tt, t1, o) →
  handle_tx [(segs, stale)] g = Ok (tt, t1, o ++ [PUsed; PNotify]).
Proof.
  intros Hne Hl E. unfold handle_tx. cbn [for_each]. unfold handle_tx_elem, iov_to_buf.
  rewrite iov_to_buf_loop_spec by done. cbn [fst snd]. change VBT_MAX_MSG_SIZE with 556 in *.
  rewrite take_ge by (unfold zlen in Hl; lia). rewrite Z.sub_0_r, Z.add_0_l, Z.min_r by done.
  rewrite when_true by (destruct (concat segs); [done|]; rewrite zlen_cons; pose proof (zlen_nonneg l); lia).
  rewrite !bind_assoc, (bind_ok _ _ _ _ _ _ E). reflexivity.
Qed.

#[export] Instance vhost_end : Endpoint vhost.
Proof.
  split.
  - intros c g. split; [done|by intros []|]. intros k [[] ? ? ? ?]. by split.
  - intros j k g Hj [? ? ? ? Hb]. split; [done..|]. by eapply buffers_le.
  - exact vhost_air.
  - intros pkt g Hk Hl. destruct (vhost_delivers pkt g Hk Hl) as (g' & E & Hg). by eexists g', _.
  - intros segs stale g Hne Hl _. exists g. split; [done|]. split; [apply goes_refl|].
    intros t1 o E. exists [PUsed; PNotify]. split; [by apply vhost_give|by repeat constructor].
  - intros now now' g Hd. exists g. split; [done|]. split; [apply goes_refl|]. intros t1 o E Hk.
    exists (set_g_last_tick now t1), [PNotify]. split_and!; [|done| |by repeat constructor].
    + cbn [ep_tick vhost_end_ops]. unfold serve_tick. cbn in Hd. rewrite bind_get, when_true by lia.
      by rewrite (bind_ok _ _ _ _ _ _ E), (bind_ok _ _ _ _ _ _ (vflush_empty t1 Hk)).
    + split; [done|by intros []|]. intros k [[] ? ? ? ?]. by split.
  - intros fd n g _ _ Hn. cbn [ep_name vhost_end_ops] in Hn.
    eexists _, [PWrite fd (hello_wire (take 63 (g_node_id g)))]. split; [|split; [apply sent_one|]].
    + cbn [ep_dial vhost_end_ops]. unfold connect_medium. rewrite bind_get, bind_local_buf.
      * rewrite (take_ge (hello_wire _)) by (unfold zlen in Hn; lia). reflexivity.
      * apply vhello_fits.
    + done.
  - intros g _. cbn. unfold zlen. rewrite length_take. lia.
Qed.

(** ** A guest of the vhost-user back end on the medium *)

Definition demo_vguest (fd : Z) (nid : string) (ll : vbt_ll) (ws : list os_write) (iovs : list (list Z)) : vhost :=
  set_g_client (Client ll (replicate (Z.to_nat VBT_RXBUF_SIZE) 0) 0 0)
    (set_g_dev_ready true (set_g_medium_connected true (set_g_medium_fd fd
      (vhost_new (str nid) (replicate 6 0) ws (map Some iovs))))).

Lemma demo_vguest_rx fd nid ll ws iovs : pending_rx [] (demo_vguest fd nid ll ws iovs).
Proof. split; [done|]. split_and!; [apply bytes_ok_replicate|done|by eexists]. Qed.
Lemma demo_vguest_rest fd nid ll ws iovs :
  Forall (Forall (Z.le 0)) iovs → vhost_rest_ok (demo_vguest fd nid ll ws iovs).
Proof.
  intros Hi. split; [|by apply Forall_map|done].
  split; [done|done|done|vm_compute; done|]. apply Forall_replicate. by split.
Qed.
Lemma demo_vguest_ok fd nid ll ws iovs :
  ll_ok ll → Forall (Forall (Z.le 0)) iovs → vhost_ok (demo_vguest fd nid ll ws iovs).
Proof.
  intros Hll Hi. split; [by apply demo_vguest_rest|done|]. exists []. split; [|done]. apply demo_vguest_rx.
Qed.
Lemma demo_vguest_open fd nid ll ws iovs :
  0 ≤ fd → Forall willing ws → vhost_attached (demo_vguest fd nid ll ws iovs).
Proof. by split. Qed.
Lemma demo_vguest_takes fd nid ll ws iovs :
  Forall (λ iov, Forall (Z.le 0) iov ∧ VBT_MAX_MSG_SIZE ≤ iov_size iov) iovs →
  vhost_takes (length iovs) (demo_vguest fd nid ll ws iovs).
Proof.
  intros [Hi Hs]%Forall_and_inv. split; [by apply demo_vguest_rest|done|done|done|].
  exists iovs, []. by rewrite app_nil_r.
Qed.
