(* ===== verification/VhostProps.v ===== *)
(** * The vhost-user back end: correctness

    Safety across QEMU connections, delivery to the guest in order, the
    length reported for a short buffer, the watch table and the
    scatter/gather copies. *)

From Stdlib Require Import String ZArith Lia.
From stdpp Require Import base list numbers option relations gmap.
From S2P Require Import Prelude Wire Framing Text LLState LLEmit LLCmd LLAir LLInv LLProps LLFrame.
From S2P Require Import Client ClientProps ClientInv Ring RingProps SendProps Vhost VhostInv.

(** ** Safety *)

(** Admissible inputs of a connection, and of [main], along a run. *)
Fixpoint polls_ok (ps : list vu_poll) (g : vhost) : Prop :=
  match ps with
  | [] => True
  | p :: ps => vp_ok g p ∧ ∀ g' o, serve_iter p g = Ok (true, g', o) → polls_ok ps g'
  end.
Fixpoint conns_ok (cs : list accepted) (g : vhost) : Prop :=
  match cs with
  | [] | AccError :: _ => True
  | AccIntr :: cs => conns_ok cs g
  | Acc _ init t0 ps :: cs =>
      (∀ g' o, (serve_start;; serve_enter t0) g = Ok (tt, g', o) → polls_ok ps g') ∧
      ∀ g' o, serve_connection init t0 ps g = Ok (tt, g', o) → conns_ok cs g'
  end.

Lemma serve_loop_safe ps g : vhost_ok g → polls_ok ps g → vsafe (serve_loop ps) g (λ _, True).
Proof.
  revert g. induction ps as [|p ps IH]; intros g Hg Hp; [by apply tsafe_ret|].
  destruct Hp as [Hp Hps]. apply tsafe_get, tsafe_when; [done..|]. intros _.
  apply (tsafe_bind_run _ _ _ (λ _, True)); [by apply serve_iter_safe|].
  intros [|] g' o E Hg'; [|by apply tsafe_ret]. by eapply IH, Hps.
Qed.

Lemma serve_connection_safe init t0 ps g :
  vhost_ok g → (∀ g' o, (serve_start;; serve_enter t0) g = Ok (tt, g', o) → polls_ok ps g') →
  vsafe (serve_connection init t0 ps) g (λ _, True).
Proof.
  intros Hg Hps. apply (tsafe_bind_run _ _ _ _ _ (serve_start_safe g Hg)).
  intros [] g1 o1 E1 Hg1. apply tsafe_when; [done..|]. intros _.
  apply (tsafe_bind_run _ _ _ (λ _, True)).
  { eexists tt, _, _. split; [done|]. split; [|done].
    apply (vhost_ok_ext g1); [done..|]. by destruct (clok_transport _ Hg1). }
  intros [] g2 o2 E2 Hg2. apply (tsafe_bind _ _ _ (λ _, True)).
  { apply serve_loop_safe; [done|]. eapply Hps. by rewrite (bind_ok _ _ _ _ _ _ E1), E2. }
  intros _ g3 Hg3 _. apply tsafe_modify; [|done].
  apply (vhost_ok_ext g3); [done..|]. by destruct (clok_transport _ Hg3).
Qed.

Lemma accept_loop_safe cs g : vhost_ok g → conns_ok cs g → vsafe (accept_loop cs) g (λ _, True).
Proof.
  revert g. induction cs as [|c cs IH]; intros g Hg Hc; [by apply tsafe_ret|].
  apply tsafe_get, tsafe_when; [done..|]. intros _.
  destruct c as [| |fd init t0 ps]; [by apply IH|by apply tsafe_ret|]. destruct Hc as [Hps Hcs].
  apply (tsafe_bind_run _ _ _ (λ _, True)); [by apply serve_connection_safe|].
  intros [] g' o E Hg'. apply (tsafe_bind_run _ _ _ (λ _, True)); [by apply tsafe_emit|].
  intros [] g'' o' E' _. injection E' as <- _. by eapply IH, Hcs.
Qed.

(** The vhost-user back end is safe.  Its [main] runs without undefined
    behaviour and leaves a well-formed state, whatever QEMU connections it
    accepts one after the other and whatever happens on each: any rows ready,
    any calls libvhost-user makes while it dispatches, any results of the
    queues, reads, writes and the clock, provided the guest and the hub send
    bytes and no frame of the hub carries more than 30 bytes of advertising
    data. *)
Theorem vhost_main_safe (nid bd : list Z) (ws : list os_write) (pops : list (option (list Z)))
    (listen_fd : Z) (d : dial) (cs : list accepted) :
  addr_ok bd → Forall iov_ok pops →
  (∀ ok g o, connect_medium d (vhost_new nid bd ws pops) = Ok (ok, g, o) → conns_ok cs g) →
  ∃ g' o, vhost_main listen_fd d cs (vhost_new nid bd ws pops) = Ok (tt, g', o) ∧ vhost_ok g'.
Proof.
  intros Ha Hp Hc.
  assert (vsafe (vhost_main listen_fd d cs) (vhost_new nid bd ws pops) (λ _, True))
    as ([] & g' & o & ? & ? & _); [|eauto].
  apply (tsafe_bind_run _ _ _ (λ _, True)); [by apply vconnect_medium_safe, vhost_new_ok|].
  intros ok g o E Hg. apply (tsafe_bind _ _ _ (λ _, True)); [by eapply accept_loop_safe, Hc|].
  intros _ g1 Hg1 _. apply tsafe_get. apply (tsafe_bind _ _ _ (λ _, True)).
  { by apply tsafe_when; [done..|]; intros _; apply tsafe_emit. }
  intros _ g2 Hg2 _. by apply tsafe_when; [done..|]; intros _; apply tsafe_emit.
Qed.

(** A device with a guest that gives three buffers and one command. *)
Definition demo_vhost : vhost :=
  vhost_new (str "vbt-vm") (derive_bdaddr (str "vbt-vm")) [] [Some [100; 500]; Some [3]; None].
Definition demo_elem : list (list Z) * list Z := ([[1; 3]; [12; 0]], replicate 556 0).
Definition demo_vpoll : vu_poll :=
  VuPoll true (Some ([ASetWatch 9 1 2; AQueueStarted 1 true true; ATx [demo_elem]], true))
    None (λ _, None) 20 NoSocket.

Lemma demo_elem_ok : elem_ok demo_elem.
Proof.
  split_and!; [repeat apply Forall_cons_2; try apply Forall_nil_2; bytes|apply bytes_ok_replicate|done].
Qed.

Lemma demo_vhost_iov : Forall iov_ok (g_pops demo_vhost).
Proof. repeat apply Forall_cons_2; try apply Forall_nil_2; cbn; try done; forall_cons; done. Qed.

Lemma demo_vpoll_ok g : vp_ok g demo_vpoll.
Proof. split; [|done|done]. repeat apply Forall_cons_2; try done. apply demo_elem_ok. Qed.

Lemma vhost_main_safe_witness :
  ∃ g' o, vhost_main 3 (Dialled 4 (OsBytes 14)) [AccIntr; Acc 5 true 7 [demo_vpoll]; AccError]
            (vhost_new (str "vbt-vm") (derive_bdaddr (str "vbt-vm")) [] (g_pops demo_vhost)) =
          Ok (tt, g', o) ∧ vhost_ok g'.
Proof.
  apply (vhost_main_safe (str "vbt-vm") (derive_bdaddr (str "vbt-vm"))).
  - split; [apply (bool_decide_eq_true_1 _); vm_compute; reflexivity|done].
  - apply demo_vhost_iov.
  - intros ok g o _. split; [|done]. intros g' o' _. split; [apply demo_vpoll_ok|done].
Defined.

(** ** The guest gets the packets in order *)

Inductive guest_ev : Type := GHost (pkt : list Z) | GKick.
Definition guest_do (e : guest_ev) : VU unit :=
  match e with GHost pkt => cb_hci_to_host pkt | GKick => handle_rx end.
Definition offered (es : list guest_ev) : list (list Z) :=
  omap (λ e, match e with GHost pkt => Some pkt | GKick => None end) es.

(** Buffers a packet fits into. *)
Definition roomy (e : option (list Z)) : Prop :=
  match e with Some iov => VBT_MAX_MSG_SIZE ≤ iov_size iov | None => True end.
Definition is_push (e : pev) : Prop := match e with PPush _ _ => True | _ => False end.
#[export] Instance is_push_dec e : Decision (is_push e).
Proof. destruct e; apply _. Defined.
Definition pushed (l : list (list Z)) : list pev := map (λ b, PPush b (zlen b)) l.

Lemma filter_pushed l : filter is_push (pushed l) = pushed l.
Proof. induction l as [|b l IH]; [done|]. cbn. f_equal. exact IH. Qed.

Lemma deliver_roomy q pops o q' pops' :
  Forall (λ p, zlen p ≤ VBT_MAX_MSG_SIZE) q → Forall roomy pops → deliver q pops = (o, q', pops') →
  ∃ d, o = pushed d ∧ q = d ++ q' ∧ Forall roomy pops'.
Proof.
  revert pops o q' pops'. induction q as [|pkt q IH]; intros pops o q' pops' Hq Hp E.
  { exists []. destruct pops; by injection E as <- <- <-. }
  destruct pops as [|[iov|] pops]; cbn in E.
  - exists []. by injection E as <- <- <-.
  - destruct (deliver q pops) as [[o1 q1] pops1] eqn:E1. injection E as <- <- <-.
    apply Forall_cons_1 in Hq as [Hpkt Hq]. apply Forall_cons_1 in Hp as [Hiov Hp]. cbn in Hiov.
    destruct (IH _ _ _ _ Hq Hp E1) as (d & -> & -> & Hp'). exists (pkt :: d). split_and!; [|done..].
    cbn. by rewrite Z.min_l, slice_all by lia.
  - exists []. apply Forall_cons_1 in Hp as [_ Hp]. by injection E as <- <- <-.
Qed.

Lemma ring_list_short r : ring_ok r → Forall (λ p, zlen p ≤ VBT_MAX_MSG_SIZE) (ring_list r).
Proof.
  intros Hr. apply Forall_map, list.Forall_forall. intros k _.
  destruct (slot_pkt r (pend_head r + Z.of_nat k) Hr) as (p & -> & Hp). cbn.
  rewrite zlen_pkt_bytes by done. apply Hp.
Qed.

Record guest_ready (g : vhost) : Prop := GuestReady {
  gr_rest : vhost_rest_ok g;
  gr_dev : g_dev_ready g = true;
  gr_rx : g_has_rx g = true;
  gr_roomy : Forall roomy (g_pops g)
}.

Lemma flush_in_order g :
  guest_ready g →
  ∃ g' o d, flush_pending g = Ok (tt, g', o) ∧ guest_ready g' ∧ filter is_push o = pushed d ∧
    d ++ ring_list (g_ring g') = ring_list (g_ring g).
Proof.
  intros [[Hr Hp Hw] Hd Hv Hroom]. destruct (flush_pending_run g Hr Hp Hd Hv) as (r' & Hr' & H).
  destruct (deliver _ _) as [[o q] pops'] eqn:E. destruct H as [-> Hl].
  destruct (deliver_roomy _ _ _ _ _ (ring_list_short _ Hr) Hroom E) as (d & -> & Hq & Hroom').
  eexists _, _, d. split; [done|]. split_and!.
  - split; [|done..]. split; [done|by eapply deliver_pops|done].
  - rewrite list.filter_app, filter_pushed. cbn. by rewrite app_nil_r.
  - cbn. by rewrite Hl.
Qed.

Lemma guest_do_in_order e g :
  guest_ready g →
  ∃ g' o d acc, guest_do e g = Ok (tt, g', o) ∧ guest_ready g' ∧ filter is_push o = pushed d ∧
    d ++ ring_list (g_ring g') = ring_list (g_ring g) ++ acc ∧ acc `sublist_of` offered [e] ∧
    (Forall (λ p, zlen p ≤ VBT_MAX_MSG_SIZE) (offered [e]) →
     (length (ring_list (g_ring g)) + length (offered [e]) ≤ 256)%nat → acc = offered [e]).
Proof.
  intros Hg. destruct e as [pkt|]; cbn [guest_do].
  - unfold cb_hci_to_host. rewrite bind_get.
    destruct (ring_offer_spec (W:=pev) pkt (g_ring g) g (vok_ring _ (gr_rest _ Hg)))
      as [(r & E & Hl & Hr & _)|[E Hno]]; rewrite (bind_silent _ _ _ _ _ E).
    + rewrite bind_modify. destruct (flush_in_order (set_g_ring r g)) as (g' & o & d & E' & Hg' & Ho & Hd).
      { destruct Hg as [[] ? ? ?]. by split. }
      exists g', o, d, [pkt]. split_and!; [done..| |done|done]. cbn in Hd. by rewrite Hd, Hl.
    + exists g, [], [], []. split_and!; [done..|by rewrite app_nil_r|by apply sublist_nil_l|].
      intros [Hs _]%Forall_cons_1 Hlen. cbn in Hlen. destruct Hno; lia.
  - destruct (flush_in_order g Hg) as (g' & o & d & E & Hg' & Ho & Hd).
    exists g', o, d, []. split_and!; [done..| |done|done]. by rewrite app_nil_r.
Qed.

(** C31: the guest gets the packets of the controller in order.  For every
    sequence of packets handed over and kicks of the RX queue, what is pushed
    to the guest and what is still queued are, in this order, exactly the
    packets that were queued and those accepted since, each pushed once, whole
    and with its length; packets are refused only when they are too long or
    256 are waiting.  (The guest's buffers hold the longest packet.) *)
Theorem guest_in_order (es : list guest_ev) (g : vhost) :
  guest_ready g →
  ∃ g' o d acc, for_each es guest_do g = Ok (tt, g', o) ∧ filter is_push o = pushed d ∧
    d ++ ring_list (g_ring g') = ring_list (g_ring g) ++ acc ∧ acc `sublist_of` offered es ∧
    (Forall (λ p, zlen p ≤ VBT_MAX_MSG_SIZE) (offered es) →
     (length (ring_list (g_ring g)) + length (offered es) ≤ 256)%nat → acc = offered es).
Proof.
  revert g. induction es as [|e es IH]; intros g Hg; cbn [for_each].
  { exists g, [], [], []. split_and!; try done. by rewrite app_nil_r. }
  destruct (guest_do_in_order e g Hg) as (g1 & o1 & d1 & a1 & E1 & Hg1 & Ho1 & Hd1 & Hs1 & Hall1).
  destruct (IH g1 Hg1) as (g2 & o2 & d2 & a2 & E2 & Ho2 & Hd2 & Hs2 & Hall2).
  assert (offered (e :: es) = offered [e] ++ offered es) as Hoff by by destruct e.
  exists g2, (o1 ++ o2), (d1 ++ d2), (a1 ++ a2). rewrite Hoff. split_and!.
  - by rewrite (bind_ok _ _ _ _ _ _ E1), E2.
  - rewrite list.filter_app, Ho1, Ho2. unfold pushed. by rewrite map_app.
  - by rewrite <- app_assoc, Hd2, app_assoc, Hd1, <- app_assoc.
  - by apply sublist_app.
  - intros [Hf1 Hf2]%Forall_app Hlen. rewrite length_app in Hlen.
    assert (a1 = offered [e]) as -> by (apply Hall1; [done|lia]).
    f_equal. apply Hall2; [done|]. apply (f_equal length) in Hd1. rewrite !length_app in Hd1. lia.
Qed.

Definition demo_guest : vhost :=
  set_g_dev_ready true (set_g_pops [Some [1000]; None; Some [600; 400]] demo_vhost).
Lemma demo_guest_ready : guest_ready demo_guest.
Proof.
  assert (Forall iov_ok (g_pops demo_guest) ∧ Forall roomy (g_pops demo_guest)) as [Hi Hr].
  { split; repeat apply Forall_cons_2; try apply Forall_nil_2; cbn; try done; forall_cons; done. }
  split; [|done|done|done]. split; [|done|done].
  assert (vhost_ok demo_vhost) as H0.
  { apply vhost_new_ok; [|apply demo_vhost_iov].
    split; [apply (bool_decide_eq_true_1 _); vm_compute; reflexivity|done]. }
  exact (vok_ring demo_vhost (clok_transport _ H0)).
Qed.

Definition demo_guest_evs : list guest_ev := [GHost [4; 1; 0]; GHost [4; 2; 0]; GKick].

Lemma guest_in_order_witness :
  ∃ g' o d acc, for_each demo_guest_evs guest_do demo_guest = Ok (tt, g', o) ∧
    filter is_push o = pushed d ∧
    d ++ ring_list (g_ring g') = ring_list (g_ring demo_guest) ++ acc ∧
    acc `sublist_of` offered demo_guest_evs ∧
    (Forall (λ p, zlen p ≤ VBT_MAX_MSG_SIZE) (offered demo_guest_evs) →
     (length (ring_list (g_ring demo_guest)) + length (offered demo_guest_evs) ≤ 256)%nat →
     acc = offered demo_guest_evs).
Proof. apply guest_in_order, demo_guest_ready. Defined.

(** ** The length reported for a short buffer *)

(** For a guest buffer shorter than the packet at the head of the backlog,
    the back end tells the guest that it wrote more bytes than it did: the
    element is returned with the length of the whole packet, although only
    the start of the packet was copied, and the rest of the packet is lost. *)
Theorem short_buffer_misreported (g : vhost) (pkt : list Z) (q : list (list Z)) (iov : list Z)
    (pops : list (option (list Z))) :
  vhost_rest_ok g → g_dev_ready g = true → g_has_rx g = true →
  ring_list (g_ring g) = pkt :: q → g_pops g = Some iov :: pops → iov_size iov < zlen pkt →
  ∃ g' b o, flush_pending g = Ok (tt, g', PPush b (zlen pkt) :: o) ∧ zlen b = iov_size iov ∧
    zlen b < zlen pkt ∧ ∃ n, ring_list (g_ring g') = drop n q.
Proof.
  intros [Hr Hp Hw] Hd Hv Hq Hpops Hshort.
  destruct (flush_pending_run g Hr Hp Hd Hv) as (r' & Hr' & H).
  rewrite Hpops in Hp. apply Forall_cons_1 in Hp as [Hiov _]. pose proof (iov_size_nonneg _ Hiov).
  rewrite Hq, Hpops in H. cbn [deliver] in H.
  destruct (deliver q pops) as [[o q'] pops'] eqn:E. destruct H as [-> Hl].
  assert (zlen (slice 0 (Z.min (zlen pkt) (iov_size iov)) pkt) = iov_size iov) as Hz.
  { rewrite zlen_slice; lia. }
  eexists _, _, (o ++ [PNotify]). split; [done|]. split_and!; [done|lia|].
  cbn. rewrite Hl. clear -E. revert pops o q' pops' E.
  induction q as [|p q IH]; intros pops o q' pops' E.
  { exists 0%nat. destruct pops; by injection E as <- <- <-. }
  destruct pops as [|[iov|] pops]; cbn in E.
  - exists 0%nat. by injection E as <- <- <-.
  - destruct (deliver q pops) as [[o1 q1] pops1] eqn:E1. injection E as <- <- <-.
    destruct (IH _ _ _ _ E1) as [n ->]. by exists (S n).
  - exists 0%nat. by injection E as <- <- <-.
Qed.

(** The first packet waits for a buffer of two bytes. *)
Definition demo_short : vhost :=
  set_g_pops [Some [2]] (set_g_dev_ready true
    (set_g_ring (Ring (<[0%nat := Pkt ([4; 14; 1; 0] ++ replicate 552 0) 4]> (pending ring_zero)) 0 1)
       demo_vhost)).

Lemma short_buffer_misreported_witness :
  ∃ g' b o, flush_pending demo_short = Ok (tt, g', PPush b (zlen [4; 14; 1; 0]) :: o) ∧
    zlen b = iov_size [2] ∧ zlen b < zlen [4; 14; 1; 0] ∧ ∃ n, ring_list (g_ring g') = drop n [].
Proof.
  apply (short_buffer_misreported demo_short [4; 14; 1; 0] [] [2] []); try reflexivity.
  split; [|repeat apply Forall_cons_2; try done; by forall_cons|done].
  split; [reflexivity|done|done|vm_compute; done|].
  apply Forall_insert; [apply Forall_replicate; by split|by split].
Defined.

(** ** The watch table is a finite map *)

(** The callback and argument registered for a descriptor. *)
Fixpoint watch_map (ws : list watch_ent) : gmap Z (Z * Z) :=
  match ws with
  | [] => ∅
  | w :: ws => if w_used w then <[w_fd w := (w_cb w, w_data w)]> (watch_map ws) else watch_map ws
  end.

Section WatchMap.
Context (fd cb data : Z).
Implicit Types (ws : list watch_ent).

Lemma watch_for_other w : watch_for fd w = false → w_used w = true → w_fd w ≠ fd.
Proof using. unfold watch_for. intros E Hu. rewrite Hu in E. cbn in E. lia. Qed.

Lemma watch_map_update ws i :
  find_idx (watch_for fd) ws = Some i →
  watch_map (alter (λ w, Watch (w_fd w) cb data (w_used w)) i ws) = <[fd := (cb, data)]> (watch_map ws).
Proof using.
  revert i. induction ws as [|w ws IH]; intros i E; cbn [find_idx] in E; [done|].
  destruct (watch_for fd w) eqn:Ew.
  - injection E as <-. unfold watch_for in Ew. apply andb_true_iff in Ew as [Eu Ef%Z.eqb_eq].
    cbn. rewrite Eu, Ef. by rewrite insert_insert_eq.
  - apply fmap_Some in E as (j & Ej & ->). cbn. rewrite (IH j Ej).
    destruct (w_used w) eqn:Eu; [|done]. rewrite insert_insert_ne; [done|]. by apply watch_for_other.
Qed.

Lemma watch_map_add ws i :
  find_idx (watch_for fd) ws = None → find_idx (λ w, negb (w_used w)) ws = Some i →
  watch_map (<[i := Watch fd cb data true]> ws) = <[fd := (cb, data)]> (watch_map ws).
Proof using.
  revert i. induction ws as [|w ws IH]; intros i En E; cbn [find_idx] in *; [done|].
  destruct (watch_for fd w) eqn:Ew; [done|]. apply fmap_None in En.
  destruct (w_used w) eqn:Eu; cbn [negb] in E.
  - apply fmap_Some in E as (j & Ej & ->). change (<[S j := ?x]> (w :: ws)) with (w :: <[j := x]> ws). cbn [watch_map].
    rewrite Eu, (IH j En Ej).
    rewrite insert_insert_ne; [done|]. by apply watch_for_other.
  - injection E as <-. cbn. by rewrite Eu.
Qed.

Lemma watch_map_remove ws : watch_map (map (unwatch fd) ws) = delete fd (watch_map ws).
Proof using.
  induction ws as [|w ws IH]; cbn [map watch_map]; [by rewrite delete_empty|].
  assert (unwatch fd w = if watch_for fd w then Watch (w_fd w) (w_cb w) (w_data w) false else w) as ->
    by done. destruct (watch_for fd w) eqn:Ew.
  - unfold watch_for in Ew. apply andb_true_iff in Ew as [Eu Ef%Z.eqb_eq]. cbn. rewrite Eu, Ef, IH.
    by rewrite delete_insert_eq.
  - cbn. destruct (w_used w) eqn:Eu; [|done]. rewrite IH, delete_insert_ne; [done|].
    intros E. by apply (watch_for_other w).
Qed.

Lemma watch_map_found ws i : find_idx (watch_for fd) ws = Some i → is_Some (watch_map ws !! fd).
Proof using.
  revert i. induction ws as [|w ws IH]; intros i E; cbn [find_idx] in E; [done|]. cbn.
  destruct (watch_for fd w) eqn:Ew.
  - unfold watch_for in Ew. apply andb_true_iff in Ew as [-> ->%Z.eqb_eq]. by rewrite lookup_insert_eq.
  - apply fmap_Some in E as (j & Ej & _). destruct (w_used w) eqn:Eu; [|by eapply IH].
    rewrite lookup_insert_ne by by apply watch_for_other. by eapply IH.
Qed.

Lemma watch_map_absent ws : find_idx (watch_for fd) ws = None → watch_map ws !! fd = None.
Proof using.
  induction ws as [|w ws IH]; intros E; cbn [find_idx] in E; [done|]. cbn.
  destruct (watch_for fd w) eqn:Ew; [done|]. apply fmap_None in E.
  destruct (w_used w) eqn:Eu; [|by apply IH].
  rewrite lookup_insert_ne by by apply watch_for_other. by apply IH.
Qed.
End WatchMap.

(** No entry is free. *)
Definition table_full (ws : list watch_ent) : Prop := Forall (λ w, w_used w = true) ws.
#[export] Instance table_full_dec ws : Decision (table_full ws).
Proof. unfold table_full. apply _. Defined.

(** C37: the watch table of libvhost-user's descriptors is a finite map of
    bounded size: [set_watch] inserts or replaces the binding of a descriptor
    and leaves every other one, unless the descriptor is new and the table
    full, when nothing changes; [remove_watch] deletes the binding. *)
Theorem watch_table_refines_map (fd cb data : Z) (g : vhost) :
  let m := watch_map (g_watches g) in
  (∃ g', set_watch fd cb data g = Ok (tt, g', []) ∧
     watch_map (g_watches g') =
       if decide (m !! fd = None ∧ table_full (g_watches g)) then m else <[fd := (cb, data)]> m) ∧
  (∃ g', remove_watch fd g = Ok (tt, g', []) ∧ watch_map (g_watches g') = delete fd m).
Proof.
  cbv zeta. split.
  - unfold set_watch. rewrite bind_get.
    destruct (find_idx (watch_for fd) (g_watches g)) as [i|] eqn:E.
    { eexists. split; [done|]. destruct (watch_map_found _ _ _ E) as [x Hx].
      rewrite decide_False by (rewrite Hx; naive_solver). by apply watch_map_update. }
    pose proof (watch_map_absent _ _ E) as Hn.
    destruct (find_idx (λ w, negb (w_used w)) (g_watches g)) as [i|] eqn:Ef.
    + eexists. split; [done|]. rewrite decide_False; [by apply watch_map_add|].
      intros [_ Hf]. apply find_idx_sat in Ef as (w & Hw & Eu).
      unfold table_full in Hf. rewrite (Forall_lookup_1 _ _ _ _ Hf Hw) in Eu. done.
    + exists g. split; [done|]. rewrite decide_True; [done|]. split; [done|].
      apply Forall_lookup_2. intros i w Hw. rewrite find_idx_None in Ef.
      specialize (Ef i w Hw). by destruct (w_used w).
  - eexists. split; [done|]. apply watch_map_remove.
Qed.

(** ** Scatter/gather *)

(** The scatter/gather copies: [iov_to_buf] yields the start of the guest's
    segments put together, cut at the size of the destination, and its
    length; [iov_from_buf] puts the start of the buffer into the segments, as
    much as they hold, and returns how much that is. *)
Lemma scatter_gather (segs : list (list Z)) (max : Z) (iov : list Z) (buf : list Z) (len : Z) :
  0 ≤ max → Forall (Z.le 0) iov → 0 ≤ len ≤ zlen buf →
  iov_to_buf segs max =
    (take (Z.to_nat max) (concat segs), Z.min max (zlen (concat segs))) ∧
  iov_from_buf iov buf len =
    (slice 0 (Z.min len (iov_size iov)) buf, Z.min len (iov_size iov)).
Proof.
  intros Hmax Hiov Hlen. unfold iov_to_buf, iov_from_buf.
  rewrite iov_to_buf_loop_spec, iov_from_buf_loop_spec by (done || lia).
  rewrite !Z.sub_0_r. split; f_equal; lia.
Qed.

