(* ===== verification/VhostStart.v ===== *)
(** * Start-up of the vhost-user back end (src/vbt_vhost_user.c: [main])

    The options, the socket QEMU connects to, and the exit status;
    [vhost_program] is the whole of [main]. *)

From Stdlib Require Import String ZArith Lia.
From stdpp Require Import base list numbers option.
From S2P Require Import Prelude Wire Text Startup LLState LLEmit LLCmd LLAir LLInv Client ClientProps ClientInv.
From S2P Require Import Host HostProps Ring RingProps Vhost VhostInv VhostProps.

(** ** The options *)

Record vhost_opts : Type := VhostOpts {
  vo_sock_path : option (list Z);
  vo_medium_path : list Z;
  vo_node_id : list Z;
  vo_bdaddr : option (list Z);    (* [g.bdaddr] if [bdaddr_set] *)
  vo_verbose : bool
}.
Definition vhost_defaults : vhost_opts := VhostOpts None [] (str "vbt-vm") None false.

Definition vhost_option (o : vhost_opts) (p : opt) : outcome vhost_opts :=
  let '(c, optarg) := p in
  if c =? 115 then
    Go (VhostOpts (Some optarg) (vo_medium_path o) (vo_node_id o) (vo_bdaddr o) (vo_verbose o))
  else if c =? 109 then
    Go (VhostOpts (vo_sock_path o) (snprintf_arg 108 optarg) (vo_node_id o) (vo_bdaddr o) (vo_verbose o))
  else if c =? 110 then
    Go (VhostOpts (vo_sock_path o) (vo_medium_path o) (snprintf_arg 64 optarg) (vo_bdaddr o) (vo_verbose o))
  else if c =? 98 then
    match scan_addr optarg with
    | Some m => Go (VhostOpts (vo_sock_path o) (vo_medium_path o) (vo_node_id o) (Some (map u8 m)) (vo_verbose o))
    | None => Exit 2
    end
  else if c =? 118 then
    Go (VhostOpts (vo_sock_path o) (vo_medium_path o) (vo_node_id o) (vo_bdaddr o) true)
  else usage c.

(** The loop and [if (!sock_path || g.medium_path[0] == '\0')]. *)
Definition vhost_options (l : list opt) : outcome (list Z * vhost_opts) :=
  match getopts vhost_option vhost_defaults l with
  | Go o =>
      match vo_sock_path o, vo_medium_path o with
      | Some s, _ :: _ => Go (s, o)
      | _, _ => Exit 2
      end
  | Exit s => Exit s
  end.

Definition vhost_address (o : vhost_opts) : list Z := default (derive_bdaddr (vo_node_id o)) (vo_bdaddr o).

(** ** The program *)

(** The socket for QEMU; [None] is [return 1]. *)
Definition vhost_listen (sock_path : list Z) (r : listen_try) : START (option Z) :=
  match r with
  | NoListenSocket => mret None
  | BindFails fd => emit (SUnlink sock_path);; mret None
  | ListenFails fd => emit (SUnlink sock_path);; emit (SBind fd (sun_path sock_path));; mret None
  | Listens fd =>
      emit (SUnlink sock_path);; emit (SBind fd (sun_path sock_path));; emit (SListen fd);; mret (Some fd)
  end.

(** The exit status, the calls on the socket's file before and after, and the
    device and the calls if it got as far as the accept loop. *)
Record vhost_run : Type := VhostRun {
  vr_status : Z;
  vr_before : list sev;
  vr_served : option (vhost * list pev);
  vr_after : list sev
}.

Definition vhost_program (l : list opt) (alloc : bool) (r : listen_try) (ws : list os_write)
    (pops : list (option (list Z))) (d : dial) (cs : list accepted) : res vhost_run :=
  match vhost_options l with
  | Exit s => Ok (VhostRun s [] None [])
  | Go (sock_path, o) =>
      if negb alloc then Ok (VhostRun 1 [] None [])
      else
        match vhost_listen sock_path r tt with
        | Fault f => Fault f
        | Ok (None, _, before) => Ok (VhostRun 1 before None [])
        | Ok (Some fd, _, before) =>
            match vhost_main fd d cs (vhost_new (vo_node_id o) (vhost_address o) ws pops) with
            | Fault f => Fault f
            | Ok (_, g, out) => Ok (VhostRun 0 before (Some (g, out)) [SUnlink sock_path])
            end
        end
  end.

(** ** What the options come to *)

Definition vhost_ends (p : opt) : option Z :=
  if (p.1 =? 115) || (p.1 =? 109) || (p.1 =? 110) || (p.1 =? 118) then None
  else if p.1 =? 98 then match scan_addr p.2 with Some _ => None | None => Some 2 end
  else Some (if p.1 =? 104 then 0 else 2).

Lemma vhost_option_ends o p :
  match vhost_ends p with Some s => vhost_option o p = Exit s | None => ∃ o', vhost_option o p = Go o' end.
Proof.
  destruct p as [c arg]. unfold vhost_ends, vhost_option, usage. cbn [fst snd].
  destruct (c =? 115); [by eexists|]. destruct (c =? 109); [by eexists|]. destruct (c =? 110); [by eexists|].
  destruct (Z.eqb_spec c 98) as [->|]; [|destruct (c =? 118); [by eexists|done]].
  cbn. destruct (scan_addr arg); [by eexists|done].
Qed.

(** The last of each option counts. *)
Lemma vhost_settle l :
  first_end vhost_ends l = None →
  let o := foldl (settle vhost_option) vhost_defaults l in
  vo_sock_path o = last_arg 115 l ∧
  vo_medium_path o = match last_arg 109 l with Some s => snprintf_arg 108 s | None => [] end ∧
  vo_node_id o = match last_arg 110 l with Some s => snprintf_arg 64 s | None => str "vbt-vm" end ∧
  vo_bdaddr o = s ← last_arg 98 l; map u8 <$> scan_addr s.
Proof.
  induction l as [|p l IH] using rev_ind; intros Hl; [done|].
  unfold first_end in *. rewrite omap_app in Hl. rewrite foldl_app.
  destruct (omap vhost_ends l) as [|s ss]; [|done]. destruct IH as (Es & Em & En & Eb); [done|]. cbn in Hl.
  set (o0 := foldl (settle vhost_option) vhost_defaults l) in *.
  destruct p as [c arg]. rewrite !last_arg_snoc. cbn [fst snd foldl].
  unfold settle, vhost_option. unfold vhost_ends in Hl. cbn [fst snd] in Hl.
  destruct (Z.eqb_spec c 115) as [->|]; [by rewrite Em, En, Eb|].
  destruct (Z.eqb_spec c 109) as [->|]; [by rewrite Es, En, Eb|].
  destruct (Z.eqb_spec c 110) as [->|]; [by rewrite Es, Em, Eb|].
  destruct (Z.eqb_spec c 98) as [->|].
  { cbn. destruct (scan_addr arg); [|done]. cbn. by rewrite Es, Em, En. }
  destruct (Z.eqb_spec c 118) as [->|]; [by rewrite Es, Em, En, Eb|]. by destruct (c =? 104).
Qed.

(** The two options that must be there. *)
Definition required (l : list opt) : option (list Z) :=
  match last_arg 115 l, last_arg 109 l with
  | Some s, Some m => if bool_decide (snprintf_arg 108 m = []) then None else Some s
  | _, _ => None
  end.

(** The configuration of [vhost_config], from the options. *)
Lemma vhost_options_config l :
  first_end vhost_ends l = None →
  match required l with
  | None => vhost_options l = Exit 2
  | Some s => ∃ o, vhost_options l = Go (s, o) ∧
      vhost_config (last_arg 110 l) (last_arg 98 l) = Some (vo_node_id o, vhost_address o)
  end.
Proof.
  intros Hl. unfold vhost_options. rewrite (getopts_settle _ _ vhost_option_ends), Hl.
  destruct (vhost_settle l Hl) as (Es & Em & En & Eb). set (o := foldl _ _ _) in *. rewrite Es, Em. unfold required.
  destruct (last_arg 115 l) as [s|]; [|done]. destruct (last_arg 109 l) as [m|]; [|done].
  destruct (snprintf_arg 108 m) as [|c mp]; [done|]. rewrite bool_decide_eq_false_2 by done.
  exists o. split; [done|]. unfold vhost_address, vhost_config. rewrite En, Eb.
  destruct (last_arg 98 l) as [b|] eqn:Ebd; [|done]. cbn.
  destruct (scan_addr b) as [a|] eqn:Ea; [done|].
  pose proof (first_end_None _ _ _ Hl (last_arg_elem _ _ _ Ebd)) as Hend.
  unfold vhost_ends in Hend. cbn in Hend. by rewrite Ea in Hend.
Qed.

Lemma vhost_config_addr n b nid bd : vhost_config n b = Some (nid, bd) → addr_ok bd.
Proof.
  unfold vhost_config. destruct b as [s|].
  - destruct (map u8 <$> scan_addr s) as [a|] eqn:E; [|done]. cbn. intros [= _ <-].
    by apply (parse_addr_ok s).
  - intros [= _ <-]. apply derive_bdaddr_ok.
Qed.

Lemma vhost_listen_run sock r :
  ∃ f before, vhost_listen sock r tt = Ok (f, tt, before) ∧ (f = None ↔ ∀ fd, r ≠ Listens fd).
Proof.
  destruct r as [|fd|fd|fd]; eexists _, _; (split; [reflexivity|]); try by split.
  split; [done|]. intros Hr. by destruct (Hr fd).
Qed.

(** C27: the back end's [main] always ends in a defined way, as long as the guest
    and the hub send bytes and no frame from the hub carries more than 30 bytes
    of advertising data (with 31, which is legal, [report_adv] overruns its
    array, see [report_adv_overflow]).  Whatever the command line holds, [-h] ends it with status 0 and a malformed address or an
    unknown option with status 2, whichever comes first, and so does a missing
    [--socket] or an empty [--medium]; otherwise the last of each option
    counts, it ends with status 1 if memory or the socket are not to be had,
    and with status 0, a well-formed device and the socket's file removed once
    the accept loop ends. *)
Theorem vhost_program_ends (l : list opt) (alloc : bool) (r : listen_try) (ws : list os_write)
    (pops : list (option (list Z))) (d : dial) (cs : list accepted) :
  Forall iov_ok pops →
  (∀ nid bd ok g o, vhost_config (last_arg 110 l) (last_arg 98 l) = Some (nid, bd) →
     connect_medium d (vhost_new nid bd ws pops) = Ok (ok, g, o) → conns_ok cs g) →
  ∃ v, vhost_program l alloc r ws pops d cs = Ok v ∧
    match first_end vhost_ends l, required l with
    | Some s, _ => v = VhostRun s [] None []
    | None, None => v = VhostRun 2 [] None []
    | None, Some sock =>
        match vr_served v with
        | None => vr_status v = 1 ∧ (alloc = false ∨ ∀ fd, r ≠ Listens fd)
        | Some (g, _) => vr_status v = 0 ∧ vhost_ok g ∧ vr_after v = [SUnlink sock]
        end
    end.
Proof.
  intros Hp Hcs. unfold vhost_program. destruct (first_end vhost_ends l) as [s|] eqn:Hl.
  { unfold vhost_options. rewrite (getopts_settle _ _ vhost_option_ends), Hl. by eexists. }
  pose proof (vhost_options_config l Hl) as Ho. destruct (required l) as [sock|]; [|rewrite Ho; by eexists].
  destruct Ho as (o & -> & Hcfg). destruct alloc; cbn [negb]; [|eexists; split; [done|]; cbn; auto].
  destruct (vhost_listen_run sock r) as ([fd|] & before & E & Hf); rewrite E.
  - destruct (vhost_main_safe (vo_node_id o) (vhost_address o) ws pops fd d cs) as (g & out & Em & Hg);
      [by eapply vhost_config_addr|done|eauto|]. rewrite Em. by eexists.
  - eexists. split; [done|]. cbn. split; [done|]. right. by apply Hf.
Qed.

Lemma vhost_program_ends_witness :
  ∃ v, vhost_program [(115, str "/run/q"); (109, str "/run/vbt")] true (Listens 3) [] (g_pops demo_vhost)
      (Dialled 4 (OsBytes 14)) [AccIntr; Acc 5 true 7 [demo_vpoll]; AccError] = Ok v ∧
    match vr_served v with
    | None => vr_status v = 1 ∧ (true = false ∨ ∀ fd, Listens 3 ≠ Listens fd)
    | Some (g, _) => vr_status v = 0 ∧ vhost_ok g ∧ vr_after v = [SUnlink (str "/run/q")]
    end.
Proof.
  apply (vhost_program_ends [(115, str "/run/q"); (109, str "/run/vbt")] true (Listens 3) [] (g_pops demo_vhost)).
  - apply demo_vhost_iov.
  - intros nid bd ok g o _ _. split; [|done]. intros g' o' _. split; [apply demo_vpoll_ok|done].
Defined.
