(* ===== verification/Virtio.v ===== *)
(** * The virtio-bluetooth device (src/src/vbt_virtio.c)

    The same bridge as a device inside QEMU.  [virtio] is [struct VirtIOBT]:
    the client part ([ll], [medium_rxbuf], [medium_rxbuf_used], [pdu_rx]), the
    configuration strings (the empty list also stands for NULL), the socket,
    the backlog, the two timers (the deadline of an armed one) and the
    counters.  QEMU is not part of the program: the results of [virtqueue_pop]
    on the RX queue are [s_pops], the scatter/gather copies of qemu/iov.h are
    the class [QemuIov], and QEMU's event loop is an arbitrary sequence of the
    device's entry points in which a timer fires only when it is armed and
    due. *)

From Stdlib Require Import String ZArith Lia.
From stdpp Require Import base list numbers option.
From S2P Require Import Prelude Wire Text LLState LLEmit LLCmd LLAir Client Ring.

Definition MEDIUM_RECONNECT_MS : Z := 2000.
Definition TICK_MS : Z := 5.

(** [iov_to_buf(iov, n, 0, buf, bytes)] and [iov_from_buf(iov, n, 0, buf,
    bytes)] of QEMU: the bytes copied and their number. *)
Class QemuIov : Type := {
  q_iov_to_buf : list (list Z) → Z → list Z * Z;
  q_iov_from_buf : list Z → list Z → Z → list Z * Z
}.

Record virtio : Type := Virtio {
  s_client : client;
  s_medium_path : list Z;
  s_node_id : list Z;
  s_medium_fd : Z;
  s_medium_connected : bool;
  s_ring : ring;
  s_tick_timer : option Z;
  s_reconnect_timer : option Z;
  s_hci_from_guest : Z;
  s_hci_to_guest : Z;
  s_pdu_tx : Z;
  s_writes : list os_write;
  s_pops : list (option (list Z))
}.
Definition set_s_client (v : client) (s : virtio) : virtio :=
  Virtio v (s_medium_path s) (s_node_id s) (s_medium_fd s) (s_medium_connected s) (s_ring s)
    (s_tick_timer s) (s_reconnect_timer s) (s_hci_from_guest s) (s_hci_to_guest s) (s_pdu_tx s)
    (s_writes s) (s_pops s).
Definition set_s_medium_path (v : list Z) (s : virtio) : virtio :=
  Virtio (s_client s) v (s_node_id s) (s_medium_fd s) (s_medium_connected s) (s_ring s)
    (s_tick_timer s) (s_reconnect_timer s) (s_hci_from_guest s) (s_hci_to_guest s) (s_pdu_tx s)
    (s_writes s) (s_pops s).
Definition set_s_node_id (v : list Z) (s : virtio) : virtio :=
  Virtio (s_client s) (s_medium_path s) v (s_medium_fd s) (s_medium_connected s) (s_ring s)
    (s_tick_timer s) (s_reconnect_timer s) (s_hci_from_guest s) (s_hci_to_guest s) (s_pdu_tx s)
    (s_writes s) (s_pops s).
Definition set_s_medium_fd (v : Z) (s : virtio) : virtio :=
  Virtio (s_client s) (s_medium_path s) (s_node_id s) v (s_medium_connected s) (s_ring s)
    (s_tick_timer s) (s_reconnect_timer s) (s_hci_from_guest s) (s_hci_to_guest s) (s_pdu_tx s)
    (s_writes s) (s_pops s).
Definition set_s_medium_connected (v : bool) (s : virtio) : virtio :=
  Virtio (s_client s) (s_medium_path s) (s_node_id s) (s_medium_fd s) v (s_ring s)
    (s_tick_timer s) (s_reconnect_timer s) (s_hci_from_guest s) (s_hci_to_guest s) (s_pdu_tx s)
    (s_writes s) (s_pops s).
Definition set_s_ring (v : ring) (s : virtio) : virtio :=
  Virtio (s_client s) (s_medium_path s) (s_node_id s) (s_medium_fd s) (s_medium_connected s) v
    (s_tick_timer s) (s_reconnect_timer s) (s_hci_from_guest s) (s_hci_to_guest s) (s_pdu_tx s)
    (s_writes s) (s_pops s).
Definition set_s_tick_timer (v : option Z) (s : virtio) : virtio :=
  Virtio (s_client s) (s_medium_path s) (s_node_id s) (s_medium_fd s) (s_medium_connected s)
    (s_ring s) v (s_reconnect_timer s) (s_hci_from_guest s) (s_hci_to_guest s) (s_pdu_tx s)
    (s_writes s) (s_pops s).
Definition set_s_reconnect_timer (v : option Z) (s : virtio) : virtio :=
  Virtio (s_client s) (s_medium_path s) (s_node_id s) (s_medium_fd s) (s_medium_connected s)
    (s_ring s) (s_tick_timer s) v (s_hci_from_guest s) (s_hci_to_guest s) (s_pdu_tx s)
    (s_writes s) (s_pops s).
Definition set_s_hci_from_guest (v : Z) (s : virtio) : virtio :=
  Virtio (s_client s) (s_medium_path s) (s_node_id s) (s_medium_fd s) (s_medium_connected s)
    (s_ring s) (s_tick_timer s) (s_reconnect_timer s) v (s_hci_to_guest s) (s_pdu_tx s)
    (s_writes s) (s_pops s).
Definition set_s_hci_to_guest (v : Z) (s : virtio) : virtio :=
  Virtio (s_client s) (s_medium_path s) (s_node_id s) (s_medium_fd s) (s_medium_connected s)
    (s_ring s) (s_tick_timer s) (s_reconnect_timer s) (s_hci_from_guest s) v (s_pdu_tx s)
    (s_writes s) (s_pops s).
Definition set_s_pdu_tx (v : Z) (s : virtio) : virtio :=
  Virtio (s_client s) (s_medium_path s) (s_node_id s) (s_medium_fd s) (s_medium_connected s)
    (s_ring s) (s_tick_timer s) (s_reconnect_timer s) (s_hci_from_guest s) (s_hci_to_guest s) v
    (s_writes s) (s_pops s).
Definition set_s_writes (v : list os_write) (s : virtio) : virtio :=
  Virtio (s_client s) (s_medium_path s) (s_node_id s) (s_medium_fd s) (s_medium_connected s)
    (s_ring s) (s_tick_timer s) (s_reconnect_timer s) (s_hci_from_guest s) (s_hci_to_guest s)
    (s_pdu_tx s) v (s_pops s).
Definition set_s_pops (v : list (option (list Z))) (s : virtio) : virtio :=
  Virtio (s_client s) (s_medium_path s) (s_node_id s) (s_medium_fd s) (s_medium_connected s)
    (s_ring s) (s_tick_timer s) (s_reconnect_timer s) (s_hci_from_guest s) (s_hci_to_guest s)
    (s_pdu_tx s) (s_writes s) v.

Abbreviation VIO := (cmd virtio pev).

Section Device.
Context {Q : QemuIov}.

(** ** Toward the guest *)

(** The length reported with an element is what was copied into it. *)
Fixpoint flush_loop (pops : list (option (list Z))) : VIO unit :=
  s ← get;
  if ring_is_empty (s_ring s) then skip
  else
    match pops with
    | [] => skip
    | e :: pops =>
        modify (set_s_pops pops);;
        match e with
        | None => skip
        | Some iov =>
            p ← ring_front (s_ring s);
            let '(b, n) := q_iov_from_buf iov (pk_data p) (pk_len p) in
            emit (PPush b n);;
            modify (λ s, set_s_ring (ring_advance (s_ring s)) s);;
            modify (λ s, set_s_hci_to_guest (u64 (s_hci_to_guest s + 1)) s);;
            flush_loop pops
        end
    end.

Definition virtio_bt_flush_pending : VIO unit :=
  s ← get;
  flush_loop (s_pops s);;
  emit PNotify.

Definition virtio_bt_queue_to_guest (pkt : list Z) : VIO unit :=
  s ← get;
  r ← ring_offer pkt (s_ring s);
  match r with
  | Some r => modify (set_s_ring r);; virtio_bt_flush_pending
  | None => skip
  end.

(** ** The callbacks *)

(** A failed write closes the socket; nothing is scheduled. *)
Definition cb_pdu_to_medium (hdr : vbt_frame_hdr) (pdu : list Z) : VIO unit :=
  s ← get;
  if negb (s_medium_connected s) || (s_medium_fd s <? 0) then skip
  else
    wire ← local_buf (4 + VBT_MAX_MSG_SIZE) (frame_bytes hdr pdu);
    ok ← send_wire s_writes set_s_writes (s_medium_fd s) wire;
    if ok : bool then modify (λ s, set_s_pdu_tx (u64 (s_pdu_tx s + 1)) s)
    else
      emit (PWatch (s_medium_fd s) false);;
      emit (PClose (s_medium_fd s));;
      modify (set_s_medium_fd (-1));;
      modify (set_s_medium_connected false).

(** Frames whose length agrees are counted. *)
#[export] Instance virtio_transport : Transport virtio := {
  client_of := s_client;
  set_client := set_s_client;
  callback w := match w with
                | ToHost pkt => virtio_bt_queue_to_guest pkt
                | ToMedium hdr pdu => cb_pdu_to_medium hdr pdu
                end;
  counted ok := ok
}.

(** ** Virtqueue handlers *)

Definition handle_tx_elem (e : list (list Z) * list Z) : VIO unit :=
  let '(d, n) := q_iov_to_buf (fst e) VBT_MAX_MSG_SIZE in
  when (0 <? n)
    (modify (λ s, set_s_hci_from_guest (u64 (s_hci_from_guest s + 1)) s);;
     core (vbt_ll_hci_from_host (splice 0 d (snd e)) n));;
  emit PUsed.
Definition virtio_bt_handle_tx (elems : list (list (list Z) * list Z)) : VIO unit :=
  for_each elems handle_tx_elem;;
  emit PNotify.

Definition virtio_bt_handle_rx : VIO unit := virtio_bt_flush_pending.

(** ** The medium *)

Definition virtio_bt_schedule_reconnect (now : Z) : VIO unit :=
  modify (set_s_reconnect_timer (Some (now + MEDIUM_RECONNECT_MS))).

(** A full buffer is emptied before the read. *)
Definition virtio_bt_medium_read (r : os_read) (now : Z) : VIO unit :=
  s ← get;
  if s_medium_fd s <? 0 then skip
  else
    upd_client (λ c, set_cl_rx (cl_rxbuf c) (rx_start c) c);;
    match r with
    | RdBytes (b :: l) => client_input (b :: l)
    | RdAgain => skip
    | _ =>
        emit (PWatch (s_medium_fd s) false);;
        emit (PClose (s_medium_fd s));;
        modify (set_s_medium_fd (-1));;
        modify (set_s_medium_connected false);;
        upd_client (λ c, set_cl_rx (cl_rxbuf c) 0 c);;
        virtio_bt_schedule_reconnect now
    end.

(** [(s->node_id && s->node_id\[0\]) ? s->node_id : "vbt-vm"] *)
Definition node_name (s : virtio) : list Z :=
  match s_node_id s with [] => str "vbt-vm" | nid => nid end.

(** The hello is sent on a best-effort basis. *)
Definition virtio_bt_try_connect (d : dial) : VIO bool :=
  s ← get;
  match s_medium_path s with
  | [] => mret false
  | _ =>
      if s_medium_connected s then mret true
      else
        match d with
        | NoSocket => mret false
        | Refused fd => emit (PClose fd);; mret false
        | Dialled fd w =>
            modify (set_s_medium_fd fd);;
            modify (set_s_medium_connected true);;
            upd_client (λ c, set_cl_rx (cl_rxbuf c) 0 c);;
            emit (PWatch fd true);;
            hb ← local_buf (4 + 4 + 64) (hello_wire (take 63 (node_name s)));
            match w with
            | OsBytes n => emit (PWrite fd (take (Z.to_nat n) hb))
            | _ => skip
            end;;
            modify (set_s_reconnect_timer None);;
            mret true
        end
  end.

Definition virtio_bt_reconnect_cb (d : dial) (now : Z) : VIO unit :=
  s ← get;
  if s_medium_connected s then skip
  else
    ok ← virtio_bt_try_connect d;
    if ok : bool then skip else modify (set_s_reconnect_timer (Some (now + MEDIUM_RECONNECT_MS))).

(** [now], [now']: the two readings of the virtual clock. *)
Definition virtio_bt_tick_cb (now now' : Z) : VIO unit :=
  core (vbt_ll_tick now);;
  virtio_bt_flush_pending;;
  modify (set_s_tick_timer (Some (now' + TICK_MS))).

(** ** virtio glue *)

Definition virtio_bt_get_features (features : Z) : Z := features.
Definition virtio_bt_config : list Z := [0; 0; 0; 0].
Definition virtio_bt_get_config (config : list Z) : VIO (list Z) :=
  if zlen config <? zlen virtio_bt_config then fail OobWrite
  else mret (splice 0 virtio_bt_config config).
Definition virtio_bt_reset : VIO unit := modify (λ s, set_s_ring (ring_reset (s_ring s)) s).

(** [bdaddr_str] is [None] for NULL. *)
Definition virtio_bt_parse_bdaddr (bdaddr_str : option (list Z)) (s : virtio) : list Z :=
  match bdaddr_str ≫= scan_addr with
  | Some m => map u8 m
  | None => derive_bdaddr (node_name s)
  end.

(** The object as QEMU allocates it, with its properties. *)
Definition virtio_zero (path nid : list Z) (ws : list os_write) (pops : list (option (list Z))) : virtio :=
  {| s_client := Client (vbt_ll_new (Ops true true) (replicate 6 0))
       (replicate (Z.to_nat VBT_RXBUF_SIZE) 0) 0 0;
     s_medium_path := path; s_node_id := nid; s_medium_fd := 0; s_medium_connected := false;
     s_ring := ring_zero; s_tick_timer := None; s_reconnect_timer := None;
     s_hci_from_guest := 0; s_hci_to_guest := 0; s_pdu_tx := 0; s_writes := ws; s_pops := pops |}.

(** [alloc]: [vbt_ll_new] finds memory; [now_v], [now_r]: the virtual and the
    real-time clock.  The result is false if [errp] is set. *)
Definition virtio_bt_device_realize (alloc : bool) (bdaddr_str : option (list Z)) (d : dial) (now_v now_r : Z)
    : VIO bool :=
  if negb alloc then mret false
  else
    s ← get;
    upd_client (λ c, set_cl_ll (vbt_ll_new (Ops true true) (virtio_bt_parse_bdaddr bdaddr_str s)) c);;
    modify (set_s_medium_fd (-1));;
    modify (set_s_medium_connected false);;
    modify (λ s, set_s_ring (ring_reset (s_ring s)) s);;
    modify (set_s_tick_timer (Some (now_v + TICK_MS)));;
    ok ← virtio_bt_try_connect d;
    (if ok : bool then skip else virtio_bt_schedule_reconnect now_r);;
    mret true.

Definition virtio_bt_device_unrealize : VIO unit :=
  modify (set_s_tick_timer None);;
  modify (set_s_reconnect_timer None);;
  s ← get;
  when (0 <=? s_medium_fd s)
    (emit (PWatch (s_medium_fd s) false);;
     emit (PClose (s_medium_fd s));;
     modify (set_s_medium_fd (-1))).

(** ** QEMU's event loop *)

Inductive vio_event : Type :=
  | EvTx (elems : list (list (list Z) * list Z))
  | EvRx
  | EvMedium (r : os_read) (now : Z)
  | EvTick (now now' : Z)
  | EvReconnect (d : dial) (now : Z)
  | EvReset.

(** An armed timer that is due is disarmed and its callback run. *)
Definition due (timer : option Z) (now : Z) : bool :=
  match timer with Some t => t <=? now | None => false end.

Definition vio_do (e : vio_event) : VIO unit :=
  s ← get;
  match e with
  | EvTx elems => virtio_bt_handle_tx elems
  | EvRx => virtio_bt_handle_rx
  | EvMedium r now => virtio_bt_medium_read r now
  | EvTick now now' =>
      when (due (s_tick_timer s) now)
        (modify (set_s_tick_timer None);; virtio_bt_tick_cb now now')
  | EvReconnect d now =>
      when (due (s_reconnect_timer s) now)
        (modify (set_s_reconnect_timer None);; virtio_bt_reconnect_cb d now)
  | EvReset => virtio_bt_reset
  end.
Definition vio_run (es : list vio_event) : VIO unit := for_each es vio_do.
End Device.
