(* ===== verification/VirtioInv.v ===== *)
(** * The virtio-bluetooth device is a transport, and its entry points are safe *)

From Stdlib Require Import String ZArith Lia.
From stdpp Require Import base list numbers option.
From S2P Require Import Prelude Wire Framing Text LLState LLEmit LLCmd LLAir LLInv LLProps LLFrame.
From S2P Require Import Client ClientProps ClientInv Ring RingProps SendProps Virtio.

(** What qemu/iov.h documents of its copies. *)
Class QemuIovLaws `{QemuIov} : Prop := {
  q_to_buf segs max :
    0 ≤ max →
    q_iov_to_buf segs max = (take (Z.to_nat max) (concat segs), Z.min max (zlen (concat segs)));
  q_from_buf iov buf len :
    Forall (Z.le 0) iov → 0 ≤ len ≤ zlen buf →
    q_iov_from_buf iov buf len = (slice 0 (Z.min len (iov_size iov)) buf, Z.min len (iov_size iov))
}.

Definition iov_ok (e : option (list Z)) : Prop :=
  match e with Some iov => Forall (Z.le 0) iov | None => True end.

Section Laws.
Context `{QL : QemuIovLaws}.
Implicit Types (s : virtio).

(** ** The callbacks do not see the client *)

Lemma flush_loop_blind c pops : blind (set_s_client c) (flush_loop pops).
Proof using.
  induction pops as [|e pops IH]; intros s; cbn [flush_loop]; rewrite !bind_get;
    change (s_ring (set_s_client c s)) with (s_ring s); (destruct (ring_is_empty _); [done|]); [done|].
  apply blind_bind; [done|]. intros _. destruct e as [iov|]; [|done].
  apply blind_bind; [intros s'; unfold ring_front; by destruct (pending _ !! _)|]. intros p.
  destruct (q_iov_from_buf _ _ _) as [b n].
  repeat (apply blind_bind; [done|]; intros _). exact IH.
Qed.

Lemma flush_blind c : blind (set_s_client c) virtio_bt_flush_pending.
Proof using.
  intros s. unfold virtio_bt_flush_pending. rewrite !bind_get.
  change (s_pops (set_s_client c s)) with (s_pops s).
  apply blind_bind; [apply flush_loop_blind|done].
Qed.

Lemma queue_to_guest_blind c pkt : blind (set_s_client c) (virtio_bt_queue_to_guest pkt).
Proof using.
  intros s. unfold virtio_bt_queue_to_guest. rewrite !bind_get.
  change (s_ring (set_s_client c s)) with (s_ring s).
  apply blind_bind.
  - intros s'. unfold ring_offer. apply blind_if; [done|]. apply blind_if; [done|].
    apply blind_bind; [|done]. unfold ring_put. apply blind_bind; [apply blind_local_buf|].
    intros d. by destruct (pending _ !! _).
  - intros [r|]; [|done]. apply blind_bind; [done|]. intros _. apply flush_blind.
Qed.

Lemma cb_pdu_blind c hdr pdu : blind (set_s_client c) (cb_pdu_to_medium hdr pdu).
Proof using.
  intros s. unfold cb_pdu_to_medium. rewrite !bind_get.
  change (s_medium_fd (set_s_client c s)) with (s_medium_fd s).
  change (s_medium_connected (set_s_client c s)) with (s_medium_connected s).
  apply blind_if; [done|]. apply blind_bind; [apply blind_local_buf|]. intros w.
  apply blind_bind; [by apply send_wire_blind|]. intros ok. apply blind_if; [done|].
  repeat (apply blind_bind; [done|]; intros _). done.
Qed.

(** ** Delivery to the guest *)

Record virtio_rest_ok s : Prop := VirtioRestOk {
  iok_ring : ring_ok (s_ring s);
  iok_pops : Forall iov_ok (s_pops s)
}.

(** What a program of the device leaves alone. *)
Record same_link (s s' : virtio) : Prop := SameLink {
  sl_client : s_client s' = s_client s;
  sl_fd : s_medium_fd s' = s_medium_fd s;
  sl_conn : s_medium_connected s' = s_medium_connected s;
  sl_timer : s_reconnect_timer s' = s_reconnect_timer s;
  sl_path : s_medium_path s' = s_medium_path s;
  sl_nid : s_node_id s' = s_node_id s;
  sl_writes : s_writes s' = s_writes s
}.

(** An element returned to the guest with the number of bytes put into it. *)
Definition to_guest (e : pev) : Prop :=
  match e with PPush b n => n = zlen b | PNotify => True | _ => False end.

Lemma flush_loop_safe pops s :
  virtio_rest_ok s → s_pops s = pops →
  ∃ s' o, flush_loop pops s = Ok (tt, s', o) ∧ virtio_rest_ok s' ∧ same_link s s' ∧ Forall to_guest o ∧
    ∃ n, ring_list (s_ring s') = drop n (ring_list (s_ring s)).
Proof using QL.
  revert s. induction pops as [|e pops IH]; intros s [Hr Hp] Hs; cbn [flush_loop]; rewrite bind_get;
    destruct (ring_round_spec (W:=pev) (s_ring s) s Hr) as [(Hl & He & _)|(p & r' & Hl & Hpk & Hr' & -> & He & Hf & _)];
    rewrite He; try (exists s, []; split_and!; [done|done|done|done|by exists 0%nat]).
  rewrite bind_modify. cbv beta. rewrite Hs in Hp. apply Forall_cons_1 in Hp as [Hpe Hp].
  set (s1 := set_s_pops pops s). destruct e as [iov|].
  - assert (ring_front (W:=pev) (s_ring s) s1 = Ok (p, s1, [])) as Hf1.
    { unfold ring_front in *. destruct (pending _ !! _); [|done]. by injection Hf as ->. }
    rewrite (bind_silent _ _ _ _ _ Hf1). destruct Hpk as [Hd Hpl].
    rewrite q_from_buf by (done || lia). rewrite bind_emit, !bind_modify.
    set (s2 := set_s_hci_to_guest _ _).
    destruct (IH s2) as (s' & o & E & Hs' & Hsl & Ho & n & Hn); [by split|done|].
    exists s', (PPush (slice 0 (Z.min (pk_len p) (iov_size iov)) (pk_data p)) (Z.min (pk_len p) (iov_size iov)) :: o).
    rewrite E. split_and!; [done|done|by destruct Hsl| |].
    + apply Forall_cons_2; [|done]. cbn. pose proof (iov_size_nonneg _ Hpe). rewrite zlen_slice; lia.
    + exists (S n). rewrite Hn, Hl. done.
  - exists s1, []. split_and!; [done|by split|done|done|by exists 0%nat].
Qed.

Lemma flush_safe s :
  virtio_rest_ok s →
  ∃ s' o, virtio_bt_flush_pending s = Ok (tt, s', o) ∧ virtio_rest_ok s' ∧ same_link s s' ∧
    Forall to_guest o ∧ ∃ n, ring_list (s_ring s') = drop n (ring_list (s_ring s)).
Proof using QL.
  intros Hs. destruct (flush_loop_safe (s_pops s) s Hs eq_refl) as (s' & o & E & Hs' & Hsl & Ho & Hn).
  exists s', (o ++ [PNotify]). unfold virtio_bt_flush_pending. rewrite bind_get, (bind_ok _ _ _ _ _ _ E).
  split_and!; [done..| |done]. by apply Forall_app_2; [|apply Forall_cons_2].
Qed.

Lemma queue_to_guest_safe pkt s :
  virtio_rest_ok s →
  ∃ s' o, virtio_bt_queue_to_guest pkt s = Ok (tt, s', o) ∧ virtio_rest_ok s' ∧ same_link s s' ∧
    Forall to_guest o.
Proof using QL.
  intros Hs. unfold virtio_bt_queue_to_guest. rewrite bind_get.
  destruct (ring_offer_spec (W:=pev) pkt (s_ring s) s (iok_ring _ Hs)) as [(r & E & _ & Hr & _)|[E _]];
    rewrite (bind_silent _ _ _ _ _ E); [|by exists s, []].
  rewrite bind_modify. destruct (flush_safe (set_s_ring r s)) as (s' & o & ? & ? & [] & ? & _);
    [by destruct Hs|]. by exists s', o.
Qed.

Lemma cb_pdu_run hdr pdu s cs ws ok :
  s_medium_connected s = true → 0 ≤ s_medium_fd s → frame_ok hdr pdu →
  send_loop (s_writes s) (frame_bytes hdr pdu) = (cs, ws, ok) →
  cb_pdu_to_medium hdr pdu s =
    if ok then Ok (tt, set_s_pdu_tx (u64 (s_pdu_tx s + 1)) (set_s_writes ws s), map (PWrite (s_medium_fd s)) cs)
    else Ok (tt, set_s_medium_connected false (set_s_medium_fd (-1) (set_s_writes ws s)),
             map (PWrite (s_medium_fd s)) cs ++ [PWatch (s_medium_fd s) false; PClose (s_medium_fd s)]).
Proof using.
  intros Hc Hfd Hf E. unfold cb_pdu_to_medium. rewrite bind_get, Hc. cbn [negb orb].
  rewrite if_false by lia. rewrite bind_local_buf by by apply frame_fits.
  rewrite (bind_ok _ _ _ _ _ _ (send_wire_run _ _ _ _ _ _ _ _ E)).
  destruct ok; cbn; by rewrite ?app_nil_r.
Qed.

Lemma cb_pdu_safe hdr pdu s :
  virtio_rest_ok s → frame_ok hdr pdu →
  ∃ s' o, cb_pdu_to_medium hdr pdu s = Ok (tt, s', o) ∧ virtio_rest_ok s'.
Proof using.
  intros Hs Hf. destruct (negb (s_medium_connected s) || (s_medium_fd s <? 0)) eqn:E.
  - exists s, []. split; [|done]. unfold cb_pdu_to_medium. by rewrite bind_get, E.
  - apply orb_false_iff in E as [Hc%negb_false_iff Hfd].
    destruct (send_loop (s_writes s) (frame_bytes hdr pdu)) as [[cs ws] ok] eqn:Es.
    rewrite (cb_pdu_run _ _ _ _ _ _ Hc ltac:(lia) Hf Es).
    destruct ok; eexists _, _; (split; [done|]); by destruct Hs.
Qed.

#[export] Instance virtio_laws : TransportLaws virtio.
Proof using QL.
  refine {| transport_ok := virtio_rest_ok |}; try done.
  - by intros [].
  - intros [pkt|hdr pdu] c s; [apply queue_to_guest_blind|apply cb_pdu_blind].
  - intros [pkt|hdr pdu] s Hs Hw; [|by apply cb_pdu_safe].
    destruct (queue_to_guest_safe pkt s Hs) as (s' & o & ? & ? & _). by exists s', o.
  - intros c s []. by split.
Defined.

(** ** Safety of the entry points *)

Abbreviation virtio_ok := (client_ok (T:=virtio)).
Abbreviation viosafe := (tsafe (T:=virtio)).

Lemma virtio_ok_ext s s' :
  virtio_ok s → s_client s' = s_client s → virtio_rest_ok s' → virtio_ok s'.
Proof using.
  intros [_ Hl (d & [Hu Hb] & Hd)] E Hr. split; [done|cbn in *; by rewrite E|].
  exists d. unfold pending_rx. cbn in *. by rewrite E.
Qed.

Lemma flush_viosafe s : virtio_ok s → viosafe virtio_bt_flush_pending s (same_link s).
Proof using.
  intros Hs. destruct (flush_safe s (clok_transport _ Hs)) as (s' & o & E & Hr & Hl & _).
  exists tt, s', o. split_and!; [done| |done]. eapply virtio_ok_ext; [done|apply Hl|done].
Qed.

Definition elem_ok (e : list (list Z) * list Z) : Prop :=
  Forall bytes_ok (fst e) ∧ bytes_ok (snd e) ∧ zlen (snd e) = VBT_MAX_MSG_SIZE.

Lemma handle_tx_elem_safe e s : virtio_ok s → elem_ok e → viosafe (handle_tx_elem e) s (λ _, True).
Proof using.
  intros Hs (Hb & Hst & Hl). unfold handle_tx_elem. rewrite q_to_buf by done.
  set (d := take _ (concat (fst e))).
  assert (zlen d = Z.min VBT_MAX_MSG_SIZE (zlen (concat (fst e)))) as Hd.
  { unfold d, zlen. rewrite length_take. change VBT_MAX_MSG_SIZE with 556. lia. }
  rewrite <- Hd. apply (tsafe_bind _ _ _ (λ _, True)); [|by intros; apply tsafe_emit].
  apply tsafe_when; [done..|]. intros _. apply (tsafe_bind _ _ _ (λ _, True)).
  { apply tsafe_modify; [|done]. apply (virtio_ok_ext s); [done..|]. by destruct (clok_transport _ Hs). }
  intros _ s1 Hs1 _. destruct (hci_tsafe d (snd e) s1 Hs1) as (a & s2 & o & ? & ? & _); [|lia|done..|by exists a, s2, o].
  by apply Forall_take, Forall_concat.
Qed.

Lemma hello_name_fits s : zlen (hello_wire (take 63 (node_name s))) ≤ 4 + 4 + 64.
Proof using.
  unfold hello_wire. rewrite !zlen_app, zlen_le_split.
  change (zlen (be32 _)) with 4. change (zlen [0]) with 1. unfold zlen. rewrite length_take. lia.
Qed.

(** A successful attempt. *)
Lemma try_connect_run fd w s :
  s_medium_path s ≠ [] → s_medium_connected s = false →
  virtio_bt_try_connect (Dialled fd w) s =
    Ok (true, set_s_reconnect_timer None (set_rx (cl_rxbuf (s_client s)) 0
          (set_s_medium_connected true (set_s_medium_fd fd s))),
        PWatch fd true :: match w with
                          | OsBytes n => [PWrite fd (take (Z.to_nat n) (hello_wire (take 63 (node_name s))))]
                          | _ => []
                          end).
Proof using.
  intros Hp Hc. unfold virtio_bt_try_connect. rewrite bind_get.
  destruct (s_medium_path s); [done|]. rewrite Hc. unfold upd_client. rewrite !bind_modify, bind_emit.
  rewrite bind_local_buf by apply hello_name_fits. by destruct w.
Qed.

Lemma try_connect_safe d s : virtio_ok s → viosafe (virtio_bt_try_connect d) s (λ _, True).
Proof using.
  intros Hs. destruct (decide (s_medium_path s = [])) as [Hp|Hp].
  { exists false, s, []. split_and!; [|done..]. unfold virtio_bt_try_connect. by rewrite bind_get, Hp. }
  destruct (s_medium_connected s) eqn:Hc.
  { exists true, s, []. split_and!; [|done..]. unfold virtio_bt_try_connect. rewrite bind_get, Hc.
    by destruct (s_medium_path s). }
  destruct d as [|fd|fd w].
  - exists false, s, []. split_and!; [|done..]. unfold virtio_bt_try_connect. rewrite bind_get, Hc.
    by destruct (s_medium_path s).
  - exists false, s, [PClose fd]. split_and!; [|done..]. unfold virtio_bt_try_connect. rewrite bind_get, Hc.
    by destruct (s_medium_path s).
  - eexists _, _, _. split; [by apply try_connect_run|]. split; [|done].
    set (s1 := set_s_medium_connected true (set_s_medium_fd fd s)).
    assert (virtio_ok s1) as Hs1 by (apply (virtio_ok_ext s); [done..|by destruct (clok_transport _ Hs)]).
    apply (virtio_ok_ext (set_rx (cl_rxbuf (s_client s1)) 0 s1)); [exact (set_rx_empty_ok s1 Hs1)|done|].
    by destruct (clok_transport _ Hs).
Qed.

Definition event_ok s (e : vio_event) : Prop :=
  match e with
  | EvTx elems => Forall elem_ok elems
  | EvMedium r _ => 0 ≤ s_medium_fd s → medium_ok (s_client s) r
  | _ => True
  end.

Lemma medium_read_safe r now s :
  virtio_ok s → (0 ≤ s_medium_fd s → medium_ok (s_client s) r) →
  viosafe (virtio_bt_medium_read r now) s (λ _, True).
Proof using.
  intros Hs Hr. apply tsafe_get. destruct (s_medium_fd s <? 0) eqn:Hfd; [by apply tsafe_ret|].
  specialize (Hr ltac:(lia)).
  assert (set_client (set_cl_rx (cl_rxbuf (s_client s)) (rx_start (s_client s)) (s_client s)) s = s) as Hsame.
  { destruct (clok_rx _ Hs) as (d & [Hu _] & Hd). cbn in Hu. unfold rx_start.
    rewrite Hu, if_false, <- Hu by lia. destruct s as [[] ? ? ? ? ? ? ? ? ? ? ? ?]. done. }
  unfold tsafe, upd_client. setoid_rewrite bind_modify. cbn [client_of virtio_transport].
  rewrite Hsame. assert (∀ k, viosafe (emit (PWatch (s_medium_fd s) false);; emit (PClose (s_medium_fd s));;
    modify (set_s_medium_fd (-1));; modify (set_s_medium_connected false);;
    upd_client (λ c, set_cl_rx (cl_rxbuf c) 0 c);; virtio_bt_schedule_reconnect k) s (λ _, True)) as Hclose.
  { intros k. eexists _, _, _. split; [done|]. split; [|done].
    apply (virtio_ok_ext (set_rx (cl_rxbuf (s_client s)) 0 s)); [exact (set_rx_empty_ok s Hs)|done|].
    by destruct (clok_transport _ Hs). }
  destruct r as [[|b l]| | |]; try apply Hclose.
  - by apply client_read_safe.
  - by apply tsafe_ret.
Qed.

Lemma vio_do_safe e s : virtio_ok s → event_ok s e → viosafe (vio_do e) s (λ _, True).
Proof using.
  intros Hs He. pose proof (clok_transport _ Hs) as [Hring Hpops].
  assert (∀ f, s_client (f s) = s_client s → virtio_rest_ok (f s) → viosafe (modify f) s (λ _, True)) as Hmod.
  { intros f H1 H2. apply tsafe_modify; [|done]. by apply (virtio_ok_ext s). }
  apply tsafe_get. destruct e as [elems| |r now|now now'|d now|]; cbn [event_ok] in He.
  - apply (tsafe_bind _ _ _ (λ _, True)); [|by intros; apply tsafe_emit].
    apply tsafe_for_each; [done..|]. intros x s' Hx Hs' _. apply handle_tx_elem_safe; [done|].
    by apply (proj1 (list.Forall_forall _ _) He).
  - destruct (flush_viosafe s Hs) as (a & s' & o & ? & ? & _). by exists a, s', o.
  - by apply medium_read_safe.
  - apply tsafe_when; [done..|]. intros _. apply (tsafe_bind _ _ _ (λ _, True)); [by apply Hmod|].
    intros _ s1 Hs1 _. apply (tsafe_bind _ _ _ (λ _, True)).
    { destruct (core_safe (vbt_ll_tick now) s1 Hs1) as (s2 & o & ? & ? & _);
        [by apply vbt_ll_tick_safe, Hs1|]. by exists tt, s2, o. }
    intros _ s2 Hs2 _. apply (tsafe_bind _ _ _ (λ _, True)).
    { destruct (flush_viosafe s2 Hs2) as (a & s' & o & ? & ? & _). by exists a, s', o. }
    intros _ s3 Hs3 _. apply tsafe_modify; [|done]. apply (virtio_ok_ext s3); [done..|].
    by destruct (clok_transport _ Hs3).
  - apply tsafe_when; [done..|]. intros _. apply (tsafe_bind _ _ _ (λ _, True)); [by apply Hmod|].
    intros _ s1 Hs1 _. apply tsafe_get. destruct (s_medium_connected s1); [by apply tsafe_ret|].
    apply (tsafe_bind _ _ _ (λ _, True)); [by apply try_connect_safe|]. intros ok s2 Hs2 _.
    destruct ok; [by apply tsafe_ret|]. apply tsafe_modify; [|done]. apply (virtio_ok_ext s2); [done..|].
    by destruct (clok_transport _ Hs2).
  - apply Hmod; [done|]. split; [|done]. cbn. destruct Hring. by split.
Qed.
End Laws.

Abbreviation virtio_ok := (client_ok (T:=virtio)).
