(* ===== verification/VirtioEnd.v ===== *)
(** * The virtio device is an end of the air

    The same for the device inside QEMU, whose timer is QEMU's and whose copies
    are those of qemu/iov.h. *)

From Stdlib Require Import String ZArith Lia.
From stdpp Require Import base list numbers option.
From S2P Require Import Prelude Wire Framing Text LLState LLEmit LLCmd LLAir LLInv LLProps.
From S2P Require Import Client ClientProps ClientInv SendProps Endpoint Ring RingProps Virtio VirtioInv.

(** The socket is open and takes what is written. *)
Record virtio_attached (s : virtio) : Prop := VirtioAttached {
  iat_connected : s_medium_connected s = true;
  iat_fd : 0 ≤ s_medium_fd s;
  iat_writes : Forall willing (s_writes s)
}.
(** Nothing is queued and the guest has supplied [k] buffers. *)
Record virtio_takes (k : nat) (s : virtio) : Prop := VirtioTakes {
  itk_rest : virtio_rest_ok s;
  itk_empty : ring_list (s_ring s) = [];
  itk_buffers : buffers k (s_pops s)
}.

Section End.
Context `{QL : QemuIovLaws}.
Implicit Types (s : virtio).

#[export] Instance virtio_end_ops : EndpointOps virtio := {
  ep_fd := s_medium_fd;
  ep_open := virtio_attached;
  ep_takes := virtio_takes;
  ep_give segs stale := vio_do (EvTx [(segs, stale)]);
  ep_tick now now' := vio_do (EvTick now now');
  ep_due now s := due (s_tick_timer s) now = true;
  ep_dial := virtio_bt_try_connect;
  ep_name s := take 63 (node_name s);
  ep_idle s := s_medium_path s ≠ [] ∧ s_medium_connected s = false
}.

(** Devices that differ in counters, timers and the client. *)
Lemma virtio_goes s s' :
  s_medium_fd s' = s_medium_fd s → s_medium_connected s' = s_medium_connected s →
  s_writes s' = s_writes s → s_ring s' = s_ring s → s_pops s' = s_pops s → goes 0 s s'.
Proof using.
  intros Hf Hc Hw Hr Hp. split; [done| |].
  - intros []. split; congruence.
  - intros k [[] ? ?]. split; [split|..]; by rewrite ?Hr, ?Hp.
Qed.

Lemma virtio_air hdr pdu s :
  virtio_attached s → frame_ok hdr pdu →
  ∃ s' cs, cb_pdu_to_medium hdr pdu s = Ok (tt, s', map (PWrite (s_medium_fd s)) cs) ∧
    concat cs = frame_bytes hdr pdu ∧ goes 0 s s'.
Proof using.
  intros [Hc Hfd Hw] Hf. destruct (willing_sends (s_writes s) (frame_bytes hdr pdu) Hw) as (cs & ws & Es & Hcs & Hws).
  eexists _, cs. split; [exact (cb_pdu_run _ _ s _ _ _ Hc Hfd Hf Es)|]. split; [done|]. split; [done|by split|].
  intros k [[] ? ?]. by split.
Qed.

(** With nothing queued a flush does nothing. *)
Lemma flush_empty s : virtio_takes 0 s → virtio_bt_flush_pending s = Ok (tt, s, [PNotify]).
Proof using.
  intros [[Hr _] He _]. pose proof (ring_list_nil _ Hr He) as Hemp.
  unfold virtio_bt_flush_pending. rewrite bind_get.
  destruct (s_pops s); cbn [flush_loop]; by rewrite bind_assoc, bind_get, Hemp.
Qed.

(** One packet waits and goes into the first buffer. *)
Lemma flush_one s pkt iov rest :
  virtio_rest_ok s → ring_list (s_ring s) = [pkt] → s_pops s = Some iov :: rest →
  zlen pkt ≤ VBT_MAX_MSG_SIZE → VBT_MAX_MSG_SIZE ≤ iov_size iov →
  ∃ s', virtio_bt_flush_pending s = Ok (tt, s', [PPush pkt (zlen pkt); PNotify]) ∧
    virtio_rest_ok s' ∧ same_link s s' ∧ ring_list (s_ring s') = [] ∧ s_pops s' = rest.
Proof using QL.
  intros [Hr Hp] Hl Ep Hz Hi. rewrite Ep in Hp. apply Forall_cons_1 in Hp as [Hpe Hp].
  destruct (ring_round_spec (W:=pev) (s_ring s) s Hr) as [(Hl' & _)|(p & r' & Hl' & Hpk & Hr' & -> & He & Hf & _)];
    [by rewrite Hl in Hl'|]. rewrite Hl in Hl'. injection Hl' as Hpkt Hnil. symmetry in Hnil.
  unfold virtio_bt_flush_pending. rewrite bind_get, Ep. cbn [flush_loop]. rewrite bind_assoc, bind_get, He.
  rewrite bind_assoc, bind_modify. set (s1 := set_s_pops rest s).
  assert (ring_front (W:=pev) (s_ring s) s1 = Ok (p, s1, [])) as Hf1.
  { unfold ring_front in *. destruct (pending _ !! _); [|done]. by injection Hf as ->. }
  rewrite bind_assoc, (bind_silent _ _ _ _ _ Hf1). destruct Hpk as [Hd Hpl].
  assert (pk_len p = zlen pkt) as Hlen by (rewrite Hpkt; unfold pkt_bytes; rewrite zlen_slice; lia).
  rewrite q_from_buf by (done || lia). rewrite Z.min_l by lia. change (slice 0 (pk_len p) (pk_data p)) with (pkt_bytes p).
  rewrite <- Hpkt, Hlen, bind_assoc, bind_emit, bind_assoc, bind_modify, bind_assoc, bind_modify.
  assert (ring_is_empty (ring_advance (s_ring s)) = true) as Hemp by by apply ring_list_nil.
  set (s2 := set_s_hci_to_guest _ _). assert (ring_is_empty (s_ring s2) = true) as He2 by exact Hemp.
  exists s2. split.
  { destruct rest; cbn [flush_loop]; by rewrite bind_assoc, bind_get, He2. }
  split_and!; [by split|by split|exact Hnil|done].
Qed.

Lemma virtio_delivers pkt s :
  virtio_takes 1 s → zlen pkt ≤ VBT_MAX_MSG_SIZE →
  ∃ s', virtio_bt_queue_to_guest pkt s = Ok (tt, s', [PPush pkt (zlen pkt); PNotify]) ∧ goes 1 s s'.
Proof using QL.
  intros [Hrest He Hb] Hl. destruct (buffers_first _ _ Hb) as (iov & rest & Ep & Hi & _).
  unfold virtio_bt_queue_to_guest. rewrite bind_get.
  destruct (ring_offer_spec (W:=pev) pkt (s_ring s) s (iok_ring _ Hrest)) as [(r & E & Hlist & Hr & _)|[_ [?|Hfull]]];
    [|lia|by rewrite He in Hfull].
  rewrite (bind_silent _ _ _ _ _ E), bind_modify, He in *.
  destruct (flush_one (set_s_ring r s) pkt iov rest) as (s' & E' & Hr' & [] & He' & Hp'); try done.
  { by destruct Hrest. }
  exists s'. split; [done|]. split; [done| |].
  - intros []. split; cbn in *; congruence.
  - intros k [_ _ Hk]. rewrite Ep in Hk. destruct (buffers_first _ _ Hk) as (iov' & rest' & Eq & _ & Hk').
    injection Eq as <- <-. split; [done..|]. by rewrite Hp'.
Qed.

Lemma virtio_give segs stale t1 o s :
  concat segs ≠ [] → zlen (concat segs) ≤ VBT_MAX_MSG_SIZE →
  core (hci_core (concat segs) stale) (set_s_hci_from_guest (u64 (s_hci_from_guest s + 1)) s) = Ok (tt, t1, o) →
  vio_do (EvTx [(segs, stale)]) s = Ok (tt, t1, o ++ [PUsed; PNotify]).
Proof using QL.
  intros Hne Hl E. unfold vio_do. rewrite bind_get. unfold virtio_bt_handle_tx. cbn [for_each]. unfold handle_tx_elem.
  rewrite q_to_buf by done. cbn [fst snd]. change VBT_MAX_MSG_SIZE with 556 in *.
  rewrite take_ge by (unfold zlen in Hl; lia). rewrite Z.min_r by done.
  rewrite when_true by (destruct (concat segs); [done|]; rewrite zlen_cons; pose proof (zlen_nonneg l); lia).
  rewrite !bind_assoc, bind_modify, (bind_ok _ _ _ _ _ _ E). reflexivity.
Qed.

Lemma virtio_tick now now' t1 o s :
  due (s_tick_timer s) now = true → core (vbt_ll_tick now) (set_s_tick_timer None s) = Ok (tt, t1, o) →
  virtio_takes 0 t1 →
  vio_do (EvTick now now') s = Ok (tt, set_s_tick_timer (Some (now' + TICK_MS)) t1, o ++ [PNotify]).
Proof using.
  intros Hd E Hk. unfold vio_do. rewrite bind_get, when_true by done. rewrite bind_modify. unfold virtio_bt_tick_cb.
  by rewrite (bind_ok _ _ _ _ _ _ E), (bind_ok _ _ _ _ _ _ (flush_empty t1 Hk)).
Qed.

Lemma sent_watch fd b : sent fd [PWatch fd true; PWrite fd b] = b.
Proof using. exact (sent_one fd b). Qed.

#[export] Instance virtio_end : Endpoint virtio.
Proof using QL.
  split.
  - intros c s. by apply virtio_goes.
  - intros j k s Hj [? ? Hb]. split; [done..|]. by eapply buffers_le.
  - exact virtio_air.
  - intros pkt s Hk Hl. destruct (virtio_delivers pkt s Hk Hl) as (s' & E & Hg). by eexists s', _.
  - intros segs stale s Hne Hl _. exists (set_s_hci_from_guest (u64 (s_hci_from_guest s + 1)) s).
    split; [done|]. split; [by apply virtio_goes|]. intros t1 o E. exists [PUsed; PNotify].
    split; [by apply virtio_give|by repeat constructor].
  - intros now now' s Hd. exists (set_s_tick_timer None s). split; [done|]. split; [by apply virtio_goes|].
    intros t1 o E Hk. exists (set_s_tick_timer (Some (now' + TICK_MS)) t1), [PNotify].
    split_and!; [by apply virtio_tick|done|by apply virtio_goes|by repeat constructor].
  - intros fd n s [Hp Hc] _ Hn. eexists _, _. split; [exact (try_connect_run fd (OsBytes n) s Hp Hc)|].
    cbv iota. rewrite take_ge by (unfold zlen in Hn; cbn [ep_name virtio_end_ops] in Hn; lia).
    split; [apply sent_watch|done].
  - intros s _. cbn. unfold zlen. rewrite length_take. lia.
Qed.
End End.

(** ** A guest of the virtio device on the medium *)

Definition demo_iguest (fd : Z) (nid : string) (ll : vbt_ll) (ws : list os_write) (iovs : list (list Z)) : virtio :=
  set_s_client (Client ll (replicate (Z.to_nat VBT_RXBUF_SIZE) 0) 0 0)
    (set_s_tick_timer (Some 7) (set_s_medium_connected true (set_s_medium_fd fd
      (virtio_zero (str "/tmp/hub") (str nid) ws (map Some iovs))))).

Lemma demo_iguest_rx `{QL : QemuIovLaws} fd nid ll ws iovs : pending_rx [] (demo_iguest fd nid ll ws iovs).
Proof. split; [done|]. split_and!; [apply bytes_ok_replicate|done|by eexists]. Qed.
Lemma demo_iguest_rest fd nid ll ws iovs :
  Forall (Forall (Z.le 0)) iovs → virtio_rest_ok (demo_iguest fd nid ll ws iovs).
Proof.
  intros Hi. split; [|by apply Forall_map].
  split; [done|done|done|vm_compute; done|]. apply Forall_replicate. by split.
Qed.
Lemma demo_iguest_ok `{QL : QemuIovLaws} fd nid ll ws iovs :
  ll_ok ll → Forall (Forall (Z.le 0)) iovs → virtio_ok (demo_iguest fd nid ll ws iovs).
Proof.
  intros Hll Hi. split; [by apply demo_iguest_rest|done|]. exists []. split; [|done]. apply demo_iguest_rx.
Qed.
Lemma demo_iguest_open fd nid ll ws iovs :
  0 ≤ fd → Forall willing ws → virtio_attached (demo_iguest fd nid ll ws iovs).
Proof. by split. Qed.
Lemma demo_iguest_takes fd nid ll ws iovs :
  Forall (λ iov, Forall (Z.le 0) iov ∧ VBT_MAX_MSG_SIZE ≤ iov_size iov) iovs →
  virtio_takes (length iovs) (demo_iguest fd nid ll ws iovs).
Proof.
  intros [Hi Hs]%Forall_and_inv. split; [by apply demo_iguest_rest|done|].
  exists iovs, []. by rewrite app_nil_r.
Qed.
