(* ===== verification/VirtioProps.v ===== *)
(** * The virtio-bluetooth device: correctness

    Safety of every event, the lengths reported to the guest, what becomes of
    the medium connection when the hub closes it and when a write fails. *)

From Stdlib Require Import String ZArith Lia.
From stdpp Require Import base list numbers option relations.
From S2P Require Import Prelude Wire Framing Text LLState LLEmit LLCmd LLAir LLInv LLProps LLFrame.
From S2P Require Import Client ClientProps ClientInv Ring RingProps SendProps Virtio VirtioInv.

(** Copies that do what qemu/iov.h documents. *)
#[export] Instance copy_iov : QemuIov := {
  q_iov_to_buf := iov_to_buf;
  q_iov_from_buf := iov_from_buf
}.
#[export] Instance copy_iov_laws : QemuIovLaws.
Proof.
  split; intros; cbn; unfold iov_to_buf, iov_from_buf.
  - rewrite iov_to_buf_loop_spec by lia. by rewrite Z.sub_0_r.
  - rewrite iov_from_buf_loop_spec by (done || lia). by rewrite Z.sub_0_r.
Qed.

Section Props.
Context `{QL : QemuIovLaws}.
Implicit Types (s : virtio).

(** ** Reachable devices *)

Definition vio_step s s' : Prop := ∃ e o, event_ok s e ∧ vio_do e s = Ok (tt, s', o).

(** A device with these properties, realized at some time. *)
Definition vio_reachable (path nid : list Z) (bd : option (list Z)) s : Prop :=
  ∃ ws pops d tv tr s0 o, Forall iov_ok pops ∧
    virtio_bt_device_realize true bd d tv tr (virtio_zero path nid ws pops) = Ok (true, s0, o) ∧
    rtc vio_step s0 s.

Lemma parse_bdaddr_ok bd s : addr_ok (virtio_bt_parse_bdaddr bd s).
Proof using.
  unfold virtio_bt_parse_bdaddr. destruct (bd ≫= scan_addr) as [m|] eqn:E.
  - split.
    + apply Forall_map, list.Forall_forall. intros. apply u8_range.
    + destruct bd as [t|]; [cbn in E|done]. unfold scan_addr in E. unfold zlen. rewrite length_map.
      repeat match type of E with
      | (_ ≫= _) = Some _ => let p := fresh in apply bind_Some in E as ([? ?] & p & E); clear p
      end.
      by injection E as <-.
  - split; [|done]. unfold derive_bdaddr. forall_cons; try done; apply u8_range.
Qed.

Lemma realize_safe bd d tv tr path nid ws pops :
  Forall iov_ok pops →
  tsafe (virtio_bt_device_realize true bd d tv tr) (virtio_zero path nid ws pops) (λ _, True).
Proof using QL.
  intros Hp. apply tsafe_get. unfold tsafe, upd_client. setoid_rewrite bind_modify.
  setoid_rewrite bind_modify. setoid_rewrite bind_modify. setoid_rewrite bind_modify.
  setoid_rewrite bind_modify. set (s0 := set_s_tick_timer _ _).
  assert (virtio_ok s0) as Hs0.
  { split.
    - split; [|done]. split; [done|done|done|vm_compute; done|]. apply Forall_replicate. by split.
    - apply vbt_ll_new_ok, parse_bdaddr_ok.
    - exists []. split; [|done]. split; [done|]. split_and!; [by apply bytes_ok_replicate|done|by eexists]. }
  apply (tsafe_bind _ _ _ (λ _, True)); [by apply try_connect_safe|]. intros ok s1 Hs1 _.
  apply (tsafe_bind _ _ _ (λ _, True)); [|intros _ s2 Hs2 _; by apply tsafe_ret].
  destruct ok; [by apply tsafe_ret|]. apply tsafe_modify; [|done].
  apply (virtio_ok_ext s1); [done..|]. by destruct (clok_transport _ Hs1).
Qed.

(** Only memory can be missing. *)
Lemma realize_result alloc bd d tv tr s ok s' o :
  virtio_bt_device_realize alloc bd d tv tr s = Ok (ok, s', o) → ok = alloc.
Proof using.
  unfold virtio_bt_device_realize. destruct alloc; cbn [negb]; [|by intros [= <- _ _]].
  intros E. do 8 apply bind_inv in E as (? & ? & ? & ? & _ & E & _). by injection E as <- _ _.
Qed.

Lemma vio_reachable_ok path nid bd s : vio_reachable path nid bd s → virtio_ok s.
Proof using QL.
  intros (ws & pops & d & tv & tr & s0 & o & Hp & E & Hr).
  assert (virtio_ok s0) as Hs0.
  { destruct (realize_safe bd d tv tr path nid ws pops Hp) as (a & s1 & o1 & E1 & Hs1 & _).
    rewrite E in E1. by injection E1 as _ <- _. }
  clear E. induction Hr as [s|s s1 s2 (e & o1 & He & E) _ IH]; [done|]. apply IH.
  destruct (vio_do_safe e s Hs0 He) as (a & s' & o' & E' & Hs' & _). rewrite E in E'.
  by injection E' as _ <- _.
Qed.

(** The virtio device is safe.  However it is configured, in every state it
    reaches from its realization, every event (guest queues, medium, timers,
    reset) is handled without undefined behaviour and leaves a well-formed
    state, provided no frame of the hub carries more than 30 bytes of
    advertising data. *)
Theorem virtio_events_safe (path nid : list Z) (bd : option (list Z)) s (e : vio_event) :
  vio_reachable path nid bd s → event_ok s e →
  ∃ s' o, vio_do e s = Ok (tt, s', o) ∧ virtio_ok s'.
Proof using QL.
  intros Hr He. destruct (vio_do_safe e s (vio_reachable_ok _ _ _ _ Hr) He) as ([] & s' & o & ? & ? & _). eauto.
Qed.

(** ** The lengths reported to the guest *)

(** Whatever buffers the guest supplies, the device returns each of them
    with the number of bytes it put there, in contrast to the vhost-user back
    end, and takes the packets from the front of the backlog. *)
Lemma reported_length_exact s :
  virtio_rest_ok s →
  ∃ s' o, virtio_bt_flush_pending s = Ok (tt, s', o) ∧
    (∀ b n, PPush b n ∈ o → n = zlen b) ∧ ∃ n, ring_list (s_ring s') = drop n (ring_list (s_ring s)).
Proof using QL.
  intros Hs. destruct (flush_safe s Hs) as (s' & o & E & _ & _ & Ho & Hn). exists s', o.
  split_and!; [done| |done]. intros b n Hin. by apply (proj1 (list.Forall_forall _ _) Ho) in Hin.
Qed.

(** ** Losing the medium *)

(** C35: when the hub closes the connection, the device reconnects: the end of
    file arms the reconnect timer, and when it fires two seconds later and the
    hub accepts, the device is connected, its handler set and its whole hello
    sent, with an empty receive buffer. *)
Theorem eof_reconnects s (now now' fd n : Z) :
  virtio_ok s → 0 ≤ s_medium_fd s → s_medium_path s ≠ [] → now + MEDIUM_RECONNECT_MS ≤ now' →
  zlen (hello_wire (take 63 (node_name s))) ≤ n →
  ∃ s' o, vio_run [EvMedium RdEof now; EvReconnect (Dialled fd (OsBytes n)) now'] s =
      Ok (tt, s', o ++ [PWatch fd true; PWrite fd (hello_wire (take 63 (node_name s)))]) ∧
    s_medium_fd s' = fd ∧ s_medium_connected s' = true ∧ pending_rx [] s' ∧ virtio_ok s'.
Proof using QL.
  intros Hs Hfd Hp Ht Hn. unfold vio_run. cbn [for_each].
  assert (∃ s1, vio_do (EvMedium RdEof now) s =
      Ok (tt, s1, [PWatch (s_medium_fd s) false; PClose (s_medium_fd s)]) ∧ s_medium_connected s1 = false ∧
    s_reconnect_timer s1 = Some (now + MEDIUM_RECONNECT_MS) ∧ s_medium_path s1 = s_medium_path s ∧
    s_node_id s1 = s_node_id s) as (s1 & E1 & Hc1 & Ht1 & Hp1 & Hn1).
  { eexists. split.
    - unfold vio_do. rewrite bind_get. unfold virtio_bt_medium_read.
      rewrite bind_get, if_false by lia. reflexivity.
    - done. }
  assert (virtio_ok s1) as Hs1.
  { destruct (vio_do_safe (EvMedium RdEof now) s Hs) as (a & s1' & o' & E' & ? & _); [done|].
    rewrite E1 in E'. by injection E' as _ <- _. }
  rewrite (bind_ok _ _ _ _ _ _ E1).
  assert (node_name s1 = node_name s) as Hnn by (unfold node_name; by rewrite Hn1).
  set (s2 := set_s_reconnect_timer None s1).
  assert (virtio_ok s2) as Hs2.
  { apply (virtio_ok_ext s1); [done..|]. by destruct (clok_transport _ Hs1). }
  destruct (try_connect_safe (Dialled fd (OsBytes n)) s2 Hs2) as (a & s3 & o3 & E3 & Hs3 & _).
  assert (s_medium_path s2 ≠ []) as Hp2 by (change (s_medium_path s1 ≠ []); by rewrite Hp1).
  pose proof (try_connect_run fd (OsBytes n) s2 Hp2 Hc1) as Hrun. rewrite Hrun in E3. injection E3 as <- <- <-.
  unfold vio_do. rewrite bind_assoc, bind_get. unfold due. rewrite Ht1, when_true by lia.
  rewrite bind_assoc, bind_modify. fold s2. unfold virtio_bt_reconnect_cb. rewrite bind_assoc, bind_get.
  rewrite if_false by done. rewrite bind_assoc, (bind_ok _ _ _ _ _ _ Hrun).
  eexists _, [PWatch (s_medium_fd s) false; PClose (s_medium_fd s)]. split.
  { change (node_name s2) with (node_name s1). rewrite Hnn, (take_ge (hello_wire _)) by (unfold zlen in Hn; lia). reflexivity. }
  split_and!; [done|done| |done].
  destruct (clok_rx _ Hs2) as (d & [_ (Hb & Hz & _)] & _). split; [done|].
  by split_and!; [| |eexists].
Qed.

(** Off the medium with no attempt scheduled. *)
Definition stranded s : Prop :=
  s_medium_fd s = -1 ∧ s_medium_connected s = false ∧ s_reconnect_timer s = None.
(** Nothing is written to a socket and no handler set. *)
Definition off_air (e : pev) : Prop :=
  match e with PWrite _ _ | PWatch _ _ => False | _ => True end.

Lemma stranded_callback w s s' o :
  stranded s ∧ virtio_rest_ok s → callback w s = Ok (tt, s', o) →
  (stranded s' ∧ virtio_rest_ok s') ∧ Forall off_air o.
Proof using QL.
  intros [(Hfd & Hc & Ht) Hr] E. destruct w as [pkt|hdr pdu]; cbn in E.
  - destruct (queue_to_guest_safe pkt s Hr) as (s1 & o1 & E1 & Hr1 & [] & Ho). rewrite E in E1.
    injection E1 as <- <-. split; [split; [|done]; by split_and!; congruence|].
    eapply Forall_impl; [exact Ho|]. by intros [].
  - unfold cb_pdu_to_medium in E. rewrite bind_get, Hc in E. by injection E as <- <-.
Qed.

(** A core call of a stranded device. *)
Lemma stranded_core m s s' o :
  stranded s → virtio_rest_ok s → core m s = Ok (tt, s', o) →
  stranded s' ∧ virtio_rest_ok s' ∧ Forall off_air o.
Proof using QL.
  intros Hs Hr E. unfold core in E. destruct (m _) as [[[x ll] outs]|]; [|done].
  set (s0 := set_client _ s) in E.
  assert (stranded s0 ∧ virtio_rest_ok s0) as H0 by (split; [done|by destruct Hr]).
  clearbody s0. clear Hs Hr. revert s0 H0 o E. induction outs as [|w outs IH]; intros s0 H0 o E; cbn [for_each] in E.
  { injection E as <- <-. by destruct H0. }
  destruct (callback w s0) as [[[[] s1] o1]|] eqn:E1; [|by rewrite (bind_fault _ _ _ _ E1) in E].
  rewrite (bind_ok _ _ _ _ _ _ E1) in E. destruct (stranded_callback _ _ _ _ H0 E1) as [H1 Ho1].
  destruct (for_each outs callback s1) as [[[[] s2] o2]|] eqn:E2; [|done]. injection E as <- <-.
  destruct (IH s1 H1 _ E2) as (? & ? & ?). split_and!; [done..|]. by apply Forall_app_2.
Qed.

(** Programs that keep a device stranded and off the air. *)
Definition strands {A} (m : VIO A) s : Prop :=
  ∃ a s' o, m s = Ok (a, s', o) ∧ virtio_ok s' ∧ stranded s' ∧ Forall off_air o.

Lemma strands_bind {A B} (m : VIO A) (k : A → VIO B) s :
  strands m s → (∀ a s', virtio_ok s' → stranded s' → strands (k a) s') → strands (m ≫= k) s.
Proof using.
  intros (a & s1 & o1 & E1 & H1 & Hs1 & Ho1) Hk.
  destruct (Hk a s1 H1 Hs1) as (b & s2 & o2 & E2 & H2 & Hs2 & Ho2).
  exists b, s2, (o1 ++ o2). split_and!; [|done|done|by apply Forall_app_2].
  by rewrite (bind_ok _ _ _ _ _ _ E1), E2.
Qed.
Lemma strands_modify f s :
  virtio_ok s → stranded s → s_client (f s) = s_client s → virtio_rest_ok (f s) → stranded (f s) →
  strands (modify f) s.
Proof using. intros Hs ? ? ? ?. eexists _, _, _. split; [done|]. split_and!; [|done|done]. by apply (virtio_ok_ext s). Qed.
Lemma strands_emit e s : virtio_ok s → stranded s → off_air e → strands (emit e) s.
Proof using. intros. eexists _, _, _. split; [done|]. split_and!; [done..|]. by constructor. Qed.
Lemma strands_for_each {A} (l : list A) (f : A → VIO unit) s :
  virtio_ok s → stranded s → (∀ x s', x ∈ l → virtio_ok s' → stranded s' → strands (f x) s') →
  strands (for_each l f) s.
Proof using.
  revert s. induction l as [|x l IH]; intros s Hs Ht Hf; cbn [for_each]; [by eexists _, _, _|].
  apply strands_bind; [apply Hf; [left|done..]|]. intros _ s' Hs' Ht'. apply IH; [done..|].
  intros y s2 Hy. apply Hf. by right.
Qed.
Lemma strands_core m s :
  virtio_ok s → stranded s → llsafe m (cl_ll (s_client s)) nopost → strands (core m) s.
Proof using.
  intros Hs Ht Hm. destruct (core_safe m s Hs Hm) as (s' & o & E & Hs' & _).
  destruct (stranded_core m s s' o Ht (clok_transport _ Hs) E) as (? & _ & ?). by exists tt, s', o.
Qed.
Lemma strands_flush s : virtio_ok s → stranded s → strands virtio_bt_flush_pending s.
Proof using.
  intros Hs (Hf & Hc & Ht). destruct (flush_safe s (clok_transport _ Hs)) as (s' & o & E & Hr & [] & Ho & _).
  exists tt, s', o. split_and!; [done|by apply (virtio_ok_ext s)|by split_and!; congruence|].
  eapply Forall_impl; [exact Ho|]. by intros [].
Qed.

Lemma strands_tx_elem e s : virtio_ok s → stranded s → elem_ok e → strands (handle_tx_elem e) s.
Proof using.
  intros Hs Ht (Hb & Hst & Hl). unfold handle_tx_elem. rewrite q_to_buf by done.
  set (d := take _ (concat (fst e))).
  assert (zlen d = Z.min VBT_MAX_MSG_SIZE (zlen (concat (fst e)))) as Hd.
  { unfold d, zlen. rewrite length_take. change VBT_MAX_MSG_SIZE with 556. lia. }
  apply strands_bind; [|by intros; apply strands_emit]. rewrite <- Hd.
  destruct (0 <? zlen d); cbn [when]; [|by eexists _, _, _].
  apply strands_bind; [apply strands_modify; try done; by destruct (clok_transport _ Hs)|].
  intros _ s1 Hs1 Ht1. apply strands_core; [done..|].
  assert (bytes_ok d) as Hdb by by apply Forall_take, Forall_concat.
  destruct (splice_ok d (snd e) Hdb Hst) as [Hsb Hz]; [lia|].
  apply vbt_ll_hci_from_host_safe; [apply Hs1|done|..]; rewrite Hz, Hl; [done|lia].
Qed.

(** Events as QEMU can deliver them to a device that is off the medium. *)
Definition offline_event (e : vio_event) : Prop :=
  match e with EvTx elems => Forall elem_ok elems | _ => True end.

Lemma strands_event e s : virtio_ok s → stranded s → offline_event e → strands (vio_do e) s.
Proof using.
  intros Hs Ht He. pose proof Ht as (Hf & Hc & Hn). pose proof (clok_transport _ Hs) as [Hring Hpops].
  assert (∀ A (k : virtio → VIO A), strands (k s) s → strands (get ≫= k) s) as Hget.
  { intros A k (a & s' & o & E & H'). exists a, s', o. by rewrite bind_get. }
  apply Hget. destruct e as [elems| |r now|now now'|d now|].
  - apply strands_bind; [|by intros; apply strands_emit]. apply strands_for_each; [done..|].
    intros x s' Hx ? ?. apply strands_tx_elem; [done..|]. by apply (proj1 (list.Forall_forall _ _) He).
  - by apply strands_flush.
  - apply Hget. rewrite if_true by lia. by eexists _, _, _.
  - destruct (due _ _); [|by eexists _, _, _]. cbn [when].
    apply strands_bind; [apply strands_modify; try done; by destruct (clok_transport _ Hs)|].
    intros _ s1 Hs1 Ht1. apply strands_bind; [apply strands_core; [done..|by apply vbt_ll_tick_safe, Hs1]|].
    intros _ s2 Hs2 Ht2. apply strands_bind; [by apply strands_flush|].
    intros _ s3 Hs3 Ht3. apply strands_modify; try done; by destruct (clok_transport _ Hs3).
  - rewrite Hn. by eexists _, _, _.
  - apply strands_modify; try done. split; [|done]. cbn. destruct Hring. by split.
Qed.

(** C39: a failed write leaves the device off the medium for good.  When writing
    a frame fails, the socket is closed but no reconnection is scheduled:
    whatever events follow, the device writes to no socket, sets no handler
    and stays disconnected, although the hub may accept connections.  (The end
    of file on the socket, in contrast, schedules one.) *)
Theorem write_failure_strands (hdr : vbt_frame_hdr) (pdu : list Z) s cs ws (es : list vio_event) :
  virtio_ok s → s_medium_connected s = true → 0 ≤ s_medium_fd s → s_reconnect_timer s = None →
  frame_ok hdr pdu → send_loop (s_writes s) (frame_bytes hdr pdu) = (cs, ws, false) →
  Forall offline_event es →
  ∃ s1 o1 s2 o2, cb_pdu_to_medium hdr pdu s = Ok (tt, s1, o1) ∧ vio_run es s1 = Ok (tt, s2, o2) ∧
    s_medium_connected s2 = false ∧ s_medium_fd s2 = -1 ∧ Forall off_air o2.
Proof using QL.
  intros Hs Hc Hfd Ht Hf E Hes. pose proof (cb_pdu_run _ _ _ _ _ _ Hc Hfd Hf E) as Hrun. cbv iota in Hrun.
  set (s1 := set_s_medium_connected _ _) in Hrun.
  assert (virtio_ok s1) as Hs1 by (apply (virtio_ok_ext s); [done..|by destruct (clok_transport _ Hs)]).
  assert (strands (vio_run es) s1) as (a & s2 & o2 & E2 & _ & (Hf2 & Hc2 & _) & Ho2).
  { apply strands_for_each; [done..|]. intros e s' He ? ?. apply strands_event; [done..|].
    by apply (proj1 (list.Forall_forall _ _) Hes). }
  destruct a. eexists s1, _, s2, o2. split_and!; [exact Hrun|done..].
Qed.
End Props.

(** ** Examples *)

Definition demo_virtio : virtio :=
  set_s_medium_connected true (set_s_medium_fd 5 (set_s_tick_timer (Some 7)
    (virtio_zero (str "/tmp/hub") [] [OsBytes 10; OsError] [Some [600]]))).

Lemma demo_pops_ok : Forall iov_ok (s_pops demo_virtio).
Proof. repeat apply Forall_cons_2; try apply Forall_nil_2. cbn. by forall_cons. Qed.
Lemma demo_virtio_ok : virtio_ok demo_virtio.
Proof.
  split.
  - split; [|apply demo_pops_ok]. split; [done|done|done|vm_compute; done|]. apply Forall_replicate. by split.
  - apply vbt_ll_new_ok. split; [apply (bytes_ok_replicate 6)|done].
  - exists []. split; [|done]. split; [done|]. split_and!; [by apply bytes_ok_replicate|done|by eexists].
Qed.

(** A device without a medium, as it is realized. *)
Definition demo_realized : virtio :=
  match virtio_bt_device_realize true None NoSocket 0 0 (virtio_zero [] [] [] []) with
  | Ok (_, s, _) => s
  | Fault _ => demo_virtio
  end.

Lemma virtio_events_safe_witness :
  ∃ s' o, vio_do (EvTick 5 6) demo_realized = Ok (tt, s', o) ∧ virtio_ok s'.
Proof.
  apply (virtio_events_safe [] [] None demo_realized (EvTick 5 6)); [|exact I].
  exists [], [], NoSocket, 0, 0, demo_realized, [].
  split; [done|]. split; [vm_compute; reflexivity|apply rtc_refl].
Defined.

Lemma eof_reconnects_witness :
  ∃ s' o, vio_run [EvMedium RdEof 100; EvReconnect (Dialled 8 (OsBytes 72)) 2100] demo_virtio =
      Ok (tt, s', o ++ [PWatch 8 true; PWrite 8 (hello_wire (take 63 (node_name demo_virtio)))]) ∧
    s_medium_fd s' = 8 ∧ s_medium_connected s' = true ∧ pending_rx [] s' ∧ virtio_ok s'.
Proof.
  apply (eof_reconnects demo_virtio 100 2100 8 72); try done. apply demo_virtio_ok.
Defined.

Lemma write_failure_strands_witness :
  ∃ s1 o1 s2 o2, cb_pdu_to_medium (demo_adv_hdr 3) [0; 1; 7] demo_virtio = Ok (tt, s1, o1) ∧
    vio_run [EvTick 7 7; EvReconnect (Dialled 8 (OsBytes 72)) 5000] s1 = Ok (tt, s2, o2) ∧
    s_medium_connected s2 = false ∧ s_medium_fd s2 = -1 ∧ Forall off_air o2.
Proof.
  eapply (write_failure_strands (demo_adv_hdr 3) [0; 1; 7] demo_virtio).
  - apply demo_virtio_ok.
  - reflexivity.
  - done.
  - reflexivity.
  - apply demo_frame_ok.
  - vm_compute. reflexivity.
  - by repeat constructor.
Defined.
