(* ===== verification/VirtioPci.v ===== *)
(** * The device in QEMU's object model (src/src/vbt_virtio.c)

    The classes and types the file registers, and the object the user
    instantiates, virtio-bluetooth-pci: its three string properties, which may
    be written at any time, the realization of the device inside it, the calls
    QEMU makes through the class of the device, and its removal.  [g_strdup]
    copies a C string, and the empty string stands for NULL where the code
    treats the two alike. *)

From Stdlib Require Import String ZArith Lia.
From stdpp Require Import base list numbers option relations.
From S2P Require Import Prelude Wire Text LLState LLEmit LLCmd LLAir LLInv Client ClientProps ClientInv Ring RingProps.
From S2P Require Import Virtio VirtioInv VirtioProps.

(** [struct VirtIOBTPCI]; [bdaddr_str] is a field of the embedded [VirtIOBT]
    that only [virtio_bt_parse_bdaddr] reads. *)
Record bt_pci : Type := BtPci {
  pci_vdev : virtio;
  pci_bdaddr_str : option (list Z)
}.
Definition set_pci_vdev (v : virtio) (d : bt_pci) : bt_pci := BtPci v (pci_bdaddr_str d).
Definition set_pci_bdaddr_str (v : option (list Z)) (d : bt_pci) : bt_pci := BtPci (pci_vdev d) v.
Abbreviation PCI := (cmd bt_pci pev).

(** What migration saves, and the category of a device. *)
Inductive vmstate_field : Type := VMSTATE_VIRTIO_DEVICE.
Record vmstate : Type := VmState {
  vm_name : list Z;
  vm_version_id : Z;
  vm_minimum_version_id : Z;
  vm_fields : list vmstate_field
}.
Inductive device_category : Type := DEVICE_CATEGORY_NETWORK.

Definition vmstate_virtio_bt : vmstate := VmState (str "virtio-bluetooth") 1 1 [VMSTATE_VIRTIO_DEVICE].

Definition TYPE_VIRTIO_BT : list Z := str "virtio-bluetooth".
Definition TYPE_VIRTIO_BT_PCI : list Z := str "virtio-bluetooth-pci-base".

(** The members of [DeviceClass] and [VirtioDeviceClass] that the device sets. *)
Record virtio_class : Type := VirtioClass {
  dc_categories : list device_category;
  dc_vmsd : vmstate;
  vdc_realize : bool → option (list Z) → dial → Z → Z → VIO bool;
  vdc_unrealize : VIO unit;
  vdc_get_config : list Z → VIO (list Z);
  vdc_set_config : list Z → VIO unit;
  vdc_get_features : Z → Z;
  vdc_reset : VIO unit
}.
(** Those of [DeviceClass] and [VirtioPCIClass]. *)
Record pci_class : Type := PciClass {
  k_realize : bool → dial → Z → Z → PCI bool;
  k_categories : list device_category;
  k_desc : list Z
}.
Record type_info : Type := TypeInfo { ti_name : list Z; ti_parent : list Z; ti_class : virtio_class }.
Record pci_type_info : Type := PciTypeInfo {
  pti_base_name : list Z;
  pti_generic_name : list Z;
  pti_instance_init : list os_write → list (option (list Z)) → bt_pci;
  pti_class : pci_class
}.

Section Proxy.
Context {Q : QemuIov}.

(** The configuration is read-only for the guest. *)
Definition virtio_bt_set_config (config : list Z) : VIO unit := skip.

Definition virtio_bt_class_init : virtio_class := {|
  dc_categories := [DEVICE_CATEGORY_NETWORK];
  dc_vmsd := vmstate_virtio_bt;
  vdc_realize := virtio_bt_device_realize;
  vdc_unrealize := virtio_bt_device_unrealize;
  vdc_get_config := virtio_bt_get_config;
  vdc_set_config := virtio_bt_set_config;
  vdc_get_features := virtio_bt_get_features;
  vdc_reset := virtio_bt_reset
|}.

(** An operation of the embedded device. *)
Definition on_vdev {A} (m : VIO A) : PCI A := λ d,
  match m (pci_vdev d) with
  | Ok (a, s, o) => Ok (a, set_pci_vdev s d, o)
  | Fault e => Fault e
  end.

Definition virtio_bt_pci_instance_init (ws : list os_write) (pops : list (option (list Z))) : bt_pci :=
  BtPci (virtio_zero [] [] ws pops) None.

Definition virtio_bt_pci_get_medium (d : bt_pci) : list Z := s_medium_path (pci_vdev d).
Definition virtio_bt_pci_set_medium (v : list Z) : PCI unit :=
  modify (λ d, set_pci_vdev (set_s_medium_path (c_str v) (pci_vdev d)) d).
Definition virtio_bt_pci_get_node_id (d : bt_pci) : list Z := s_node_id (pci_vdev d).
Definition virtio_bt_pci_set_node_id (v : list Z) : PCI unit :=
  modify (λ d, set_pci_vdev (set_s_node_id (c_str v) (pci_vdev d)) d).
Definition virtio_bt_pci_get_bdaddr (d : bt_pci) : list Z := default [] (pci_bdaddr_str d).
Definition virtio_bt_pci_set_bdaddr (v : list Z) : PCI unit :=
  modify (set_pci_bdaddr_str (Some (c_str v))).

(** [qdev_realize] calls the device through its class. *)
Definition virtio_bt_pci_realize (alloc : bool) (dl : dial) (now_v now_r : Z) : PCI bool :=
  d ← get; on_vdev (vdc_realize virtio_bt_class_init alloc (pci_bdaddr_str d) dl now_v now_r).

Definition virtio_bt_pci_class_init : pci_class := {|
  k_realize := virtio_bt_pci_realize;
  k_categories := [DEVICE_CATEGORY_NETWORK];
  k_desc := str "Virtual BLE controller (virtio-bluetooth)"
|}.

(** The name of the parent type is QEMU's. *)
Definition virtio_bt_info (TYPE_VIRTIO_DEVICE : list Z) : type_info :=
  TypeInfo TYPE_VIRTIO_BT TYPE_VIRTIO_DEVICE virtio_bt_class_init.
Definition virtio_bt_pci_info : pci_type_info := {|
  pti_base_name := TYPE_VIRTIO_BT_PCI;
  pti_generic_name := str "virtio-bluetooth-pci";
  pti_instance_init := virtio_bt_pci_instance_init;
  pti_class := virtio_bt_pci_class_init
|}.
Definition virtio_bt_register_types (TYPE_VIRTIO_DEVICE : list Z) : list type_info * list pci_type_info :=
  ([virtio_bt_info TYPE_VIRTIO_DEVICE], [virtio_bt_pci_info]).

(** What QEMU calls through the class of a realized device, and its removal. *)
Inductive class_call : Type :=
  | CallGetConfig (config : list Z)
  | CallSetConfig (config : list Z)
  | CallReset.
Definition class_do (k : virtio_class) (c : class_call) : VIO unit :=
  match c with
  | CallGetConfig config => _ ← vdc_get_config k config; skip
  | CallSetConfig config => vdc_set_config k config
  | CallReset => vdc_reset k
  end.
Definition pci_remove : PCI unit := on_vdev (vdc_unrealize virtio_bt_class_init).

(** What may happen to the object. *)
Inductive pci_op : Type :=
  | SetMedium (v : list Z)
  | SetNodeId (v : list Z)
  | SetBdaddr (v : list Z)
  | Device (e : vio_event)
  | Call (c : class_call).
Definition pci_do (p : pci_op) : PCI unit :=
  match p with
  | SetMedium v => virtio_bt_pci_set_medium v
  | SetNodeId v => virtio_bt_pci_set_node_id v
  | SetBdaddr v => virtio_bt_pci_set_bdaddr v
  | Device e => on_vdev (vio_do e)
  | Call c => on_vdev (class_do virtio_bt_class_init c)
  end.
Definition pci_run (ps : list pci_op) : PCI unit := for_each ps pci_do.

(** ** The device never touches its configuration *)

Definition leaves_config {A} (m : VIO A) : Prop :=
  ∀ s a s' o, m s = Ok (a, s', o) → s_medium_path s' = s_medium_path s ∧ s_node_id s' = s_node_id s.

Lemma config_bind {A B} (m : VIO A) (f : A → VIO B) : leaves_config m → (∀ a, leaves_config (f a)) → leaves_config (m ≫= f).
Proof using.
  intros Hm Hf s b s' o (a & s1 & o1 & o2 & E1 & E2 & _)%bind_inv.
  destruct (Hm _ _ _ _ E1) as [<- <-]. by apply (Hf a _ _ _ _ E2).
Qed.
Lemma config_ret {A} (a : A) : leaves_config (mret a : VIO A).
Proof using. by intros s b s' o [= <- <- <-]. Qed.
Lemma config_skip : leaves_config skip.
Proof using. apply config_ret. Qed.
Lemma config_get : leaves_config get.
Proof using. by intros s b s' o [= <- <- <-]. Qed.
Lemma config_gets {A} (f : virtio → A) : leaves_config (gets f).
Proof using. by intros s b s' o [= <- <- <-]. Qed.
Lemma config_emit e : leaves_config (emit e).
Proof using. by intros s b s' o [= <- <- <-]. Qed.
Lemma config_fail {A} f : leaves_config (fail f : VIO A).
Proof using. done. Qed.
Lemma config_modify f :
  (∀ s, s_medium_path (f s) = s_medium_path s ∧ s_node_id (f s) = s_node_id s) → leaves_config (modify f).
Proof using. intros Hf s b s' o [= <- <- <-]. apply Hf. Qed.
Lemma config_when b m : leaves_config m → leaves_config (when b m).
Proof using. intros. destruct b; [done|apply config_ret]. Qed.
Lemma config_each {A} (l : list A) f : (∀ x, leaves_config (f x)) → leaves_config (for_each l f).
Proof using. intros Hf. induction l; cbn; [apply config_ret|by apply config_bind]. Qed.
End Proxy.

Create HintDb config.
#[export] Hint Resolve config_bind config_ret config_skip config_get config_gets config_emit config_fail config_modify config_when
  config_each : config.

Section Keeps.
Context {Q : QemuIov}.

Lemma config_rdn b off n : leaves_config (rdn b off n).
Proof using. unfold rdn. case_decide; auto with config. Qed.
Lemma config_rd b i : leaves_config (rd b i).
Proof using. unfold rd. case_decide; [destruct (_ !! _)|]; auto with config. Qed.
Lemma config_local_buf n l : leaves_config (local_buf n l).
Proof using. unfold local_buf. case_decide; auto with config. Qed.
Lemma config_front r : leaves_config (ring_front r).
Proof using. unfold ring_front. destruct (_ !! _); auto with config. Qed.
Lemma config_offer pkt r : leaves_config (ring_offer pkt r).
Proof using.
  unfold ring_offer. do 2 (case_match; [auto with config|]). apply config_bind; [|auto with config].
  unfold ring_put. apply config_bind; [apply config_local_buf|]. intros b. case_match; auto with config.
Qed.
Lemma config_send fd data : leaves_config (send_wire s_writes set_s_writes fd data).
Proof using.
  unfold send_wire. apply config_bind; [auto with config|]. intros s.
  destruct (send_loop _ _) as [[? ?] ?]. auto with config.
Qed.
Hint Resolve config_rdn config_rd config_local_buf config_front config_offer config_send : config.

Lemma config_flush_loop pops : leaves_config (flush_loop pops).
Proof using.
  induction pops as [|[iov|] pops IH]; cbn [flush_loop]; apply config_bind; auto with config; intros s;
    case_match; auto with config.
  apply config_bind; [auto with config|]. intros _. apply config_bind; [auto with config|]. intros p.
  destruct (q_iov_from_buf _ _ _). auto 8 with config.
Qed.
Lemma config_flush : leaves_config virtio_bt_flush_pending.
Proof using. unfold virtio_bt_flush_pending. auto using config_flush_loop with config. Qed.
Hint Resolve config_flush : config.

Lemma config_callback w : leaves_config (callback w).
Proof using.
  destruct w as [pkt|hdr pdu]; cbn [callback virtio_transport].
  - unfold virtio_bt_queue_to_guest. apply config_bind; [auto with config|]. intros s.
    apply config_bind; [auto with config|]. intros [r|]; auto with config.
  - unfold cb_pdu_to_medium. apply config_bind; [auto with config|]. intros s. case_match; [auto with config|].
    apply config_bind; [auto with config|]. intros w. apply config_bind; [auto with config|].
    intros []; auto 8 with config.
Qed.
Lemma config_core m : leaves_config (core m).
Proof using.
  intros s a s' o. unfold core. destruct (m _) as [[[? ll] outs]|]; [|done]. intros E.
  destruct (config_each outs _ config_callback _ _ _ _ E) as [-> ->]. done.
Qed.
Lemma config_upd_client f : leaves_config (upd_client f).
Proof using. unfold upd_client. auto with config. Qed.
Hint Resolve config_core config_upd_client : config.

Lemma config_client_frame hdr n : leaves_config (client_frame hdr n).
Proof using. unfold client_frame. auto 8 with config. Qed.
Hint Resolve config_client_frame : config.
Lemma config_message n : leaves_config (client_message n).
Proof using. unfold client_message. auto 8 with config. Qed.
Lemma config_consume n : leaves_config (client_consume n).
Proof using.
  unfold client_consume. apply config_bind; [auto with config|]. intros c. cbv zeta. case_match; auto with config.
Qed.
Hint Resolve config_message config_consume : config.
Lemma config_loop fuel : leaves_config (client_loop fuel).
Proof using.
  induction fuel as [|fuel IH]; cbn [client_loop]; apply config_bind; auto with config; intros c;
    case_match; auto with config.
  apply config_bind; [auto with config|]. intros hd. cbv zeta. repeat case_match; auto with config.
Qed.
Lemma config_input l : leaves_config (client_input l).
Proof using. unfold client_input. apply config_bind; [auto with config|]. intros c. auto using config_loop with config. Qed.
Hint Resolve config_input : config.

Lemma config_try_connect d : leaves_config (virtio_bt_try_connect d).
Proof using.
  unfold virtio_bt_try_connect. apply config_bind; [auto with config|]. intros s.
  case_match; [auto with config|]. case_match; [auto with config|]. destruct d as [|fd|fd w]; auto with config.
  destruct w; auto 20 with config.
Qed.
Hint Resolve config_try_connect : config.

Lemma config_event e : leaves_config (vio_do e).
Proof using.
  unfold vio_do, virtio_bt_handle_tx, handle_tx_elem, virtio_bt_handle_rx, virtio_bt_tick_cb, virtio_bt_reset.
  apply config_bind; [auto with config|]. intros s.
  destruct e as [elems| |r now|now now'|d now|]; auto 9 with config.
  - apply config_bind; [|auto with config]. apply config_each. intros [d b]. cbn.
    destruct (q_iov_to_buf _ _). auto 8 with config.
  - unfold virtio_bt_medium_read. apply config_bind; [auto with config|]. intros s'. case_match; [auto with config|].
    apply config_bind; [auto with config|]. intros _. unfold virtio_bt_schedule_reconnect.
    destruct r as [[|b l]| | |]; auto 12 with config.
  - unfold virtio_bt_reconnect_cb. apply config_when, config_bind; [auto with config|]. intros _.
    apply config_bind; [auto with config|]. intros s'. case_match; [auto with config|].
    apply config_bind; [auto with config|]. intros []; auto with config.
Qed.

Lemma config_call c : leaves_config (class_do virtio_bt_class_init c).
Proof using.
  destruct c as [config|config|]; cbn [class_do virtio_bt_class_init vdc_get_config vdc_set_config vdc_reset].
  - unfold virtio_bt_get_config. apply config_bind; [case_match; auto with config|auto with config].
  - apply config_skip.
  - unfold virtio_bt_reset. auto with config.
Qed.
End Keeps.

(** ** The properties, from the first write on *)

(** What a user reads back: the last value written. *)
Record settings : Type := Settings { set_medium : list Z; set_node : list Z; set_bdaddr : option (list Z) }.
Definition settings_of (d : bt_pci) : settings :=
  Settings (virtio_bt_pci_get_medium d) (virtio_bt_pci_get_node_id d) (pci_bdaddr_str d).
Definition written_by (c : settings) (p : pci_op) : settings :=
  match p with
  | SetMedium v => Settings (c_str v) (set_node c) (set_bdaddr c)
  | SetNodeId v => Settings (set_medium c) (c_str v) (set_bdaddr c)
  | SetBdaddr v => Settings (set_medium c) (set_node c) (Some (c_str v))
  | Device _ | Call _ => c
  end.
Definition is_write (p : pci_op) : Prop := match p with Device _ | Call _ => False | _ => True end.

Section Pci.
Context `{QL : QemuIovLaws}.
Implicit Types (d : bt_pci).

Lemma on_vdev_settings (m : VIO unit) d d' o :
  leaves_config m → on_vdev m d = Ok (tt, d', o) → settings_of d' = settings_of d.
Proof using.
  intros Hm. unfold on_vdev. destruct (m (pci_vdev d)) as [[[[] s] o']|] eqn:E; [|done]. intros [= <- _].
  apply Hm in E as [Ep En]. unfold settings_of, virtio_bt_pci_get_medium, virtio_bt_pci_get_node_id. cbn.
  by rewrite Ep, En.
Qed.
Lemma pci_do_settings p d d' o :
  pci_do p d = Ok (tt, d', o) → settings_of d' = written_by (settings_of d) p.
Proof using.
  destruct p as [v|v|v|e|c]; try (by intros [= <- _]); apply on_vdev_settings; [apply config_event|apply config_call].
Qed.

(** Before the realization nothing but the properties changes. *)
Lemma pci_writes cfg c ws pops :
  Forall is_write cfg →
  let c' := foldl written_by c cfg in
  pci_run cfg (BtPci (virtio_zero (set_medium c) (set_node c) ws pops) (set_bdaddr c)) =
    Ok (tt, BtPci (virtio_zero (set_medium c') (set_node c') ws pops) (set_bdaddr c'), []).
Proof using.
  intros Hc. revert c. induction Hc as [|p cfg Hp _ IH]; intros c c'; [done|].
  unfold pci_run. cbn [for_each]. subst c'. cbn [foldl]. destruct p as [v|v|v|e|c0]; [..|done|done].
  - erewrite bind_silent by reflexivity. exact (IH (written_by c (SetMedium v))).
  - erewrite bind_silent by reflexivity. exact (IH (written_by c (SetNodeId v))).
  - erewrite bind_silent by reflexivity. exact (IH (written_by c (SetBdaddr v))).
Qed.

(** The realization keeps the properties and gives the controller its address. *)
Lemma realize_public bd dl tv tr s s' o :
  virtio_bt_device_realize true bd dl tv tr s = Ok (true, s', o) →
  s_medium_path s' = s_medium_path s ∧ s_node_id s' = s_node_id s ∧
  public_addr (cl_ll (s_client s')) = virtio_bt_parse_bdaddr bd s.
Proof using.
  unfold virtio_bt_device_realize. cbn [negb]. rewrite bind_get. unfold upd_client. do 5 rewrite bind_modify.
  set (s1 := set_s_tick_timer _ _). intros (ok & s2 & o2 & o3 & E & E3 & _)%bind_inv.
  assert (cl_ll (s_client s2) = cl_ll (s_client s1)) as Hll.
  { revert E. unfold virtio_bt_try_connect. rewrite bind_get. destruct (s_medium_path s1); [by intros [= _ <- _]|].
    destruct (s_medium_connected s1); [by intros [= _ <- _]|]. destruct dl as [|fd|fd w]; [by intros [= _ <- _]..|].
    rewrite !bind_modify. unfold upd_client. rewrite bind_modify, bind_emit.
    rewrite bind_local_buf by apply hello_name_fits. destruct w; by intros [= _ <- _]. }
  apply config_try_connect in E as [E1 E2].
  assert (s_medium_path s' = s_medium_path s2 ∧ s_node_id s' = s_node_id s2 ∧ s_client s' = s_client s2)
    as (-> & -> & ->) by (destruct ok; by injection E3 as <- _).
  by rewrite E1, E2, Hll.
Qed.

(** Admissible operations: the configuration space is as large as it was made. *)
Definition op_ok d (p : pci_op) : Prop :=
  match p with
  | Device e => event_ok (pci_vdev d) e
  | Call (CallGetConfig config) => zlen config = zlen virtio_bt_config
  | _ => True
  end.
Fixpoint pci_ops_ok (ps : list pci_op) d : Prop :=
  match ps with
  | [] => True
  | p :: ps =>
      op_ok d p ∧
      ∀ d' o, pci_do p d = Ok (tt, d', o) → pci_ops_ok ps d'
  end.

Lemma class_do_safe c s :
  virtio_ok s → match c with CallGetConfig config => zlen config = zlen virtio_bt_config | _ => True end →
  ∃ s' o, class_do virtio_bt_class_init c s = Ok (tt, s', o) ∧ virtio_ok s'.
Proof using QL.
  intros Hs Hc. destruct c as [config|config|].
  - exists s, []. split; [|done]. cbn. unfold virtio_bt_get_config. by rewrite if_false by lia.
  - by exists s, [].
  - eexists _, _. split; [reflexivity|]. destruct (clok_transport _ Hs) as [[] ?].
    apply (virtio_ok_ext s); [done..|]. by split.
Qed.

Lemma pci_do_safe p d :
  virtio_ok (pci_vdev d) → op_ok d p → ∃ d' o, pci_do p d = Ok (tt, d', o) ∧ virtio_ok (pci_vdev d').
Proof using QL.
  intros Hd Hp. destruct p as [v|v|v|e|c].
  1-3: eexists _, _; split; [reflexivity|]; cbn; try done; apply (virtio_ok_ext (pci_vdev d)); try done;
    by destruct (clok_transport _ Hd).
  - destruct (vio_do_safe e (pci_vdev d) Hd Hp) as ([] & s & o & E & Hs & _).
    exists (set_pci_vdev s d), o. cbn. unfold on_vdev. by rewrite E.
  - destruct (class_do_safe c (pci_vdev d) Hd) as (s & o & E & Hs); [by destruct c|].
    exists (set_pci_vdev s d), o. cbn [pci_do]. unfold on_vdev. by rewrite E.
Qed.

(** Removing the device stops it. *)
Lemma pci_remove_run d :
  let fd := s_medium_fd (pci_vdev d) in
  ∃ d', pci_remove d = Ok (tt, d', if 0 <=? fd then [PWatch fd false; PClose fd] else []) ∧
    s_tick_timer (pci_vdev d') = None ∧ s_reconnect_timer (pci_vdev d') = None ∧ s_medium_fd (pci_vdev d') < 0.
Proof using.
  cbv zeta. unfold pci_remove, on_vdev. cbn [vdc_unrealize virtio_bt_class_init]. unfold virtio_bt_device_unrealize.
  rewrite !bind_modify, bind_get. cbn [s_medium_fd set_s_reconnect_timer set_s_tick_timer].
  destruct (0 <=? s_medium_fd (pci_vdev d)) eqn:E; cbn [when]; (eexists; split; [reflexivity|]); cbn; split_and!; try done; lia.
Qed.

Lemma pci_run_safe ps d :
  virtio_ok (pci_vdev d) → pci_ops_ok ps d →
  ∃ d' o, pci_run ps d = Ok (tt, d', o) ∧ virtio_ok (pci_vdev d') ∧
    settings_of d' = foldl written_by (settings_of d) ps.
Proof using QL.
  revert d. induction ps as [|p ps IH]; intros d Hd Hps; [by exists d, []|]. destruct Hps as [Hp Hps].
  destruct (pci_do_safe p d Hd Hp) as (d1 & o1 & E1 & Hd1).
  destruct (IH d1 Hd1 (Hps _ _ E1)) as (d2 & o2 & E2 & Hd2 & Hs). exists d2, (o1 ++ o2). split_and!; [|done|].
  - unfold pci_run in *. cbn [for_each]. by rewrite (bind_ok _ _ _ _ _ _ E1), E2.
  - cbn [foldl]. by rewrite <- (pci_do_settings _ _ _ _ E1).
Qed.

(** C28: the device is what its properties say.  One PCI type is registered, under
    the name virtio-bluetooth-pci; this is about the objects its
    [instance_init] makes and its class.  Whatever is written to the properties
    before the device is realized, without memory that fails and changes
    nothing; with memory it is realized without undefined behaviour, and its
    controller has the address of [bdaddr] if that is one, else the one
    derived from the node id (vbt-vm if there is none).  From then on, as long
    as no frame from the hub carries more than 30 bytes of advertising data
    (with 31, which is legal, [report_adv] overruns its array, see
    [report_adv_overflow]): whatever the guest, the hub and the timers do and
    whatever is written to the properties, every step is handled without
    undefined behaviour, nothing but the user changes the properties, and each
    reads back as it was last written.  When the device is removed, both timers
    are stopped and an open socket is closed, its handler first. *)
Theorem virtio_pci_configured (ws : list os_write) (pops : list (option (list Z))) (cfg ps : list pci_op)
    (dl : dial) (tv tr : Z) (parent : list Z) :
  Forall iov_ok pops → Forall is_write cfg →
  (∀ d0 d1 o0 o1, pci_run cfg (virtio_bt_pci_instance_init ws pops) = Ok (tt, d0, o0) →
     virtio_bt_pci_realize true dl tv tr d0 = Ok (true, d1, o1) → pci_ops_ok ps d1) →
  let c := foldl written_by (Settings [] [] None) cfg in
  let c' := foldl written_by c ps in
  ∃ t d0 d1 o1 d2 o2 d3,
    (virtio_bt_register_types parent).2 = [t] ∧ pti_generic_name t = str "virtio-bluetooth-pci" ∧
    pci_run cfg (pti_instance_init t ws pops) = Ok (tt, d0, []) ∧
    k_realize (pti_class t) false dl tv tr d0 = Ok (false, d0, []) ∧
    k_realize (pti_class t) true dl tv tr d0 = Ok (true, d1, o1) ∧ pci_run ps d1 = Ok (tt, d2, o2) ∧
    virtio_ok (pci_vdev d2) ∧
    public_addr (cl_ll (s_client (pci_vdev d1))) =
      match set_bdaddr c ≫= scan_addr with
      | Some m => map u8 m
      | None => derive_bdaddr (if bool_decide (set_node c = []) then str "vbt-vm" else set_node c)
      end ∧
    virtio_bt_pci_get_medium d2 = set_medium c' ∧ virtio_bt_pci_get_node_id d2 = set_node c' ∧
    virtio_bt_pci_get_bdaddr d2 = default [] (set_bdaddr c') ∧
    let fd := s_medium_fd (pci_vdev d2) in
    pci_remove d2 = Ok (tt, d3, if 0 <=? fd then [PWatch fd false; PClose fd] else []) ∧
    s_tick_timer (pci_vdev d3) = None ∧ s_reconnect_timer (pci_vdev d3) = None ∧ s_medium_fd (pci_vdev d3) < 0.
Proof using QL.
  intros Hp Hcfg Hps c c'. pose proof (pci_writes cfg (Settings [] [] None) ws pops Hcfg) as E0. fold c in E0.
  cbv zeta in E0. set (d0 := BtPci (virtio_zero (set_medium c) (set_node c) ws pops) (set_bdaddr c)) in E0.
  destruct (realize_safe (set_bdaddr c) dl tv tr (set_medium c) (set_node c) ws pops Hp) as (ok & s1 & o1 & E1 & Hs1 & _).
  pose proof (realize_result _ _ _ _ _ _ _ _ _ E1) as ->.
  assert (virtio_bt_pci_realize true dl tv tr d0 = Ok (true, set_pci_vdev s1 d0, o1)) as E1'.
  { unfold virtio_bt_pci_realize. rewrite bind_get. unfold on_vdev. cbn [pci_vdev pci_bdaddr_str d0 vdc_realize virtio_bt_class_init].
    by rewrite E1. }
  destruct (pci_run_safe ps (set_pci_vdev s1 d0)) as (d2 & o2 & E2 & Hd2 & Hset); [done|by eapply Hps|].
  destruct (realize_public _ _ _ _ _ _ _ E1) as (Em & En & Ea).
  assert (settings_of (set_pci_vdev s1 d0) = c) as Hc0.
  { unfold settings_of, virtio_bt_pci_get_medium, virtio_bt_pci_get_node_id. cbn. rewrite Em, En. by destruct c. }
  rewrite Hc0 in Hset. fold c' in Hset. destruct (pci_remove_run d2) as (d3 & E3 & Hrem).
  exists virtio_bt_pci_info, d0, (set_pci_vdev s1 d0), o1, d2, o2, d3.
  split_and!; try done.
  - change (pci_vdev (set_pci_vdev s1 d0)) with s1. rewrite Ea. unfold virtio_bt_parse_bdaddr, node_name. cbn.
    by destruct (set_bdaddr c ≫= scan_addr), (set_node c).
  - exact (f_equal set_medium Hset).
  - exact (f_equal set_node Hset).
  - exact (f_equal (λ s, default [] (set_bdaddr s)) Hset).
Qed.
End Pci.

Lemma virtio_pci_configured_witness :
  ∃ t d0 d1 o1 d2 o2 d3,
    (virtio_bt_register_types (str "virtio-device")).2 = [t] ∧ pti_generic_name t = str "virtio-bluetooth-pci" ∧
    pci_run [SetMedium (str "/tmp/hub"); SetBdaddr (str "02:be:00:00:00:07")] (pti_instance_init t [] []) =
      Ok (tt, d0, []) ∧
    k_realize (pti_class t) false NoSocket 0 0 d0 = Ok (false, d0, []) ∧
    k_realize (pti_class t) true NoSocket 0 0 d0 = Ok (true, d1, o1) ∧
    pci_run [Device (EvTick 5 6); Call (CallGetConfig [9; 9; 9; 9]); SetNodeId (str "vm7")] d1 = Ok (tt, d2, o2) ∧
    virtio_ok (pci_vdev d2) ∧ public_addr (cl_ll (s_client (pci_vdev d1))) = [2; 190; 0; 0; 0; 7] ∧
    virtio_bt_pci_get_medium d2 = str "/tmp/hub" ∧ virtio_bt_pci_get_node_id d2 = str "vm7" ∧
    virtio_bt_pci_get_bdaddr d2 = str "02:be:00:00:00:07" ∧
    let fd := s_medium_fd (pci_vdev d2) in
    pci_remove d2 = Ok (tt, d3, if 0 <=? fd then [PWatch fd false; PClose fd] else []) ∧
    s_tick_timer (pci_vdev d3) = None ∧ s_reconnect_timer (pci_vdev d3) = None ∧ s_medium_fd (pci_vdev d3) < 0.
Proof.
  apply (virtio_pci_configured [] [] [SetMedium (str "/tmp/hub"); SetBdaddr (str "02:be:00:00:00:07")]
    [Device (EvTick 5 6); Call (CallGetConfig [9; 9; 9; 9]); SetNodeId (str "vm7")] NoSocket 0 0
    (str "virtio-device")).
  - apply Forall_nil_2.
  - by repeat constructor.
  - intros d0 d1 o0 o1 _ _. split; [done|]. intros d2 o2 _. split; [done|]. by intros.
Defined.
