(* ===== verification/HubState.v ===== *)
(** * The state of the medium hub (src/vbt_medium.c)

    The tables of the hub as records and lists, the operating-system results
    its calls consume, the events it performs, and the accessors of the tables.

    A C array with a fill count ([nodes]/[num_nodes], [peers]/[num_peers],
    [conns]/[num_conns], [overrides]/[num_overrides], [addrs]/[num_addrs]) is
    the list of its used prefix; the fill count is the length of the list.  A
    pointer into such an array, and the [int] index the code stores, is the
    index as a [Z], with -1 for "none".  A C string is the list of its
    characters without the terminator.  A [double] is the binary64 number of
    the Standard Library's SpecFloat. *)

From stdpp Require Import base list numbers option.
From Stdlib Require Import ZArith Lia.
From Stdlib Require Import Floats.SpecFloat.
From S2P Require Import Prelude Wire.

Definition MAX_PEERS : Z := 300.
Definition MAX_NODES : Z := 300.
Definition MAX_CONNS : Z := 512.
Definition MAX_ADDRS_PER_NODE : Z := 8.
Definition MAX_OVERRIDES : Z := 1024.
Definition MAX_CTL_CLIENTS : Z := 16.
Definition MAX_UPSTREAMS : Z := 16.
Definition NODE_ID_LEN : Z := 64.
Definition RECV_BUF_SIZE : Z := VBT_RXBUF_SIZE.
Definition SEND_BUF_SIZE : Z := 256 * 1024.
Definition CTL_BUF_SIZE : Z := 1024.
Definition CTL_OUTBUF_SIZE : Z := 128 * 1024.
Definition UPSTREAM_RETRY_SEC : Z := 2.

(** The largest [int]. *)
Definition INT_MAX : Z := 2147483647.

(** ** binary64 *)

Definition dprec : Z := 53.
Definition demax : Z := 1024.
(** [(double)z] of an integer. *)
Definition d_of_Z (z : Z) : spec_float := binary_normalize dprec demax z 0 false.
Definition dadd : spec_float → spec_float → spec_float := SFadd dprec demax.
Definition dsub : spec_float → spec_float → spec_float := SFsub dprec demax.
Definition dmul : spec_float → spec_float → spec_float := SFmul dprec demax.
Definition ddiv : spec_float → spec_float → spec_float := SFdiv dprec demax.
Definition dsqrt : spec_float → spec_float := SFsqrt dprec demax.
Definition dltb : spec_float → spec_float → bool := SFltb.

Definition PL_REF_DBM : spec_float := d_of_Z 40.
Definition PL_REF_DIST_M : spec_float := d_of_Z 1.
Definition PL_EXPONENT_DEFAULT : spec_float := d_of_Z 2.

(** ** The records of the hub *)

(** [struct node] *)
Record node : Type := Node {
  nd_node_id : list Z;
  nd_addrs : list (list Z);
  nd_pos_x : spec_float;
  nd_pos_y : spec_float;
  nd_pos_z : spec_float;
  nd_pos_set : bool;
  nd_tx_power_dbm : spec_float;
  nd_tx_power_set : bool;
  nd_rx_sens_dbm : spec_float;
  nd_peer_idx : Z;
  nd_active : bool;
  nd_physical : bool;
  nd_auto_named : bool;
  nd_last_channel : Z;
  nd_last_phy : Z;
  nd_tx_pdus : Z;
  nd_rx_pdus : Z;
  nd_rx_dropped : Z
}.

(** [struct peer]; [outbuf]/[outused] is the filled part of the backlog,
    [None] before it is allocated. *)
Record peer : Type := Peer {
  p_fd : Z;
  p_rxbuf : list Z;
  p_rxused : Z;
  p_outbuf : option (list Z);
  p_want_write : bool;
  p_is_bridge : bool;
  p_is_physical : bool;
  p_is_monitor : bool;
  p_label : list Z;
  p_node_idx : Z;
  p_frames_seen : Z;
  p_tx_dropped : Z
}.

(** [struct conn] *)
Record conn : Type := Conn {
  cn_access_addr : Z;
  cn_node_a : Z;
  cn_node_b : Z;
  cn_active : bool;
  cn_pdus : Z;
  cn_inita : list Z;
  cn_adva : list Z
}.

(** [struct link_override] *)
Record link_override : Type := Override {
  o_a : list Z;
  o_b : list Z;
  o_rssi_set : bool;
  o_rssi_dbm : Z;
  o_loss_set : bool;
  o_loss_prob : spec_float;
  o_used : bool
}.

(** [struct ctl_client]; [buf]/[buf_used] and [outbuf]/[outbuf_used] are the
    filled parts of the two buffers. *)
Record ctl_client : Type := CtlClient {
  ct_fd : Z;
  ct_buf : list Z;
  ct_outbuf : list Z;
  ct_active : Z
}.

(** [struct upstream_state] *)
Record upstream_state : Type := UpState {
  us_peer_idx : Z;
  us_last_attempt : Z
}.

(** The global counters. *)
Record hub_stats : Type := Stats {
  stat_adv_forwarded : Z;
  stat_data_forwarded : Z;
  stat_dropped_model : Z;
  stat_dropped_backpressure : Z;
  stat_conns_opened : Z;
  stat_conns_closed : Z
}.

(** ** Operating-system results

    [write] accepts some bytes or fails; the results the kernel will give are
    a list the calls consume in order, so that every finite run of the hub is
    a run of the model.  When a list is used up, [write] would block, [malloc]
    and [fopen] succeed and [rand] returns 0.  [e_fopens] holds the error
    message of an [fopen] that fails, [e_connects] the descriptors outbound
    connections get ([None], also when used up: the attempt fails), [e_now] is
    [time(NULL)]. *)

Inductive wres : Type :=
  | WBytes (n : Z)      (* n bytes accepted; 0 is a zero return *)
  | WIntr               (* EINTR *)
  | WAgain              (* EAGAIN / EWOULDBLOCK *)
  | WError.             (* any other errno *)

Record env : Type := Env {
  e_writes : list wres;
  e_mallocs : list bool;
  e_rands : list Z;
  e_fopens : list (option (list Z));
  e_connects : list (option Z);
  e_now : Z
}.

Record hub : Type := Hub {
  nodes : list node;
  next_auto_id : Z;
  peers : list peer;
  conns : list conn;
  overrides : list link_override;
  ctl_clients : list ctl_client;
  upstreams : list (list Z * list Z);
  upstream_states : list upstream_state;
  g_path_exponent : spec_float;
  stats : hub_stats;
  stat_start_time : Z;
  henv : env
}.

(** What the hub does to the outside world. *)
Inductive ev : Type :=
  | EvWrite (fd : Z) (bytes : list Z)
  | EvClose (fd : Z)
  | EvReply (fd : Z) (text : list Z)     (* a write to a control client *)
  | EvFile (path text : list Z).         (* a file written and closed *)

Abbreviation HUB := (cmd hub ev).

(** Field updates. *)
Definition set_nd_node_id (v : list Z) (s : node) : node :=
  Node v (nd_addrs s) (nd_pos_x s) (nd_pos_y s) (nd_pos_z s) (nd_pos_set s)
    (nd_tx_power_dbm s) (nd_tx_power_set s) (nd_rx_sens_dbm s) (nd_peer_idx s)
    (nd_active s) (nd_physical s) (nd_auto_named s) (nd_last_channel s)
    (nd_last_phy s) (nd_tx_pdus s) (nd_rx_pdus s) (nd_rx_dropped s).
Definition set_nd_addrs (v : list (list Z)) (s : node) : node :=
  Node (nd_node_id s) v (nd_pos_x s) (nd_pos_y s) (nd_pos_z s) (nd_pos_set s)
    (nd_tx_power_dbm s) (nd_tx_power_set s) (nd_rx_sens_dbm s) (nd_peer_idx s)
    (nd_active s) (nd_physical s) (nd_auto_named s) (nd_last_channel s)
    (nd_last_phy s) (nd_tx_pdus s) (nd_rx_pdus s) (nd_rx_dropped s).
Definition set_nd_pos_x (v : spec_float) (s : node) : node :=
  Node (nd_node_id s) (nd_addrs s) v (nd_pos_y s) (nd_pos_z s) (nd_pos_set s)
    (nd_tx_power_dbm s) (nd_tx_power_set s) (nd_rx_sens_dbm s) (nd_peer_idx s)
    (nd_active s) (nd_physical s) (nd_auto_named s) (nd_last_channel s)
    (nd_last_phy s) (nd_tx_pdus s) (nd_rx_pdus s) (nd_rx_dropped s).
Definition set_nd_pos_y (v : spec_float) (s : node) : node :=
  Node (nd_node_id s) (nd_addrs s) (nd_pos_x s) v (nd_pos_z s) (nd_pos_set s)
    (nd_tx_power_dbm s) (nd_tx_power_set s) (nd_rx_sens_dbm s) (nd_peer_idx s)
    (nd_active s) (nd_physical s) (nd_auto_named s) (nd_last_channel s)
    (nd_last_phy s) (nd_tx_pdus s) (nd_rx_pdus s) (nd_rx_dropped s).
Definition set_nd_pos_z (v : spec_float) (s : node) : node :=
  Node (nd_node_id s) (nd_addrs s) (nd_pos_x s) (nd_pos_y s) v (nd_pos_set s)
    (nd_tx_power_dbm s) (nd_tx_power_set s) (nd_rx_sens_dbm s) (nd_peer_idx s)
    (nd_active s) (nd_physical s) (nd_auto_named s) (nd_last_channel s)
    (nd_last_phy s) (nd_tx_pdus s) (nd_rx_pdus s) (nd_rx_dropped s).
Definition set_nd_pos_set (v : bool) (s : node) : node :=
  Node (nd_node_id s) (nd_addrs s) (nd_pos_x s) (nd_pos_y s) (nd_pos_z s) v
    (nd_tx_power_dbm s) (nd_tx_power_set s) (nd_rx_sens_dbm s) (nd_peer_idx s)
    (nd_active s) (nd_physical s) (nd_auto_named s) (nd_last_channel s)
    (nd_last_phy s) (nd_tx_pdus s) (nd_rx_pdus s) (nd_rx_dropped s).
Definition set_nd_tx_power_dbm (v : spec_float) (s : node) : node :=
  Node (nd_node_id s) (nd_addrs s) (nd_pos_x s) (nd_pos_y s) (nd_pos_z s)
    (nd_pos_set s) v (nd_tx_power_set s) (nd_rx_sens_dbm s) (nd_peer_idx s)
    (nd_active s) (nd_physical s) (nd_auto_named s) (nd_last_channel s)
    (nd_last_phy s) (nd_tx_pdus s) (nd_rx_pdus s) (nd_rx_dropped s).
Definition set_nd_tx_power_set (v : bool) (s : node) : node :=
  Node (nd_node_id s) (nd_addrs s) (nd_pos_x s) (nd_pos_y s) (nd_pos_z s)
    (nd_pos_set s) (nd_tx_power_dbm s) v (nd_rx_sens_dbm s) (nd_peer_idx s)
    (nd_active s) (nd_physical s) (nd_auto_named s) (nd_last_channel s)
    (nd_last_phy s) (nd_tx_pdus s) (nd_rx_pdus s) (nd_rx_dropped s).
Definition set_nd_rx_sens_dbm (v : spec_float) (s : node) : node :=
  Node (nd_node_id s) (nd_addrs s) (nd_pos_x s) (nd_pos_y s) (nd_pos_z s)
    (nd_pos_set s) (nd_tx_power_dbm s) (nd_tx_power_set s) v (nd_peer_idx s)
    (nd_active s) (nd_physical s) (nd_auto_named s) (nd_last_channel s)
    (nd_last_phy s) (nd_tx_pdus s) (nd_rx_pdus s) (nd_rx_dropped s).
Definition set_nd_peer_idx (v : Z) (s : node) : node :=
  Node (nd_node_id s) (nd_addrs s) (nd_pos_x s) (nd_pos_y s) (nd_pos_z s)
    (nd_pos_set s) (nd_tx_power_dbm s) (nd_tx_power_set s) (nd_rx_sens_dbm s) v
    (nd_active s) (nd_physical s) (nd_auto_named s) (nd_last_channel s)
    (nd_last_phy s) (nd_tx_pdus s) (nd_rx_pdus s) (nd_rx_dropped s).
Definition set_nd_active (v : bool) (s : node) : node :=
  Node (nd_node_id s) (nd_addrs s) (nd_pos_x s) (nd_pos_y s) (nd_pos_z s)
    (nd_pos_set s) (nd_tx_power_dbm s) (nd_tx_power_set s) (nd_rx_sens_dbm s)
    (nd_peer_idx s) v (nd_physical s) (nd_auto_named s) (nd_last_channel s)
    (nd_last_phy s) (nd_tx_pdus s) (nd_rx_pdus s) (nd_rx_dropped s).
Definition set_nd_physical (v : bool) (s : node) : node :=
  Node (nd_node_id s) (nd_addrs s) (nd_pos_x s) (nd_pos_y s) (nd_pos_z s)
    (nd_pos_set s) (nd_tx_power_dbm s) (nd_tx_power_set s) (nd_rx_sens_dbm s)
    (nd_peer_idx s) (nd_active s) v (nd_auto_named s) (nd_last_channel s)
    (nd_last_phy s) (nd_tx_pdus s) (nd_rx_pdus s) (nd_rx_dropped s).
Definition set_nd_auto_named (v : bool) (s : node) : node :=
  Node (nd_node_id s) (nd_addrs s) (nd_pos_x s) (nd_pos_y s) (nd_pos_z s)
    (nd_pos_set s) (nd_tx_power_dbm s) (nd_tx_power_set s) (nd_rx_sens_dbm s)
    (nd_peer_idx s) (nd_active s) (nd_physical s) v (nd_last_channel s)
    (nd_last_phy s) (nd_tx_pdus s) (nd_rx_pdus s) (nd_rx_dropped s).
Definition set_nd_last_channel (v : Z) (s : node) : node :=
  Node (nd_node_id s) (nd_addrs s) (nd_pos_x s) (nd_pos_y s) (nd_pos_z s)
    (nd_pos_set s) (nd_tx_power_dbm s) (nd_tx_power_set s) (nd_rx_sens_dbm s)
    (nd_peer_idx s) (nd_active s) (nd_physical s) (nd_auto_named s) v (nd_last_phy s)
    (nd_tx_pdus s) (nd_rx_pdus s) (nd_rx_dropped s).
Definition set_nd_last_phy (v : Z) (s : node) : node :=
  Node (nd_node_id s) (nd_addrs s) (nd_pos_x s) (nd_pos_y s) (nd_pos_z s)
    (nd_pos_set s) (nd_tx_power_dbm s) (nd_tx_power_set s) (nd_rx_sens_dbm s)
    (nd_peer_idx s) (nd_active s) (nd_physical s) (nd_auto_named s)
    (nd_last_channel s) v (nd_tx_pdus s) (nd_rx_pdus s) (nd_rx_dropped s).
Definition set_nd_tx_pdus (v : Z) (s : node) : node :=
  Node (nd_node_id s) (nd_addrs s) (nd_pos_x s) (nd_pos_y s) (nd_pos_z s)
    (nd_pos_set s) (nd_tx_power_dbm s) (nd_tx_power_set s) (nd_rx_sens_dbm s)
    (nd_peer_idx s) (nd_active s) (nd_physical s) (nd_auto_named s)
    (nd_last_channel s) (nd_last_phy s) v (nd_rx_pdus s) (nd_rx_dropped s).
Definition set_nd_rx_pdus (v : Z) (s : node) : node :=
  Node (nd_node_id s) (nd_addrs s) (nd_pos_x s) (nd_pos_y s) (nd_pos_z s)
    (nd_pos_set s) (nd_tx_power_dbm s) (nd_tx_power_set s) (nd_rx_sens_dbm s)
    (nd_peer_idx s) (nd_active s) (nd_physical s) (nd_auto_named s)
    (nd_last_channel s) (nd_last_phy s) (nd_tx_pdus s) v (nd_rx_dropped s).
Definition set_nd_rx_dropped (v : Z) (s : node) : node :=
  Node (nd_node_id s) (nd_addrs s) (nd_pos_x s) (nd_pos_y s) (nd_pos_z s)
    (nd_pos_set s) (nd_tx_power_dbm s) (nd_tx_power_set s) (nd_rx_sens_dbm s)
    (nd_peer_idx s) (nd_active s) (nd_physical s) (nd_auto_named s)
    (nd_last_channel s) (nd_last_phy s) (nd_tx_pdus s) (nd_rx_pdus s) v.

Definition set_p_fd (v : Z) (s : peer) : peer :=
  Peer v (p_rxbuf s) (p_rxused s) (p_outbuf s) (p_want_write s) (p_is_bridge s)
    (p_is_physical s) (p_is_monitor s) (p_label s) (p_node_idx s) (p_frames_seen s)
    (p_tx_dropped s).
Definition set_p_rxbuf (v : list Z) (s : peer) : peer :=
  Peer (p_fd s) v (p_rxused s) (p_outbuf s) (p_want_write s) (p_is_bridge s)
    (p_is_physical s) (p_is_monitor s) (p_label s) (p_node_idx s) (p_frames_seen s)
    (p_tx_dropped s).
Definition set_p_rxused (v : Z) (s : peer) : peer :=
  Peer (p_fd s) (p_rxbuf s) v (p_outbuf s) (p_want_write s) (p_is_bridge s)
    (p_is_physical s) (p_is_monitor s) (p_label s) (p_node_idx s) (p_frames_seen s)
    (p_tx_dropped s).
Definition set_p_outbuf (v : option (list Z)) (s : peer) : peer :=
  Peer (p_fd s) (p_rxbuf s) (p_rxused s) v (p_want_write s) (p_is_bridge s)
    (p_is_physical s) (p_is_monitor s) (p_label s) (p_node_idx s) (p_frames_seen s)
    (p_tx_dropped s).
Definition set_p_want_write (v : bool) (s : peer) : peer :=
  Peer (p_fd s) (p_rxbuf s) (p_rxused s) (p_outbuf s) v (p_is_bridge s)
    (p_is_physical s) (p_is_monitor s) (p_label s) (p_node_idx s) (p_frames_seen s)
    (p_tx_dropped s).
Definition set_p_is_bridge (v : bool) (s : peer) : peer :=
  Peer (p_fd s) (p_rxbuf s) (p_rxused s) (p_outbuf s) (p_want_write s) v
    (p_is_physical s) (p_is_monitor s) (p_label s) (p_node_idx s) (p_frames_seen s)
    (p_tx_dropped s).
Definition set_p_is_physical (v : bool) (s : peer) : peer :=
  Peer (p_fd s) (p_rxbuf s) (p_rxused s) (p_outbuf s) (p_want_write s) (p_is_bridge s)
    v (p_is_monitor s) (p_label s) (p_node_idx s) (p_frames_seen s) (p_tx_dropped s).
Definition set_p_is_monitor (v : bool) (s : peer) : peer :=
  Peer (p_fd s) (p_rxbuf s) (p_rxused s) (p_outbuf s) (p_want_write s) (p_is_bridge s)
    (p_is_physical s) v (p_label s) (p_node_idx s) (p_frames_seen s) (p_tx_dropped s).
Definition set_p_label (v : list Z) (s : peer) : peer :=
  Peer (p_fd s) (p_rxbuf s) (p_rxused s) (p_outbuf s) (p_want_write s) (p_is_bridge s)
    (p_is_physical s) (p_is_monitor s) v (p_node_idx s) (p_frames_seen s)
    (p_tx_dropped s).
Definition set_p_node_idx (v : Z) (s : peer) : peer :=
  Peer (p_fd s) (p_rxbuf s) (p_rxused s) (p_outbuf s) (p_want_write s) (p_is_bridge s)
    (p_is_physical s) (p_is_monitor s) (p_label s) v (p_frames_seen s)
    (p_tx_dropped s).
Definition set_p_frames_seen (v : Z) (s : peer) : peer :=
  Peer (p_fd s) (p_rxbuf s) (p_rxused s) (p_outbuf s) (p_want_write s) (p_is_bridge s)
    (p_is_physical s) (p_is_monitor s) (p_label s) (p_node_idx s) v (p_tx_dropped s).
Definition set_p_tx_dropped (v : Z) (s : peer) : peer :=
  Peer (p_fd s) (p_rxbuf s) (p_rxused s) (p_outbuf s) (p_want_write s) (p_is_bridge s)
    (p_is_physical s) (p_is_monitor s) (p_label s) (p_node_idx s) (p_frames_seen s) v.

Definition set_cn_access_addr (v : Z) (s : conn) : conn :=
  Conn v (cn_node_a s) (cn_node_b s) (cn_active s) (cn_pdus s) (cn_inita s)
    (cn_adva s).
Definition set_cn_node_a (v : Z) (s : conn) : conn :=
  Conn (cn_access_addr s) v (cn_node_b s) (cn_active s) (cn_pdus s) (cn_inita s)
    (cn_adva s).
Definition set_cn_node_b (v : Z) (s : conn) : conn :=
  Conn (cn_access_addr s) (cn_node_a s) v (cn_active s) (cn_pdus s) (cn_inita s)
    (cn_adva s).
Definition set_cn_active (v : bool) (s : conn) : conn :=
  Conn (cn_access_addr s) (cn_node_a s) (cn_node_b s) v (cn_pdus s) (cn_inita s)
    (cn_adva s).
Definition set_cn_pdus (v : Z) (s : conn) : conn :=
  Conn (cn_access_addr s) (cn_node_a s) (cn_node_b s) (cn_active s) v (cn_inita s)
    (cn_adva s).
Definition set_cn_inita (v : list Z) (s : conn) : conn :=
  Conn (cn_access_addr s) (cn_node_a s) (cn_node_b s) (cn_active s) (cn_pdus s) v
    (cn_adva s).
Definition set_cn_adva (v : list Z) (s : conn) : conn :=
  Conn (cn_access_addr s) (cn_node_a s) (cn_node_b s) (cn_active s) (cn_pdus s)
    (cn_inita s) v.

Definition set_o_a (v : list Z) (s : link_override) : link_override :=
  Override v (o_b s) (o_rssi_set s) (o_rssi_dbm s) (o_loss_set s) (o_loss_prob s)
    (o_used s).
Definition set_o_b (v : list Z) (s : link_override) : link_override :=
  Override (o_a s) v (o_rssi_set s) (o_rssi_dbm s) (o_loss_set s) (o_loss_prob s)
    (o_used s).
Definition set_o_rssi_set (v : bool) (s : link_override) : link_override :=
  Override (o_a s) (o_b s) v (o_rssi_dbm s) (o_loss_set s) (o_loss_prob s) (o_used s).
Definition set_o_rssi_dbm (v : Z) (s : link_override) : link_override :=
  Override (o_a s) (o_b s) (o_rssi_set s) v (o_loss_set s) (o_loss_prob s) (o_used s).
Definition set_o_loss_set (v : bool) (s : link_override) : link_override :=
  Override (o_a s) (o_b s) (o_rssi_set s) (o_rssi_dbm s) v (o_loss_prob s) (o_used s).
Definition set_o_loss_prob (v : spec_float) (s : link_override) : link_override :=
  Override (o_a s) (o_b s) (o_rssi_set s) (o_rssi_dbm s) (o_loss_set s) v (o_used s).
Definition set_o_used (v : bool) (s : link_override) : link_override :=
  Override (o_a s) (o_b s) (o_rssi_set s) (o_rssi_dbm s) (o_loss_set s)
    (o_loss_prob s) v.

Definition set_ct_fd (v : Z) (s : ctl_client) : ctl_client :=
  CtlClient v (ct_buf s) (ct_outbuf s) (ct_active s).
Definition set_ct_buf (v : list Z) (s : ctl_client) : ctl_client :=
  CtlClient (ct_fd s) v (ct_outbuf s) (ct_active s).
Definition set_ct_outbuf (v : list Z) (s : ctl_client) : ctl_client :=
  CtlClient (ct_fd s) (ct_buf s) v (ct_active s).
Definition set_ct_active (v : Z) (s : ctl_client) : ctl_client :=
  CtlClient (ct_fd s) (ct_buf s) (ct_outbuf s) v.

Definition set_us_peer_idx (v : Z) (s : upstream_state) : upstream_state :=
  UpState v (us_last_attempt s).
Definition set_us_last_attempt (v : Z) (s : upstream_state) : upstream_state :=
  UpState (us_peer_idx s) v.

Definition set_stat_adv_forwarded (v : Z) (s : hub_stats) : hub_stats :=
  Stats v (stat_data_forwarded s) (stat_dropped_model s) (stat_dropped_backpressure s)
    (stat_conns_opened s) (stat_conns_closed s).
Definition set_stat_data_forwarded (v : Z) (s : hub_stats) : hub_stats :=
  Stats (stat_adv_forwarded s) v (stat_dropped_model s) (stat_dropped_backpressure s)
    (stat_conns_opened s) (stat_conns_closed s).
Definition set_stat_dropped_model (v : Z) (s : hub_stats) : hub_stats :=
  Stats (stat_adv_forwarded s) (stat_data_forwarded s) v (stat_dropped_backpressure s)
    (stat_conns_opened s) (stat_conns_closed s).
Definition set_stat_dropped_backpressure (v : Z) (s : hub_stats) : hub_stats :=
  Stats (stat_adv_forwarded s) (stat_data_forwarded s) (stat_dropped_model s) v
    (stat_conns_opened s) (stat_conns_closed s).
Definition set_stat_conns_opened (v : Z) (s : hub_stats) : hub_stats :=
  Stats (stat_adv_forwarded s) (stat_data_forwarded s) (stat_dropped_model s)
    (stat_dropped_backpressure s) v (stat_conns_closed s).
Definition set_stat_conns_closed (v : Z) (s : hub_stats) : hub_stats :=
  Stats (stat_adv_forwarded s) (stat_data_forwarded s) (stat_dropped_model s)
    (stat_dropped_backpressure s) (stat_conns_opened s) v.

Definition set_e_writes (v : list wres) (s : env) : env :=
  Env v (e_mallocs s) (e_rands s) (e_fopens s) (e_connects s) (e_now s).
Definition set_e_mallocs (v : list bool) (s : env) : env :=
  Env (e_writes s) v (e_rands s) (e_fopens s) (e_connects s) (e_now s).
Definition set_e_rands (v : list Z) (s : env) : env :=
  Env (e_writes s) (e_mallocs s) v (e_fopens s) (e_connects s) (e_now s).
Definition set_e_fopens (v : list (option (list Z))) (s : env) : env :=
  Env (e_writes s) (e_mallocs s) (e_rands s) v (e_connects s) (e_now s).
Definition set_e_connects (v : list (option Z)) (s : env) : env :=
  Env (e_writes s) (e_mallocs s) (e_rands s) (e_fopens s) v (e_now s).
Definition set_e_now (v : Z) (s : env) : env :=
  Env (e_writes s) (e_mallocs s) (e_rands s) (e_fopens s) (e_connects s) v.

Definition set_nodes (v : list node) (s : hub) : hub :=
  Hub v (next_auto_id s) (peers s) (conns s) (overrides s) (ctl_clients s)
    (upstreams s) (upstream_states s) (g_path_exponent s) (stats s)
    (stat_start_time s) (henv s).
Definition set_next_auto_id (v : Z) (s : hub) : hub :=
  Hub (nodes s) v (peers s) (conns s) (overrides s) (ctl_clients s) (upstreams s)
    (upstream_states s) (g_path_exponent s) (stats s) (stat_start_time s) (henv s).
Definition set_peers (v : list peer) (s : hub) : hub :=
  Hub (nodes s) (next_auto_id s) v (conns s) (overrides s) (ctl_clients s)
    (upstreams s) (upstream_states s) (g_path_exponent s) (stats s)
    (stat_start_time s) (henv s).
Definition set_conns (v : list conn) (s : hub) : hub :=
  Hub (nodes s) (next_auto_id s) (peers s) v (overrides s) (ctl_clients s)
    (upstreams s) (upstream_states s) (g_path_exponent s) (stats s)
    (stat_start_time s) (henv s).
Definition set_overrides (v : list link_override) (s : hub) : hub :=
  Hub (nodes s) (next_auto_id s) (peers s) (conns s) v (ctl_clients s) (upstreams s)
    (upstream_states s) (g_path_exponent s) (stats s) (stat_start_time s) (henv s).
Definition set_ctl_clients (v : list ctl_client) (s : hub) : hub :=
  Hub (nodes s) (next_auto_id s) (peers s) (conns s) (overrides s) v (upstreams s)
    (upstream_states s) (g_path_exponent s) (stats s) (stat_start_time s) (henv s).
Definition set_upstreams (v : list (list Z * list Z)) (s : hub) : hub :=
  Hub (nodes s) (next_auto_id s) (peers s) (conns s) (overrides s) (ctl_clients s) v
    (upstream_states s) (g_path_exponent s) (stats s) (stat_start_time s) (henv s).
Definition set_upstream_states (v : list upstream_state) (s : hub) : hub :=
  Hub (nodes s) (next_auto_id s) (peers s) (conns s) (overrides s) (ctl_clients s)
    (upstreams s) v (g_path_exponent s) (stats s) (stat_start_time s) (henv s).
Definition set_g_path_exponent (v : spec_float) (s : hub) : hub :=
  Hub (nodes s) (next_auto_id s) (peers s) (conns s) (overrides s) (ctl_clients s)
    (upstreams s) (upstream_states s) v (stats s) (stat_start_time s) (henv s).
Definition set_stats (v : hub_stats) (s : hub) : hub :=
  Hub (nodes s) (next_auto_id s) (peers s) (conns s) (overrides s) (ctl_clients s)
    (upstreams s) (upstream_states s) (g_path_exponent s) v (stat_start_time s)
    (henv s).
Definition set_stat_start_time (v : Z) (s : hub) : hub :=
  Hub (nodes s) (next_auto_id s) (peers s) (conns s) (overrides s) (ctl_clients s)
    (upstreams s) (upstream_states s) (g_path_exponent s) (stats s) v (henv s).
Definition set_henv (v : env) (s : hub) : hub :=
  Hub (nodes s) (next_auto_id s) (peers s) (conns s) (overrides s) (ctl_clients s)
    (upstreams s) (upstream_states s) (g_path_exponent s) (stats s)
    (stat_start_time s) v.

(** [memset(nd, 0, sizeof *nd)] and the like. *)
Definition zero_node : node :=
  Node [] [] (S754_zero false) (S754_zero false) (S754_zero false) false
    (S754_zero false) false (S754_zero false) 0 false false false 0 0 0 0 0.
Definition zero_peer : peer :=
  Peer 0 (replicate (Z.to_nat RECV_BUF_SIZE) 0) 0 None false false false false [] 0 0 0.
Definition zero_conn : conn := Conn 0 0 0 false 0 (replicate 6 0) (replicate 6 0).
Definition zero_override : link_override :=
  Override [] [] false 0 false (S754_zero false) false.
Definition zero_ctl : ctl_client := CtlClient 0 [] [] 0.
Definition zero_stats : hub_stats := Stats 0 0 0 0 0 0.

(** [outused] *)
Definition p_outused (p : peer) : Z :=
  match p_outbuf p with Some b => zlen b | None => 0 end.

(** The program's static state at the start of [main]'s loop. *)
Definition init_hub (ups : list (list Z * list Z)) (start : Z) (e : env) : hub :=
  Hub [] 0 [] [] [] (replicate (Z.to_nat MAX_CTL_CLIENTS) zero_ctl) ups
    (replicate (length ups) (UpState (-1) 0)) PL_EXPONENT_DEFAULT zero_stats start e.

(** ** Table access

    [nodes[i]] for an index the code has: outside the used prefix it is a
    fault. *)

Definition at_idx {A} (l : list A) (i : Z) : option A :=
  if decide (0 ≤ i) then l !! Z.to_nat i else None.
Definition upd_idx {A} (i : Z) (f : A → A) (l : list A) : list A :=
  alter f (Z.to_nat i) l.

Definition node_at (i : Z) : HUB node :=
  h ← get; match at_idx (nodes h) i with Some n => mret n | None => fail OobRead end.
Definition peer_at (i : Z) : HUB peer :=
  h ← get; match at_idx (peers h) i with Some p => mret p | None => fail OobRead end.
Definition conn_at (i : Z) : HUB conn :=
  h ← get; match at_idx (conns h) i with Some c => mret c | None => fail OobRead end.

Definition node_upd (i : Z) (f : node → node) : HUB unit :=
  h ← get;
  match at_idx (nodes h) i with
  | Some _ => modify (set_nodes (upd_idx i f (nodes h)))
  | None => fail OobWrite
  end.
Definition peer_upd (i : Z) (f : peer → peer) : HUB unit :=
  h ← get;
  match at_idx (peers h) i with
  | Some _ => modify (set_peers (upd_idx i f (peers h)))
  | None => fail OobWrite
  end.
Definition conn_upd (i : Z) (f : conn → conn) : HUB unit :=
  h ← get;
  match at_idx (conns h) i with
  | Some _ => modify (set_conns (upd_idx i f (conns h)))
  | None => fail OobWrite
  end.

Definition num_nodes (h : hub) : Z := zlen (nodes h).
Definition num_peers (h : hub) : Z := zlen (peers h).
Definition num_conns (h : hub) : Z := zlen (conns h).
Definition num_overrides (h : hub) : Z := zlen (overrides h).

(** [x++] of a [uint64_t] counter. *)
Definition inc64 (x : Z) : Z := u64 (x + 1).

(** [stat++] *)
Definition stat_upd (f : hub_stats → hub_stats) : HUB unit :=
  modify (λ h, set_stats (f (stats h)) h).

(** The result of a scan as the code keeps it: the index, or -1. *)
Definition idx_of (o : option nat) : Z :=
  match o with Some i => Z.of_nat i | None => -1 end.

(** [snprintf(dst, cap, "%s", s)]: at most [cap - 1] characters. *)
Definition snprintf_s (cap : Z) (s : list Z) : list Z := take (Z.to_nat (cap - 1)) s.

(** [strcmp(a, b) == 0] and [memcmp(a, b, 6) == 0]. *)
Definition str_eq (a b : list Z) : bool := bool_decide (a = b).
Definition addr_eq (a b : list Z) : bool := bool_decide (a = b).
Definition addr_is_zero (a : list Z) : bool := addr_eq a (replicate 6 0).
