(* ===== verification/HubTables.v ===== *)
(** * The tables of the hub (src/vbt_medium.c)

    The node table with the learned addresses, the Access-Address connection
    table and the per-link overrides: the lookups, the allocation of a slot
    and the operations that change them, with their functional behaviour. *)

From Stdlib Require Import ZArith Lia Floats.SpecFloat.
From stdpp Require Import base list numbers option.
From S2P Require Import Prelude Wire HubState.

(** The allocation scheme of all tables: the first slot that is free, else a
    new slot at the end of the used prefix if the array has room. *)
Definition tab_alloc {A} (free : A → bool) (max : Z) (x : A) (l : list A) :
    option (nat * list A) :=
  match find_idx free l with
  | Some i => Some (i, <[i := x]> l)
  | None => if max <=? zlen l then None else Some (length l, l ++ [x])
  end.

(** ** Nodes *)

(** A node as [find_node] initialises it. *)
Definition new_node (nid : list Z) : node :=
  set_nd_tx_power_dbm (d_of_Z VBT_DEFAULT_TXPOWER)
    (set_nd_rx_sens_dbm (d_of_Z VBT_DEFAULT_RX_SENS)
      (set_nd_active true
        (set_nd_peer_idx (-1)
          (set_nd_node_id (snprintf_s NODE_ID_LEN nid) zero_node)))).

Definition named (nid : list Z) (nd : node) : bool :=
  nd_active nd && str_eq (nd_node_id nd) nid.

Definition find_node (nid : list Z) (create : bool) : HUB Z :=
  h ← get;
  match find_idx (named nid) (nodes h) with
  | Some i => mret (Z.of_nat i)
  | None =>
      if negb create then mret (-1)
      else match tab_alloc (λ nd, negb (nd_active nd)) MAX_NODES (new_node nid) (nodes h) with
           | Some (i, l) => modify (set_nodes l);; mret (Z.of_nat i)
           | None => mret (-1)
           end
  end.

Definition owns (addr : list Z) (nd : node) : bool :=
  nd_active nd && existsb (λ a, addr_eq a addr) (nd_addrs nd).

Definition find_node_by_addr (addr : list Z) (l : list node) : Z :=
  if addr_is_zero addr then -1 else idx_of (find_idx (owns addr) l).

(** The inner removal loop of [node_add_addr]: an address equal to [addr] is
    overwritten by the last one and the position is looked at again. *)
Fixpoint remove_addr (fuel : nat) (addr : list Z) (j : nat) (l : list (list Z)) :
    list (list Z) :=
  match fuel with
  | O => l
  | S fuel =>
      match l !! j with
      | None => l
      | Some a =>
          if addr_eq a addr then
            remove_addr fuel addr j
              (take (length l - 1) (<[j := default [] (l !! (length l - 1)%nat)]> l))
          else remove_addr fuel addr (S j) l
      end
  end.

(** The body of the loop over the other nodes. *)
Definition forget_addr (addr : list Z) (nd : node) : node :=
  if nd_active nd then
    set_nd_addrs (remove_addr (length (nd_addrs nd)) addr 0 (nd_addrs nd)) nd
  else nd.

Definition node_add_addr (n : Z) (addr : list Z) : HUB unit :=
  if addr_is_zero addr then skip
  else
    nd ← node_at n;
    if existsb (λ a, addr_eq a addr) (nd_addrs nd) then skip
    else
      modify (λ h, set_nodes
        (imap (λ i nd', if Z.of_nat i =? n then nd' else forget_addr addr nd') (nodes h)) h);;
      when (zlen (nd_addrs nd) <? MAX_ADDRS_PER_NODE)
        (node_upd n (λ nd, set_nd_addrs (nd_addrs nd ++ [addr]) nd)).

(** ** Connections *)

Definition live_aa (aa : Z) (c : conn) : bool :=
  cn_active c && (cn_access_addr c =? aa).

Definition find_conn (aa : Z) (l : list conn) : Z :=
  if (aa =? 0) || (aa =? VBT_ADV_ACCESS_ADDR) then -1
  else idx_of (find_idx (live_aa aa) l).

Definition new_conn (aa : Z) : conn :=
  set_cn_node_a (-1) (set_cn_node_b (-1)
    (set_cn_active true (set_cn_access_addr aa zero_conn))).

Definition conn_alloc (aa : Z) : HUB Z :=
  h ← get;
  match tab_alloc (λ c, negb (cn_active c)) MAX_CONNS (new_conn aa) (conns h) with
  | Some (i, l) => modify (set_conns l);; mret (Z.of_nat i)
  | None => mret (-1)
  end.

Definition observe_connect_ind (initiator_node : Z) (pdu : list Z) (len : Z) : HUB unit :=
  if len <? VBT_CONNIND_AA_OFF + 4 then skip
  else
    inita ← rdn pdu VBT_CONNIND_INITA_OFF 6;
    adva ← rdn pdu VBT_CONNIND_ADVA_OFF 6;
    aab ← rdn pdu VBT_CONNIND_AA_OFF 4;
    let aa := le_join aab in
    if (aa =? 0) || (aa =? VBT_ADV_ACCESS_ADDR) then skip
    else
      h ← get;
      let c := find_conn aa (conns h) in
      c ← (if c <? 0 then
             c ← conn_alloc aa;
             when (0 <=? c) (stat_upd (λ s,
               set_stat_conns_opened (inc64 (stat_conns_opened s)) s));;
             mret c
           else mret c);
      if c <? 0 then skip     (* conn table full *)
      else
        h ← get;
        conn_upd c (λ k,
          set_cn_adva adva (set_cn_inita inita
            (set_cn_node_b (find_node_by_addr adva (nodes h))
              (set_cn_node_a initiator_node k)))).

(** Tear down all connections that reference a departing node. *)
Definition touches (n : Z) (c : conn) : bool :=
  cn_active c && ((cn_node_a c =? n) || (cn_node_b c =? n)).
Definition drop_conn (n : Z) (c : conn) : conn :=
  if touches n c then set_cn_active false c else c.
Definition conns_drop_node (n : Z) : HUB unit :=
  h ← get;
  let closed := zlen (filter (λ c, touches n c = true) (conns h)) in
  modify (set_conns (map (drop_conn n) (conns h)));;
  stat_upd (λ s, set_stat_conns_closed (u64 (stat_conns_closed s + closed)) s).

(** ** Overrides *)

(** The unordered pair of node ids of an override. *)
Definition link_match (a b : list Z) (o : link_override) : bool :=
  o_used o && (str_eq (o_a o) a && str_eq (o_b o) b || str_eq (o_a o) b && str_eq (o_b o) a).

Definition new_override (a b : list Z) : link_override :=
  set_o_used true (set_o_b (snprintf_s NODE_ID_LEN b)
    (set_o_a (snprintf_s NODE_ID_LEN a) zero_override)).

Definition find_override (a b : list Z) (create : bool) : HUB Z :=
  h ← get;
  match find_idx (link_match a b) (overrides h) with
  | Some i => mret (Z.of_nat i)
  | None =>
      if negb create then mret (-1)
      else match tab_alloc (λ o, negb (o_used o)) MAX_OVERRIDES (new_override a b)
                   (overrides h) with
           | Some (i, l) => modify (set_overrides l);; mret (Z.of_nat i)
           | None => mret (-1)
           end
  end.
