(* ===== verification/HubModel.v ===== *)
(** * The propagation model of the hub (src/vbt_medium.c, [propagate])

    Log-distance path loss over binary64, the per-link overrides and the
    receiver's sensitivity.  The mathematical library is an interface: its
    [log10], and what the platform returns where C leaves a conversion from
    [double] to an integer unspecified. *)

From Stdlib Require Import ZArith Lia Floats.SpecFloat.
From stdpp Require Import base list numbers option.
From S2P Require Import Prelude Wire HubState HubTables.

Class Libm : Type := {
  log10 : spec_float → spec_float;
  lround_oob : spec_float → Z;     (* lround of a value no long can hold *)
  toint_oob : spec_float → Z       (* (int)x of a value no int can hold *)
}.

Definition RAND_MAX : Z := 2147483647.

Definition is_int (z : Z) : Prop := -2147483648 ≤ z < 2147483648.
Definition is_long (z : Z) : Prop := -9223372036854775808 ≤ z < 9223372036854775808.
#[export] Instance is_int_dec z : Decision (is_int z).
Proof. unfold is_int. apply _. Defined.
#[export] Instance is_long_dec z : Decision (is_long z).
Proof. unfold is_long. apply _. Defined.

(** The conversion of a [long] to [int] (modulo 2^32). *)
Definition s32 (z : Z) : Z := (z + 2147483648) mod 4294967296 - 2147483648.

Definition signed (s : bool) (v : Z) : Z := if s then - v else v.

(** The value of a finite double, truncated and rounded half away from 0. *)
Definition d_trunc (m : positive) (e : Z) : Z :=
  if 0 <=? e then Z.pos m * 2 ^ e else Z.pos m / 2 ^ (- e).
Definition d_half_away (m : positive) (e : Z) : Z :=
  if 0 <=? e then Z.pos m * 2 ^ e else (Z.pos m + 2 ^ (- e - 1)) / 2 ^ (- e).

(** [(int)x] *)
Definition d_toint `{Libm} (x : spec_float) : Z :=
  match x with
  | S754_zero _ => 0
  | S754_finite s m e =>
      let v := signed s (d_trunc m e) in
      if decide (is_int v) then v else toint_oob x
  | _ => toint_oob x
  end.

Definition lround `{Libm} (x : spec_float) : Z :=
  match x with
  | S754_zero _ => 0
  | S754_finite s m e =>
      let v := signed s (d_half_away m e) in
      if decide (is_long v) then v else lround_oob x
  | _ => lround_oob x
  end.

(** [rand()] *)
Definition c_rand : HUB Z :=
  h ← get;
  match e_rands (henv h) with
  | [] => mret 0
  | r :: l => modify (set_henv (set_e_rands l (henv h)));; mret (r mod (RAND_MAX + 1))
  end.

(** The distance between two nodes, at least the reference distance. *)
Definition link_distance (tx rx : node) : spec_float :=
  let dx := dsub (nd_pos_x tx) (nd_pos_x rx) in
  let dy := dsub (nd_pos_y tx) (nd_pos_y rx) in
  let dz := dsub (nd_pos_z tx) (nd_pos_z rx) in
  let d := dsqrt (dadd (dadd (dmul dx dx) (dmul dy dy)) (dmul dz dz)) in
  if dltb d PL_REF_DIST_M then PL_REF_DIST_M else d.

Definition path_loss `{Libm} (n d : spec_float) : spec_float :=
  dadd PL_REF_DBM (dmul (dmul (d_of_Z 10) n) (log10 (ddiv d PL_REF_DIST_M))).

(** The geometric part: RSSI and delivery decision. *)
Definition geometric `{Libm} (n : spec_float) (tx rx : node) (frame_txpower : Z) : bool * Z :=
  let d := link_distance tx rx in
  let txp := if nd_tx_power_set tx then nd_tx_power_dbm tx else d_of_Z frame_txpower in
  let r := dsub txp (path_loss n d) in
  let out := s32 (lround r) in
  let out := if out <? -128 then -128 else out in
  let out := if 20 <? out then 20 else out in
  (negb (dltb r (nd_rx_sens_dbm rx)), out).

(** [true] if the PDU is lost to the link's loss probability. *)
Definition loss_draw (o : link_override) : HUB bool :=
  if o_loss_set o && dltb (S754_zero false) (o_loss_prob o) then
    r ← c_rand;
    mret (dltb (ddiv (d_of_Z r) (d_of_Z RAND_MAX)) (o_loss_prob o))
  else mret false.

(** [propagate(tx, rx, frame_txpower, frame_rssi, &out_rssi)]: the returned
    pair is the result and [*out_rssi]. *)
Definition propagate `{Libm} (tx rx : option node) (frame_txpower frame_rssi : Z) :
    HUB (bool * Z) :=
  let dflt := if frame_rssi =? 0 then VBT_DEFAULT_RSSI else frame_rssi in
  match tx, rx with
  | Some tx, Some rx =>
      if nd_physical tx || nd_physical rx then mret (true, frame_rssi)
      else
        i ← find_override (nd_node_id tx) (nd_node_id rx) false;
        h ← get;
        decided ← match at_idx (overrides h) i with
          | Some o =>
              lost ← loss_draw o;
              if lost : bool then mret (Some (false, dflt))
              else if o_rssi_set o then
                mret (Some (negb (o_rssi_dbm o <? d_toint (nd_rx_sens_dbm rx)), o_rssi_dbm o))
              else mret None
          | None => mret None
          end;
        match decided with
        | Some r => mret r
        | None =>
            if negb (nd_pos_set tx) || negb (nd_pos_set rx) then mret (true, dflt)
            else mret (geometric (g_path_exponent h) tx rx frame_txpower)
        end
  | _, _ => mret (true, dflt)
  end.
