(* ===== verification/HubIO.v ===== *)
(** * Peer input and output of the hub (src/vbt_medium.c)

    Closing a peer, the buffered non-blocking sends, flushing a backlog and
    taking a new connection into the peer table. *)

From stdpp Require Import base list numbers option.
From Stdlib Require Import ZArith Lia.
From S2P Require Import Prelude Wire HubState HubTables.

(** Mark the upstreams carried by a peer for reconnection. *)
Definition upstream_lost (idx : Z) (u : upstream_state) : upstream_state :=
  if us_peer_idx u =? idx then set_us_peer_idx (-1) u else u.

(** The node side of [peer_close]. *)
Definition peer_close_node (idx n : Z) : HUB unit :=
  nd ← node_at n;
  when (nd_peer_idx nd =? idx) (node_upd n (set_nd_peer_idx (-1)));;
  conns_drop_node n;;
  nd ← node_at n;
  when (nd_auto_named nd && (zlen (nd_addrs nd) =? 0))
    (node_upd n (set_nd_active false)).

(** A peer slot after [peer_close]. *)
Definition closed_peer : peer := set_p_node_idx (-1) (set_p_fd (-1) zero_peer).

Definition peer_close (idx : Z) : HUB unit :=
  p ← peer_at idx;
  if p_fd p <? 0 then skip
  else
    when (0 <=? p_node_idx p) (peer_close_node idx (p_node_idx p));;
    modify (λ h, set_upstream_states (map (upstream_lost idx) (upstream_states h)) h);;
    emit (EvClose (p_fd p));;
    peer_upd idx (λ _, closed_peer).

(** How a loop of writes ends: everything accepted, EAGAIN, or an error. *)
Inductive wstop : Type := WDone | WWait | WHard.

(** [while (off < len) { n = write(fd, data + off, len - off); ... }]: the
    accepted chunks, the bytes left, the remaining OS results, the way out. *)
Fixpoint write_loop (ws : list wres) (data : list Z) :
    list (list Z) * list Z * list wres * wstop :=
  match data with
  | [] => ([], [], ws, WDone)
  | _ =>
      match ws with
      | [] => ([], data, [], WWait)
      | WBytes n :: ws =>
          if 0 <? n then
            let n := Z.to_nat (Z.min n (zlen data)) in
            let '(cs, todo, ws', stop) := write_loop ws (drop n data) in
            (take n data :: cs, todo, ws', stop)
          else ([], data, ws, WHard)
      | WIntr :: ws => write_loop ws data
      | WAgain :: ws => ([], data, ws, WWait)
      | WError :: ws => ([], data, ws, WHard)
      end
  end.

Definition write_all (fd : Z) (data : list Z) : HUB (list Z * wstop) :=
  h ← get;
  let '(cs, todo, ws, stop) := write_loop (e_writes (henv h)) data in
  modify (set_henv (set_e_writes ws (henv h)));;
  for_each cs (λ c, emit (EvWrite fd c));;
  mret (todo, stop).

(** [malloc(SEND_BUF_SIZE) != NULL] *)
Definition c_malloc : HUB bool :=
  h ← get;
  match e_mallocs (henv h) with
  | [] => mret true
  | b :: l => modify (set_henv (set_e_mallocs l (henv h)));; mret b
  end.

(** The second half of [peer_send]: buffer the remainder. *)
Definition peer_buffer (idx : Z) (rem : list Z) : HUB bool :=
  p ← peer_at idx;
  have ← match p_outbuf p with
         | Some _ => mret true
         | None =>
             ok ← c_malloc;
             when ok (peer_upd idx (set_p_outbuf (Some [])));;
             mret ok
         end;
  if negb have then peer_close idx;; mret false
  else
    if SEND_BUF_SIZE <? u32 (p_outused p + zlen rem) then
      peer_upd idx (λ p, set_p_tx_dropped (inc64 (p_tx_dropped p)) p);;
      stat_upd (λ s, set_stat_dropped_backpressure (inc64 (stat_dropped_backpressure s)) s);;
      mret false
    else
      peer_upd idx (λ p, set_p_want_write true
        (set_p_outbuf (Some (default [] (p_outbuf p) ++ rem)) p));;
      mret true.

Definition peer_send (idx : Z) (data : list Z) : HUB bool :=
  p ← peer_at idx;
  if p_fd p <? 0 then mret false
  else if p_outused p =? 0 then
    r ← write_all (p_fd p) data;
    match r.2 with
    | WHard => peer_close idx;; mret false
    | WDone => mret true
    | WWait => peer_buffer idx r.1
    end
  else peer_buffer idx data.

Definition peer_flush (idx : Z) : HUB unit :=
  p ← peer_at idx;
  if (p_fd p <? 0) || (p_outused p =? 0) then peer_upd idx (set_p_want_write false)
  else
    r ← write_all (p_fd p) (default [] (p_outbuf p));
    match r.2 with
    | WHard => peer_close idx
    | _ => peer_upd idx (λ p, set_p_want_write (0 <? zlen r.1) (set_p_outbuf (Some r.1) p))
    end.

(** A slot [peer_alloc] has filled in. *)
Definition new_peer (fd : Z) (is_bridge : bool) (label : list Z) : peer :=
  set_p_label (snprintf_s 80 label)
    (set_p_is_bridge is_bridge (set_p_node_idx (-1) (set_p_fd fd zero_peer))).

Definition peer_alloc (fd : Z) (is_bridge : bool) (label : list Z) : HUB Z :=
  h ← get;
  match tab_alloc (λ p, p_fd p <? 0) MAX_PEERS (new_peer fd is_bridge label) (peers h) with
  | Some (i, l) => modify (set_peers l);; mret (Z.of_nat i)
  | None => emit (EvClose fd);; mret (-1)
  end.
