(* ===== verification/HubRoute.v ===== *)
(** * Binding, fan-out and routing of the hub (src/vbt_medium.c)

    The hello handshake, the delivery of one frame to one peer, the fan-out
    and Access-Address routing of [forward_frame], and the reassembly loop of
    [peer_readable].

    The PDU of a frame is never copied: the code passes a pointer into the
    receive buffer of the peer it came from.  The model passes that peer's
    index and reads the buffer at each use. *)

From Stdlib Require Import String.
From stdpp Require Import base list numbers option.
From Stdlib Require Import ZArith Lia.
From S2P Require Import Prelude Wire Text HubState HubTables HubModel HubIO.

(** ** Binding a peer to a node *)

Definition bind_peer_node (pidx : Z) (nid : list Z) (physical : bool) : HUB unit :=
  n ← find_node nid true;
  if n <? 0 then skip     (* node table full *)
  else
    nd ← node_at n;
    when ((0 <=? nd_peer_idx nd) && negb (nd_peer_idx nd =? pidx))
      (peer_upd (nd_peer_idx nd) (set_p_node_idx (-1)));;
    node_upd n (λ nd, set_nd_physical physical (set_nd_peer_idx pidx nd));;
    peer_upd pidx (λ p, set_p_label (snprintf_s 80 nid)
      (set_p_is_physical physical (set_p_node_idx n p))).

(** ** Delivery *)

Definition set_flags (v : Z) (h : vbt_frame_hdr) : vbt_frame_hdr :=
  Hdr (magic h) (version h) (pdu_len h) (access_addr h) (tsf_lo h) (tsf_hi h) v
    (tx_addr h) (tx_addr_type h) (ll_type h) (channel h) (phy h) (tx_power_dbm h)
    (rssi h) (conn_handle h) (reserved h).
Definition set_rssi (v : Z) (h : vbt_frame_hdr) : vbt_frame_hdr :=
  Hdr (magic h) (version h) (pdu_len h) (access_addr h) (tsf_lo h) (tsf_hi h) (flags h)
    (tx_addr h) (tx_addr_type h) (ll_type h) (channel h) (phy h) (tx_power_dbm h)
    v (conn_handle h) (reserved h).

(** Byte 3 of [flags] in memory. *)
Definition ttl_of (h : vbt_frame_hdr) : Z := Z.shiftr (flags h) 24.
Definition set_ttl (t : Z) (h : vbt_frame_hdr) : vbt_frame_hdr :=
  set_flags (Z.lor (Z.land (flags h) 0xffffff) (Z.shiftl t 24)) h.

(** [pdu[0..n)] where [pdu] points behind the header in peer [src]'s buffer. *)
Definition pdu_bytes (src n : Z) : HUB (list Z) :=
  p ← peer_at src; rdn (p_rxbuf p) (4 + VBT_HDR_SIZE) n.

Definition deliver_to_peer (dst : Z) (hdr : vbt_frame_hdr) (src n rssi : Z) : HUB unit :=
  let h := set_rssi (s8 rssi) hdr in
  pdu ← pdu_bytes src n;
  let msg := VBT_HDR_SIZE + n in
  wire ← local_buf (4 + VBT_MAX_MSG_SIZE) (be32 msg ++ hdr_bytes h ++ pdu);
  sent ← peer_send dst wire;
  when sent (
    p ← peer_at dst;
    when (0 <=? p_node_idx p)
      (node_upd (p_node_idx p) (λ nd, set_nd_rx_pdus (inc64 (nd_rx_pdus nd)) nd))).

(** ** Fan-out *)

Section Forward.
Context `{LM : Libm}.
Context (src_peer : Z) (hdr : vbt_frame_hdr) (n : Z).

(** [tx]: the sender's node, read at the time of use. *)
Definition tx_node (src_node : Z) : HUB (option node) :=
  if 0 <=? src_node then nd ← node_at src_node; mret (Some nd) else mret None.

Definition drop_model (n : Z) : HUB unit :=
  node_upd n (λ nd, set_nd_rx_dropped (inc64 (nd_rx_dropped nd)) nd);;
  stat_upd (λ s, set_stat_dropped_model (inc64 (stat_dropped_model s)) s).

(** One receiver through the propagation model. *)
Definition deliver_to_node (src_node dst node : Z) : HUB unit :=
  tx ← tx_node src_node;
  rx ← node_at node;
  r ← propagate tx (Some rx) (tx_power_dbm hdr) (rssi hdr);
  if negb r.1 then drop_model node
  else deliver_to_peer dst hdr src_peer n r.2.

(** The bodies of the three fan-out loops, for peer [i]. *)
Definition tap_one (i : Z) : HUB unit :=
  p ← peer_at i;
  when (negb (i =? src_peer) && (0 <=? p_fd p) && p_is_monitor p)
    (deliver_to_peer i hdr src_peer n (rssi hdr)).

Definition bridge_one (i : Z) : HUB unit :=
  p ← peer_at i;
  when (negb (i =? src_peer) && (0 <=? p_fd p) && p_is_bridge p)
    (deliver_to_peer i hdr src_peer n (rssi hdr)).

Definition adv_one (src_node i : Z) : HUB unit :=
  p ← peer_at i;
  if (i =? src_peer) || (p_fd p <? 0) then skip
  else if (p_node_idx p <? 0) && negb (p_is_bridge p) then skip
  else if p_is_bridge p then deliver_to_peer i hdr src_peer n (rssi hdr)
  else deliver_to_node src_node i (p_node_idx p).

(** [for (int i = 0; i < num_peers; i++)] *)
Definition for_peers (f : Z → HUB unit) : HUB unit :=
  h ← get; for_each (seqZ 0 (num_peers h)) f.

Definition forward_adv (src_node : Z) : HUB unit :=
  when (2 <=? n) (
    b ← pdu_bytes src_peer n;
    b0 ← rd b 0;
    when (Z.land b0 VBT_ADV_PDU_TYPE_MASK =? VBT_CONNECT_IND)
      (observe_connect_ind src_node b n));;
  for_peers (adv_one src_node);;
  stat_upd (λ s, set_stat_adv_forwarded (inc64 (stat_adv_forwarded s)) s).

(** The endpoint of a connection a PDU of [src_node] goes to. *)
Definition other_end (src_node : Z) (c : conn) : Z :=
  if (0 <=? src_node) && (cn_node_a c =? src_node) then cn_node_b c
  else if (0 <=? src_node) && (cn_node_b c =? src_node) then cn_node_a c
  else if cn_node_a c =? src_node then cn_node_b c else cn_node_a c.

Definition forward_data (src_node : Z) : HUB unit :=
  h ← get;
  let ci := find_conn (access_addr hdr) (conns h) in
  if ci <? 0 then for_peers bridge_one
  else
    c ← conn_at ci;
    let other := other_end src_node c in
    conn_upd ci (λ c, set_cn_pdus (inc64 (cn_pdus c)) c);;
    when (0 <=? other) (
      nd ← node_at other;
      when (nd_active nd && (0 <=? nd_peer_idx nd))
        (deliver_to_node src_node (nd_peer_idx nd) other));;
    for_peers bridge_one;;
    stat_upd (λ s, set_stat_data_forwarded (inc64 (stat_data_forwarded s)) s).
End Forward.

(** The TTL of the frame as it leaves this hub; [None] when it expired. *)
Definition hop (is_bridge : bool) (hdr : vbt_frame_hdr) : option vbt_frame_hdr :=
  if is_bridge then
    if ttl_of hdr =? 0 then None else Some (set_ttl (ttl_of hdr - 1) hdr)
  else Some (set_ttl 8 hdr).

Definition note_tx (src_node : Z) (hdr : vbt_frame_hdr) : HUB unit :=
  when (0 <=? src_node) (
    node_upd src_node (λ nd, set_nd_last_phy (phy hdr) (set_nd_last_channel (channel hdr)
      (set_nd_tx_pdus (inc64 (nd_tx_pdus nd)) nd)));;
    node_add_addr src_node (tx_addr hdr)).

Definition forward_frame `{Libm} (src_peer : Z) (hdr : vbt_frame_hdr) (n : Z) : HUB unit :=
  sp ← peer_at src_peer;
  let src_node := p_node_idx sp in
  match hop (p_is_bridge sp) hdr with
  | None => skip     (* expired *)
  | Some hdr =>
      note_tx src_node hdr;;
      for_peers (tap_one src_peer hdr n);;
      if ll_type hdr =? VBT_LL_ADV then forward_adv src_peer hdr n src_node
      else if ll_type hdr =? VBT_LL_DATA then forward_data src_peer hdr n src_node
      else skip
  end.

(** ** Hello *)

(** The node id of a hello: at most 63 characters up to a NUL; the second
    component is the rest of the payload behind them. *)
Fixpoint hello_id (room : nat) (l : list Z) : list Z * list Z :=
  match room, l with
  | S room, c :: l' =>
      if c =? 0 then ([], l)
      else let '(id, rest) := hello_id room l' in (c :: id, rest)
  | _, _ => ([], l)
  end.

(** The flags byte behind the id (and its NUL, if it is there). *)
Definition hello_flags (rest : list Z) : Z :=
  let rest := match rest with c :: l => if c =? 0 then l else rest | [] => [] end in
  default 0 (head rest).

(** [maybe_hello] returns the number of bytes consumed, 0 if the payload is
    not a hello. *)
Definition maybe_hello (pidx : Z) (payload : list Z) : HUB Z :=
  let len := zlen payload in
  if len <? 5 then mret 0
  else if negb (le_join (slice 0 4 payload) =? VBT_HELLO_MAGIC) then mret 0
  else
    let '(id, rest) := hello_id (Z.to_nat (NODE_ID_LEN - 1)) (drop 4 payload) in
    let fl := hello_flags rest in
    let physical := negb (Z.land fl VBT_HELLO_FLAG_PHYSICAL =? 0) in
    let monitor := negb (Z.land fl VBT_HELLO_FLAG_MONITOR =? 0) in
    h ← get;
    nid ← match id with
          | [] => if next_auto_id h =? INT_MAX then fail IntOverflow
                  else modify (set_next_auto_id (next_auto_id h + 1));;
                       mret (str "node" ++ dec_str (next_auto_id h))
          | _ => mret id
          end;
    if monitor then
      peer_upd pidx (λ p, set_p_label (snprintf_s 80 nid) (set_p_is_monitor true p));;
      mret len
    else
      bind_peer_node pidx nid physical;;
      mret len.

(** ** Receive *)

(** What [read] returned. *)
Inductive rres : Type :=
  | RBytes (l : list Z)
  | REof
  | RAgain     (* EINTR, EAGAIN or EWOULDBLOCK *)
  | RError.

(** [n < 0] handling and a payload that is a well-formed frame. *)
Definition frame_of (payload : list Z) : option vbt_frame_hdr :=
  if VBT_HDR_SIZE <=? zlen payload then
    let hdr := hdr_of_bytes (slice 0 VBT_HDR_SIZE payload) in
    let plen := zlen payload - VBT_HDR_SIZE in
    if (magic hdr =? VBT_MAGIC) && (plen =? pdu_len hdr) && (plen <=? VBT_MAX_PDU_SIZE)
    then Some hdr else None
  else None.

(** The end of an iteration: [rxused -= total] and the [memmove]. *)
Definition rx_consume (idx total : Z) : HUB unit :=
  p ← peer_at idx;
  let used := u32 (p_rxused p - total) in
  if 0 <? used then
    rest ← rdn (p_rxbuf p) total used;
    peer_upd idx (λ p, set_p_rxused used (set_p_rxbuf (splice 0 rest (p_rxbuf p)) p))
  else peer_upd idx (set_p_rxused used).

(** One message: a hello, a frame, or something to ignore. *)
Definition rx_message `{Libm} (idx : Z) (payload : list Z) : HUB unit :=
  consumed ← maybe_hello idx payload;
  when (consumed =? 0)
    match frame_of payload with
    | Some hdr => forward_frame idx hdr (zlen payload - VBT_HDR_SIZE)
    | None => skip
    end.

(** The body of the loop for a complete message of [plen] bytes. *)
Definition rx_one `{Libm} (idx : Z) (p : peer) (plen : Z) : HUB unit :=
  payload ← rdn (p_rxbuf p) 4 plen;
  peer_upd idx (λ p, set_p_frames_seen (inc64 (p_frames_seen p)) p);;
  rx_message idx payload;;
  rx_consume idx (4 + plen).

(** [while (p->rxused >= 4)]. *)
Fixpoint rx_loop `{Libm} (fuel : nat) (idx : Z) : HUB unit :=
  p ← peer_at idx;
  if p_rxused p <? 4 then skip
  else
    match fuel with
    | O => fail NoFuel
    | S fuel =>
        hd ← rdn (p_rxbuf p) 0 4;
        let plen := of_be32 hd in
        if VBT_MAX_MSG_SIZE <? plen then peer_close idx
        else if p_rxused p <? 4 + plen then skip
        else rx_one idx p plen;; rx_loop fuel idx
    end.

(** Fuel of the loop: every iteration consumes at least the four bytes of a
    length prefix from a buffer of [RECV_BUF_SIZE] bytes. *)
Definition rx_fuel : nat := Z.to_nat (RECV_BUF_SIZE / 4 + 1).

(** [read] returns at most the room left in the buffer. *)
Definition peer_readable `{Libm} (idx : Z) (r : rres) : HUB unit :=
  p ← peer_at idx;
  match r with
  | REof => peer_close idx
  | RAgain => skip
  | RError => peer_close idx
  | RBytes l =>
      let room := RECV_BUF_SIZE - p_rxused p in
      let l := take (Z.to_nat room) l in
      if zlen l =? 0 then peer_close idx
      else
        peer_upd idx (λ p, set_p_rxused (u32 (p_rxused p + zlen l))
          (set_p_rxbuf (splice (p_rxused p) l (p_rxbuf p)) p));;
        rx_loop rx_fuel idx
  end.

(** [accept_unix] and [accept_tcp]: the new descriptor, if any. *)
Definition accept_unix (fd : Z) : HUB unit :=
  if fd <? 0 then skip
  else peer_alloc fd false (str "unix");; skip.
Definition accept_tcp (fd : Z) (label : list Z) : HUB unit :=
  if fd <? 0 then skip else peer_alloc fd true label;; skip.
