(* ===== verification/HubCtl.v ===== *)
(** * The control socket of the hub (src/vbt_medium.c)

    The text commands of [ctl_dispatch], the reply buffer, the line reader of
    a control client, saving a configuration and running a configuration file. *)

From Stdlib Require Import ZArith Lia Floats.SpecFloat String.
From stdpp Require Import base list numbers option.
From S2P Require Import Prelude Wire Text HubState HubTables HubModel.

(** ** Replies *)

Definition ctl_at (i : Z) : HUB ctl_client :=
  h ← get; match at_idx (ctl_clients h) i with Some c => mret c | None => fail OobRead end.
Definition ctl_upd (i : Z) (f : ctl_client → ctl_client) : HUB unit :=
  h ← get;
  match at_idx (ctl_clients h) i with
  | Some _ => modify (set_ctl_clients (upd_idx i f (ctl_clients h)))
  | None => fail OobWrite
  end.

(** [ctl_out(cidx, fmt, ...)] with the formatted text: it goes through a local
    array of 4096 bytes, of which [vsnprintf] fills at most 4095 and a NUL. *)
Definition ctl_out (cidx : Z) (text : list Z) : HUB unit :=
  c ← ctl_at cidx;
  if ct_active c =? 0 then skip
  else if zlen text <=? 0 then skip
  else
    let len := if CTL_OUTBUF_SIZE <? u32 (zlen (ct_outbuf c) + zlen text)
               then CTL_OUTBUF_SIZE - zlen (ct_outbuf c) else zlen text in
    data ← rdn (take 4095 text ++ [0]) 0 len;
    ctl_upd cidx (λ c, set_ct_outbuf (ct_outbuf c ++ data) c).

(** ** Helpers *)

Definition parse_addr (s : list Z) : option (list Z) :=
  m ← scan_addr s;
  if forallb (λ x, x <=? 0xff) m then Some m else None.

(** Map a BLE channel index to its RF centre frequency in MHz. *)
Definition vbt_channel_to_freq (ch : Z) : Z :=
  if ch =? VBT_CHAN_ADV_37 then 2402
  else if ch =? VBT_CHAN_ADV_38 then 2426
  else if ch =? VBT_CHAN_ADV_39 then 2480
  else if ch <=? 10 then 2404 + ch * 2
  else if ch <=? 36 then 2404 + (ch + 1) * 2
  else 0.

Definition resolve_node (ident : list Z) : HUB Z :=
  nd ← find_node ident false;
  if 0 <=? nd then mret nd
  else match parse_addr ident with
       | Some a => h ← get; mret (find_node_by_addr a (nodes h))
       | None => mret (-1)
       end.

(** [nd = resolve_node(ident); if (!nd) nd = find_node(ident, true);] *)
Definition resolve_or_create (ident : list Z) : HUB Z :=
  nd ← resolve_node ident;
  if nd <? 0 then find_node ident true else mret nd.

Definition role_in (n : Z) (c : conn) : option string :=
  if negb (cn_active c) then None
  else if cn_node_a c =? n then Some "central"%string
  else if cn_node_b c =? n then Some "peripheral"%string
  else None.
Definition mode_label (n : Z) (nd : node) (l : list conn) : list Z :=
  match omap (role_in n) l with
  | r :: _ => str r
  | [] => if nd_tx_pdus nd =? 0 then str "?" else str "idle"
  end.

Definition count_if {A} (f : A → bool) (l : list A) : Z := zlen (filter (λ x, f x = true) l).

(** ** Listings *)

Fixpoint join_commas (l : list (list Z)) : list Z :=
  match l with
  | [] => []
  | [x] => x
  | x :: l => x ++ str "," ++ join_commas l
  end.
(** The [addrs] array of 256 characters, filled by [strncat]. *)
Definition addrs_field (nd : node) : list Z :=
  take 255 (join_commas (map fmt_addr (nd_addrs nd))).

Definition peer_line (n : Z) (nd : node) (l : list conn) : list Z :=
  str "  " ++ pad_right 16 (nd_node_id nd) ++
  str " " ++ pad_right 8 (if 0 <=? nd_peer_idx nd then str "online" else str "offline") ++
  str " role=" ++ pad_right 10 (mode_label n nd l) ++
  str " chan=" ++ dec_str (nd_last_channel nd) ++
  str " freq=" ++ dec_str (vbt_channel_to_freq (nd_last_channel nd)) ++
  str " addrs=[" ++ (match addrs_field nd with [] => str "-" | s => s end) ++ str "]" ++
  str " pos=(" ++ fix_str 1 (nd_pos_x nd) ++ str "," ++ fix_str 1 (nd_pos_y nd) ++
  str "," ++ fix_str 1 (nd_pos_z nd) ++ str ")" ++
  str " txpow=" ++ fix_str 0 (nd_tx_power_dbm nd) ++
  str " tx=" ++ dec_str (nd_tx_pdus nd) ++ str " rx=" ++ dec_str (nd_rx_pdus nd) ++
  str " drop=" ++ dec_str (nd_rx_dropped nd) ++
  (if nd_physical nd then str " [physical]" else []) ++ nl.

Definition ctl_list_peers (cidx : Z) : HUB unit :=
  h ← get;
  ctl_out cidx (str "OK " ++ dec_str (count_if nd_active (nodes h)) ++ str " nodes" ++ nl);;
  for_each (imap (λ i nd, (Z.of_nat i, nd)) (nodes h)) (λ x,
    when (nd_active x.2) (ctl_out cidx (peer_line x.1 x.2 (conns h)))).

(** [c->node_a >= 0 ? nodes[c->node_a].node_id : "?"] *)
Definition end_name (n : Z) : HUB (list Z) :=
  if 0 <=? n then nd ← node_at n; mret (nd_node_id nd) else mret (str "?").

Definition ctl_list_conns (cidx : Z) : HUB unit :=
  h ← get;
  ctl_out cidx (str "OK " ++ dec_str (count_if cn_active (conns h)) ++ str " connections" ++ nl);;
  for_each (conns h) (λ c,
    when (cn_active c) (
      a ← end_name (cn_node_a c);
      b ← end_name (cn_node_b c);
      ctl_out cidx (str "  aa=0x" ++ hex_str 8 (cn_access_addr c) ++
        str " central=" ++ a ++ str " peripheral=" ++ b ++
        str " init=" ++ fmt_addr (cn_inita c) ++ str " adv=" ++ fmt_addr (cn_adva c) ++
        str " pdus=" ++ dec_str (cn_pdus c) ++ nl))).

(** ** Setting node and link parameters *)

Definition table_full (cidx : Z) : HUB unit := ctl_out cidx (str "ERR node table full" ++ nl).

(** [sscanf(s, "%79s %lf %lf %lf", ...)]: at least three conversions. *)
Definition scan_pos (s : list Z) : option (list Z * spec_float * spec_float * option spec_float) :=
  '(id, s) ← scan_s 79 s;
  '(x, s) ← scan_lf s;
  '(y, s) ← scan_lf s;
  Some (id, x, y, fst <$> scan_lf s).

Definition ctl_set_pos (cidx : Z) (args : list Z) : HUB unit :=
  match scan_pos args with
  | None => ctl_out cidx (str "ERR usage: SET_POS <node> <x> <y> [z]" ++ nl)
  | Some (ident, x, y, z) =>
      n ← resolve_or_create ident;
      if n <? 0 then table_full cidx
      else
        node_upd n (λ nd, set_nd_pos_set true (set_nd_pos_z (default (S754_zero false) z)
          (set_nd_pos_y y (set_nd_pos_x x nd))));;
        nd ← node_at n;
        ctl_out cidx (str "OK pos " ++ nd_node_id nd ++ str " (" ++ fix_str 1 (nd_pos_x nd) ++
          str "," ++ fix_str 1 (nd_pos_y nd) ++ str "," ++ fix_str 1 (nd_pos_z nd) ++
          str ")" ++ nl)
  end.

Definition ctl_set_txpower (cidx : Z) (args : list Z) : HUB unit :=
  match scan_2 (scan_s 79) scan_lf args with
  | None => ctl_out cidx (str "ERR usage: SET_TXPOWER <node> <dBm>" ++ nl)
  | Some (ident, x) =>
      n ← resolve_or_create ident;
      if n <? 0 then table_full cidx
      else
        node_upd n (λ nd, set_nd_tx_power_set true (set_nd_tx_power_dbm x nd));;
        nd ← node_at n;
        ctl_out cidx (str "OK txpower " ++ nd_node_id nd ++ str " " ++ fix_str 1 x ++
          str " dBm" ++ nl)
  end.

Definition ctl_set_sens (cidx : Z) (args : list Z) : HUB unit :=
  match scan_2 (scan_s 79) scan_lf args with
  | None => ctl_out cidx (str "ERR usage: SET_SENS <node> <dBm>" ++ nl)
  | Some (ident, x) =>
      n ← resolve_or_create ident;
      if n <? 0 then table_full cidx
      else
        node_upd n (set_nd_rx_sens_dbm x);;
        nd ← node_at n;
        ctl_out cidx (str "OK sensitivity " ++ nd_node_id nd ++ str " " ++ fix_str 1 x ++
          str " dBm" ++ nl)
  end.

Definition override_upd (i : Z) (f : link_override → link_override) : HUB unit :=
  h ← get;
  match at_idx (overrides h) i with
  | Some _ => modify (set_overrides (upd_idx i f (overrides h)))
  | None => fail OobWrite
  end.

(** The common part of SET_RSSI and SET_LOSS: the two nodes and their
    override, or the error reply. *)
Definition ctl_set_link (cidx : Z) (ident ib : list Z) (f : link_override → link_override)
    (reply : list Z → list Z → list Z) : HUB unit :=
  na ← resolve_node ident;
  nb ← resolve_node ib;
  if (na <? 0) || (nb <? 0) then ctl_out cidx (str "ERR unknown node(s)" ++ nl)
  else
    a ← node_at na;
    b ← node_at nb;
    o ← find_override (nd_node_id a) (nd_node_id b) true;
    if o <? 0 then ctl_out cidx (str "ERR override table full" ++ nl)
    else
      override_upd o f;;
      ctl_out cidx (reply (nd_node_id a) (nd_node_id b)).

Definition scan_link {A} (sc : scanner A) (s : list Z) : option (list Z * list Z * A) :=
  '(a, s) ← scan_s 79 s;
  '(b, s) ← scan_s 79 s;
  '(v, _) ← sc s;
  Some (a, b, v).

Definition ctl_set_rssi (cidx : Z) (args : list Z) : HUB unit :=
  match scan_link scan_d args with
  | None => ctl_out cidx (str "ERR usage: SET_RSSI <a> <b> <dBm>" ++ nl)
  | Some (ident, ib, v) =>
      ctl_set_link cidx ident ib (λ o, set_o_rssi_dbm v (set_o_rssi_set true o)) (λ a b,
        str "OK rssi " ++ a ++ str "<->" ++ b ++ str " " ++ dec_str v ++ str " dBm" ++ nl)
  end.

(** [p < 0 ? 0 : (p > 1 ? 1 : p)] *)
Definition clamp_prob (p : spec_float) : spec_float :=
  if dltb p (S754_zero false) then S754_zero false
  else if dltb (d_of_Z 1) p then d_of_Z 1 else p.

Definition ctl_set_loss (cidx : Z) (args : list Z) : HUB unit :=
  match scan_link scan_lf args with
  | None => ctl_out cidx (str "ERR usage: SET_LOSS <a> <b> <prob 0..1>" ++ nl)
  | Some (ident, ib, p) =>
      ctl_set_link cidx ident ib (λ o, set_o_loss_prob (clamp_prob p) (set_o_loss_set true o))
        (λ a b, str "OK loss " ++ a ++ str "<->" ++ b ++ str " " ++
                fix_str 2 (clamp_prob p) ++ nl)
  end.

Definition ctl_clear_link (cidx : Z) (args : list Z) : HUB unit :=
  match scan_2 (scan_s 79) (scan_s 79) args with
  | None => ctl_out cidx (str "ERR usage: CLEAR_LINK <a> <b>" ++ nl)
  | Some (ident, ib) =>
      na ← resolve_node ident;
      nb ← resolve_node ib;
      when ((0 <=? na) && (0 <=? nb)) (
        a ← node_at na;
        b ← node_at nb;
        o ← find_override (nd_node_id a) (nd_node_id b) false;
        when (0 <=? o) (override_upd o (set_o_used false)));;
      ctl_out cidx (str "OK cleared" ++ nl)
  end.

Definition ctl_set_pathloss (cidx : Z) (args : list Z) : HUB unit :=
  match scan_lf args with
  | None => ctl_out cidx (str "ERR usage: SET_PATHLOSS <exponent>" ++ nl)
  | Some (x, _) =>
      modify (set_g_path_exponent x);;
      ctl_out cidx (str "OK path-loss exponent " ++ fix_str 2 x ++ nl)
  end.

(** [(long long)z] *)
Definition s64 (z : Z) : Z := (z + 9223372036854775808) mod 18446744073709551616
  - 9223372036854775808.

Definition ctl_stats (cidx : Z) : HUB unit :=
  h ← get;
  let s := stats h in
  ctl_out cidx (str "OK uptime=" ++ dec_str (s64 (e_now (henv h) - stat_start_time h)) ++
    str "s nodes=" ++ dec_str (count_if nd_active (nodes h)) ++
    str " conns=" ++ dec_str (count_if cn_active (conns h)) ++
    str " monitors=" ++
      dec_str (count_if (λ p, (0 <=? p_fd p) && p_is_monitor p) (peers h)) ++
    str " adv_fwd=" ++ dec_str (stat_adv_forwarded s) ++
    str " data_fwd=" ++ dec_str (stat_data_forwarded s) ++
    str " drop_model=" ++ dec_str (stat_dropped_model s) ++
    str " drop_bp=" ++ dec_str (stat_dropped_backpressure s) ++
    str " conns_opened=" ++ dec_str (stat_conns_opened s) ++
    str " conns_closed=" ++ dec_str (stat_conns_closed s) ++ nl).

(** ** Configuration *)

(** The text [save_config] writes. *)
Definition config_node (nd : node) : list Z :=
  if nd_active nd then
    (if nd_pos_set nd then
       str "SET_POS " ++ nd_node_id nd ++ str " " ++ fix_str 4 (nd_pos_x nd) ++ str " " ++
       fix_str 4 (nd_pos_y nd) ++ str " " ++ fix_str 4 (nd_pos_z nd) ++ nl else []) ++
    (if nd_tx_power_set nd then
       str "SET_TXPOWER " ++ nd_node_id nd ++ str " " ++ fix_str 4 (nd_tx_power_dbm nd) ++ nl
     else [])
  else [].
Definition config_text (h : hub) : list Z :=
  str "# vbt-medium config snapshot" ++ nl ++
  str "SET_PATHLOSS " ++ fix_str 4 (g_path_exponent h) ++ nl ++
  concat (map config_node (nodes h)).

(** [fopen(path, "w")]: the error message if it fails. *)
Definition c_fopen : HUB (option (list Z)) :=
  h ← get;
  match e_fopens (henv h) with
  | [] => mret None
  | r :: l => modify (set_henv (set_e_fopens l (henv h)));; mret r
  end.

Definition save_config (cidx : Z) (path : list Z) : HUB unit :=
  err ← c_fopen;
  match err with
  | Some msg => ctl_out cidx (str "ERR cannot open " ++ path ++ str ": " ++ msg ++ nl)
  | None =>
      h ← get;
      emit (EvFile path (config_text h));;
      ctl_out cidx (str "OK saved " ++ path ++ nl)
  end.

Definition ctl_save_config (cidx : Z) (args : list Z) : HUB unit :=
  match scan_s 255 args with
  | None => ctl_out cidx (str "ERR usage: SAVE_CONFIG <path>" ++ nl)
  | Some (path, _) => save_config cidx path
  end.

Definition help_text : list Z :=
  str "OK commands:" ++ nl ++
  str "  LIST_PEERS                         Nodes: role, channel, addrs, pos" ++ nl ++
  str "  LIST_CONNS                         Active connections (by AA)" ++ nl ++
  str "  SET_POS <node> <x> <y> [z]         Position a node (metres)" ++ nl ++
  str "  SET_TXPOWER <node> <dBm>           Node TX power" ++ nl ++
  str "  SET_SENS <node> <dBm>              Node RX sensitivity floor" ++ nl ++
  str "  SET_RSSI <a> <b> <dBm>             Pin a per-link RSSI" ++ nl ++
  str "  SET_LOSS <a> <b> <prob>            Pin a per-link loss probability" ++ nl ++
  str "  CLEAR_LINK <a> <b>                 Clear per-link overrides" ++ nl ++
  str "  SET_PATHLOSS <exponent>            Global path-loss exponent" ++ nl ++
  str "  STATS                              Global counters" ++ nl ++
  str "  SAVE_CONFIG <path>                 Snapshot positions/overrides" ++ nl ++
  str "  QUIT                               Close this connection" ++ nl.

Definition ctl_quit (cidx : Z) : HUB unit :=
  ctl_out cidx (str "OK bye" ++ nl);;
  ctl_upd cidx (set_ct_active 2).

Definition ctl_dispatch (cidx : Z) (cmd : list Z) : HUB unit :=
  if keyword "LIST_PEERS" cmd then ctl_list_peers cidx
  else if keyword "LIST_CONNS" cmd then ctl_list_conns cidx
  else if keyword "SET_POS " cmd then ctl_set_pos cidx (after "SET_POS " cmd)
  else if keyword "SET_TXPOWER " cmd then ctl_set_txpower cidx (after "SET_TXPOWER " cmd)
  else if keyword "SET_SENS " cmd then ctl_set_sens cidx (after "SET_SENS " cmd)
  else if keyword "SET_RSSI " cmd then ctl_set_rssi cidx (after "SET_RSSI " cmd)
  else if keyword "SET_LOSS " cmd then ctl_set_loss cidx (after "SET_LOSS " cmd)
  else if keyword "CLEAR_LINK " cmd then ctl_clear_link cidx (after "CLEAR_LINK " cmd)
  else if keyword "SET_PATHLOSS " cmd then ctl_set_pathloss cidx (after "SET_PATHLOSS " cmd)
  else if keyword "STATS" cmd then ctl_stats cidx
  else if keyword "SAVE_CONFIG " cmd then ctl_save_config cidx (after "SAVE_CONFIG " cmd)
  else if keyword "HELP" cmd then ctl_out cidx help_text
  else if keyword "QUIT" cmd then ctl_quit cidx
  else ctl_out cidx (str "ERR unknown command: " ++ take 40 cmd ++ str " (try HELP)" ++ nl).

(** ** Control clients *)

(** [write(c->fd, c->outbuf, c->outbuf_used)], once. *)
Definition ctl_flush (cidx : Z) : HUB unit :=
  c ← ctl_at cidx;
  if (ct_active c =? 0) || (zlen (ct_outbuf c) =? 0) then skip
  else
    h ← get;
    match e_writes (henv h) with
    | [] => skip
    | w :: ws =>
        modify (set_henv (set_e_writes ws (henv h)));;
        match w with
        | WBytes n =>
            let k := Z.to_nat (Z.min n (zlen (ct_outbuf c))) in
            when (0 <? n) (
              emit (EvReply (ct_fd c) (take k (ct_outbuf c)));;
              ctl_upd cidx (λ c, set_ct_outbuf (drop k (ct_outbuf c)) c))
        | _ => skip
        end
    end.

(** [strchr(s, c)] used to cut the string there. *)
Fixpoint cut_at (c : Z) (l : list Z) : list Z :=
  match l with
  | [] => []
  | d :: l => if d =? c then [] else d :: cut_at c l
  end.

(** [while ((line = memchr(buf, '\n', buf_used)) != NULL)]: every iteration
    removes a line of at least one character, so the length of the buffer is
    enough fuel. *)
Fixpoint ctl_lines (fuel : nat) (cidx : Z) : HUB unit :=
  c ← ctl_at cidx;
  match find_idx (λ b, b =? 10) (ct_buf c) with
  | None => skip
  | Some k =>
      match fuel with
      | O => fail NoFuel
      | S fuel =>
          let cmd := cut_at 13 (c_str (take k (ct_buf c))) in
          when (negb (bool_decide (cmd = []))) (ctl_dispatch cidx cmd);;
          ctl_upd cidx (λ c, set_ct_buf (drop (S k) (ct_buf c)) c);;
          c ← ctl_at cidx;
          if ct_active c =? 2 then skip else ctl_lines fuel cidx
      end
  end.

(** The result of [read] is given as bytes (at most the room asked for), end
    of file or an error that is EAGAIN/EINTR ([true]) or another. *)
Inductive ctl_rres : Type := CBytes (l : list Z) | CEof | CError (again : bool).

Definition ctl_close (cidx : Z) : HUB unit :=
  c ← ctl_at cidx;
  emit (EvClose (ct_fd c));;
  ctl_upd cidx (set_ct_active 0).

Definition ctl_readable (cidx : Z) (r : ctl_rres) : HUB unit :=
  c ← ctl_at cidx;
  match r with
  | CEof => ctl_close cidx
  | CError again => if again : bool then skip else ctl_close cidx
  | CBytes l =>
      let l := take (Z.to_nat (CTL_BUF_SIZE - 1 - zlen (ct_buf c))) l in
      if zlen l <=? 0 then ctl_close cidx
      else
        ctl_upd cidx (λ c, set_ct_buf (ct_buf c ++ l) c);;
        ctl_lines (Z.to_nat CTL_BUF_SIZE) cidx
  end.

Definition accept_ctl (fd : Z) : HUB unit :=
  if fd <? 0 then skip
  else
    h ← get;
    match find_idx (λ c, ct_active c =? 0) (ctl_clients h) with
    | None => emit (EvClose fd)
    | Some i =>
        ctl_upd (Z.of_nat i) (λ _, set_ct_active 1 (set_ct_fd fd zero_ctl))
    end.

(** ** The configuration file *)

(** [fgets(line, 512, f)] until end of file: at most 511 characters, up to
    and including a newline.  Each line is at least one character long, so the
    length of the text is enough fuel. *)
Fixpoint fgets_line (room : nat) (l : list Z) : list Z * list Z :=
  match room, l with
  | S room, c :: l' =>
      if c =? 10 then ([c], l')
      else let '(a, r) := fgets_line room l' in (c :: a, r)
  | _, _ => ([], l)
  end.
Fixpoint fgets_lines (fuel : nat) (l : list Z) : list (list Z) :=
  match fuel, l with
  | S fuel, _ :: _ =>
      let '(a, r) := fgets_line 511 l in a :: fgets_lines fuel r
  | _, _ => []
  end.

(** One line of the file, run in the synthetic client slot 0. *)
Definition load_line (line : list Z) : HUB unit :=
  let line := cut_at 10 (c_str line) in
  match line with
  | [] => skip
  | c :: _ =>
      if c =? 35 then skip
      else ctl_dispatch 0 line;; ctl_upd 0 (set_ct_outbuf [])
  end.

(** [load_config_file]: the text of the file, or [None] if it does not open. *)
Definition load_config_file (file : option (list Z)) : HUB unit :=
  match file with
  | None => skip
  | Some text =>
      ctl_upd 0 (λ c, set_ct_outbuf [] (set_ct_buf [] (set_ct_fd 2 (set_ct_active 1 c))));;
      for_each (fgets_lines (length text) text) load_line;;
      ctl_upd 0 (set_ct_active 0)
  end.

(** A configuration file positions a node. *)
Example load_config_ex :
  match load_config_file (Some (str "SET_POS a 1.5 -2" ++ nl)) (init_hub [] 0 (Env [] [] [] [] [] 0)) with
  | Ok (_, h, _) =>
      match nodes h with
      | [nd] => nd_node_id nd = str "a" ∧ nd_pos_set nd = true ∧ nd_pos_x nd = Text.d_of_ratio false 3 2
      | _ => False
      end
  | Fault _ => False
  end.
Proof. vm_compute. by repeat split. Qed.
