(* ===== verification/HubLoop.v ===== *)
(** * The main loop of the hub (src/vbt_medium.c)

    The outbound trunks and one iteration of the poll loop of [main]: the rows
    handed to [poll], the accepts, and the service of the rows that are ready;
    start-up and shutdown around it. *)

From Stdlib Require Import ZArith Lia String.
From stdpp Require Import base list numbers option.
From S2P Require Import Prelude Wire Text HubState HubTables HubModel HubIO HubRoute HubCtl.

(** ** Outbound trunks *)

(** [getaddrinfo], [socket] and [connect]. *)
Definition c_connect : HUB (option Z) :=
  h ← get;
  match e_connects (henv h) with
  | [] => mret None
  | r :: l => modify (set_henv (set_e_connects l (henv h)));; mret r
  end.

Definition upstream_upd (i : Z) (f : upstream_state → upstream_state) : HUB unit :=
  h ← get;
  match at_idx (upstream_states h) i with
  | Some _ => modify (set_upstream_states (upd_idx i f (upstream_states h)))
  | None => fail OobWrite
  end.

Definition upstream_connect (i : Z) : HUB unit :=
  fd ← c_connect;
  match fd with
  | None => skip
  | Some fd =>
      h ← get;
      match at_idx (upstreams h) i with
      | None => fail OobRead
      | Some (host, port) =>
          pidx ← peer_alloc fd true
            (snprintf_s 300 (str "upstream:" ++ host ++ str ":" ++ port));
          when (0 <=? pidx) (upstream_upd i (set_us_peer_idx pidx))
      end
  end.

Definition upstream_one (now i : Z) : HUB unit :=
  h ← get;
  match at_idx (upstream_states h) i with
  | None => fail OobRead
  | Some u =>
      if 0 <=? us_peer_idx u then skip
      else if now - us_last_attempt u <? UPSTREAM_RETRY_SEC then skip
      else upstream_upd i (set_us_last_attempt now);; upstream_connect i
  end.

Definition upstream_tick : HUB unit :=
  h ← get;
  for_each (seqZ 0 (zlen (upstreams h))) (upstream_one (e_now (henv h))).

(** ** One iteration *)

(** What [poll] reports for a peer's row; [an_in] is POLLIN with the result
    the [read] of that descriptor gives. *)
Record answer : Type := Answer {
  an_err : bool;          (* POLLERR, POLLHUP or POLLNVAL *)
  an_out : bool;          (* POLLOUT *)
  an_in : option rres
}.

(** The events of one iteration. *)
Record poll_in : Type := PollIn {
  pi_env : env;                           (* kernel results of the iteration *)
  pi_ready : bool;                        (* poll returned a positive number *)
  pi_unix : option Z;                     (* accepted descriptors *)
  pi_tcp : option (Z * list Z);
  pi_ctl : option Z;
  pi_peers : list answer;
  pi_ctls : list bool;                    (* POLLIN of the control rows *)
  pi_ctl_reads : list ctl_rres
}.

Definition serve_peer `{Libm} (i : Z) (a : answer) : HUB unit :=
  if an_err a then peer_close i
  else
    when (an_out a) (peer_flush i);;
    p ← peer_at i;
    match an_in a with
    | Some r => when (0 <=? p_fd p) (peer_readable i r)
    | None => skip
    end.

(** [for (i = 0; i < num_peers && row < ctl_base; i++)] over the rows left. *)
Fixpoint serve_peers `{Libm} (idxs : list Z) (rows : list (Z * answer)) : HUB unit :=
  match idxs, rows with
  | i :: idxs, (fd, a) :: rest =>
      p ← peer_at i;
      if p_fd p <? 0 then serve_peers idxs rows
      else
        when (fd =? p_fd p) (serve_peer i a);;
        serve_peers idxs rest
  | _, _ => skip
  end.

(** A control client at the end of its turn. *)
Definition ctl_finish (i : Z) : HUB unit :=
  c ← ctl_at i;
  when (negb (ct_active c =? 0)) (ctl_flush i);;
  c ← ctl_at i;
  when ((ct_active c =? 2) && (zlen (ct_outbuf c) =? 0)) (ctl_close i).

Fixpoint serve_ctls (idxs : list Z) (rows : list bool) (reads : list ctl_rres) : HUB unit :=
  match idxs, rows with
  | i :: idxs, re :: rest =>
      c ← ctl_at i;
      if ct_active c =? 0 then serve_ctls idxs rows reads
      else if re : bool then
        ctl_readable i (default (CError true) (head reads));;
        ctl_finish i;;
        serve_ctls idxs rest (tail reads)
      else ctl_finish i;; serve_ctls idxs rest reads
  | _, _ => skip
  end.

(** The rows of [pfds] between [peer_base] and [ctl_base]. *)
Definition peer_rows (h : hub) : list Z :=
  map p_fd (filter (λ p, 0 ≤ p_fd p) (peers h)).

Definition main_iter `{Libm} (x : poll_in) : HUB unit :=
  modify (set_henv (pi_env x));;
  h ← get;
  let rows := zip (peer_rows h) (pi_peers x) in
  let ctl_rows := take (Z.to_nat (count_if (λ c, negb (ct_active c =? 0)) (ctl_clients h)))
                    (pi_ctls x) in
  when (negb (bool_decide (upstreams h = []))) upstream_tick;;
  when (pi_ready x) (
    match pi_unix x with Some fd => accept_unix fd | None => skip end;;
    match pi_tcp x with Some (fd, label) => accept_tcp fd label | None => skip end;;
    match pi_ctl x with Some fd => accept_ctl fd | None => skip end;;
    h ← get;
    serve_peers (seqZ 0 (num_peers h)) rows;;
    serve_ctls (seqZ 0 MAX_CTL_CLIENTS) ctl_rows (pi_ctl_reads x)).

(** [while (g_running)] over the iterations' events. *)
Definition main_loop `{Libm} (xs : list poll_in) : HUB unit := for_each xs main_iter.

(** The end of [main]. *)
Definition shutdown : HUB unit :=
  h ← get; for_each (seqZ 0 (num_peers h)) peer_close.

(** ** Start-up *)

(** [strrchr]: what is in front of and behind the last [c]. *)
Fixpoint strrchr (c : Z) (s : list Z) : option (list Z * list Z) :=
  match s with
  | [] => None
  | d :: s =>
      match strrchr c s with
      | Some (a, b) => Some (d :: a, b)
      | None => if d =? c then Some ([], s) else None
      end
  end.

(** The option [-u host:port]. *)
Definition add_upstream (ups : list (list Z * list Z)) (optarg : list Z) : list (list Z * list Z) :=
  if MAX_UPSTREAMS <=? zlen ups then ups
  else
    match strrchr 58 (c_str optarg) with
    | None => ups
    | Some (host, port) => ups ++ [(take 255 host, take 15 port)]
    end.

(** [main] once its listeners are open: the upstreams of the [-u] options, the
    contents of the file of [-C] if there is one ([Some None]: it does not
    open), and the iterations. *)
Definition serve_main `{Libm} (ups : list (list Z * list Z)) (config : option (option (list Z)))
    (start : Z) (e : env) (xs : list poll_in) : res (unit * hub * list ev) :=
  (match config with Some file => load_config_file file | None => skip end;;
   main_loop xs;;
   shutdown) (init_hub ups start e).
Definition hub_main `{Libm} (us : list (list Z)) (config : option (option (list Z))) (start : Z)
    (e : env) (xs : list poll_in) : res (unit * hub * list ev) :=
  serve_main (foldl add_upstream [] us) config start e xs.
