(* ===== verification/HubStart.v ===== *)
(** * Start-up of the hub (src/vbt_medium.c: [main] up to its loop, and its end)

    The options, the listening sockets of the data, control and TCP ports, and
    what is closed and removed at the end.  [hub_program] is the whole of
    [main]. *)

From Stdlib Require Import String ZArith Lia.
From stdpp Require Import base list numbers option.
From S2P Require Import Prelude Wire Text Startup.
From S2P Require Import HubState HubTables HubModel HubIO HubRoute HubCtl HubLoop.

(** ** The listening sockets *)

(** The modes 0666 and 0600. *)
Definition mode_0666 : Z := 6 * 64 + 6 * 8 + 6.
Definition mode_0600 : Z := 6 * 64.

Definition make_unix_listener (path : list Z) (mode : Z) (r : listen_try) : START Z :=
  match r with
  | NoListenSocket => mret (-1)
  | BindFails fd => emit (SUnlink path);; emit (SClose fd);; mret (-1)
  | ListenFails fd =>
      emit (SUnlink path);; emit (SBind fd (sun_path path));; emit (SClose fd);; mret (-1)
  | Listens fd =>
      emit (SUnlink path);; emit (SBind fd (sun_path path));; emit (SListen fd);;
      emit (SChmod path mode);; mret fd
  end.

(** [htons((uint16_t)port)] *)
Definition make_tcp_listener (port : Z) (r : listen_try) : START Z :=
  match r with
  | NoListenSocket => mret (-1)
  | BindFails fd => emit (SClose fd);; mret (-1)
  | ListenFails fd => emit (SBindTcp fd (u16 port));; emit (SClose fd);; mret (-1)
  | Listens fd => emit (SBindTcp fd (u16 port));; emit (SListen fd);; mret fd
  end.

(** ** The options *)

(** The variables the options set. *)
Record hub_opts : Type := HubOpts {
  ctl_socket_path : option (list Z);
  tcp_port : Z;
  upstream_args : list (list Z * list Z);
  config_path : option (list Z)
}.
Definition no_opts : hub_opts := HubOpts None 0 [] None.

(** [switch (opt)] *)
Definition hub_option (o : hub_opts) (p : opt) : outcome hub_opts :=
  let '(c, optarg) := p in
  if c =? 99 then Go (HubOpts (Some optarg) (tcp_port o) (upstream_args o) (config_path o))
  else if c =? 116 then Go (HubOpts (ctl_socket_path o) (atoi optarg) (upstream_args o) (config_path o))
  else if c =? 117 then
    Go (HubOpts (ctl_socket_path o) (tcp_port o) (add_upstream (upstream_args o) optarg) (config_path o))
  else if c =? 67 then Go (HubOpts (ctl_socket_path o) (tcp_port o) (upstream_args o) (Some optarg))
  else usage c.

(** The loop and [if (optind >= argc)]. *)
Definition hub_options (l : list opt) (operand : option (list Z)) : outcome (list Z * hub_opts) :=
  match getopts hub_option no_opts l with
  | Go o => match operand with Some path => Go (path, o) | None => Exit 2 end
  | Exit s => Exit s
  end.

(** ** From the options to the loop, and the end *)

(** The three listeners; [None] is [return 1]. *)
Definition open_listeners (path : list Z) (o : hub_opts) (ru rc rt : listen_try) : START (option (Z * Z * Z)) :=
  fu ← make_unix_listener path mode_0666 ru;
  if fu <? 0 then mret None
  else
    fc ← match ctl_socket_path o with
         | Some p => fd ← make_unix_listener p mode_0600 rc; mret (Some fd)
         | None => mret None
         end;
    if match fc with Some fd => fd <? 0 | None => false end then mret None
    else
      ft ← (if 0 <? tcp_port o then fd ← make_tcp_listener (tcp_port o) rt; mret (Some fd) else mret None);
      if match ft with Some fd => fd <? 0 | None => false end then mret None
      else mret (Some (fu, default (-1) fc, default (-1) ft)).

(** The end of [main], behind the closing of the peers. *)
Definition close_listeners (path : list Z) (o : hub_opts) (fu fc ft : Z) : START unit :=
  when (0 <=? fu) (emit (SClose fu));;
  when (0 <=? fc) (emit (SClose fc));;
  when (0 <=? ft) (emit (SClose ft));;
  emit (SUnlink path);;
  match ctl_socket_path o with Some p => emit (SUnlink p) | None => skip end.

(** Only listeners that are open have a row. *)
Definition polled (fc ft : Z) (x : poll_in) : poll_in :=
  PollIn (pi_env x) (pi_ready x) (pi_unix x) (if 0 <=? ft then pi_tcp x else None)
    (if 0 <=? fc then pi_ctl x else None) (pi_peers x) (pi_ctls x) (pi_ctl_reads x).

(** What a run of the program comes to: the exit status, the calls on files and
    listening sockets before and after the main loop, and, if it got that far,
    the hub at the end and what it wrote. *)
Record hub_run : Type := HubRun {
  hr_status : Z;
  hr_before : list sev;
  hr_served : option (hub * list ev);
  hr_after : list sev
}.

(** [main]: [l] and [operand] are the command line, [ru], [rc] and [rt] the
    results of opening the listeners, [file] the contents of the file of [-C]
    if it opens, [start] the time, [e] and [xs] the kernel's results in the
    main loop. *)
Definition hub_program `{Libm} (l : list opt) (operand : option (list Z)) (ru rc rt : listen_try)
    (file : option (list Z)) (start : Z) (e : env) (xs : list poll_in) : res hub_run :=
  match hub_options l operand with
  | Exit s => Ok (HubRun s [] None [])
  | Go (path, o) =>
      match open_listeners path o ru rc rt tt with
      | Fault f => Fault f
      | Ok (None, _, before) => Ok (HubRun 1 before None [])
      | Ok (Some (fu, fc, ft), _, before) =>
          match serve_main (upstream_args o) ((λ _, file) <$> config_path o) start e (map (polled fc ft) xs),
                close_listeners path o fu fc ft tt with
          | Ok (_, h, out), Ok (_, _, after) => Ok (HubRun 0 before (Some (h, out)) after)
          | Fault f, _ => Fault f
          | _, Fault f => Fault f
          end
      end
  end.
