(* ===== verification/HubIds.v ===== *)
(** * The counter behind automatic names

    [next_auto_id] is an [int] that [maybe_hello] increments for each hello
    without a name, and that nothing else in the hub touches.  This file shows
    the latter, for every operation of the hub, and counts the former. *)

From Stdlib Require Import ZArith Lia String Floats.SpecFloat.
From stdpp Require Import base list numbers option.
From S2P Require Import Prelude Wire Text HubState HubTables HubModel HubIO HubRoute HubCtl HubLoop.

(** The command does not touch the counter. *)
Definition stays {A} (m : HUB A) : Prop :=
  ∀ h a h' o, m h = Ok (a, h', o) → next_auto_id h' = next_auto_id h.

Section Rules.
Context {A B : Type}.
Implicit Types (m : HUB A).

Lemma stays_bind m (f : A → HUB B) : stays m → (∀ a, stays (f a)) → stays (m ≫= f).
Proof using.
  intros Hm Hf h b h' o (a & h1 & o1 & o2 & E1 & E2 & _)%bind_inv.
  rewrite (Hf a _ _ _ _ E2). by eapply Hm.
Qed.
Lemma stays_ret (a : A) : stays (mret a : HUB A).
Proof using. by intros h b h' o [= <- <- <-]. Qed.
Lemma stays_fail f : stays (fail f : HUB A).
Proof using. done. Qed.
Lemma stays_gets (f : hub → A) : stays (gets f).
Proof using. by intros h b h' o [= <- <- <-]. Qed.
Lemma stays_each (l : list A) (f : A → HUB unit) : (∀ x, stays (f x)) → stays (for_each l f).
Proof using.
  intros Hf. induction l as [|x l IH]; cbn [for_each].
  - by intros h b h' o [= <- <- <-].
  - intros h b h' o (a & h1 & o1 & o2 & E1 & E2 & _)%bind_inv. rewrite (IH _ _ _ _ E2). by eapply Hf.
Qed.
End Rules.
Lemma stays_skip : stays skip.
Proof. apply stays_ret. Qed.
Lemma stays_get : stays get.
Proof. by intros h b h' o [= <- <- <-]. Qed.
Lemma stays_emit e : stays (emit e).
Proof. by intros h b h' o [= <- <- <-]. Qed.
Lemma stays_modify f : (∀ h, next_auto_id (f h) = next_auto_id h) → stays (modify f).
Proof. intros Hf h b h' o [= <- <- <-]. apply Hf. Qed.
Lemma stays_when b m : stays m → stays (when b m).
Proof. intros. destruct b; [done|apply stays_ret]. Qed.
Lemma stays_rdn (l : list Z) off n : stays (rdn l off n).
Proof. unfold rdn. case_decide; [apply stays_ret|apply stays_fail]. Qed.
Lemma stays_rd (l : list Z) i : stays (rd l i).
Proof. unfold rd. case_decide; [destruct (_ !! _)|]; apply stays_ret || apply stays_fail. Qed.
Lemma stays_local_buf n l : stays (local_buf n l).
Proof. unfold local_buf. case_decide; apply stays_ret || apply stays_fail. Qed.

Create HintDb stays.
#[export] Hint Resolve stays_ret stays_fail stays_gets stays_skip stays_get stays_emit stays_rdn stays_rd
  stays_local_buf : stays.

(** Along the structure of a command. *)
Ltac stay :=
  repeat (cbv zeta; lazymatch goal with
    | |- stays (_ ≫= _) => apply stays_bind; [|intros ?]
    | |- stays (if ?b then _ else _) => destruct b
    | |- stays (match ?x with _ => _ end) => destruct x
    | |- stays (for_each _ _) => apply stays_each; intros ?
    | |- stays (when _ _) => apply stays_when
    | |- stays (modify _) => apply stays_modify; by intros
    | |- _ => solve [auto with stays]
    end).

(** ** The operations *)

Lemma stays_node_at i : stays (node_at i).
Proof. unfold node_at. stay. Qed.
Lemma stays_peer_at i : stays (peer_at i).
Proof. unfold peer_at. stay. Qed.
Lemma stays_conn_at i : stays (conn_at i).
Proof. unfold conn_at. stay. Qed.
Lemma stays_node_upd i f : stays (node_upd i f).
Proof. unfold node_upd. stay. Qed.
Lemma stays_peer_upd i f : stays (peer_upd i f).
Proof. unfold peer_upd. stay. Qed.
Lemma stays_conn_upd i f : stays (conn_upd i f).
Proof. unfold conn_upd. stay. Qed.
Lemma stays_stat_upd f : stays (stat_upd f).
Proof. unfold stat_upd. stay. Qed.
#[export] Hint Resolve stays_node_at stays_peer_at stays_conn_at stays_node_upd stays_peer_upd stays_conn_upd
  stays_stat_upd : stays.

Lemma stays_find_node nid create : stays (find_node nid create).
Proof. unfold find_node. stay. Qed.
Lemma stays_node_add_addr n addr : stays (node_add_addr n addr).
Proof. unfold node_add_addr. stay. Qed.
Lemma stays_conn_alloc aa : stays (conn_alloc aa).
Proof. unfold conn_alloc. stay. Qed.
#[export] Hint Resolve stays_find_node stays_node_add_addr stays_conn_alloc : stays.
Lemma stays_observe_connect_ind a pdu n : stays (observe_connect_ind a pdu n).
Proof. unfold observe_connect_ind. stay. Qed.
Lemma stays_conns_drop_node n : stays (conns_drop_node n).
Proof. unfold conns_drop_node. stay. Qed.
Lemma stays_find_override a b create : stays (find_override a b create).
Proof. unfold find_override. stay. Qed.
#[export] Hint Resolve stays_observe_connect_ind stays_conns_drop_node stays_find_override : stays.

Lemma stays_c_rand : stays c_rand.
Proof. unfold c_rand. stay. Qed.
#[export] Hint Resolve stays_c_rand : stays.
Lemma stays_propagate `{Libm} tx rx txp r : stays (propagate tx rx txp r).
Proof. unfold propagate, loss_draw. stay. Qed.
#[export] Hint Resolve stays_propagate : stays.

Lemma stays_peer_close idx : stays (peer_close idx).
Proof. unfold peer_close, peer_close_node. stay. Qed.
Lemma stays_write_all fd data : stays (write_all fd data).
Proof. unfold write_all. stay. Qed.
#[export] Hint Resolve stays_peer_close stays_write_all : stays.
Lemma stays_peer_buffer idx rem : stays (peer_buffer idx rem).
Proof. unfold peer_buffer, c_malloc. stay. Qed.
#[export] Hint Resolve stays_peer_buffer : stays.
Lemma stays_peer_send idx data : stays (peer_send idx data).
Proof. unfold peer_send. stay. Qed.
Lemma stays_peer_flush idx : stays (peer_flush idx).
Proof. unfold peer_flush. stay. Qed.
Lemma stays_peer_alloc fd b label : stays (peer_alloc fd b label).
Proof. unfold peer_alloc. stay. Qed.
#[export] Hint Resolve stays_peer_send stays_peer_flush stays_peer_alloc : stays.

Lemma stays_bind_peer_node pidx nid physical : stays (bind_peer_node pidx nid physical).
Proof. unfold bind_peer_node. stay. Qed.
Lemma stays_deliver_to_peer dst hdr src n r : stays (deliver_to_peer dst hdr src n r).
Proof. unfold deliver_to_peer, pdu_bytes. stay. Qed.
#[export] Hint Resolve stays_bind_peer_node stays_deliver_to_peer : stays.
Lemma stays_forward_frame `{Libm} src hdr n : stays (forward_frame src hdr n).
Proof.
  unfold forward_frame, note_tx, for_peers, forward_adv, forward_data, for_peers, tap_one, bridge_one, adv_one,
    deliver_to_node, drop_model, tx_node, pdu_bytes. stay.
Qed.
Lemma stays_rx_consume idx total : stays (rx_consume idx total).
Proof. unfold rx_consume. stay. Qed.
#[export] Hint Resolve stays_forward_frame stays_rx_consume : stays.

Lemma stays_accept_unix fd : stays (accept_unix fd).
Proof. unfold accept_unix. stay. Qed.
Lemma stays_accept_tcp fd label : stays (accept_tcp fd label).
Proof. unfold accept_tcp. stay. Qed.
Lemma stays_upstream_tick : stays upstream_tick.
Proof. unfold upstream_tick, upstream_one, upstream_connect, upstream_upd, c_connect. stay. Qed.
#[export] Hint Resolve stays_accept_unix stays_accept_tcp stays_upstream_tick : stays.

Lemma stays_ctl_at i : stays (ctl_at i).
Proof. unfold ctl_at. stay. Qed.
Lemma stays_ctl_upd i f : stays (ctl_upd i f).
Proof. unfold ctl_upd. stay. Qed.
#[export] Hint Resolve stays_ctl_at stays_ctl_upd : stays.
Lemma stays_ctl_out i text : stays (ctl_out i text).
Proof. unfold ctl_out. stay. Qed.
#[export] Hint Resolve stays_ctl_out : stays.
Lemma stays_resolve_node ident : stays (resolve_node ident).
Proof. unfold resolve_node. stay. Qed.
#[export] Hint Resolve stays_resolve_node : stays.
Lemma stays_resolve_or_create ident : stays (resolve_or_create ident).
Proof. unfold resolve_or_create. stay. Qed.
#[export] Hint Resolve stays_resolve_or_create : stays.
Lemma stays_ctl_dispatch i cmd : stays (ctl_dispatch i cmd).
Proof.
  unfold ctl_dispatch, ctl_list_peers, ctl_list_conns, end_name, ctl_set_pos, ctl_set_txpower, ctl_set_sens, ctl_set_rssi,
    ctl_set_loss, ctl_clear_link, ctl_set_link, override_upd, ctl_set_pathloss, ctl_stats, ctl_save_config, save_config,
    c_fopen, ctl_quit, table_full. stay.
Qed.
Lemma stays_ctl_flush i : stays (ctl_flush i).
Proof. unfold ctl_flush. stay. Qed.
Lemma stays_ctl_close i : stays (ctl_close i).
Proof. unfold ctl_close. stay. Qed.
#[export] Hint Resolve stays_ctl_dispatch stays_ctl_flush stays_ctl_close : stays.
Lemma stays_ctl_lines fuel i : stays (ctl_lines fuel i).
Proof. induction fuel as [|fuel IH]; cbn [ctl_lines]; stay. Qed.
#[export] Hint Resolve stays_ctl_lines : stays.
Lemma stays_ctl_readable i r : stays (ctl_readable i r).
Proof. unfold ctl_readable. stay. Qed.
Lemma stays_accept_ctl fd : stays (accept_ctl fd).
Proof. unfold accept_ctl. stay. Qed.
Lemma stays_ctl_finish i : stays (ctl_finish i).
Proof. unfold ctl_finish. stay. Qed.
#[export] Hint Resolve stays_ctl_readable stays_accept_ctl stays_ctl_finish : stays.
Lemma stays_serve_ctls idxs rows reads : stays (serve_ctls idxs rows reads).
Proof. revert rows reads. induction idxs as [|i idxs IH]; intros rows reads; cbn [serve_ctls]; stay. Qed.
Lemma stays_load_config_file file : stays (load_config_file file).
Proof. unfold load_config_file, load_line. stay. Qed.
#[export] Hint Resolve stays_serve_ctls stays_load_config_file : stays.

(** ** Anonymous hellos *)

(** A hello whose name is empty. *)
Definition anonymous (payload : list Z) : bool :=
  (5 <=? zlen payload) && (le_join (slice 0 4 payload) =? VBT_HELLO_MAGIC) &&
  (default 1 (head (drop 4 payload)) =? 0).
Definition anon (payload : list Z) : Z := if anonymous payload then 1 else 0.
Fixpoint anons (ps : list (list Z)) : Z :=
  match ps with [] => 0 | p :: ps => anon p + anons ps end.

Lemma anon_range payload : 0 ≤ anon payload ≤ 1.
Proof. unfold anon. destruct (anonymous payload); lia. Qed.
Lemma anon_long payload : anon payload = 1 → 5 ≤ zlen payload.
Proof.
  unfold anon, anonymous. destruct (_ && _ && _) eqn:E; [|done]. intros _.
  apply andb_true_iff in E as [[E _]%andb_true_iff _]. lia.
Qed.
Lemma anons_nonneg ps : 0 ≤ anons ps.
Proof. induction ps as [|p ps IH]; cbn; [done|]. pose proof (anon_range p). lia. Qed.
Lemma anons_app ps qs : anons (ps ++ qs) = anons ps + anons qs.
Proof. induction ps as [|p ps IH]; cbn; lia. Qed.

Lemma hello_id_nil room l : (0 < room)%nat → l ≠ [] → (hello_id room l).1 = [] ↔ default 1 (head l) = 0.
Proof.
  intros Hr Hl. destruct room as [|room]; [lia|]. destruct l as [|c l]; [done|]. cbn.
  destruct (Z.eqb_spec c 0) as [->|Hc]; [done|]. by destruct (hello_id room l).
Qed.

(** What [maybe_hello] calls a hello without a name. *)
Lemma anonymous_id payload :
  5 ≤ zlen payload → le_join (slice 0 4 payload) = VBT_HELLO_MAGIC →
  (hello_id (Z.to_nat (NODE_ID_LEN - 1)) (drop 4 payload)).1 = [] ↔ anonymous payload = true.
Proof.
  intros Hl Hm. rewrite hello_id_nil.
  - unfold anonymous. rewrite Hm, Z.eqb_refl, andb_true_r, andb_true_iff, Z.eqb_eq, Z.leb_le. tauto.
  - unfold NODE_ID_LEN. lia.
  - intros E%(f_equal length). rewrite length_drop in E. unfold zlen in Hl. cbn in E. lia.
Qed.

Lemma maybe_hello_counts pidx payload h k h' o :
  maybe_hello pidx payload h = Ok (k, h', o) → next_auto_id h' = next_auto_id h + anon payload.
Proof.
  unfold maybe_hello, anon. cbv zeta. destruct (Z.ltb_spec (zlen payload) 5) as [Hs|Hl].
  { intros [= <- <- <-]. unfold anonymous. rewrite (proj2 (Z.leb_gt _ _)) by lia. cbn. lia. }
  destruct (Z.eqb_spec (le_join (slice 0 4 payload)) VBT_HELLO_MAGIC) as [Hm|Hm]; cbn [negb].
  2: { intros [= <- <- <-]. unfold anonymous. rewrite (proj2 (Z.eqb_neq _ _) Hm), andb_false_r. cbn. lia. }
  pose proof (anonymous_id payload Hl Hm) as Ha.
  destruct (hello_id _ _) as [id rest]. cbn [fst] in Ha. rewrite bind_get.
  intros (nid & h1 & o1 & o2 & E1 & E2 & _)%bind_inv.
  assert (next_auto_id h' = next_auto_id h1) as ->.
  { revert E2. generalize h1 k h' o2. change (stays (if negb (Z.land (hello_flags rest) VBT_HELLO_FLAG_MONITOR =? 0) then
      peer_upd pidx (λ p, set_p_label (snprintf_s 80 nid) (set_p_is_monitor true p));; mret (zlen payload)
      else bind_peer_node pidx nid (negb (Z.land (hello_flags rest) VBT_HELLO_FLAG_PHYSICAL =? 0));; mret (zlen payload))).
    stay. }
  destruct id as [|c id].
  - rewrite (proj1 Ha eq_refl). destruct (_ =? INT_MAX); [done|]. rewrite bind_modify in E1.
    by injection E1 as <- <- <-.
  - destruct (anonymous payload); [by discriminate (proj2 Ha eq_refl)|]. injection E1 as <- <- <-. lia.
Qed.
Lemma rx_message_counts `{Libm} idx payload h h' o :
  rx_message idx payload h = Ok (tt, h', o) → next_auto_id h' = next_auto_id h + anon payload.
Proof.
  unfold rx_message. intros (k & h1 & o1 & o2 & E1 & E2 & _)%bind_inv.
  rewrite <- (maybe_hello_counts _ _ _ _ _ _ E1). revert E2. generalize h1 tt h' o2.
  change (stays (when (k =? 0) match frame_of payload with
    | Some hdr => forward_frame idx hdr (zlen payload - VBT_HDR_SIZE) | None => skip end)). stay.
Qed.
