(* ===== verification/HubInv.v ===== *)
(** * The invariant of the hub and its preservation

    [hub_ok] says what the tables of the hub may hold: every stored index
    points into the used part of its table or is -1, every buffer has its
    size and holds bytes, every fill count is within its array.  Every
    operation of the hub keeps it and performs no access outside an object. *)

From Stdlib Require Import ZArith Lia Floats.SpecFloat.
From stdpp Require Import base list numbers option.
From S2P Require Import Prelude Wire TextInv HubState HubTables HubModel HubIO HubRoute HubIds.

Definition idx_ok (n i : Z) : Prop := -1 ≤ i < n.
#[export] Hint Unfold idx_ok : vbt_unfold.

Definition addr_ok (a : list Z) : Prop := bytes_ok a ∧ zlen a = 6.

Record node_ok (np : Z) (nd : node) : Prop := NodeOk {
  nok_peer : idx_ok np (nd_peer_idx nd);
  nok_addrs : Forall addr_ok (nd_addrs nd);
  nok_num_addrs : zlen (nd_addrs nd) ≤ MAX_ADDRS_PER_NODE;
  nok_id : zlen (nd_node_id nd) < NODE_ID_LEN;
  nok_dbl : d_ok (nd_pos_x nd) ∧ d_ok (nd_pos_y nd) ∧ d_ok (nd_pos_z nd) ∧
    d_ok (nd_tx_power_dbm nd);
  nok_chan : is_u8 (nd_last_channel nd);
  nok_cnt : is_u64 (nd_tx_pdus nd) ∧ is_u64 (nd_rx_pdus nd) ∧ is_u64 (nd_rx_dropped nd)
}.

Record peer_ok (nn : Z) (p : peer) : Prop := PeerOk {
  pok_node : idx_ok nn (p_node_idx p);
  pok_rxbuf : bytes_ok (p_rxbuf p) ∧ zlen (p_rxbuf p) = RECV_BUF_SIZE;
  pok_rxused : 0 ≤ p_rxused p ≤ RECV_BUF_SIZE;
  pok_out : bytes_ok (default [] (p_outbuf p));
  pok_outused : p_outused p ≤ SEND_BUF_SIZE
}.

Record conn_ok (nn : Z) (c : conn) : Prop := ConnOk {
  cok_a : idx_ok nn (cn_node_a c);
  cok_b : idx_ok nn (cn_node_b c);
  cok_aa : is_u32 (cn_access_addr c);
  cok_pdus : is_u64 (cn_pdus c);
  cok_addrs : addr_ok (cn_inita c) ∧ addr_ok (cn_adva c)
}.

Record ctl_ok (c : ctl_client) : Prop := CtlOk {
  tok_buf : zlen (ct_buf c) ≤ CTL_BUF_SIZE - 1;
  tok_out : zlen (ct_outbuf c) ≤ CTL_OUTBUF_SIZE
}.

Record stats_ok (s : hub_stats) : Prop := StatsOk {
  sok_adv : is_u64 (stat_adv_forwarded s);
  sok_data : is_u64 (stat_data_forwarded s);
  sok_model : is_u64 (stat_dropped_model s);
  sok_bp : is_u64 (stat_dropped_backpressure s);
  sok_opened : is_u64 (stat_conns_opened s);
  sok_closed : is_u64 (stat_conns_closed s)
}.

Record hub_ok (h : hub) : Prop := HubOk {
  hok_nodes : Forall (node_ok (num_peers h)) (nodes h);
  hok_peers : Forall (peer_ok (num_nodes h)) (peers h);
  hok_conns : Forall (conn_ok (num_nodes h)) (conns h);
  hok_ups : Forall (λ u, idx_ok (num_peers h) (us_peer_idx u)) (upstream_states h);
  hok_num_nodes : num_nodes h ≤ MAX_NODES;
  hok_num_peers : num_peers h ≤ MAX_PEERS;
  hok_num_conns : num_conns h ≤ MAX_CONNS;
  hok_num_overrides : num_overrides h ≤ MAX_OVERRIDES;
  hok_ups_len : zlen (upstream_states h) = zlen (upstreams h);
  hok_stats : stats_ok (stats h);
  hok_ctl : Forall ctl_ok (ctl_clients h);
  hok_num_ctl : zlen (ctl_clients h) = MAX_CTL_CLIENTS;
  hok_auto : 0 ≤ next_auto_id h ≤ INT_MAX
}.

Definition ev_ok (e : ev) : Prop :=
  match e with EvWrite _ b => bytes_ok b | _ => True end.

Abbreviation hsafe := (safe hub_ok ev_ok).

(** A safe command runs. *)
Lemma hsafe_run {A} (m : HUB A) h Q :
  hsafe m h Q → ∃ a h' o, m h = Ok (a, h', o) ∧ hub_ok h' ∧ Forall ev_ok o ∧ Q a h'.
Proof. unfold hsafe, safe, wp. destruct (m h) as [[[a h'] o]|]; [|done]. eauto 6. Qed.

(** Something known of every result. *)
Lemma hsafe_also {A} (m : HUB A) h (Q R : A → hub → Prop) :
  hsafe m h Q → (∀ a h' o, m h = Ok (a, h', o) → R a h') → hsafe m h (λ a h', Q a h' ∧ R a h').
Proof. unfold hsafe, safe, wp. destruct (m h) as [[[a h'] o]|]; [|done]. intros (? & ? & ?) HR. eauto. Qed.
Lemma hsafe_stays {A} (m : HUB A) h Q :
  hsafe m h Q → stays m → hsafe m h (λ a h', Q a h' ∧ next_auto_id h' = next_auto_id h).
Proof. intros Hs Hm. apply hsafe_also; [done|]. intros a h' o. apply Hm. Qed.

(** ** Table access *)

Lemma at_idx_Some {A} (l : list A) i x :
  at_idx l i = Some x ↔ 0 ≤ i ∧ l !! Z.to_nat i = Some x.
Proof.
  unfold at_idx. case_decide as Hi; [|split; [done|intros [? _]; lia]].
  split; [done|]. by intros [_ ?].
Qed.

Lemma at_idx_is_Some {A} (l : list A) i : 0 ≤ i < zlen l → ∃ x, at_idx l i = Some x.
Proof.
  intros Hi. unfold at_idx. rewrite decide_True by lia.
  apply lookup_lt_is_Some_2. unfold zlen in Hi. lia.
Qed.

Lemma at_idx_lt {A} (l : list A) i x : at_idx l i = Some x → 0 ≤ i < zlen l.
Proof. intros [? ?%lookup_lt_Some]%at_idx_Some. unfold zlen. lia. Qed.

Lemma at_idx_Forall {A} (P : A → Prop) l i x : Forall P l → at_idx l i = Some x → P x.
Proof. intros Hl [_ ?]%at_idx_Some. by eapply Forall_lookup_1. Qed.

Lemma zlen_upd_idx {A} i (f : A → A) l : zlen (upd_idx i f l) = zlen l.
Proof. unfold zlen, upd_idx. by rewrite length_alter. Qed.

Lemma at_upd_idx_eq {A} i (f : A → A) l x :
  at_idx l i = Some x → at_idx (upd_idx i f l) i = Some (f x).
Proof.
  intros [Hi Hx]%at_idx_Some. apply at_idx_Some. split; [done|].
  unfold upd_idx. rewrite list_lookup_alter_eq. by rewrite Hx.
Qed.

Lemma at_upd_idx_ne {A} i j (f : A → A) l :
  0 ≤ i → i ≠ j → at_idx (upd_idx i f l) j = at_idx l j.
Proof.
  intros Hi Hij. unfold at_idx. case_decide; [|done]. unfold upd_idx.
  apply list_lookup_alter_ne. lia.
Qed.

Lemma Forall_upd_idx {A} (P : A → Prop) i f l :
  Forall P l → (∀ x, P x → P (f x)) → Forall P (upd_idx i f l).
Proof. intros Hl Hf. unfold upd_idx. apply Forall_alter; [done|]. eauto. Qed.

(** ** Allocation of a slot *)

Section Alloc.
Context {A : Type} (free : A → bool) (max : Z) (x : A).
Implicit Types (l : list A).

Lemma tab_alloc_lookup l i l' : tab_alloc free max x l = Some (i, l') → l' !! i = Some x.
Proof.
  unfold tab_alloc. destruct (find_idx free l) as [j|] eqn:E.
  - intros [= <- <-]. apply list_lookup_insert_eq. by eapply find_idx_lt.
  - case_match; [done|]. intros [= <- <-]. by apply list_lookup_middle.
Qed.

Lemma tab_alloc_others l i l' j :
  tab_alloc free max x l = Some (i, l') → j ≠ i → l' !! j = l !! j.
Proof.
  unfold tab_alloc. destruct (find_idx free l) as [k|] eqn:E.
  - intros [= <- <-] ?. by apply list_lookup_insert_ne.
  - case_match; [done|]. intros [= <- <-] ?.
    destruct (decide (j < length l)%nat); [by apply lookup_app_l|].
    rewrite !lookup_ge_None_2; [done|lia|]. rewrite length_app. simpl. lia.
Qed.

(** The slot was free, or did not exist. *)
Lemma tab_alloc_slot l i l' :
  tab_alloc free max x l = Some (i, l') → ∀ y, l !! i = Some y → free y = true.
Proof.
  unfold tab_alloc. destruct (find_idx free l) as [k|] eqn:E.
  - intros [= <- <-] y Hy. apply find_idx_sat in E as (z & Hz & ?). congruence.
  - case_match; [done|]. intros [= <- <-] y Hy%lookup_lt_Some. lia.
Qed.

Lemma tab_alloc_zlen l i l' :
  tab_alloc free max x l = Some (i, l') →
  zlen l ≤ zlen l' ∧ (zlen l ≤ max → zlen l' ≤ max) ∧ Z.of_nat i < zlen l'.
Proof.
  intros E. pose proof (lookup_lt_Some _ _ _ (tab_alloc_lookup _ _ _ E)) as Hi.
  revert E. unfold tab_alloc. destruct (find_idx free l) as [k|] eqn:E.
  - intros [= <- <-]. unfold zlen in *. rewrite length_insert in *. lia.
  - destruct (max <=? zlen l) eqn:Hm; [done|]. intros [= <- <-].
    unfold zlen in *. rewrite length_app in *. simpl in *. lia.
Qed.

Lemma tab_alloc_Forall (P : A → Prop) l i l' :
  tab_alloc free max x l = Some (i, l') → Forall P l → P x → Forall P l'.
Proof.
  intros E Hl Hx. apply Forall_lookup_2. intros j y Hy.
  destruct (decide (j = i)) as [->|Hj].
  - rewrite (tab_alloc_lookup _ _ _ E) in Hy. by simplify_eq.
  - rewrite (tab_alloc_others _ _ _ _ E Hj) in Hy. by eapply Forall_lookup_1.
Qed.

(** Allocation fails exactly when the array is full of slots in use. *)
Lemma tab_alloc_None l :
  tab_alloc free max x l = None ↔ max ≤ zlen l ∧ ∀ y, y ∈ l → free y = false.
Proof.
  unfold tab_alloc. destruct (find_idx free l) as [k|] eqn:E.
  - split; [done|]. intros [_ H]. apply find_idx_sat in E as (z & Hz & Hf).
    rewrite H in Hf; [done|]. by eapply list_elem_of_lookup_2.
  - rewrite find_idx_None in E. destruct (max <=? zlen l) eqn:Hm; split; try done.
    + intros _. split; [lia|]. intros y [i Hy]%list_elem_of_lookup_1. eauto.
    + intros [? _]. lia.
Qed.
End Alloc.

(** ** Primitive updates *)

Lemma idx_ok_mono n m i : idx_ok n i → n ≤ m → idx_ok m i.
Proof. mlia. Qed.
Lemma node_ok_mono np np' nd : node_ok np nd → np ≤ np' → node_ok np' nd.
Proof. intros [] ?. split; eauto using idx_ok_mono. Qed.
Lemma peer_ok_mono nn nn' p : peer_ok nn p → nn ≤ nn' → peer_ok nn' p.
Proof. intros [] ?. split; eauto using idx_ok_mono. Qed.
Lemma conn_ok_mono nn nn' c : conn_ok nn c → nn ≤ nn' → conn_ok nn' c.
Proof. intros [] ?. split; eauto using idx_ok_mono. Qed.

(** Replacing a table by one of at least its length. *)
Lemma hub_ok_set_nodes h l :
  hub_ok h → num_nodes h ≤ zlen l ≤ MAX_NODES → Forall (node_ok (num_peers h)) l →
  hub_ok (set_nodes l h).
Proof.
  intros Hh [Hl ?] ?. split; try apply Hh; try done.
  - eapply Forall_impl; [|apply (hok_peers _ Hh)]. intros. by eapply peer_ok_mono.
  - eapply Forall_impl; [|apply (hok_conns _ Hh)]. intros. by eapply conn_ok_mono.
Qed.

Lemma hub_ok_set_peers h l :
  hub_ok h → num_peers h ≤ zlen l ≤ MAX_PEERS → Forall (peer_ok (num_nodes h)) l →
  hub_ok (set_peers l h).
Proof.
  intros Hh [Hl ?] ?. split; try apply Hh; try done.
  - eapply Forall_impl; [|apply (hok_nodes _ Hh)]. intros. by eapply node_ok_mono.
  - eapply Forall_impl; [|apply (hok_ups _ Hh)]. intros u Hu. exact (idx_ok_mono _ _ _ Hu Hl).
Qed.

Lemma hub_ok_set_conns h l :
  hub_ok h → zlen l ≤ MAX_CONNS → Forall (conn_ok (num_nodes h)) l → hub_ok (set_conns l h).
Proof. intros [] ??. by split. Qed.

Lemma hub_ok_set_overrides h l :
  hub_ok h → zlen l ≤ MAX_OVERRIDES → hub_ok (set_overrides l h).
Proof. intros [] ?. by split. Qed.

Lemma hub_ok_set_henv h e : hub_ok h → hub_ok (set_henv e h).
Proof. intros []. by split. Qed.
Lemma hub_ok_set_stats h s : hub_ok h → stats_ok s → hub_ok (set_stats s h).
Proof. intros [] ?. by split. Qed.
Lemma hub_ok_set_next_auto_id h s : hub_ok h → 0 ≤ s ≤ INT_MAX → hub_ok (set_next_auto_id s h).
Proof. intros [] ?. by split. Qed.
Lemma hub_ok_set_upstream_states h l :
  hub_ok h → Forall (λ u, idx_ok (num_peers h) (us_peer_idx u)) l →
  zlen l = zlen (upstream_states h) → hub_ok (set_upstream_states l h).
Proof. intros [] ? Hl. split; try done. cbn. congruence. Qed.

Lemma inc64_range x : is_u64 (inc64 x).
Proof. apply u64_range. Qed.
#[export] Hint Resolve inc64_range : vbt.

(** The counters stay in range. *)
Ltac stats_tac := intros ? []; split; cbn; auto with vbt.
#[export] Hint Resolve hub_ok_set_henv : vbt.

(** ** Rules for the accessors *)

Section Access.
Context (h : hub) (Hh : hub_ok h).

Lemma node_at_safe i (Q : node → hub → Prop) :
  0 ≤ i < num_nodes h →
  (∀ nd, at_idx (nodes h) i = Some nd → node_ok (num_peers h) nd → Q nd h) →
  hsafe (node_at i) h Q.
Proof using Hh.
  intros Hi HQ. unfold node_at. safe_step. apply safe_get; [done|].
  destruct (at_idx_is_Some (nodes h) i Hi) as [nd Hnd]. rewrite Hnd.
  apply safe_ret; [done|]. apply HQ; [done|].
  eapply at_idx_Forall; [apply Hh|done].
Qed.

Lemma peer_at_safe i (Q : peer → hub → Prop) :
  0 ≤ i < num_peers h →
  (∀ p, at_idx (peers h) i = Some p → peer_ok (num_nodes h) p → Q p h) →
  hsafe (peer_at i) h Q.
Proof using Hh.
  intros Hi HQ. unfold peer_at. safe_step. apply safe_get; [done|].
  destruct (at_idx_is_Some (peers h) i Hi) as [p Hp]. rewrite Hp.
  apply safe_ret; [done|]. apply HQ; [done|].
  eapply at_idx_Forall; [apply Hh|done].
Qed.

Lemma hub_conn_at_safe i (Q : conn → hub → Prop) :
  0 ≤ i < num_conns h →
  (∀ c, at_idx (conns h) i = Some c → conn_ok (num_nodes h) c → Q c h) →
  hsafe (conn_at i) h Q.
Proof using Hh.
  intros Hi HQ. unfold conn_at. safe_step. apply safe_get; [done|].
  destruct (at_idx_is_Some (conns h) i Hi) as [c Hc]. rewrite Hc.
  apply safe_ret; [done|]. apply HQ; [done|].
  eapply at_idx_Forall; [apply Hh|done].
Qed.

Lemma node_upd_safe i f (Q : unit → hub → Prop) :
  0 ≤ i < num_nodes h →
  (∀ nd, node_ok (num_peers h) nd → node_ok (num_peers h) (f nd)) →
  (let h' := set_nodes (upd_idx i f (nodes h)) h in hub_ok h' → Q tt h') →
  hsafe (node_upd i f) h Q.
Proof using Hh.
  intros Hi Hf HQ. unfold node_upd. safe_step. apply safe_get; [done|].
  destruct (at_idx_is_Some (nodes h) i Hi) as [nd Hnd]. rewrite Hnd.
  assert (hub_ok (set_nodes (upd_idx i f (nodes h)) h)).
  { apply hub_ok_set_nodes; [done| |by apply Forall_upd_idx; [apply Hh|]].
    rewrite zlen_upd_idx. split; [done|apply Hh]. }
  apply safe_modify; auto.
Qed.

Lemma peer_upd_safe i f (Q : unit → hub → Prop) :
  0 ≤ i < num_peers h →
  (∀ p, at_idx (peers h) i = Some p → peer_ok (num_nodes h) p → peer_ok (num_nodes h) (f p)) →
  (let h' := set_peers (upd_idx i f (peers h)) h in hub_ok h' → Q tt h') →
  hsafe (peer_upd i f) h Q.
Proof using Hh.
  intros Hi Hf HQ. unfold peer_upd. safe_step. apply safe_get; [done|].
  destruct (at_idx_is_Some (peers h) i Hi) as [p Hp]. rewrite Hp.
  assert (hub_ok (set_peers (upd_idx i f (peers h)) h)).
  { apply hub_ok_set_peers; [done| |].
    - rewrite zlen_upd_idx. split; [done|apply Hh].
    - unfold upd_idx. apply at_idx_Some in Hp as Hp'. apply Forall_alter; [apply Hh|].
      intros q Hq ?. apply Hf; [|done]. apply at_idx_Some. split; [lia|].
      destruct Hp'. congruence. }
  apply safe_modify; auto.
Qed.

Lemma conn_upd_safe i f (Q : unit → hub → Prop) :
  0 ≤ i < num_conns h →
  (∀ c, conn_ok (num_nodes h) c → conn_ok (num_nodes h) (f c)) →
  (let h' := set_conns (upd_idx i f (conns h)) h in hub_ok h' → Q tt h') →
  hsafe (conn_upd i f) h Q.
Proof using Hh.
  intros Hi Hf HQ. unfold conn_upd. safe_step. apply safe_get; [done|].
  destruct (at_idx_is_Some (conns h) i Hi) as [c Hc]. rewrite Hc.
  assert (hub_ok (set_conns (upd_idx i f (conns h)) h)).
  { apply hub_ok_set_conns; [done| |by apply Forall_upd_idx; [apply Hh|]].
    rewrite zlen_upd_idx. apply Hh. }
  apply safe_modify; auto.
Qed.

Lemma stat_upd_safe f (Q : unit → hub → Prop) :
  (∀ s, stats_ok s → stats_ok (f s)) →
  (let h' := set_stats (f (stats h)) h in hub_ok h' → Q tt h') → hsafe (stat_upd f) h Q.
Proof using Hh.
  intros Hf HQ. assert (hub_ok (set_stats (f (stats h)) h)).
  { apply hub_ok_set_stats; [done|]. apply Hf, Hh. }
  apply safe_modify; auto.
Qed.
End Access.

(** ** How the data path changes the hub

    The kernel is [calm] when no write fails for good, no allocation fails and
    the error messages it has for files are not absurdly long.  [evolves]: the tables keep their sizes and, under a calm kernel,
    every peer keeps its descriptor, its role and its receive buffer. *)

Definition soft (w : wres) : Prop :=
  match w with WBytes n => 0 < n | WError => False | _ => True end.
Definition calm (h : hub) : Prop :=
  Forall soft (e_writes (henv h)) ∧ Forall (λ b, b = true) (e_mallocs (henv h)) ∧
  Forall (λ r, zlen (default [] r) ≤ 1024) (e_fopens (henv h)).

Record kept (p p' : peer) : Prop := Kept {
  kept_fd : p_fd p' = p_fd p;
  kept_rxbuf : p_rxbuf p' = p_rxbuf p;
  kept_rxused : p_rxused p' = p_rxused p;
  kept_bridge : p_is_bridge p' = p_is_bridge p;
  kept_monitor : p_is_monitor p' = p_is_monitor p;
  kept_node : p_node_idx p' = p_node_idx p
}.

Record evolves (h h' : hub) : Prop := Evolves {
  evo_nodes : num_nodes h' = num_nodes h;
  evo_peers : num_peers h' = num_peers h;
  evo_kept : calm h → calm h' ∧ Forall2 kept (peers h) (peers h')
}.

#[export] Instance kept_preorder : PreOrder kept.
Proof.
  split.
  - intros p. by split.
  - intros p q r [] []. split; congruence.
Qed.

#[export] Instance evolves_preorder : PreOrder evolves.
Proof.
  split.
  - intros h. split; [done..|]. intros ?. by split.
  - intros h1 h2 h3 [A1 B1 C1] [A2 B2 C2]. split; [congruence..|].
    intros Hc. destruct (C1 Hc) as [Hc2 K1], (C2 Hc2) as [? K2]. split; [done|].
    by transitivity (peers h2).
Qed.

(** The same peers and the same operating-system results. *)
Lemma evolves_same h h' :
  num_nodes h' = num_nodes h → peers h' = peers h → henv h' = henv h → evolves h h'.
Proof.
  intros Hn Hp He. split; [done|by unfold num_peers; rewrite Hp|].
  intros Hc. split; [by unfold calm; rewrite He|]. by rewrite Hp.
Qed.

Lemma evolves_upd_node h i f : evolves h (set_nodes (upd_idx i f (nodes h)) h).
Proof. apply evolves_same; [|done..]. apply zlen_upd_idx. Qed.

Lemma Forall2_upd_idx {A} (R : A → A → Prop) i f (l : list A) :
  (∀ x, R x x) → (∀ x, at_idx l i = Some x → R x (f x)) → 0 ≤ i →
  Forall2 R l (upd_idx i f l).
Proof.
  intros Hr Hf Hi. apply Forall2_same_length_lookup. unfold upd_idx.
  split; [by rewrite length_alter|]. intros j x y Hx.
  destruct (decide (j = Z.to_nat i)) as [->|Hj].
  - rewrite list_lookup_alter_eq, Hx. intros [= <-]. apply Hf, at_idx_Some. done.
  - rewrite list_lookup_alter_ne by done. rewrite Hx. intros [= <-]. apply Hr.
Qed.

Lemma evolves_upd_peer h i f :
  0 ≤ i → (∀ p, at_idx (peers h) i = Some p → kept p (f p)) →
  evolves h (set_peers (upd_idx i f (peers h)) h).
Proof.
  intros Hi Hf. split; [done|apply zlen_upd_idx|]. intros Hc. split; [done|].
  by apply Forall2_upd_idx.
Qed.

Lemma evolves_at h h' i p :
  evolves h h' → calm h → at_idx (peers h) i = Some p →
  ∃ p', at_idx (peers h') i = Some p' ∧ kept p p'.
Proof.
  intros [_ _ He] Hc [Hi Hp]%at_idx_Some. destruct (He Hc) as [_ Hk].
  destruct (Forall2_lookup_l _ _ _ _ _ Hk Hp) as (p' & Hp' & ?).
  exists p'. split; [by apply at_idx_Some|done].
Qed.

(** ** Peer input and output *)

(** A loop of writes splits the data into what was accepted and the rest. *)
Lemma write_loop_spec ws data :
  let '(cs, todo, ws', stop) := write_loop ws data in
  data = concat cs ++ todo ∧ (stop = WDone ↔ todo = []) ∧
  (Forall soft ws → Forall soft ws' ∧ stop ≠ WHard).
Proof.
  revert data. induction ws as [|w ws IH]; intros [|b data]; try (cbn; done).
  destruct w as [n| | |].
  - cbn [write_loop]. destruct (0 <? n) eqn:Hn.
    + specialize (IH (drop (Z.to_nat (Z.min n (zlen (b :: data)))) (b :: data))).
      destruct (write_loop ws _) as [[[cs todo] ws'] stop].
      destruct IH as (Hd & Hs & Hc). cbn [concat]. split_and!.
      * rewrite <- app_assoc, <- Hd. by rewrite take_drop.
      * done.
      * intros [_ ?]%Forall_cons_1. auto.
    + cbn. split_and!; [done|done|]. intros [Hw _]%Forall_cons_1. simpl in Hw. lia.
  - cbn [write_loop]. specialize (IH (b :: data)).
    destruct (write_loop ws (b :: data)) as [[[cs todo] ws'] stop].
    destruct IH as (? & ? & Hc). split_and!; [done..|]. intros [_ ?]%Forall_cons_1. auto.
  - cbn. split_and!; [done|done|]. by intros [_ ?]%Forall_cons_1.
  - cbn. split_and!; [done|done|]. by intros [[] _]%Forall_cons_1.
Qed.

Lemma emit_writes_safe fd cs h (Q : unit → hub → Prop) :
  hub_ok h → Forall bytes_ok cs → Q tt h →
  hsafe (for_each cs (λ c, emit (EvWrite fd c))) h Q.
Proof.
  intros Hh Hcs HQ. induction Hcs as [|c cs Hc _ IH]; cbn [for_each].
  - by apply safe_skip.
  - safe_step. apply safe_emit; [done|done|]. exact IH.
Qed.

Lemma bytes_ok_concat (cs : list (list Z)) : bytes_ok (concat cs) → Forall bytes_ok cs.
Proof.
  induction cs as [|c cs IH]; cbn [concat]; [by constructor|].
  intros [? ?]%Forall_app. constructor; auto.
Qed.

Lemma write_all_safe fd data h (Q : list Z * wstop → hub → Prop) :
  hub_ok h → bytes_ok data →
  (∀ todo stop e, bytes_ok todo → zlen todo ≤ zlen data → (stop = WDone ↔ todo = []) →
     let h' := set_henv e h in
     hub_ok h' → evolves h h' → (calm h → stop ≠ WHard) → Q (todo, stop) h') →
  hsafe (write_all fd data) h Q.
Proof.
  intros Hh Hd HQ. unfold write_all. safe_step. apply safe_get; [done|].
  pose proof (write_loop_spec (e_writes (henv h)) data) as Hw.
  destruct (write_loop _ _) as [[[cs todo] ws] stop]. destruct Hw as (Hdata & Hst & Hsoft).
  rewrite Hdata in Hd. apply Forall_app in Hd as [Hcs Htodo].
  safe_step. apply safe_modify; [auto with vbt|]. safe_step.
  apply emit_writes_safe; [auto with vbt|by apply bytes_ok_concat|].
  apply safe_ret; [auto with vbt|]. apply HQ; [done| |done|auto with vbt| |].
  - rewrite Hdata, zlen_app. pose proof (zlen_nonneg (concat cs)). lia.
  - split; [done..|]. intros [Hc ?]. split; [|reflexivity]. by split; [apply Hsoft|].
  - intros [Hc _]. by apply Hsoft.
Qed.

Lemma drop_conn_ok nn n c : conn_ok nn c → conn_ok nn (drop_conn n c).
Proof. unfold drop_conn. intros []. by case_match; split. Qed.

Lemma conns_drop_node_safe n h (Q : unit → hub → Prop) :
  hub_ok h →
  (∀ s, let h' := set_stats s (set_conns (map (drop_conn n) (conns h)) h) in
     hub_ok h' → Q tt h') →
  hsafe (conns_drop_node n) h Q.
Proof.
  intros Hh HQ. unfold conns_drop_node. safe_step. apply safe_get; [done|].
  assert (hub_ok (set_conns (map (drop_conn n) (conns h)) h)).
  { apply hub_ok_set_conns; [done| |].
    - unfold zlen. rewrite length_map. apply Hh.
    - apply Forall_map. eapply Forall_impl; [|apply Hh]. intros. by apply drop_conn_ok. }
  safe_step. apply safe_modify; [done|]. apply stat_upd_safe; [done|stats_tac|].
  intros h' Hh'. by apply HQ.
Qed.

(** The tables keep their sizes. *)
Record sized (h h' : hub) : Prop := Sized {
  szd_nodes : num_nodes h' = num_nodes h;
  szd_peers : num_peers h' = num_peers h
}.
#[export] Instance sized_preorder : PreOrder sized.
Proof. split; [by split|]. intros ??? [] []. split; congruence. Qed.

Lemma sized_upd_node h i f : sized h (set_nodes (upd_idx i f (nodes h)) h).
Proof. split; [apply zlen_upd_idx|done]. Qed.
Lemma sized_upd_peer h i f : sized h (set_peers (upd_idx i f (peers h)) h).
Proof. split; [done|apply zlen_upd_idx]. Qed.

Lemma peer_close_node_safe idx n h :
  hub_ok h → 0 ≤ n < num_nodes h →
  hsafe (peer_close_node idx n) h (λ _ h', sized h h' ∧ peers h' = peers h ∧ henv h' = henv h).
Proof.
  intros Hh Hn. unfold peer_close_node. safe_step. apply node_at_safe; [done..|].
  intros nd Hnd Hok. safe_step.
  eapply (safe_mono _ _ _ _ (λ _ h', sized h h' ∧ peers h' = peers h ∧ henv h' = henv h)).
  { apply safe_when; [done| |done]. intros _. apply node_upd_safe; [done..| |].
    - intros ? []. split; try done. simpl. pose proof (zlen_nonneg (peers h)).
      unfold num_peers. mlia.
    - intros h' _. split_and!; [apply sized_upd_node|done..]. }
  intros _ h1 Hh1 (Hs & Hp & He). safe_step. apply conns_drop_node_safe; [done|].
  intros s h2 Hh2. safe_step. apply node_at_safe; [done| |].
  { subst h2. change (num_nodes _) with (num_nodes h1). destruct Hs. lia. }
  intros nd2 Hnd2 _. apply safe_when; [done| |].
  - intros _. apply node_upd_safe; [done| | |].
    + subst h2. change (num_nodes _) with (num_nodes h1). destruct Hs. lia.
    + intros ? []. by split.
    + intros h3 _. split_and!; [|done..]. transitivity h1; [done|]. transitivity h2; [done|].
      apply sized_upd_node.
  - intros _. split_and!; [by transitivity h1|exact Hp|exact He].
Qed.

Lemma zero_peer_rxbuf : bytes_ok (p_rxbuf zero_peer) ∧ zlen (p_rxbuf zero_peer) = RECV_BUF_SIZE.
Proof.
  split; [|done]. unfold zero_peer. cbn [p_rxbuf].
  apply Forall_replicate. mlia.
Qed.

Lemma closed_peer_ok nn : 0 ≤ nn → peer_ok nn closed_peer.
Proof.
  intros. split.
  - cbn. mlia.
  - apply zero_peer_rxbuf.
  - cbn. vm_compute. by split.
  - by constructor.
  - cbn. done.
Qed.

Lemma upstream_lost_ok np idx u :
  0 ≤ np → idx_ok np (us_peer_idx u) → idx_ok np (us_peer_idx (upstream_lost idx u)).
Proof. intros ??. unfold upstream_lost. case_match; [|done]. cbn. mlia. Qed.

(** What [peer_close] leaves of the peers: the slot is closed, the others are
    as before, and no operating-system result was consumed. *)
Record closes (idx : Z) (h h' : hub) : Prop := Closes {
  cls_sized : sized h h';
  cls_env : henv h' = henv h;
  cls_slot : ∀ p, at_idx (peers h') idx = Some p → p_fd p < 0 ∧
    (p = closed_peer ∨ h' = h);
  cls_others : ∀ j, j ≠ idx → at_idx (peers h') j = at_idx (peers h) j
}.

Lemma peer_close_safe idx h :
  hub_ok h → 0 ≤ idx < num_peers h → hsafe (peer_close idx) h (λ _ h', closes idx h h').
Proof.
  intros Hh Hi. unfold peer_close. safe_step. apply peer_at_safe; [done..|].
  intros p Hp Hpok. apply safe_if; intros Hfd.
  { apply safe_skip; [done|]. split; [done..| |done]. intros q Hq.
    rewrite Hp in Hq. injection Hq as <-. split; [lia|by right]. }
  safe_step.
  eapply (safe_mono _ _ _ _ (λ _ h', sized h h' ∧ peers h' = peers h ∧ henv h' = henv h)).
  { apply safe_when; [done| |done]. intros ?. apply peer_close_node_safe; [done|].
    pose proof (pok_node _ _ Hpok). mlia. }
  intros _ h1 Hh1 (Hs & Hpe & He). safe_step.
  pose proof (zlen_nonneg (peers h)). pose proof (zlen_nonneg (nodes h)).
  assert (num_peers h1 = num_peers h) as Hn by apply Hs.
  assert (num_nodes h1 = num_nodes h) as Hnn by apply Hs.
  set (h2 := set_upstream_states (map (upstream_lost idx) (upstream_states h1)) h1).
  assert (hub_ok h2) as Hh2.
  { apply hub_ok_set_upstream_states; [done| |by unfold zlen; rewrite length_map].
    apply Forall_map. eapply Forall_impl; [|apply Hh1]. intros u Hu.
    apply upstream_lost_ok; [|exact Hu]. rewrite Hn. done. }
  apply (safe_modify _ _ _ h1 _ Hh2). fold h2.
  safe_step. apply safe_emit; [done|done|]. apply peer_upd_safe; [done| | |].
  - change (num_peers h2) with (num_peers h1). lia.
  - intros ???. apply closed_peer_ok. change (num_nodes h2) with (num_nodes h1).
    rewrite Hnn. done.
  - intros h3 _. assert (at_idx (peers h2) idx = Some p) as Hp2
      by (change (peers h2) with (peers h1); by rewrite Hpe).
    split.
    + transitivity h1; [done|]. transitivity h2; [done|]. apply sized_upd_peer.
    + exact He.
    + intros q Hq. pose proof (at_upd_idx_eq idx (λ _, closed_peer) _ _ Hp2) as Hq'.
      subst h3. cbn [peers set_peers] in Hq. rewrite Hq' in Hq. injection Hq as <-.
      split; [done|by left].
    + intros j Hj. subst h3. cbn [peers set_peers]. rewrite at_upd_idx_ne by (done || lia).
      by rewrite <- Hpe.
Qed.

Lemma sized_evolves h h' : sized h h' → ¬ calm h → evolves h h'.
Proof. intros [] ?. by split. Qed.
Lemma evolves_sized h h' : evolves h h' → sized h h'.
Proof. intros []. by split. Qed.
#[export] Hint Resolve evolves_sized : vbt.

Lemma c_malloc_safe h (Q : bool → hub → Prop) :
  hub_ok h →
  (∀ b e, let h' := set_henv e h in
     hub_ok h' → evolves h h' → (calm h → b = true) → Q b h') →
  hsafe c_malloc h Q.
Proof.
  intros Hh HQ. unfold c_malloc. safe_step. apply safe_get; [done|].
  destruct (e_mallocs (henv h)) as [|b l] eqn:E.
  - apply safe_ret; [done|]. specialize (HQ true (henv h)). destruct h. cbn in *.
    by apply HQ.
  - safe_step. apply safe_modify; [auto with vbt|]. apply safe_ret; [auto with vbt|].
    apply HQ; [auto with vbt| |].
    + split; [done..|]. intros (Hw & Hm & Hf). split; [|reflexivity].
      rewrite E in Hm. apply Forall_cons_1 in Hm as [_ ?]. by split_and!.
    + intros (_ & Hm & _). rewrite E in Hm. by apply Forall_cons_1 in Hm as [? _].
Qed.

Lemma peer_ok_outbuf nn p b :
  peer_ok nn p → bytes_ok b → zlen b ≤ SEND_BUF_SIZE → peer_ok nn (set_p_outbuf (Some b) p).
Proof. intros [] ??. by split. Qed.

Lemma peer_ok_want_write nn p b : peer_ok nn p → peer_ok nn (set_p_want_write b p).
Proof. intros []. by split. Qed.

Lemma peer_ok_tx_dropped nn p b : peer_ok nn p → peer_ok nn (set_p_tx_dropped b p).
Proof. intros []. by split. Qed.

Lemma outused_default p : p_outused p = zlen (default [] (p_outbuf p)).
Proof. unfold p_outused. by destruct (p_outbuf p). Qed.

(** The half of [peer_buffer] behind the allocation. *)
Lemma peer_store_safe idx p rem h :
  hub_ok h → 0 ≤ idx < num_peers h → bytes_ok rem → zlen rem ≤ 4 + VBT_MAX_MSG_SIZE →
  at_idx (peers h) idx = Some p →
  hsafe (if SEND_BUF_SIZE <? u32 (p_outused p + zlen rem) then
      peer_upd idx (λ p, set_p_tx_dropped (inc64 (p_tx_dropped p)) p);;
      stat_upd (λ s, set_stat_dropped_backpressure (inc64 (stat_dropped_backpressure s)) s);;
      mret false
    else
      peer_upd idx (λ p, set_p_want_write true
        (set_p_outbuf (Some (default [] (p_outbuf p) ++ rem)) p));;
      mret true) h (λ _ h', evolves h h').
Proof.
  intros Hh Hi Hr Hl Hp. apply safe_if; intros Hu.
  - safe_step. apply peer_upd_safe; [done..| |].
    { intros. by apply peer_ok_tx_dropped. }
    intros h1 Hh1. safe_step. apply stat_upd_safe; [done|stats_tac|]. intros h2 Hh2.
    apply safe_ret; [done|]. transitivity h1; [|by apply evolves_same].
    apply evolves_upd_peer; [lia|]. by split.
  - safe_step. apply peer_upd_safe; [done..| |].
    { intros q Hq Hok. simplify_eq. apply peer_ok_want_write, peer_ok_outbuf; [done| |].
      - apply Forall_app. split; [apply Hok|done].
      - rewrite zlen_app, <- outused_default. pose proof (pok_outused _ _ Hok).
        pose proof (zlen_nonneg rem). pose proof (zlen_nonneg (default [] (p_outbuf p))).
        rewrite <- outused_default in *.
        rewrite u32_small in Hu; [lia|].
        unfold SEND_BUF_SIZE, VBT_MAX_MSG_SIZE, VBT_HDR_SIZE, VBT_MAX_PDU_SIZE in *. mlia. }
    intros h1 Hh1. apply safe_ret; [done|]. apply evolves_upd_peer; [lia|]. by split.
Qed.

Lemma peer_buffer_safe idx rem h :
  hub_ok h → 0 ≤ idx < num_peers h → bytes_ok rem → zlen rem ≤ 4 + VBT_MAX_MSG_SIZE →
  hsafe (peer_buffer idx rem) h (λ _ h', evolves h h').
Proof.
  intros Hh Hi Hr Hl. unfold peer_buffer. safe_step. apply peer_at_safe; [done..|].
  intros p Hp Hok. destruct (p_outbuf p) as [b|] eqn:Eb.
  - safe_step. apply safe_ret; [done|]. apply safe_if; [done|intros _].
    by apply peer_store_safe.
  - safe_step. safe_step. apply c_malloc_safe; [done|]. intros ok e h1 Hh1 He1 Hc.
    destruct ok.
    + cbn [when]. safe_step. apply peer_upd_safe; [done|done| |].
      { intros. apply peer_ok_outbuf; [done|done|]. vm_compute. congruence. }
      intros h2 Hh2. apply safe_ret; [done|]. apply safe_if; [done|intros _].
      set (p2 := set_p_outbuf (Some []) p).
      replace (p_outused p) with (p_outused p2)
        by (subst p2; unfold p_outused; rewrite Eb; done).
      assert (evolves h h2) as He2.
      { transitivity h1; [done|]. apply evolves_upd_peer; [lia|]. by split. }
      eapply safe_mono; [apply (peer_store_safe idx p2); try done|].
      * destruct He2. lia.
      * by apply (at_upd_idx_eq idx (set_p_outbuf (Some [])) (peers h1) p).
      * intros ????. by transitivity h2.
    + cbn [when]. safe_step. apply safe_skip; [done|]. apply safe_ret; [done|].
      apply safe_if; [intros _|done]. safe_step.
      eapply safe_mono; [apply peer_close_safe; [done|destruct He1; lia]|].
      intros [] h2 Hh2 [Hs _ _ _]. apply safe_ret; [done|]. apply sized_evolves; [|by intros ?%Hc].
      transitivity h1; [by apply evolves_sized|done].
Qed.

Lemma peer_send_safe idx data h :
  hub_ok h → 0 ≤ idx < num_peers h → bytes_ok data → zlen data ≤ 4 + VBT_MAX_MSG_SIZE →
  hsafe (peer_send idx data) h (λ _ h', evolves h h').
Proof.
  intros Hh Hi Hd Hl. unfold peer_send. safe_step. apply peer_at_safe; [done..|].
  intros p Hp Hok. apply safe_if; intros _; [by apply safe_ret|].
  apply safe_if; intros _; [|by apply peer_buffer_safe].
  safe_step. apply write_all_safe; [done..|].
  intros todo stop e Ht Hlt Hst h1 Hh1 He1 Hc. cbn. destruct stop.
  - by apply safe_ret.
  - eapply safe_mono; [apply peer_buffer_safe; [done|by destruct He1; lia|done|lia]|].
    intros ????. by transitivity h1.
  - safe_step. eapply safe_mono; [apply peer_close_safe; [done|destruct He1; lia]|].
    intros [] h2 Hh2 [Hs _ _ _]. apply safe_ret; [done|]. apply sized_evolves; [|by intros ?%Hc].
    transitivity h1; [by apply evolves_sized|done].
Qed.

(** [peer_flush] closes the peer on an error and otherwise only writes. *)
Lemma peer_flush_safe idx h :
  hub_ok h → 0 ≤ idx < num_peers h → hsafe (peer_flush idx) h (λ _ h', evolves h h').
Proof.
  intros Hh Hi. unfold peer_flush. safe_step. apply peer_at_safe; [done..|].
  intros p Hp Hok. apply safe_if; intros _.
  { apply peer_upd_safe; [done..| |].
    - intros. by apply peer_ok_want_write.
    - intros h1 Hh1. apply evolves_upd_peer; [lia|]. by split. }
  safe_step. apply write_all_safe; [done|apply Hok|].
  intros todo stop e Ht Hlt Hst h1 Hh1 He1 Hc. cbn.
  assert (stop ≠ WHard → hsafe (peer_upd idx (λ p,
    set_p_want_write (0 <? zlen todo) (set_p_outbuf (Some todo) p))) h1 (λ _ h', evolves h h')).
  { intros _. apply peer_upd_safe; [done|destruct He1; lia| |].
    - intros q Hq ?. apply peer_ok_want_write, peer_ok_outbuf; [done|done|].
      pose proof (pok_outused _ _ Hok). rewrite outused_default in *. lia.
    - intros h2 Hh2. transitivity h1; [done|]. apply evolves_upd_peer; [lia|]. by split. }
  destruct stop; [by auto..|].
  eapply safe_mono; [apply peer_close_safe; [done|destruct He1; lia]|].
  intros [] h2 Hh2 [Hs _ _ _]. apply sized_evolves; [|by intros ?%Hc].
  transitivity h1; [by apply evolves_sized|done].
Qed.

(** ** Delivery and fan-out *)

Lemma c_rand_safe h (Q : Z → hub → Prop) :
  hub_ok h → (∀ r e, let h' := set_henv e h in hub_ok h' → evolves h h' → Q r h') →
  hsafe c_rand h Q.
Proof.
  intros Hh HQ. unfold c_rand. safe_step. apply safe_get; [done|].
  destruct (e_rands (henv h)) as [|r l] eqn:E.
  - apply safe_ret; [done|]. specialize (HQ 0 (henv h)). destruct h. by apply HQ.
  - safe_step. apply safe_modify; [auto with vbt|]. apply safe_ret; [auto with vbt|].
    apply HQ; [auto with vbt|]. split; [done..|]. intros Hc. by split.
Qed.

Lemma find_override_false_safe a b h (Q : Z → hub → Prop) :
  hub_ok h → Q (idx_of (find_idx (link_match a b) (overrides h))) h →
  hsafe (find_override a b false) h Q.
Proof.
  intros Hh HQ. unfold find_override. safe_step. apply safe_get; [done|].
  destruct (find_idx _ _); by apply safe_ret.
Qed.

Lemma propagate_safe `{Libm} tx rx txp r h :
  hub_ok h → hsafe (propagate tx rx txp r) h (λ _ h', evolves h h' ∧ peers h' = peers h).
Proof.
  intros Hh. unfold propagate. destruct tx as [tx|], rx as [rx|]; try by apply safe_ret.
  apply safe_if; intros _; [by apply safe_ret|]. safe_step.
  apply find_override_false_safe; [done|]. safe_step. apply safe_get; [done|]. safe_step.
  eapply (safe_mono _ _ _ _ (λ _ h', evolves h h' ∧ peers h' = peers h)).
  - destruct (at_idx _ _) as [o|]; [|by apply safe_ret]. safe_step. unfold loss_draw.
    assert (∀ (b : bool) h1, hub_ok h1 → evolves h h1 ∧ peers h1 = peers h →
      hsafe (if b then mret (Some (false, if r =? 0 then VBT_DEFAULT_RSSI else r))
        else if o_rssi_set o then
          mret (Some (negb (o_rssi_dbm o <? d_toint (nd_rx_sens_dbm rx)), o_rssi_dbm o))
        else mret None) h1 (λ _ h', evolves h h' ∧ peers h' = peers h)) as Hk.
    { intros b h1 ??. destruct b; [by apply safe_ret|]. case_match; by apply safe_ret. }
    apply safe_if; intros _; [|apply safe_ret; [done|by apply (Hk false)]].
    safe_step. apply c_rand_safe; [done|]. intros k e h1 Hh1 He1.
    apply safe_ret; [done|]. by apply Hk.
  - intros [d|] h1 Hh1 He1; [by apply safe_ret|]. case_match; by apply safe_ret.
Qed.

Lemma set_rssi_ok r hdr : hdr_ok hdr → is_s8 r → hdr_ok (set_rssi r hdr).
Proof. intros [] ?. by split. Qed.

Definition msg_len_ok (n : Z) : Prop := 0 ≤ n ≤ VBT_MAX_PDU_SIZE.

Lemma frame_wire_len h n pdu :
  hdr_ok h → zlen pdu = n → zlen (be32 (VBT_HDR_SIZE + n) ++ hdr_bytes h ++ pdu) = 48 + n.
Proof.
  intros Hh <-. rewrite !zlen_app, length_hdr_bytes by done.
  change (zlen (be32 _)) with 4. unfold VBT_HDR_SIZE. lia.
Qed.

Lemma node_ok_rx_pdus np nd v : node_ok np nd → is_u64 v → node_ok np (set_nd_rx_pdus v nd).
Proof. intros [? ? ? ? ? ? (?&?&?)] ?. by split. Qed.
Lemma node_ok_rx_dropped np nd v : node_ok np nd → is_u64 v → node_ok np (set_nd_rx_dropped v nd).
Proof. intros [? ? ? ? ? ? (?&?&?)] ?. by split. Qed.

Lemma deliver_to_peer_safe dst hdr src n r h :
  hub_ok h → hdr_ok hdr → msg_len_ok n → 0 ≤ dst < num_peers h → 0 ≤ src < num_peers h →
  hsafe (deliver_to_peer dst hdr src n r) h (λ _ h', evolves h h').
Proof.
  intros Hh Hhdr [Hn Hn'] Hd Hs. unfold deliver_to_peer, pdu_bytes.
  assert (hdr_ok (set_rssi (s8 r) hdr)) as Hhdr' by auto using set_rssi_ok, s8_range.
  safe_step. safe_step. apply peer_at_safe; [done..|]. intros p Hp Hok.
  destruct (pok_rxbuf _ _ Hok) as [Hb Hbl].
  unfold RECV_BUF_SIZE, VBT_RXBUF_SIZE, VBT_HDR_SIZE, VBT_MAX_PDU_SIZE in *.
  apply safe_rdn; [done..|lia|done|lia|]. intros Hpb Hpl.
  safe_step. apply safe_local_buf; [done| |].
  { change 44 with VBT_HDR_SIZE. rewrite frame_wire_len by done.
    unfold VBT_MAX_MSG_SIZE, VBT_HDR_SIZE, VBT_MAX_PDU_SIZE. lia. }
  safe_step. eapply safe_mono; [apply peer_send_safe; [done..| |]|].
  { apply Forall_app_2; [apply be32_ok|]. apply Forall_app_2; [by apply hdr_bytes_ok|done]. }
  { change 44 with VBT_HDR_SIZE. rewrite frame_wire_len by done.
    unfold VBT_MAX_MSG_SIZE, VBT_HDR_SIZE, VBT_MAX_PDU_SIZE. lia. }
  intros sent h1 Hh1 He. cbn. apply safe_when; [done| |done]. intros _.
  safe_step. apply peer_at_safe; [done|destruct He; lia|]. intros q Hq Hqok.
  apply safe_when; [done| |done]. intros ?. apply node_upd_safe; [done| | |].
  - pose proof (pok_node _ _ Hqok). mlia.
  - intros. apply node_ok_rx_pdus; auto with vbt.
  - intros h2 Hh2. transitivity h1; [done|]. apply evolves_upd_node.
Qed.

Lemma for_peers_safe (f : Z → HUB unit) h :
  hub_ok h →
  (∀ i h', hub_ok h' → evolves h h' → 0 ≤ i < num_peers h' →
     hsafe (f i) h' (λ _ h'', evolves h' h'')) →
  hsafe (for_peers f) h (λ _ h', evolves h h').
Proof.
  intros Hh Hf. unfold for_peers. safe_step. apply safe_get; [done|].
  assert (∀ l h', (∀ i, i ∈ l → 0 ≤ i < num_peers h) → hub_ok h' → evolves h h' →
    hsafe (for_each l f) h' (λ _ h', evolves h h')) as Hl.
  { induction l as [|i l IH]; intros h' Hl Hh' He; cbn [for_each]; [by apply safe_skip|].
    safe_step. eapply safe_mono; [apply Hf; [done|done|]|].
    - specialize (Hl i ltac:(left)). destruct He. lia.
    - intros [] h2 Hh2 He2. apply IH; [|done|by transitivity h'].
      intros j Hj. apply Hl. by right. }
  apply Hl; [|done|done]. intros i Hi%elem_of_seqZ. lia.
Qed.

Section Forwarding.
Context `{LM : Libm}.
Context (src : Z) (hdr : vbt_frame_hdr) (n : Z).
Context (Hhdr : hdr_ok hdr) (Hn : msg_len_ok n).
Implicit Types (h : hub).

Lemma deliver_to_node_safe src_node dst nd h :
  hub_ok h → 0 ≤ src < num_peers h → idx_ok (num_nodes h) src_node →
  0 ≤ dst < num_peers h → 0 ≤ nd < num_nodes h →
  hsafe (deliver_to_node src hdr n src_node dst nd) h (λ _ h', evolves h h').
Proof using Hhdr Hn.
  intros Hh Hs Hsn Hd Hnd. unfold deliver_to_node. safe_step.
  eapply (safe_mono _ _ _ _ (λ _ h', h' = h)).
  { unfold tx_node. apply safe_if; intros ?; [|by apply safe_ret].
    safe_step. apply node_at_safe; [done|mlia|]. intros. by apply safe_ret. }
  intros tx h' _ ->. safe_step. apply node_at_safe; [done..|]. intros rx Hrx Hrok. safe_step.
  eapply safe_mono; [by apply propagate_safe|]. intros [ok r] h1 Hh1 [He1 _].
  apply safe_if; intros _.
  - unfold drop_model. safe_step. apply node_upd_safe; [done|destruct He1; lia| |].
    { intros. apply node_ok_rx_dropped; auto with vbt. }
    intros h2 Hh2. apply stat_upd_safe; [done|stats_tac|]. intros h3 Hh3.
    transitivity h1; [done|]. transitivity h2; [apply evolves_upd_node|by apply evolves_same].
  - eapply safe_mono; [apply deliver_to_peer_safe; try done; destruct He1; lia|].
    intros ????. by transitivity h1.
Qed.

Lemma tap_one_safe i h :
  hub_ok h → 0 ≤ src < num_peers h → 0 ≤ i < num_peers h →
  hsafe (tap_one src hdr n i) h (λ _ h', evolves h h').
Proof using Hhdr Hn.
  intros. unfold tap_one. safe_step. apply peer_at_safe; [done..|]. intros p Hp Hok.
  apply safe_when; [done| |done]. intros _. by apply deliver_to_peer_safe.
Qed.

Lemma bridge_one_safe i h :
  hub_ok h → 0 ≤ src < num_peers h → 0 ≤ i < num_peers h →
  hsafe (bridge_one src hdr n i) h (λ _ h', evolves h h').
Proof using Hhdr Hn.
  intros. unfold bridge_one. safe_step. apply peer_at_safe; [done..|]. intros p Hp Hok.
  apply safe_when; [done| |done]. intros _. by apply deliver_to_peer_safe.
Qed.

Lemma adv_one_safe src_node i h :
  hub_ok h → 0 ≤ src < num_peers h → idx_ok (num_nodes h) src_node → 0 ≤ i < num_peers h →
  hsafe (adv_one src hdr n src_node i) h (λ _ h', evolves h h').
Proof using Hhdr Hn.
  intros. unfold adv_one. safe_step. apply peer_at_safe; [done..|]. intros p Hp Hok.
  apply safe_if; intros _; [by apply safe_skip|].
  apply safe_if; intros Hsk; [by apply safe_skip|].
  apply safe_if; intros Hbr; [by apply deliver_to_peer_safe|].
  apply deliver_to_node_safe; [done..|]. pose proof (pok_node _ _ Hok).
  rewrite Hbr, andb_true_r in Hsk. mlia.
Qed.
End Forwarding.

(** ** Learning addresses and connections *)

Lemma remove_addr_ok (P : list Z → Prop) fuel addr j l :
  Forall P l → Forall P (remove_addr fuel addr j l) ∧ zlen (remove_addr fuel addr j l) ≤ zlen l.
Proof.
  revert j l. induction fuel as [|fuel IH]; intros j l Hl; cbn [remove_addr]; [done|].
  destruct (l !! j) as [a|] eqn:Ha; [|done]. case_match; [|by apply IH].
  destruct (IH j (take (length l - 1) (<[j := default [] (l !! (length l - 1)%nat)]> l)))
    as [Hf Hz].
  { apply Forall_take, Forall_insert; [done|].
    pose proof (lookup_lt_Some _ _ _ Ha).
    destruct (lookup_lt_is_Some_2 l (length l - 1)) as [b Hb]; [lia|].
    rewrite Hb. by eapply Forall_lookup_1. }
  split; [done|]. unfold zlen in *. rewrite length_take, length_insert in Hz. lia.
Qed.

Lemma forget_addr_ok np addr nd : node_ok np nd → node_ok np (forget_addr addr nd).
Proof.
  intros []. unfold forget_addr. case_match; [|by split].
  destruct (remove_addr_ok addr_ok (length (nd_addrs nd)) addr 0 (nd_addrs nd)); [done|].
  split; try done. cbn. lia.
Qed.

Lemma node_add_addr_safe i addr h :
  hub_ok h → 0 ≤ i < num_nodes h → addr_ok addr →
  hsafe (node_add_addr i addr) h (λ _ h', evolves h h').
Proof.
  intros Hh Hi Ha. unfold node_add_addr. apply safe_if; intros _; [by apply safe_skip|].
  safe_step. apply node_at_safe; [done..|]. intros nd Hnd Hok.
  apply safe_if; intros _; [by apply safe_skip|]. safe_step.
  set (g := λ h : hub, set_nodes _ h).
  assert (zlen (nodes (g h)) = num_nodes h) as Hlen.
  { subst g. unfold num_nodes, zlen. cbn. by rewrite length_imap. }
  assert (hub_ok (g h)) as Hg.
  { apply hub_ok_set_nodes; [done| |].
    - change (num_nodes h ≤ zlen (nodes (g h)) ≤ MAX_NODES). rewrite Hlen.
      split; [done|apply Hh].
    - apply Forall_lookup_2. intros k x. rewrite list_lookup_imap.
      destruct (nodes h !! k) as [y|] eqn:Hy; [|done]. cbn. intros [= <-].
      assert (node_ok (num_peers h) y) by (by eapply Forall_lookup_1; [apply Hh|]).
      case_match; [done|by apply forget_addr_ok]. }
  assert (evolves h (g h)) as He by by apply evolves_same.
  apply safe_modify; [done|]. apply safe_when; [done| |done]. intros Hfull.
  unfold node_upd. safe_step. apply safe_get; [done|].
  destruct (at_idx_is_Some (nodes (g h)) i) as [nd' Hnd']; [lia|]. rewrite Hnd'.
  assert (nd' = nd) as ->.
  { revert Hnd Hnd'. rewrite !at_idx_Some. intros [_ Hnd] [_ Hnd'].
    cbn in Hnd'. rewrite list_lookup_imap, Hnd in Hnd'. cbn in Hnd'.
    rewrite Z2Nat.id, Z.eqb_refl in Hnd' by lia. congruence. }
  assert (hub_ok (set_nodes (upd_idx i (λ nd, set_nd_addrs (nd_addrs nd ++ [addr]) nd)
    (nodes (g h))) (g h))) as Hg'.
  { apply hub_ok_set_nodes; [done| |].
    - rewrite zlen_upd_idx. split; [done|apply Hg].
    - unfold upd_idx. apply Forall_alter; [apply Hg|]. intros x Hx [].
      apply at_idx_Some in Hnd' as [_ Hnd']. rewrite Hnd' in Hx. injection Hx as <-.
      split; try done; cbn.
      + apply Forall_app. by split; [|constructor].
      + rewrite zlen_app. change (zlen [addr]) with 1. lia. }
  apply safe_modify; [done|]. transitivity (g h); [done|]. apply evolves_upd_node.
Qed.

Lemma idx_of_ok {A} (f : A → bool) l : idx_ok (zlen l) (idx_of (find_idx f l)).
Proof.
  destruct (find_idx f l) as [i|] eqn:E; cbn.
  - apply find_idx_lt in E. unfold zlen. mlia.
  - pose proof (zlen_nonneg l). mlia.
Qed.

Lemma find_conn_ok aa l : idx_ok (zlen l) (find_conn aa l).
Proof.
  unfold find_conn. case_match; [|apply idx_of_ok].
  pose proof (zlen_nonneg l). mlia.
Qed.

Lemma find_node_by_addr_ok a l : idx_ok (zlen l) (find_node_by_addr a l).
Proof.
  unfold find_node_by_addr. case_match; [|apply idx_of_ok].
  pose proof (zlen_nonneg l). mlia.
Qed.

Lemma zero_addr_ok : addr_ok (replicate 6 0).
Proof. split; [|done]. apply Forall_replicate. mlia. Qed.

Lemma new_conn_ok nn aa : 0 ≤ nn → is_u32 aa → conn_ok nn (new_conn aa).
Proof.
  intros. split; cbn; [mlia|mlia|done|mlia|]. split; apply zero_addr_ok.
Qed.

Lemma hub_conn_alloc_safe aa h (Q : Z → hub → Prop) :
  hub_ok h → is_u32 aa → Q (-1) h →
  (∀ i l, let h' := set_conns l h in
     hub_ok h' → 0 ≤ i < zlen l → Q i h') →
  hsafe (conn_alloc aa) h Q.
Proof.
  intros Hh Ha HN HS. unfold conn_alloc. safe_step. apply safe_get; [done|].
  destruct (tab_alloc _ _ _ _) as [[i l]|] eqn:E; [|by apply safe_ret].
  destruct (tab_alloc_zlen _ _ _ _ _ _ E) as (H1 & H2 & H3).
  assert (hub_ok (set_conns l h)).
  { apply hub_ok_set_conns; [done|apply H2, Hh|].
    eapply tab_alloc_Forall; [done|apply Hh|].
    apply new_conn_ok; [apply zlen_nonneg|done]. }
  safe_step. apply safe_modify; [done|]. apply safe_ret; [done|]. apply HS; [done|lia].
Qed.

Lemma evolves_set_conns h l : evolves h (set_conns l h).
Proof. by apply evolves_same. Qed.

(** The slot of an Access Address: the one in use, or a new one. *)
Lemma conn_slot_safe aa h :
  hub_ok h → is_u32 aa →
  hsafe (let c := find_conn aa (conns h) in
         if c <? 0 then
           c ← conn_alloc aa;
           when (0 <=? c) (stat_upd (λ s,
             set_stat_conns_opened (inc64 (stat_conns_opened s)) s));;
           mret c
         else mret c) h
    (λ c h', evolves h h' ∧ idx_ok (num_conns h') c).
Proof.
  intros Hh Ha. cbv zeta. apply safe_if; intros Hc.
  - safe_step. pose proof (zlen_nonneg (conns h)). apply hub_conn_alloc_safe; [done|done| |].
    + safe_step. apply safe_skip; [done|]. apply safe_ret; [done|].
      split; [done|]. unfold num_conns. mlia.
    + intros i l h' Hh' Hi. rewrite when_true by lia. safe_step.
      apply stat_upd_safe; [done|stats_tac|]. intros h2 Hh2. apply safe_ret; [done|].
      split; [by apply evolves_same|]. change (num_conns h2) with (zlen l). mlia.
  - apply safe_ret; [done|]. split; [done|]. apply find_conn_ok.
Qed.

Lemma le_join4_ok b : bytes_ok b → zlen b = 4 → is_u32 (le_join b).
Proof.
  intros Hb Hl. pose proof (le_join_range b Hb) as Hr. unfold zlen in Hl.
  rewrite Hl in Hr. exact Hr.
Qed.

Lemma observe_connect_ind_safe init pdu n h :
  hub_ok h → idx_ok (num_nodes h) init → bytes_ok pdu → n ≤ zlen pdu →
  hsafe (observe_connect_ind init pdu n) h (λ _ h', evolves h h').
Proof.
  intros Hh Hi Hb Hn. unfold observe_connect_ind, VBT_CONNIND_AA_OFF, VBT_CONNIND_INITA_OFF,
    VBT_CONNIND_ADVA_OFF.
  apply safe_if; intros Hl; [by apply safe_skip|].
  safe_step. apply safe_rdn; [done|done|lia..|]. intros Hib Hil.
  safe_step. apply safe_rdn; [done|done|lia..|]. intros Hab Hal.
  safe_step. apply safe_rdn; [done|done|lia..|]. intros Haab Haal.
  cbv zeta. apply safe_if; intros Haa; [by apply safe_skip|].
  safe_step. apply safe_get; [done|]. safe_step.
  eapply safe_mono; [apply (conn_slot_safe _ _ Hh (le_join4_ok _ Haab Haal))|].
  intros c h1 Hh1 [He Hc]. apply safe_if; intros Hneg; [by apply safe_skip|].
  safe_step. apply safe_get; [done|]. apply conn_upd_safe; [done|mlia| |].
  - intros k []. split; cbn; [|apply find_node_by_addr_ok|done|done|by repeat split].
    destruct He. mlia.
  - intros h2 Hh2. transitivity h1; [done|]. apply evolves_set_conns.
Qed.

(** ** Forwarding *)

Lemma set_flags_ok v hdr : hdr_ok hdr → is_u32 v → hdr_ok (set_flags v hdr).
Proof. intros [] ?. by split. Qed.

Lemma ttl_of_range hdr : hdr_ok hdr → is_u8 (ttl_of hdr).
Proof.
  intros H. pose proof (ok_flags _ H). unfold ttl_of.
  rewrite Z.shiftr_div_pow2 by lia. change (2 ^ 24) with 16777216. mlia.
Qed.

(** The flags word split at its last byte. *)
Lemma ttl_word f t : is_u8 t →
  Z.lor (Z.land f 0xffffff) (Z.shiftl t 24) = f mod 16777216 + 16777216 * t.
Proof.
  intros Ht. change 0xffffff with (Z.ones 24). rewrite Z.land_ones by lia.
  change (2 ^ 24) with 16777216. rewrite Z.shiftl_mul_pow2 by lia.
  change (2 ^ 24) with 16777216.
  pose proof (Z.add_lor_land (f mod 16777216) (t * 16777216)) as Hs.
  enough (Z.land (f mod 16777216) (t * 16777216) = 0) by lia. clear Hs.
  change 16777216 with (2 ^ 24). rewrite <- Z.land_ones, <- Z.shiftl_mul_pow2 by lia.
  apply Z.bits_inj'. intros k Hk. rewrite !Z.land_spec, Z.bits_0.
  destruct (decide (k < 24)).
  - rewrite Z.shiftl_spec_low by lia. by rewrite andb_false_r.
  - rewrite Z.ones_spec_high by lia. by rewrite andb_false_r.
Qed.

Lemma ttl_set_ttl t hdr : is_u8 t → ttl_of (set_ttl t hdr) = t.
Proof.
  intros Ht. unfold ttl_of, set_ttl. cbn [flags set_flags]. rewrite ttl_word by done.
  rewrite Z.shiftr_div_pow2 by lia. change (2 ^ 24) with 16777216. mlia.
Qed.

Lemma set_ttl_ok t hdr : hdr_ok hdr → is_u8 t → hdr_ok (set_ttl t hdr).
Proof.
  intros H Ht. apply set_flags_ok; [done|]. rewrite ttl_word by done. mlia.
Qed.

Lemma hop_ok b hdr hdr' : hop b hdr = Some hdr' → hdr_ok hdr → hdr_ok hdr'.
Proof.
  intros E Hok. pose proof (ttl_of_range _ Hok). unfold hop in E.
  destruct b; [destruct (ttl_of hdr =? 0) eqn:E0; [done|]|]; injection E as <-.
  - apply set_ttl_ok; [done|]. mlia.
  - apply set_ttl_ok; [done|]. mlia.
Qed.

Lemma other_end_ok nn src_node c : conn_ok nn c → idx_ok nn (other_end src_node c).
Proof. intros []. unfold other_end. repeat case_match; done. Qed.

Lemma node_ok_note np nd hdr :
  hdr_ok hdr → node_ok np nd → node_ok np (set_nd_last_phy (phy hdr) (set_nd_last_channel (channel hdr)
      (set_nd_tx_pdus (inc64 (nd_tx_pdus nd)) nd))).
Proof.
  intros Hh [? ? ? ? ? ? (?&?&?)]. split; try done; [apply Hh|].
  split_and!; cbn; auto with vbt.
Qed.

Lemma conn_ok_pdus nn c : conn_ok nn c → conn_ok nn (set_cn_pdus (inc64 (cn_pdus c)) c).
Proof. intros []. split; try done. cbn. auto with vbt. Qed.

Section Forward2.
Context `{LM : Libm}.
Context (src : Z) (hdr : vbt_frame_hdr) (n : Z).
Context (Hhdr : hdr_ok hdr) (Hn : msg_len_ok n).
Implicit Types (h : hub).

Lemma note_tx_safe src_node h :
  hub_ok h → idx_ok (num_nodes h) src_node →
  hsafe (note_tx src_node hdr) h (λ _ h', evolves h h').
Proof using Hhdr.
  intros Hh Hs. unfold note_tx. apply safe_when; [done| |done]. intros Hp. safe_step.
  apply node_upd_safe; [done|mlia| |].
  { intros. by apply node_ok_note. }
  intros h1 Hh1. pose proof (evolves_upd_node h src_node (λ nd, set_nd_last_phy (phy hdr)
    (set_nd_last_channel (channel hdr) (set_nd_tx_pdus (inc64 (nd_tx_pdus nd)) nd)))) as He1.
  fold h1 in He1. eapply safe_mono; [apply node_add_addr_safe; [done| |apply Hhdr]|].
  - destruct He1. mlia.
  - intros ????. by transitivity h1.
Qed.

Lemma forward_adv_safe src_node h :
  hub_ok h → 0 ≤ src < num_peers h → idx_ok (num_nodes h) src_node →
  hsafe (forward_adv src hdr n src_node) h (λ _ h', evolves h h').
Proof using Hhdr Hn.
  intros Hh Hs Hsn. unfold forward_adv. safe_step.
  eapply (safe_mono _ _ _ _ (λ _ h', evolves h h')).
  { apply safe_when; [done| |done]. intros H2. unfold pdu_bytes. safe_step. safe_step.
    apply peer_at_safe; [done..|]. intros p Hp Hok.
    destruct (pok_rxbuf _ _ Hok) as [Hb Hbl], Hn as [? Hn2].
    unfold RECV_BUF_SIZE, VBT_RXBUF_SIZE, VBT_HDR_SIZE, VBT_MAX_PDU_SIZE in *.
    apply safe_rdn; [done|done|lia..|]. intros Hpb Hpl. safe_step.
    apply safe_rd; [done|done|lia|]. intros b0 Hb0 _. apply safe_when; [done| |done].
    intros _. apply observe_connect_ind_safe; [done|done|done|lia]. }
  intros [] h1 Hh1 He1. safe_step.
  eapply safe_mono; [apply for_peers_safe; [done|]|].
  { intros i h2 Hh2 He2 Hi. apply adv_one_safe; [done..| | |done].
    - destruct He1, He2. lia.
    - destruct He1, He2. mlia. }
  intros [] h2 Hh2 He2. apply stat_upd_safe; [done|stats_tac|]. intros h3 Hh3.
  transitivity h1; [done|]. transitivity h2; [done|]. by apply evolves_same.
Qed.

Lemma bridges_safe h :
  hub_ok h → 0 ≤ src < num_peers h →
  hsafe (for_peers (bridge_one src hdr n)) h (λ _ h', evolves h h').
Proof using Hhdr Hn.
  intros Hh Hs. apply for_peers_safe; [done|]. intros i h2 Hh2 He2 Hi.
  apply bridge_one_safe; [done..| |done]. destruct He2. lia.
Qed.

Lemma forward_data_safe src_node h :
  hub_ok h → 0 ≤ src < num_peers h → idx_ok (num_nodes h) src_node →
  hsafe (forward_data src hdr n src_node) h (λ _ h', evolves h h').
Proof using Hhdr Hn.
  intros Hh Hs Hsn. unfold forward_data. safe_step. apply safe_get; [done|]. cbv zeta.
  pose proof (find_conn_ok (access_addr hdr) (conns h)) as Hci.
  apply safe_if; intros Hneg; [by apply bridges_safe|]. safe_step.
  apply hub_conn_at_safe; [done|unfold num_conns; mlia|]. intros c Hc Hcok. safe_step.
  apply conn_upd_safe; [done|unfold num_conns; mlia| |].
  { intros. by apply conn_ok_pdus. }
  intros h1 Hh1. assert (evolves h h1) as He1 by apply evolves_set_conns. safe_step.
  pose proof (other_end_ok _ src_node _ Hcok) as Hoth.
  eapply (safe_mono _ _ _ _ (λ _ h', evolves h1 h')).
  { apply safe_when; [done| |done]. intros Hpos. safe_step.
    apply node_at_safe; [done|destruct He1; mlia|]. intros nd Hnd Hndok.
    apply safe_when; [done| |done]. intros Hon.
    apply deliver_to_node_safe; [done..| | | |]; pose proof (nok_peer _ _ Hndok);
      destruct He1; mlia. }
  intros [] h2 Hh2 He2. safe_step.
  eapply safe_mono; [apply bridges_safe; [done|destruct He1, He2; lia]|].
  intros [] h3 Hh3 He3. apply stat_upd_safe; [done|stats_tac|]. intros h4 Hh4.
  transitivity h1; [done|]. transitivity h2; [done|]. transitivity h3; [done|].
  by apply evolves_same.
Qed.
End Forward2.

(** Forwarding a well-formed frame of an existing peer never faults, whatever
    the kernel answers. *)
Lemma forward_frame_safe `{Libm} src hdr n h :
  hub_ok h → hdr_ok hdr → msg_len_ok n → 0 ≤ src < num_peers h →
  hsafe (forward_frame src hdr n) h (λ _ h', evolves h h').
Proof.
  intros Hh Hhdr Hn Hs. unfold forward_frame. safe_step. apply peer_at_safe; [done..|].
  intros sp Hsp Hok. pose proof (pok_node _ _ Hok) as Hsn.
  destruct (hop _ _) as [hdr'|] eqn:Hhop; [|by apply safe_skip].
  pose proof (hop_ok _ _ _ Hhop Hhdr) as Hhdr'. cbv zeta. safe_step.
  eapply safe_mono; [by apply note_tx_safe|]. intros [] h1 Hh1 He1. safe_step.
  eapply safe_mono; [apply for_peers_safe; [done|]|].
  { intros i h2 Hh2 He2 Hi. apply tap_one_safe; try done. destruct He1, He2. lia. }
  intros [] h2 Hh2 He2.
  assert (evolves h h2) as He by by transitivity h1.
  assert (0 ≤ src < num_peers h2 ∧ idx_ok (num_nodes h2) (p_node_idx sp)) as [Hs2 Hsn2].
  { destruct He. split; [lia|mlia]. }
  apply safe_if; intros _; [|apply safe_if; intros _; [|by apply safe_skip]].
  - eapply safe_mono; [by apply forward_adv_safe|]. intros ????. by transitivity h2.
  - eapply safe_mono; [by apply forward_data_safe|]. intros ????. by transitivity h2.
Qed.

(** ** Hello *)

Lemma zlen_snprintf_s cap s : 0 < cap → zlen (snprintf_s cap s) < cap.
Proof. intros. unfold snprintf_s, zlen. rewrite length_take. lia. Qed.

Lemma new_node_ok np nid : 0 ≤ np → node_ok np (new_node nid).
Proof.
  intros. split; [cbn; mlia|by constructor|done|by apply zlen_snprintf_s|..|cbn; mlia|].
  - by repeat split.
  - cbn. split_and!; mlia.
Qed.

(** [find_node] changes at most one node, by creating it. *)
Lemma find_node_safe nid create h (Q : Z → hub → Prop) :
  hub_ok h →
  (∀ i, idx_ok (num_nodes h) i → Q i h) →
  (∀ i l, tab_alloc (λ nd, negb (nd_active nd)) MAX_NODES (new_node nid) (nodes h) = Some (i, l) →
     let h' := set_nodes l h in
     hub_ok h' → num_nodes h ≤ num_nodes h' → Z.of_nat i < num_nodes h' → Q (Z.of_nat i) h') →
  hsafe (find_node nid create) h Q.
Proof.
  intros Hh Hold Hnew. pose proof (zlen_nonneg (nodes h)). pose proof (zlen_nonneg (peers h)).
  unfold find_node. safe_step. apply safe_get; [done|].
  destruct (find_idx _ _) as [i|] eqn:E.
  { apply safe_ret; [done|]. apply Hold. apply find_idx_lt in E.
    unfold num_nodes, zlen. mlia. }
  apply safe_if; intros _; [apply safe_ret; [done|]; apply Hold; unfold num_nodes; mlia|].
  destruct (tab_alloc _ _ _ _) as [[i l]|] eqn:Ea.
  - destruct (tab_alloc_zlen _ _ _ _ _ _ Ea) as (H1 & H2 & H3).
    assert (hub_ok (set_nodes l h)).
    { apply hub_ok_set_nodes; [done|split; [done|apply H2, Hh]|].
      eapply tab_alloc_Forall; [done|apply Hh|by apply new_node_ok]. }
    safe_step. apply safe_modify; [done|]. apply safe_ret; [done|]. by apply Hnew.
  - apply safe_ret; [done|]. apply Hold. unfold num_nodes. mlia.
Qed.

(** The peers keep their descriptors and receive buffers; the environment
    stays calm. *)
Record rx_same (p p' : peer) : Prop := RxSame {
  rxs_fd : p_fd p' = p_fd p;
  rxs_buf : p_rxbuf p' = p_rxbuf p;
  rxs_used : p_rxused p' = p_rxused p
}.
Record quiet (h h' : hub) : Prop := Quiet {
  qt_nodes : num_nodes h ≤ num_nodes h';
  qt_env : henv h' = henv h;
  qt_peers : Forall2 rx_same (peers h) (peers h')
}.
#[export] Instance rx_same_preorder : PreOrder rx_same.
Proof. split; [by split|]. intros ??? [] []. split; congruence. Qed.
#[export] Instance quiet_preorder : PreOrder quiet.
Proof.
  split; [intros h; split; [lia|done|reflexivity]|].
  intros h1 h2 h3 [] []. split; [lia|congruence|by transitivity (peers h2)].
Qed.

Lemma quiet_num_peers h h' : quiet h h' → num_peers h' = num_peers h.
Proof. intros [_ _ Hp]. unfold num_peers, zlen. by rewrite (Forall2_length Hp). Qed.

Lemma quiet_upd_peer h i f :
  0 ≤ i → (∀ p, rx_same p (f p)) → quiet h (set_peers (upd_idx i f (peers h)) h).
Proof. intros. split; [unfold num_nodes; cbn; lia|done|]. by apply Forall2_upd_idx. Qed.

Lemma quiet_set_nodes h l : num_nodes h ≤ zlen l → quiet h (set_nodes l h).
Proof. intros. split; done. Qed.

Lemma bind_peer_node_safe pidx nid physical h :
  hub_ok h → 0 ≤ pidx < num_peers h →
  hsafe (bind_peer_node pidx nid physical) h (λ _ h', quiet h h').
Proof.
  intros Hh Hp. unfold bind_peer_node. safe_step.
  assert (∀ n h1, hub_ok h1 → quiet h h1 → idx_ok (num_nodes h1) n →
    hsafe (if n <? 0 then skip else
      nd ← node_at n;
      when ((0 <=? nd_peer_idx nd) && negb (nd_peer_idx nd =? pidx))
        (peer_upd (nd_peer_idx nd) (set_p_node_idx (-1)));;
      node_upd n (λ nd, set_nd_physical physical (set_nd_peer_idx pidx nd));;
      peer_upd pidx (λ p, set_p_label (snprintf_s 80 nid)
        (set_p_is_physical physical (set_p_node_idx n p)))) h1 (λ _ h', quiet h h')) as Hk.
  { intros n h1 Hh1 Hq Hn. apply safe_if; intros ?; [by apply safe_skip|].
    pose proof (quiet_num_peers _ _ Hq) as Hnp. safe_step.
    apply node_at_safe; [done|mlia|]. intros nd Hnd Hndok. safe_step.
    eapply (safe_mono _ _ _ _ (λ _ h', quiet h1 h' ∧ num_nodes h' = num_nodes h1)).
    { apply safe_when; [done| |by split]. intros ?. apply peer_upd_safe; [done| | |].
      - pose proof (nok_peer _ _ Hndok). mlia.
      - intros p _ []. split; try done. cbn. pose proof (zlen_nonneg (nodes h1)).
        unfold num_nodes. mlia.
      - intros h2 Hh2. split; [|done]. apply quiet_upd_peer; [mlia|]. by split. }
    intros [] h2 Hh2 [Hq2 Hn2]. pose proof (quiet_num_peers _ _ Hq2) as Hnp2. safe_step.
    apply node_upd_safe; [done|mlia| |].
    { intros ? []. split; try done. cbn. mlia. }
    intros h3 Hh3.
    assert (num_nodes h3 = num_nodes h2) as Hn3 by apply zlen_upd_idx.
    apply peer_upd_safe; [done| | |].
    { change (num_peers h3) with (num_peers h2). lia. }
    { intros p _ []. split; try done. cbn. mlia. }
    intros h4 Hh4. transitivity h1; [done|]. transitivity h2; [done|]. transitivity h3.
    - apply quiet_set_nodes. rewrite zlen_upd_idx. unfold num_nodes. lia.
    - apply quiet_upd_peer; [lia|]. by split. }
  apply find_node_safe; [done| |].
  - intros. by apply Hk.
  - intros i l Hal h1 Hh1 Hl Hi. apply Hk; [done|by apply quiet_set_nodes|mlia].
Qed.

Lemma maybe_hello_safe pidx payload h :
  hub_ok h → 0 ≤ pidx < num_peers h → next_auto_id h + anon payload ≤ INT_MAX →
  hsafe (maybe_hello pidx payload) h (λ _ h', quiet h h').
Proof.
  intros Hh Hp Hid. unfold maybe_hello. cbv zeta.
  apply safe_if; intros Hl; [by apply safe_ret|].
  apply safe_if; intros Hm; [by apply safe_ret|].
  pose proof (anonymous_id payload ltac:(lia) ltac:(by apply Z.eqb_eq, negb_false_iff)) as Ha.
  destruct (hello_id _ _) as [id rest]. safe_step. apply safe_get; [done|]. safe_step.
  eapply (safe_mono _ _ _ _ (λ _ h', quiet h h')).
  { destruct id; [|by apply safe_ret]. unfold anon in Hid. rewrite (proj1 Ha eq_refl) in Hid.
    pose proof (hok_auto _ Hh). rewrite if_false by lia.
    assert (hub_ok (set_next_auto_id (next_auto_id h + 1) h)) by (apply hub_ok_set_next_auto_id; [done|lia]).
    safe_step. apply safe_modify; [done|]. by apply safe_ret. }
  intros nid h1 Hh1 Hq. pose proof (quiet_num_peers _ _ Hq). apply safe_if; intros _.
  - safe_step. apply peer_upd_safe; [done|lia| |].
    + intros ? _ []. by split.
    + intros h2 Hh2. apply safe_ret; [done|]. transitivity h1; [done|].
      apply quiet_upd_peer; [lia|]. by split.
  - safe_step. eapply safe_mono; [apply bind_peer_node_safe; [done|lia]|].
    intros [] h2 Hh2 Hq2. apply safe_ret; [done|]. by transitivity h1.
Qed.

(** ** Receive *)

Lemma frame_of_ok payload hdr :
  bytes_ok payload → frame_of payload = Some hdr →
  hdr_ok hdr ∧ msg_len_ok (zlen payload - VBT_HDR_SIZE) ∧ magic hdr = VBT_MAGIC.
Proof.
  intros Hb. unfold frame_of. destruct (VBT_HDR_SIZE <=? zlen payload) eqn:Hl; [|done].
  cbv zeta. destruct (_ && _) eqn:E; [|done]. intros [= <-].
  apply andb_prop in E as [[? ?]%andb_prop ?]. unfold VBT_HDR_SIZE in *. split_and!.
  - apply hdr_of_bytes_ok; [unfold slice; by apply Forall_take, Forall_drop|].
    change VBT_HDR_SIZE with 44. apply zlen_slice; lia.
  - unfold msg_len_ok. lia.
  - lia.
Qed.

(** The peers other than those in [except] keep descriptor and receive buffer. *)
Definition rx_keep (except : Z → Prop) (h h' : hub) : Prop :=
  num_peers h' = num_peers h ∧
  ∀ j p, ¬ except j → at_idx (peers h) j = Some p →
    ∃ p', at_idx (peers h') j = Some p' ∧ rx_same p p'.
Abbreviation rx_all := (rx_keep (λ _, False)).
Abbreviation rx_others idx := (rx_keep (λ j, j = idx)).

Lemma Forall2_rx_keep E h h' : Forall2 rx_same (peers h) (peers h') → rx_keep E h h'.
Proof.
  intros Hk. split; [unfold num_peers, zlen; by rewrite (Forall2_length Hk)|].
  intros j p _ [Hi Hp]%at_idx_Some.
  destruct (Forall2_lookup_l _ _ _ _ _ Hk Hp) as (p' & Hp' & ?).
  exists p'. by rewrite at_idx_Some.
Qed.

Lemma quiet_rx_keep E h h' : quiet h h' → rx_keep E h h'.
Proof. intros []. by apply Forall2_rx_keep. Qed.

Lemma evolves_rx_keep E h h' : evolves h h' → calm h → rx_keep E h h'.
Proof.
  intros He Hc. apply Forall2_rx_keep. eapply Forall2_impl; [|by apply He].
  intros p q []. by split.
Qed.

Lemma rx_keep_trans (E : Z → Prop) h1 h2 h3 : rx_keep E h1 h2 → rx_keep E h2 h3 → rx_keep E h1 h3.
Proof.
  intros [? H1] [? H2]. split; [congruence|]. intros j p Hj Hp.
  destruct (H1 j p Hj Hp) as (p2 & Hp2 & ?), (H2 j p2 Hj Hp2) as (p3 & Hp3 & ?).
  exists p3. split; [done|by transitivity p2].
Qed.

#[export] Instance rx_keep_refl (E : Z → Prop) : Reflexive (rx_keep E).
Proof. intros h. by apply Forall2_rx_keep. Qed.

Lemma rx_keep_weaken (E F : Z → Prop) h h' :
  (∀ j, E j → F j) → rx_keep E h h' → rx_keep F h h'.
Proof. intros HEF [? H]. split; [done|]. intros j p Hj. apply H. auto. Qed.

Lemma rx_others_upd idx f h :
  0 ≤ idx → rx_others idx h (set_peers (upd_idx idx f (peers h)) h).
Proof.
  intros Hi. split; [apply zlen_upd_idx|]. intros j p Hj Hp. exists p. split; [|done].
  cbn. rewrite at_upd_idx_ne; auto.
Qed.

Lemma closes_rx_others idx h h' : closes idx h h' → rx_others idx h h'.
Proof.
  intros [Hs _ _ Ho]. split; [apply Hs|]. intros j p Hj Hp. exists p.
  split; [by rewrite Ho|done].
Qed.

Lemma rx_message_safe `{Libm} idx payload h :
  hub_ok h → calm h → 0 ≤ idx < num_peers h → bytes_ok payload → next_auto_id h + anon payload ≤ INT_MAX →
  hsafe (rx_message idx payload) h (λ _ h', calm h' ∧ rx_all h h').
Proof.
  intros Hh Hc Hi Hb Hid. unfold rx_message. safe_step.
  eapply safe_mono; [by apply maybe_hello_safe|]. intros k h1 Hh1 Hq.
  assert (calm h1) as Hc1 by (unfold calm; by rewrite (qt_env _ _ Hq)).
  pose proof (quiet_rx_keep (λ _, False) _ _ Hq) as Hr. pose proof (quiet_num_peers _ _ Hq).
  apply safe_when; [done| |done]. intros _.
  destruct (frame_of payload) as [hdr|] eqn:Hf; [|by apply safe_skip].
  destruct (frame_of_ok _ _ Hb Hf) as (Hok & Hn & _).
  eapply safe_mono; [apply forward_frame_safe; [done..|lia]|].
  intros [] h2 Hh2 He. split; [by apply He|].
  eapply rx_keep_trans; [done|]. by apply evolves_rx_keep.
Qed.

Lemma peer_ok_rx nn p b u :
  peer_ok nn p → bytes_ok b → zlen b = RECV_BUF_SIZE → 0 ≤ u ≤ RECV_BUF_SIZE →
  peer_ok nn (set_p_rxused u (set_p_rxbuf b p)).
Proof. intros [] ???. by split. Qed.

Lemma rx_consume_safe idx total p h :
  hub_ok h → at_idx (peers h) idx = Some p → 0 < total ≤ p_rxused p →
  hsafe (rx_consume idx total) h (λ _ h',
    henv h' = henv h ∧ rx_others idx h h' ∧
    ∃ p', at_idx (peers h') idx = Some p' ∧ p_rxused p' = p_rxused p - total ∧
      p_fd p' = p_fd p).
Proof.
  intros Hh Hp Ht. assert (0 ≤ idx < num_peers h) as Hi by by eapply at_idx_lt.
  unfold rx_consume. safe_step. apply peer_at_safe; [done..|]. intros q Hq Hok.
  destruct (pok_rxbuf _ _ Hok) as [Hb Hbl]. pose proof (pok_rxused _ _ Hok) as Hu.
  rewrite Hp in Hq. injection Hq as <-. cbv zeta.
  assert (u32 (p_rxused p - total) = p_rxused p - total) as ->.
  { apply u32_small. unfold RECV_BUF_SIZE, VBT_RXBUF_SIZE, VBT_HDR_SIZE,
      VBT_MAX_PDU_SIZE in Hu. mlia. }
  apply safe_if; intros Hpos.
  - safe_step. apply safe_rdn; [done|done|lia..|]. intros Hsb Hsl.
    apply peer_upd_safe; [done..| |].
    + intros q Hq Hqok. rewrite Hp in Hq. injection Hq as <-. apply peer_ok_rx; [done| | |lia].
      * by apply bytes_ok_splice.
      * rewrite zlen_splice; lia.
    + intros h1 Hh1. split_and!; [done|apply rx_others_upd; lia|]. eexists.
      split; [by apply at_upd_idx_eq|done].
  - apply peer_upd_safe; [done..| |].
    + intros q Hq []. rewrite Hp in Hq. injection Hq as <-. split; try done. cbn. lia.
    + intros h1 Hh1. split_and!; [done|apply rx_others_upd; lia|]. eexists.
      split; [by apply at_upd_idx_eq|done].
Qed.

Lemma of_be32_range b : bytes_ok b → zlen b = 4 → is_u32 (of_be32 b).
Proof.
  intros. unfold of_be32. apply le_join4_ok; [by apply Forall_rev|].
  unfold zlen in *. by rewrite length_rev.
Qed.

(** Between two reads the buffer is never full: [read] is never asked for
    zero bytes. *)
Definition rx_room (idx : Z) (h : hub) : Prop :=
  ∀ p, at_idx (peers h) idx = Some p → p_rxused p < RECV_BUF_SIZE.

(** A closed slot has an empty buffer. *)
Lemma closes_room idx h h' : closes idx h h' → rx_room idx h → rx_room idx h'.
Proof.
  intros [_ _ Hs _] Hr p Hp. destruct (Hs p Hp) as [_ [->|Heq]]; [done|].
  apply Hr. by rewrite <- Heq.
Qed.

Lemma closes_calm idx h h' : closes idx h h' → calm h → calm h'.
Proof. intros [_ He _ _]. unfold calm. by rewrite He. Qed.

Lemma u32_below_buf x : 0 ≤ x ≤ RECV_BUF_SIZE → u32 x = x.
Proof.
  unfold RECV_BUF_SIZE, VBT_RXBUF_SIZE, VBT_HDR_SIZE, VBT_MAX_PDU_SIZE. intros.
  apply u32_small. mlia.
Qed.

(** The slot [idx] holds [p]. *)
Lemma rx_room_at idx h p :
  at_idx (peers h) idx = Some p → p_rxused p < RECV_BUF_SIZE → rx_room idx h.
Proof. intros Hp ? q Hq. rewrite Hp in Hq. by injection Hq as <-. Qed.

(** One iteration with a complete message in the buffer. *)
Lemma rx_one_safe `{Libm} idx p plen h :
  hub_ok h → calm h → at_idx (peers h) idx = Some p → 0 ≤ plen → 4 + plen ≤ p_rxused p →
  next_auto_id h + (4 + plen) / 9 ≤ INT_MAX →
  hsafe (rx_one idx p plen) h
    (λ _ h', calm h' ∧ rx_others idx h h' ∧ next_auto_id h' ≤ next_auto_id h + (4 + plen) / 9 ∧
       ∃ p', at_idx (peers h') idx = Some p' ∧ p_rxused p' = p_rxused p - (4 + plen) ∧
         p_fd p' = p_fd p).
Proof.
  intros Hh Hc Hp Hpl Hu Hid. unfold rx_one. assert (0 ≤ idx < num_peers h) as Hi by by eapply at_idx_lt.
  pose proof (at_idx_Forall _ _ _ _ (hok_peers _ Hh) Hp) as Hok.
  destruct (pok_rxbuf _ _ Hok) as [Hb Hbl]. pose proof (pok_rxused _ _ Hok) as Hused.
  safe_step. apply safe_rdn; [done|done|lia..|]. intros Hpb Hpll.
  set (payload := slice 4 plen (p_rxbuf p)) in *.
  assert (anon payload ≤ (4 + plen) / 9) as Ha.
  { pose proof (anon_range payload). pose proof (anon_long payload). rewrite Hpll in *.
    Z.to_euclidean_division_equations. lia. }
  safe_step. apply peer_upd_safe; [done..| |].
  { intros q _ []. by split. }
  intros h1 Hh1. assert (num_peers h1 = num_peers h) as Hn1 by apply zlen_upd_idx.
  pose proof (at_upd_idx_eq idx (λ p, set_p_frames_seen (inc64 (p_frames_seen p)) p) _ _ Hp)
    as Hp1. safe_step.
  eapply safe_mono.
  { apply (hsafe_also _ _ (λ _ h', calm h' ∧ rx_all h1 h') (λ _ h', next_auto_id h' = next_auto_id h1 + anon payload));
      [apply rx_message_safe; [done|exact Hc|lia|done|]|intros [] h' o; apply rx_message_counts].
    change (next_auto_id h1) with (next_auto_id h). lia. }
  intros [] h2 Hh2 [[Hc2 Hr2] Hn2]. change (next_auto_id h1) with (next_auto_id h) in Hn2. destruct (proj2 Hr2 idx _ (λ x, x) Hp1) as (p2 & Hp2 & [Hfd2 _ Hu2]).
  cbn in Hu2, Hfd2.
  eapply safe_mono; [apply hsafe_stays; [apply (rx_consume_safe _ _ p2); [done|done|lia]|apply stays_rx_consume]|].
  intros [] h3 Hh3 [(He3 & Hn3 & p3 & Hp3 & Hu3 & Hfd3) Hid3]. split_and!.
  - unfold calm. by rewrite He3.
  - eapply rx_keep_trans; [|exact Hn3]. eapply rx_keep_trans; [apply rx_others_upd; lia|].
    by eapply rx_keep_weaken; [|exact Hr2].
  - lia.
  - exists p3. split_and!; [done|lia|congruence].
Qed.

Lemma rx_loop_safe `{Libm} fuel idx p h :
  hub_ok h → calm h → at_idx (peers h) idx = Some p → p_rxused p < 4 * Z.of_nat fuel + 4 →
  0 ≤ p_fd p → next_auto_id h + p_rxused p / 9 ≤ INT_MAX →
  hsafe (rx_loop fuel idx) h (λ _ h', calm h' ∧ rx_others idx h h' ∧ rx_room idx h' ∧
    next_auto_id h' ≤ next_auto_id h + p_rxused p / 9).
Proof.
  assert (4 < RECV_BUF_SIZE) as Hbig by done.
  revert p h. induction fuel as [|fuel IH]; intros p h Hh Hc Hp Hf Hfd Hid;
    assert (0 ≤ p_rxused p / 9) as Hpos by (apply Z.div_pos; [apply (at_idx_Forall _ _ _ _ (hok_peers _ Hh) Hp)|done]).
  { cbn [rx_loop]. safe_step. pose proof (at_idx_lt _ _ _ Hp).
    apply peer_at_safe; [done..|]. intros q Hq _. rewrite Hp in Hq. injection Hq as <-.
    apply safe_if; intros ?; [|lia]. apply safe_skip; [done|].
    split_and!; [done..| |lia]. apply (rx_room_at _ _ p); [done|lia]. }
  cbn [rx_loop]. safe_step. assert (0 ≤ idx < num_peers h) as Hi by by eapply at_idx_lt.
  apply peer_at_safe; [done..|]. intros q Hq Hok. rewrite Hp in Hq. injection Hq as <-.
  destruct (pok_rxbuf _ _ Hok) as [Hb Hbl]. pose proof (pok_rxused _ _ Hok) as Hused.
  apply safe_if; intros Hu.
  { apply safe_skip; [done|]. split_and!; [done..| |lia]. apply (rx_room_at _ _ p); [done|lia]. }
  safe_step. apply safe_rdn; [done|done|lia..|]. intros Hhb Hhl. cbv zeta.
  pose proof (of_be32_range _ Hhb Hhl) as Hplen. set (plen := of_be32 _) in *.
  apply safe_if; intros Hbigmsg.
  { eapply safe_mono; [apply hsafe_stays; [by apply peer_close_safe|apply stays_peer_close]|].
    intros [] h1 Hh1 [Hcl ->]. split_and!; [..|lia].
    - by eapply closes_calm.
    - by apply closes_rx_others.
    - intros p1 Hp1. destruct (cls_slot _ _ _ Hcl _ Hp1) as [? [->|Heq]]; [done|].
      rewrite Heq, Hp in Hp1. injection Hp1 as <-. lia. }
  apply safe_if; intros Hmore.
  { apply safe_skip; [done|]. split_and!; [done..| |lia].
    apply (rx_room_at _ _ p); [done|]. unfold VBT_MAX_MSG_SIZE in Hbigmsg. unfold RECV_BUF_SIZE, VBT_RXBUF_SIZE. lia. }
  safe_step. eapply safe_mono; [apply rx_one_safe; [done|done|done|mlia|lia|]|].
  { enough ((4 + plen) / 9 ≤ p_rxused p / 9) by lia. apply Z.div_le_mono; lia. }
  intros [] h1 Hh1 (Hc1 & Hn1 & Hid1 & p1 & Hp1 & Hu1 & Hfd1).
  assert ((4 + plen) / 9 + p_rxused p1 / 9 ≤ p_rxused p / 9) as Hsum.
  { rewrite Hu1. clear. Z.to_euclidean_division_equations. lia. }
  eapply safe_mono; [apply (IH p1); [done|done|done|mlia|lia|lia]|].
  intros [] h2 Hh2 (? & ? & ? & ?). split_and!; [done|by eapply rx_keep_trans|done|lia].
Qed.

Definition rres_ok (r : rres) : Prop :=
  match r with RBytes l => bytes_ok l | _ => True end.

(** The hellos that fit into a receive buffer, each of nine bytes or more. *)
Definition HELLOS_PER_READ : Z := RECV_BUF_SIZE / 9.

(** Reading from an open peer, with a calm kernel. *)
Lemma peer_readable_safe `{Libm} idx p r h :
  hub_ok h → calm h → at_idx (peers h) idx = Some p → 0 ≤ p_fd p →
  p_rxused p < RECV_BUF_SIZE → rres_ok r → next_auto_id h + HELLOS_PER_READ ≤ INT_MAX →
  hsafe (peer_readable idx r) h (λ _ h',
    calm h' ∧ rx_others idx h h' ∧ rx_room idx h' ∧ next_auto_id h' ≤ next_auto_id h + HELLOS_PER_READ).
Proof.
  intros Hh Hc Hp Hfd Hroom Hr Hid. change HELLOS_PER_READ with 62 in *.
  assert (0 ≤ idx < num_peers h) as Hi by by eapply at_idx_lt.
  assert (hsafe (peer_close idx) h (λ _ h',
    calm h' ∧ rx_others idx h h' ∧ rx_room idx h' ∧ next_auto_id h' ≤ next_auto_id h + 62)) as Hclose.
  { eapply safe_mono; [apply hsafe_stays; [by apply peer_close_safe|apply stays_peer_close]|].
    intros [] h1 Hh1 [Hcl ->]. split_and!; [..|lia].
    - by eapply closes_calm.
    - by apply closes_rx_others.
    - eapply closes_room; [done|]. by eapply rx_room_at. }
  unfold peer_readable. safe_step. apply peer_at_safe; [done..|]. intros q Hq Hok.
  rewrite Hp in Hq. injection Hq as <-. destruct r as [l| | |]; [|done| |done].
  2: { apply safe_skip; [done|]. split_and!; [done..| |lia]. by eapply rx_room_at. }
  cbv zeta. set (l' := take _ l). apply safe_if; intros Hz; [done|]. safe_step.
  destruct (pok_rxbuf _ _ Hok) as [Hb Hbl]. pose proof (pok_rxused _ _ Hok) as Hu.
  assert (zlen l' ≤ RECV_BUF_SIZE - p_rxused p) as Hl'.
  { subst l'. unfold zlen. rewrite length_take. lia. }
  pose proof (zlen_nonneg l').
  apply peer_upd_safe; [done..| |].
  { intros q Hq Hqok. rewrite Hp in Hq. injection Hq as <-.
    rewrite u32_below_buf by lia. apply peer_ok_rx; [done| | |lia].
    - apply bytes_ok_splice; [by apply Forall_take|done].
    - rewrite zlen_splice; lia. }
  intros h1 Hh1.
  assert (num_peers h1 = num_peers h) as Hn1 by apply zlen_upd_idx.
  pose proof (at_upd_idx_eq idx (λ p, set_p_rxused (u32 (p_rxused p + zlen l'))
    (set_p_rxbuf (splice (p_rxused p) l' (p_rxbuf p)) p)) _ _ Hp) as Hp1.
  eapply safe_mono; [eapply (rx_loop_safe rx_fuel _ _ h1 Hh1 Hc Hp1); [|done|]|].
  - cbn. rewrite u32_below_buf by lia. change (Z.of_nat rx_fuel) with 141.
    change RECV_BUF_SIZE with 560 in *. lia.
  - change (next_auto_id h1) with (next_auto_id h). cbn. rewrite u32_below_buf by lia.
    enough ((p_rxused p + zlen l') / 9 ≤ 560 / 9) by (change (560 / 9) with 62 in *; lia).
    apply Z.div_le_mono; [lia|]. change RECV_BUF_SIZE with 560 in *. lia.
  - intros [] h2 Hh2 (? & ? & ? & Hn2). change (next_auto_id h1) with (next_auto_id h) in Hn2. cbn in Hn2.
    rewrite u32_below_buf in Hn2 by lia. split_and!; [done| |done|].
    2: { enough ((p_rxused p + zlen l') / 9 ≤ 560 / 9) by (change (560 / 9) with 62 in *; lia).
      apply Z.div_le_mono; [lia|]. change RECV_BUF_SIZE with 560 in *. lia. }
    eapply rx_keep_trans; [apply rx_others_upd; lia|done].
Qed.

Lemma new_peer_ok nn fd b label : 0 ≤ nn → peer_ok nn (new_peer fd b label).
Proof.
  intros. split.
  - cbn. mlia.
  - apply zero_peer_rxbuf.
  - by vm_compute.
  - by constructor.
  - done.
Qed.

Lemma peer_alloc_safe fd b label h :
  hub_ok h → hsafe (peer_alloc fd b label) h (λ i h',
    henv h' = henv h ∧ num_peers h ≤ num_peers h' ∧ idx_ok (num_peers h') i).
Proof.
  intros Hh. pose proof (zlen_nonneg (nodes h)). pose proof (zlen_nonneg (peers h)).
  unfold peer_alloc. safe_step. apply safe_get; [done|].
  destruct (tab_alloc _ _ _ _) as [[i l]|] eqn:E.
  - destruct (tab_alloc_zlen _ _ _ _ _ _ E) as (H1 & H2 & H3).
    assert (hub_ok (set_peers l h)).
    { apply hub_ok_set_peers; [done|split; [done|apply H2, Hh]|].
      eapply tab_alloc_Forall; [done|apply Hh|by apply new_peer_ok]. }
    safe_step. apply safe_modify; [done|]. apply safe_ret; [done|]. split_and!; [done..|].
    change (num_peers _) with (zlen l). mlia.
  - safe_step. apply safe_emit; [done|done|]. apply safe_ret; [done|].
    split_and!; [done|done|]. unfold num_peers. mlia.
Qed.
