(* ===== verification/HubCtlInv.v ===== *)
(** * The control socket keeps the hub's invariant

    Every control command leaves [hub_ok] true, touches no peer, and its
    replies fit the buffers they are formatted in. *)

From Stdlib Require Import ZArith Lia Floats.SpecFloat String.
From stdpp Require Import base list numbers option.
From S2P Require Import Prelude Wire Text TextInv HubState HubTables HubModel HubIO HubRoute.
From S2P Require Import HubCtl HubInv.

(** What a control client's turn may do: nothing to the peers, nodes are only
    added, and the kernel stays calm. *)
Record ctl_keep (h h' : hub) : Prop := CtlKeep {
  ckp_peers : peers h' = peers h;
  ckp_nodes : num_nodes h ≤ num_nodes h';
  ckp_calm : calm h → calm h'
}.
#[export] Instance ctl_keep_preorder : PreOrder ctl_keep.
Proof. split; [by split|]. intros ??? [] []. split; [congruence|lia|auto]. Qed.

(** What a command may do: it leaves the input buffers alone as well. *)
Record ctl_rel (h h' : hub) : Prop := CtlRel {
  crl_peers : peers h' = peers h;
  crl_nodes : num_nodes h ≤ num_nodes h';
  crl_calm : calm h → calm h';
  crl_bufs : map ct_buf (ctl_clients h') = map ct_buf (ctl_clients h)
}.
#[export] Instance ctl_rel_preorder : PreOrder ctl_rel.
Proof. split; [by split|]. intros ??? [] []. split; [congruence|lia|auto|congruence]. Qed.

Lemma ctl_rel_keep h h' : ctl_rel h h' → ctl_keep h h'.
Proof. intros []. by split. Qed.

Lemma ctl_rel_same h h' :
  peers h' = peers h → henv h' = henv h → num_nodes h ≤ num_nodes h' →
  map ct_buf (ctl_clients h') = map ct_buf (ctl_clients h) → ctl_rel h h'.
Proof. intros ? He ??. split; [done|done| |done]. unfold calm. by rewrite He. Qed.

Abbreviation csafe m h := (hsafe m h (λ _ h', ctl_rel h h')).

Lemma csafe_bind {A B} (m : HUB A) (k : A → HUB B) h :
  csafe m h → (∀ a h1, hub_ok h1 → ctl_rel h h1 → csafe (k a) h1) → csafe (m ≫= k) h.
Proof.
  intros Hm Hk. safe_step. eapply safe_mono; [exact Hm|]. intros a h1 Hh1 H1.
  eapply safe_mono; [by apply Hk|]. intros b h2 Hh2 H2. by transitivity h1.
Qed.

(** As [csafe_bind], keeping what is known of the first result. *)
Lemma csafe_bind_post {A B} (m : HUB A) (k : A → HUB B) h (P : A → hub → Prop) :
  hsafe m h (λ a h', ctl_rel h h' ∧ P a h') →
  (∀ a h1, hub_ok h1 → ctl_rel h h1 → P a h1 → csafe (k a) h1) → csafe (m ≫= k) h.
Proof.
  intros Hm Hk. safe_step. eapply safe_mono; [exact Hm|]. intros a h1 Hh1 [H1 HP].
  eapply safe_mono; [by apply Hk|]. intros b h2 Hh2 H2. by transitivity h1.
Qed.

Lemma csafe_when (b : bool) (m : HUB unit) h :
  hub_ok h → (b = true → csafe m h) → csafe (when b m) h.
Proof. intros. apply safe_when; [done|done|done]. Qed.

Lemma csafe_each {A} (l : list A) (f : A → HUB unit) h :
  hub_ok h → (∀ x h1, x ∈ l → hub_ok h1 → ctl_rel h h1 → csafe (f x) h1) →
  csafe (for_each l f) h.
Proof.
  revert h. induction l as [|x l IH]; intros h Hh Hf; cbn [for_each]; [by apply safe_skip|].
  apply csafe_bind; [apply Hf; [by left|done|done]|]. intros [] h1 Hh1 Hr. apply IH; [done|].
  intros y h2 Hy Hh2 Hr2. apply Hf; [by right|done|by transitivity h1].
Qed.

(** ** Replies *)

Lemma hub_ok_set_ctl h l :
  hub_ok h → Forall ctl_ok l → zlen l = MAX_CTL_CLIENTS → hub_ok (set_ctl_clients l h).
Proof. intros [] ??. by split. Qed.

Lemma ctl_at_safe i h (Q : ctl_client → hub → Prop) :
  hub_ok h → 0 ≤ i < MAX_CTL_CLIENTS →
  (∀ c, at_idx (ctl_clients h) i = Some c → ctl_ok c → Q c h) → hsafe (ctl_at i) h Q.
Proof.
  intros Hh Hi HQ. unfold ctl_at. safe_step. apply safe_get; [done|].
  destruct (at_idx_is_Some (ctl_clients h) i) as [c Hc]; [by rewrite (hok_num_ctl _ Hh)|].
  rewrite Hc. apply safe_ret; [done|]. apply HQ; [done|].
  eapply at_idx_Forall; [apply Hh|done].
Qed.

Lemma ctl_upd_safe i f h :
  hub_ok h → 0 ≤ i < MAX_CTL_CLIENTS →
  (∀ c, at_idx (ctl_clients h) i = Some c → ctl_ok c → ctl_ok (f c)) →
  hsafe (ctl_upd i f) h (λ _ h', h' = set_ctl_clients (upd_idx i f (ctl_clients h)) h).
Proof.
  intros Hh Hi Hf. unfold ctl_upd. safe_step. apply safe_get; [done|].
  destruct (at_idx_is_Some (ctl_clients h) i) as [c Hc]; [by rewrite (hok_num_ctl _ Hh)|].
  rewrite Hc. apply safe_modify.
  - apply hub_ok_set_ctl; [done| |rewrite zlen_upd_idx; apply Hh].
    unfold upd_idx. apply Forall_alter; [apply Hh|]. intros x Hx ?. apply Hf; [|done].
    apply at_idx_Some. split; [lia|done].
  - done.
Qed.

Lemma ctl_upd_csafe i f h :
  hub_ok h → 0 ≤ i < MAX_CTL_CLIENTS → (∀ c, ct_buf (f c) = ct_buf c) →
  (∀ c, at_idx (ctl_clients h) i = Some c → ctl_ok c → ctl_ok (f c)) →
  csafe (ctl_upd i f) h.
Proof.
  intros Hh Hi Hb Hf. eapply safe_mono; [by apply ctl_upd_safe|].
  intros [] h' _ ->. apply ctl_rel_same; [done..|]. cbn. apply list_eq. intros k.
  unfold upd_idx. rewrite !list_lookup_fmap. destruct (decide (k = Z.to_nat i)) as [->|Hk].
  - rewrite list_lookup_alter_eq. destruct (ctl_clients h !! Z.to_nat i); cbn; [|done].
    by rewrite Hb.
  - by rewrite list_lookup_alter_ne.
Qed.

Lemma ctl_out_safe i text h :
  hub_ok h → 0 ≤ i < MAX_CTL_CLIENTS → zlen text ≤ 4095 → csafe (ctl_out i text) h.
Proof.
  intros Hh Hi Ht. unfold ctl_out. safe_step. apply ctl_at_safe; [done..|]. intros c Hc Hok.
  apply safe_if; intros _; [by apply safe_skip|].
  apply safe_if; intros Hpos; [by apply safe_skip|]. cbv zeta.
  pose proof (tok_out _ Hok) as Ho. pose proof (zlen_nonneg (ct_outbuf c)).
  rewrite u32_small by (unfold CTL_OUTBUF_SIZE in Ho; mlia).
  set (len := if _ <? _ then _ else _).
  assert (0 ≤ len ≤ zlen text ∧ zlen (ct_outbuf c) + len ≤ CTL_OUTBUF_SIZE) as [Hl Hfit].
  { subst len. case_match; lia. }
  assert (take 4095 text = text) as ->.
  { apply take_ge. unfold zlen in Ht. lia. }
  safe_step. unfold rdn. rewrite decide_True by (rewrite zlen_app; change (zlen [0]) with 1; lia).
  apply safe_ret; [done|].
  apply ctl_upd_csafe; [done..|].
  intros c' Hc' []. rewrite Hc in Hc'. injection Hc' as <-. split; [done|]. cbn.
  rewrite zlen_app, zlen_slice; [lia..|rewrite zlen_app; change (zlen [0]) with 1; lia].
Qed.

(** Lengths of the pieces of a reply. *)
Lemma fmt_addr_len a : addr_ok a → zlen (fmt_addr a) = 17.
Proof.
  intros [Hb (b0&b1&b2&b3&b4&b5&->)%zlen_6].
  assert (∀ x, is_u8 x → zlen (hex_str 2 x) = 2) as Hx.
  { intros x ?. pose proof (hex_str_len 2 x 2 ltac:(lia) ltac:(mlia)).
    unfold hex_str in *. rewrite pad_left_len in *. lia. }
  repeat (apply Forall_cons_1 in Hb as [? Hb]).
  cbn -[hex_str]. rewrite !zlen_app, !zlen_cons, !zlen_app, !zlen_cons. cbn -[hex_str].
  rewrite !zlen_app, !zlen_cons, !zlen_app, !zlen_cons, !zlen_app, !zlen_cons, !zlen_app.
  rewrite !Hx by done. done.
Qed.

Lemma zlen_take_le {A} n (l : list A) : zlen (take n l) ≤ Z.of_nat n.
Proof. unfold zlen. rewrite length_take. lia. Qed.

(** Compute the lengths of the literals of a reply and add the rest up. *)
Ltac text_lia :=
  unfold nl; rewrite ?zlen_app;
  repeat match goal with
  | |- context [zlen (str ?s)] =>
      let v := eval vm_compute in (zlen (str s)) in change (zlen (str s)) with v
  end;
  change (zlen [10]) with 1; lia.

Ltac reply := apply ctl_out_safe; [done|done|]; text_lia.

Lemma zlen_if_le (b : bool) (x y : list Z) k : zlen x ≤ k → zlen y ≤ k → zlen (if b then x else y) ≤ k.
Proof. by destruct b. Qed.

Lemma mode_label_len n nd l : zlen (mode_label n nd l) ≤ 10.
Proof.
  unfold mode_label. destruct (omap (role_in n) l) as [|r l'] eqn:E.
  - by destruct (_ =? _).
  - assert (r ∈ omap (role_in n) l) as Hr by (rewrite E; left).
    apply list_elem_of_omap in Hr as (c & _ & Hc). unfold role_in in Hc.
    repeat case_match; by simplify_eq.
Qed.

Lemma freq_range ch : is_u8 ch → 0 ≤ vbt_channel_to_freq ch ≤ 2480.
Proof. intros. unfold vbt_channel_to_freq. repeat case_match; mlia. Qed.

Lemma peer_line_len np n nd l : node_ok np nd → zlen (peer_line n nd l) ≤ 4095.
Proof.
  intros [_ _ _ Hid (Hx & Hy & Hz & Ht) Hch (C1 & C2 & C3)]. unfold peer_line.
  pose proof (freq_range _ Hch).
  pose proof (mode_label_len n nd l). pose proof (zlen_nonneg (nd_node_id nd)).
  pose proof (fix_str_len 1 _ ltac:(lia) Hx). pose proof (fix_str_len 1 _ ltac:(lia) Hy).
  pose proof (fix_str_len 1 _ ltac:(lia) Hz). pose proof (fix_str_len 0 _ ltac:(lia) Ht).
  pose proof (dec_str_len (nd_last_channel nd) ltac:(mlia)).
  pose proof (dec_str_len (vbt_channel_to_freq (nd_last_channel nd)) ltac:(mlia)).
  pose proof (dec_str_len _ ltac:(unfold is_u64 in C1; split; [|apply C1]; lia)).
  pose proof (dec_str_len _ ltac:(unfold is_u64 in C2; split; [|apply C2]; lia)).
  pose proof (dec_str_len _ ltac:(unfold is_u64 in C3; split; [|apply C3]; lia)).
  assert (zlen (match addrs_field nd with [] => str "-" | s => s end) ≤ 255).
  { pose proof (zlen_take_le 255 (join_commas (map fmt_addr (nd_addrs nd)))) as Hf.
    unfold addrs_field. destruct (take 255 _); [done|]. lia. }
  pose proof (zlen_if_le (nd_physical nd) (str " [physical]") [] 11 ltac:(done) ltac:(done)).
  pose proof (zlen_if_le (0 <=? nd_peer_idx nd) (str "online") (str "offline") 7
    ltac:(done) ltac:(done)).
  unfold nl; rewrite !zlen_app, !pad_right_len. change NODE_ID_LEN with 64 in Hid. text_lia.
Qed.

Lemma count_if_range {A} (f : A → bool) (l : list A) : 0 ≤ count_if f l ≤ zlen l.
Proof. unfold count_if, zlen. pose proof (length_filter (λ x, f x = true) l). lia. Qed.

Lemma end_name_safe n h :
  hub_ok h → idx_ok (num_nodes h) n → hsafe (end_name n) h (λ a h', h' = h ∧ zlen a ≤ 63).
Proof.
  intros Hh Hn. unfold end_name. apply safe_if; intros ?.
  - safe_step. apply node_at_safe; [done|mlia|]. intros nd Hnd Hok. apply safe_ret; [done|].
    split; [done|]. pose proof (nok_id _ _ Hok) as Hid. change NODE_ID_LEN with 64 in Hid. lia.
  - by apply safe_ret.
Qed.
Lemma find_node_false_safe nid h :
  hub_ok h → hsafe (find_node nid false) h (λ n h', h' = h ∧ idx_ok (num_nodes h) n).
Proof.
  intros Hh. unfold find_node. safe_step. apply safe_get; [done|].
  pose proof (idx_of_ok (named nid) (nodes h)) as Hi.
  destruct (find_idx _ _); by apply safe_ret.
Qed.

Lemma resolve_node_safe ident h :
  hub_ok h → hsafe (resolve_node ident) h (λ n h', h' = h ∧ idx_ok (num_nodes h) n).
Proof.
  intros Hh. unfold resolve_node. safe_step.
  eapply safe_mono; [by apply find_node_false_safe|]. intros n h' _ [-> Hn].
  apply safe_if; intros _; [by apply safe_ret|]. destruct (parse_addr ident) as [a|].
  - safe_step. apply safe_get; [done|]. apply safe_ret; [done|]. split; [done|].
    apply find_node_by_addr_ok.
  - apply safe_ret; [done|]. split; [done|]. pose proof (zlen_nonneg (nodes h)).
    unfold num_nodes. mlia.
Qed.

Lemma resolve_or_create_safe ident h :
  hub_ok h →
  hsafe (resolve_or_create ident) h (λ n h', ctl_rel h h' ∧ idx_ok (num_nodes h') n).
Proof.
  intros Hh. unfold resolve_or_create. safe_step.
  eapply safe_mono; [by apply resolve_node_safe|]. intros n h' _ [-> Hn].
  apply safe_if; intros _; [|by apply safe_ret]. apply find_node_safe; [done| |].
  - intros i Hi. by split.
  - intros i l Hal h1 Hh1 Hl Hi. split; [by apply ctl_rel_same|]. mlia.
Qed.

Lemma node_upd_csafe i f h :
  hub_ok h → 0 ≤ i < num_nodes h →
  (∀ nd, node_ok (num_peers h) nd → node_ok (num_peers h) (f nd)) →
  hsafe (node_upd i f) h (λ _ h', ctl_rel h h' ∧ num_nodes h' = num_nodes h).
Proof.
  intros. apply node_upd_safe; [done..|]. intros h' _.
  assert (num_nodes h' = num_nodes h) as Hn by apply zlen_upd_idx.
  split; [apply ctl_rel_same; [done|done|lia|done]|done].
Qed.

Lemma node_name_len np nd : node_ok np nd → zlen (nd_node_id nd) ≤ 63.
Proof. intros Hok. pose proof (nok_id _ _ Hok) as H. change NODE_ID_LEN with 64 in H. lia. Qed.

Lemma scan_2_lf_ok s ident x : scan_2 (scan_s 79) scan_lf s = Some (ident, x) → d_ok x.
Proof.
  unfold scan_2. destruct (scan_s 79 s) as [[id s1]|]; [|done]. cbn.
  destruct (scan_lf s1) as [[x' s2]|] eqn:Ex; [|done]. cbn. intros [= _ <-].
  by apply scan_lf_ok in Ex.
Qed.

Lemma find_override_safe a b create h :
  hub_ok h → hsafe (find_override a b create) h (λ o h',
    (ctl_rel h h' ∧ num_nodes h' = num_nodes h) ∧ idx_ok (num_overrides h') o).
Proof.
  intros Hh. unfold find_override. safe_step. apply safe_get; [done|].
  pose proof (idx_of_ok (link_match a b) (overrides h)) as Hi.
  destruct (find_idx _ _) as [i|]; [by apply safe_ret|].
  apply safe_if; intros _; [by apply safe_ret|].
  destruct (tab_alloc _ _ _ _) as [[i l]|] eqn:E; [|by apply safe_ret].
  destruct (tab_alloc_zlen _ _ _ _ _ _ E) as (H1 & H2 & H3).
  assert (hub_ok (set_overrides l h)).
  { apply hub_ok_set_overrides; [done|]. apply H2, Hh. }
  safe_step. apply safe_modify; [done|]. apply safe_ret; [done|].
  split; [split; [by apply ctl_rel_same|done]|]. change (num_overrides _) with (zlen l). mlia.
Qed.

Lemma override_upd_safe i f h :
  hub_ok h → 0 ≤ i < num_overrides h → csafe (override_upd i f) h.
Proof.
  intros Hh Hi. unfold override_upd. safe_step. apply safe_get; [done|].
  destruct (at_idx_is_Some (overrides h) i Hi) as [o Ho]. rewrite Ho. apply safe_modify.
  - apply hub_ok_set_overrides; [done|]. rewrite zlen_upd_idx. apply Hh.
  - by apply ctl_rel_same.
Qed.

Lemma scan_d_range l v r : scan_d l = Some (v, r) → -2147483648 ≤ v < 2147483648.
Proof.
  unfold scan_d. destruct (scan_sign _) as [neg l1].
  destruct (take_while _ _ _) as [[|c a] r1]; [done|]. intros [= <- _]. mlia.
Qed.

Lemma scan_link_inv {A} (sc : scanner A) s a b v :
  scan_link sc s = Some (a, b, v) → ∃ l r, sc l = Some (v, r).
Proof.
  unfold scan_link. destruct (scan_s 79 s) as [[x s1]|]; [|done]. cbn.
  destruct (scan_s 79 s1) as [[y s2]|]; [|done]. cbn.
  destruct (sc s2) as [[z s3]|] eqn:E; [|done]. cbn. intros [= _ _ <-]. eauto.
Qed.

Lemma clamp_prob_ok p : d_ok p → d_ok (clamp_prob p).
Proof. intros. unfold clamp_prob. repeat case_match; [done| |done]. by vm_compute. Qed.

Lemma take_while_len f n l : zlen (fst (take_while f n l)) ≤ Z.of_nat n.
Proof.
  revert l. induction n as [|n IH]; intros [|c l]; try done. cbn [take_while].
  destruct (f c); [|done]. specialize (IH l). destruct (take_while f n l).
  cbn in *. rewrite zlen_cons. lia.
Qed.

Section CtlCommands.
Context (cidx : Z) (Hcidx : 0 ≤ cidx < MAX_CTL_CLIENTS).
Implicit Types (h : hub).

Lemma ctl_list_peers_safe h : hub_ok h → csafe (ctl_list_peers cidx) h.
Proof using Hcidx.
  intros Hh. unfold ctl_list_peers. safe_step. apply safe_get; [done|]. apply csafe_bind.
  - pose proof (count_if_range nd_active (nodes h)) as Hc. pose proof (hok_num_nodes _ Hh) as Hn.
    unfold num_nodes in Hn. change MAX_NODES with 300 in Hn.
    pose proof (dec_str_len (count_if nd_active (nodes h)) ltac:(lia)). reply.
  - intros [] h1 Hh1 _. apply csafe_each; [done|]. intros [i nd] h2 Hin Hh2 _. cbn.
    apply csafe_when; [done|]. intros _. apply ctl_out_safe; [done|done|].
    apply (peer_line_len (num_peers h)).
    apply list_elem_of_lookup_1 in Hin as [k Hk]. rewrite list_lookup_imap in Hk.
    destruct (nodes h !! k) as [nd'|] eqn:E; [|done]. cbn in Hk. injection Hk as _ <-.
    by eapply Forall_lookup_1; [apply Hh|].
Qed.

Lemma ctl_list_conns_safe h : hub_ok h → csafe (ctl_list_conns cidx) h.
Proof using Hcidx.
  intros Hh. unfold ctl_list_conns. safe_step. apply safe_get; [done|].
  pose proof (count_if_range cn_active (conns h)) as Hc. pose proof (hok_num_conns _ Hh) as Hn.
  unfold num_conns in Hn. change MAX_CONNS with 512 in Hn.
  pose proof (dec_str_len (count_if cn_active (conns h)) ltac:(lia)).
  apply csafe_bind; [reply|]. intros [] h1 Hh1 Hr1.
  apply csafe_each; [done|]. intros c h2 Hin Hh2 Hr2. apply csafe_when; [done|]. intros _.
  assert (conn_ok (num_nodes h2) c) as Hcok.
  { apply (conn_ok_mono (num_nodes h)); [|destruct Hr1, Hr2; lia].
    apply list_elem_of_lookup_1 in Hin as [k Hk]. by eapply Forall_lookup_1; [apply Hh|]. }
  destruct Hcok as [Ha Hb Haa Hp [Hi Hv]].
  safe_step. eapply safe_mono; [by apply end_name_safe|]. intros a h' _ [-> Hla].
  safe_step. eapply safe_mono; [by apply end_name_safe|]. intros b h' _ [-> Hlb].
  pose proof (fmt_addr_len _ Hi). pose proof (fmt_addr_len _ Hv).
  pose proof (dec_str_len (cn_pdus c) ltac:(mlia)).
  pose proof (hex_str_len 8 (cn_access_addr c) 8 ltac:(lia) ltac:(mlia)). reply.
Qed.

Lemma table_full_safe h : hub_ok h → csafe (table_full cidx) h.
Proof using Hcidx. intros. unfold table_full. reply. Qed.

(** The shape shared by the commands that set a field of a node. *)
Lemma set_node_safe ident f (text : node → list Z) h :
  hub_ok h → (∀ np nd, node_ok np nd → node_ok np (f nd)) →
  (∀ np nd, node_ok np nd → zlen (text nd) ≤ 4095) →
  csafe (n ← resolve_or_create ident;
         if n <? 0 then table_full cidx
         else node_upd n f;; nd ← node_at n; ctl_out cidx (text nd)) h.
Proof using Hcidx.
  intros Hh Hf Ht. eapply csafe_bind_post; [by apply resolve_or_create_safe|].
  intros n h1 Hh1 _ Hn. apply safe_if; intros Hneg; [by apply table_full_safe|].
  eapply csafe_bind_post; [apply node_upd_csafe; [done|mlia|by apply Hf]|].
  intros [] h2 Hh2 _ Hn2. safe_step. apply node_at_safe; [done|mlia|].
  intros nd Hnd Hok. apply ctl_out_safe; [done|done|]. by eapply Ht.
Qed.

Lemma ctl_set_pos_safe args h : hub_ok h → csafe (ctl_set_pos cidx args) h.
Proof using Hcidx.
  intros Hh. unfold ctl_set_pos.
  destruct (scan_pos args) as [[[[ident x] y] z]|] eqn:E; [|reply].
  unfold scan_pos in E. destruct (scan_s 79 args) as [[id s1]|]; [|done]. cbn in E.
  destruct (scan_lf s1) as [[x' s2]|] eqn:Ex; [|done]. cbn in E.
  destruct (scan_lf s2) as [[y' s3]|] eqn:Ey; [|done]. cbn in E. simplify_eq.
  apply scan_lf_ok in Ex, Ey.
  assert (d_ok (default (S754_zero false) (fst <$> scan_lf s3))) as Hz.
  { destruct (scan_lf s3) as [[z s4]|] eqn:Ez; [|done]. by apply scan_lf_ok in Ez. }
  apply (set_node_safe _ _ (λ nd, str "OK pos " ++ nd_node_id nd ++ str " (" ++
    fix_str 1 (nd_pos_x nd) ++ str "," ++ fix_str 1 (nd_pos_y nd) ++ str "," ++
    fix_str 1 (nd_pos_z nd) ++ str ")" ++ nl)); [done| |].
  - intros np nd [? ? ? ? (?&?&?&?)]. by split.
  - intros np nd Hok. pose proof (node_name_len _ _ Hok).
    destruct (nok_dbl _ _ Hok) as (D1 & D2 & D3 & _).
    pose proof (fix_str_len 1 _ ltac:(lia) D1). pose proof (fix_str_len 1 _ ltac:(lia) D2).
    pose proof (fix_str_len 1 _ ltac:(lia) D3). text_lia.
Qed.

Lemma ctl_set_txpower_safe args h : hub_ok h → csafe (ctl_set_txpower cidx args) h.
Proof using Hcidx.
  intros Hh. unfold ctl_set_txpower.
  destruct (scan_2 _ _ args) as [[ident x]|] eqn:E; [|reply].
  apply scan_2_lf_ok in E. pose proof (fix_str_len 1 x ltac:(lia) E).
  apply (set_node_safe _ _ (λ nd, str "OK txpower " ++ nd_node_id nd ++ str " " ++
    fix_str 1 x ++ str " dBm" ++ nl)); [done| |].
  - intros np nd [? ? ? ? (?&?&?&?)]. by split.
  - intros np nd Hok. pose proof (node_name_len _ _ Hok). text_lia.
Qed.

Lemma ctl_set_sens_safe args h : hub_ok h → csafe (ctl_set_sens cidx args) h.
Proof using Hcidx.
  intros Hh. unfold ctl_set_sens.
  destruct (scan_2 _ _ args) as [[ident x]|] eqn:E; [|reply].
  apply scan_2_lf_ok in E. pose proof (fix_str_len 1 x ltac:(lia) E).
  apply (set_node_safe _ _ (λ nd, str "OK sensitivity " ++ nd_node_id nd ++ str " " ++
    fix_str 1 x ++ str " dBm" ++ nl)); [done| |].
  - intros np nd []. by split.
  - intros np nd Hok. pose proof (node_name_len _ _ Hok). text_lia.
Qed.

Lemma ctl_set_link_safe ident ib f (text : list Z → list Z → list Z) h :
  hub_ok h → (∀ a b, zlen a ≤ 63 → zlen b ≤ 63 → zlen (text a b) ≤ 4095) →
  csafe (ctl_set_link cidx ident ib f text) h.
Proof using Hcidx.
  intros Hh Ht. unfold ctl_set_link.
  safe_step. eapply safe_mono; [by apply resolve_node_safe|]. intros na h' _ [-> Hna].
  safe_step. eapply safe_mono; [by apply resolve_node_safe|]. intros nb h' _ [-> Hnb].
  apply safe_if; intros Hneg; [reply|].
  safe_step. apply node_at_safe; [done|mlia|]. intros a _ Ha.
  safe_step. apply node_at_safe; [done|mlia|]. intros b _ Hb.
  eapply csafe_bind_post; [eapply safe_mono; [by apply find_override_safe|]|].
  { intros o h1 _ [[? _] Ho]. split; [done|exact Ho]. }
  intros o h1 Hh1 _ Ho. apply safe_if; intros ?; [reply|].
  apply csafe_bind; [by apply override_upd_safe; [|mlia]|].
  intros [] h2 Hh2 _. apply ctl_out_safe; [done|done|].
  apply Ht; [by eapply node_name_len|by eapply node_name_len].
Qed.

Lemma ctl_set_rssi_safe args h : hub_ok h → csafe (ctl_set_rssi cidx args) h.
Proof using Hcidx.
  intros Hh. unfold ctl_set_rssi.
  destruct (scan_link _ _) as [[[ident ib] v]|] eqn:E; [|reply].
  apply scan_link_inv in E as (l & r & E%scan_d_range).
  pose proof (dec_str_len v ltac:(lia)).
  apply ctl_set_link_safe; [done|]. intros. text_lia.
Qed.

Lemma ctl_set_loss_safe args h : hub_ok h → csafe (ctl_set_loss cidx args) h.
Proof using Hcidx.
  intros Hh. unfold ctl_set_loss.
  destruct (scan_link _ _) as [[[ident ib] p]|] eqn:E; [|reply].
  apply scan_link_inv in E as (l & r & E%scan_lf_ok).
  pose proof (fix_str_len 2 _ ltac:(lia) (clamp_prob_ok _ E)).
  apply ctl_set_link_safe; [done|]. intros. text_lia.
Qed.

Lemma ctl_clear_link_safe args h : hub_ok h → csafe (ctl_clear_link cidx args) h.
Proof using Hcidx.
  intros Hh. unfold ctl_clear_link.
  destruct (scan_2 _ _ args) as [[ident ib]|]; [|reply].
  safe_step. eapply safe_mono; [by apply resolve_node_safe|]. intros na h' _ [-> Hna].
  safe_step. eapply safe_mono; [by apply resolve_node_safe|]. intros nb h' _ [-> Hnb].
  apply csafe_bind; [|intros [] h1 Hh1 _; reply].
  apply csafe_when; [done|]. intros Hpos.
  safe_step. apply node_at_safe; [done|mlia|]. intros a _ Ha.
  safe_step. apply node_at_safe; [done|mlia|]. intros b _ Hb.
  eapply csafe_bind_post; [eapply safe_mono; [by apply find_override_safe|]|].
  { intros o h1 _ [[? _] Ho]. split; [done|exact Ho]. }
  intros o h1 Hh1 _ Ho. apply csafe_when; [done|]. intros ?.
  apply override_upd_safe; [done|mlia].
Qed.

Lemma ctl_set_pathloss_safe args h : hub_ok h → csafe (ctl_set_pathloss cidx args) h.
Proof using Hcidx.
  intros Hh. unfold ctl_set_pathloss.
  destruct (scan_lf args) as [[x r]|] eqn:E; [|reply]. apply scan_lf_ok in E.
  pose proof (fix_str_len 2 _ ltac:(lia) E). apply csafe_bind.
  - apply safe_modify; [by destruct Hh; split|by apply ctl_rel_same].
  - intros [] h1 Hh1 _. reply.
Qed.

Lemma ctl_stats_safe h : hub_ok h → csafe (ctl_stats cidx) h.
Proof using Hcidx.
  intros Hh. unfold ctl_stats. safe_step. apply safe_get; [done|]. cbv zeta.
  destruct (hok_stats _ Hh) as [S1 S2 S3 S4 S5 S6].
  pose proof (count_if_range nd_active (nodes h)). pose proof (hok_num_nodes _ Hh) as Hn1.
  pose proof (count_if_range cn_active (conns h)). pose proof (hok_num_conns _ Hh) as Hn2.
  pose proof (count_if_range (λ p, (0 <=? p_fd p) && p_is_monitor p) (peers h)).
  pose proof (hok_num_peers _ Hh) as Hn3.
  unfold num_nodes, num_conns, num_peers in *.
  change MAX_NODES with 300 in *. change MAX_CONNS with 512 in *. change MAX_PEERS with 300 in *.
  pose proof (dec_str_len (s64 (e_now (henv h) - stat_start_time h))
    ltac:(unfold s64; Z.to_euclidean_division_equations; lia)).
  pose proof (dec_str_len (count_if nd_active (nodes h)) ltac:(lia)).
  pose proof (dec_str_len (count_if cn_active (conns h)) ltac:(lia)).
  pose proof (dec_str_len (count_if (λ p, (0 <=? p_fd p) && p_is_monitor p) (peers h)) ltac:(lia)).
  pose proof (dec_str_len _ ltac:(unfold is_u64 in S1; split; [|apply S1]; lia)).
  pose proof (dec_str_len _ ltac:(unfold is_u64 in S2; split; [|apply S2]; lia)).
  pose proof (dec_str_len _ ltac:(unfold is_u64 in S3; split; [|apply S3]; lia)).
  pose proof (dec_str_len _ ltac:(unfold is_u64 in S4; split; [|apply S4]; lia)).
  pose proof (dec_str_len _ ltac:(unfold is_u64 in S5; split; [|apply S5]; lia)).
  pose proof (dec_str_len _ ltac:(unfold is_u64 in S6; split; [|apply S6]; lia)).
  reply.
Qed.

Lemma ctl_save_config_safe args h : hub_ok h → calm h → csafe (ctl_save_config cidx args) h.
Proof using Hcidx.
  intros Hh Hc. unfold ctl_save_config.
  destruct (scan_s 255 args) as [[path r]|] eqn:E; [|reply].
  assert (zlen path ≤ 255) as Hp.
  { unfold scan_s in E. pose proof (take_while_len (λ c, negb (is_space c)) 255 (skip_ws args)).
    destruct (take_while _ _ _) as [[|c a] r']; [done|]. injection E as <- _. done. }
  unfold save_config, c_fopen. destruct Hc as (Hw & Hm & Hf). safe_step. safe_step.
  apply safe_get; [done|].
  assert (∀ h1, hub_ok h1 → csafe (h ← get; emit (EvFile path (config_text h));;
    ctl_out cidx (str "OK saved " ++ path ++ nl)) h1) as Hok.
  { intros h1 Hh1. safe_step. apply safe_get; [done|]. safe_step.
    apply safe_emit; [done|done|]. reply. }
  destruct (e_fopens (henv h)) as [|m l] eqn:Ef.
  - apply safe_ret; [done|]. by apply Hok.
  - apply Forall_cons_1 in Hf as [Hml Hf]. safe_step. apply safe_modify; [auto with vbt|].
    apply safe_ret; [auto with vbt|].
    set (h1 := set_henv (set_e_fopens l (henv h)) h).
    assert (ctl_rel h h1) as Hr by (split; [done|done| |done]; intros _; by split_and!).
    assert (hub_ok h1) as Hh1 by (subst h1; auto with vbt).
    destruct m as [msg|]; cbn in Hml.
    + eapply safe_mono; [reply|]. intros ????. by transitivity h1.
    + eapply safe_mono; [by apply Hok|]. intros ????. by transitivity h1.
Qed.

Lemma ctl_quit_safe h : hub_ok h → csafe (ctl_quit cidx) h.
Proof using Hcidx.
  intros Hh. unfold ctl_quit. apply csafe_bind; [reply|]. intros [] h1 Hh1 _.
  apply ctl_upd_csafe; [done..|]. intros c _ []. by split.
Qed.

(** Every command line is handled without a fault. *)
Lemma ctl_dispatch_safe cmd h : hub_ok h → calm h → csafe (ctl_dispatch cidx cmd) h.
Proof using Hcidx.
  intros Hh Hc. unfold ctl_dispatch.
  apply safe_if; intros _; [by apply ctl_list_peers_safe|].
  apply safe_if; intros _; [by apply ctl_list_conns_safe|].
  apply safe_if; intros _; [by apply ctl_set_pos_safe|].
  apply safe_if; intros _; [by apply ctl_set_txpower_safe|].
  apply safe_if; intros _; [by apply ctl_set_sens_safe|].
  apply safe_if; intros _; [by apply ctl_set_rssi_safe|].
  apply safe_if; intros _; [by apply ctl_set_loss_safe|].
  apply safe_if; intros _; [by apply ctl_clear_link_safe|].
  apply safe_if; intros _; [by apply ctl_set_pathloss_safe|].
  apply safe_if; intros _; [by apply ctl_stats_safe|].
  apply safe_if; intros _; [by apply ctl_save_config_safe|].
  apply safe_if; intros _; [apply ctl_out_safe; [done|done|by vm_compute]|].
  apply safe_if; intros _; [by apply ctl_quit_safe|].
  pose proof (zlen_take_le 40 cmd). reply.
Qed.

Lemma ctl_close_safe h : hub_ok h → csafe (ctl_close cidx) h.
Proof using Hcidx.
  intros Hh. unfold ctl_close. safe_step. apply ctl_at_safe; [done..|]. intros c Hc Hok.
  safe_step. apply safe_emit; [done|done|]. apply ctl_upd_csafe; [done..|]. intros ? _ [].
  by split.
Qed.

(** The input buffer of the client, through a command. *)
Lemma ctl_rel_buf h h' c :
  ctl_rel h h' → at_idx (ctl_clients h) cidx = Some c →
  ∃ c', at_idx (ctl_clients h') cidx = Some c' ∧ ct_buf c' = ct_buf c.
Proof using.
  intros Hr [Hi Hc]%at_idx_Some. pose proof (crl_bufs _ _ Hr) as Hb.
  apply (f_equal (lookup (Z.to_nat cidx))) in Hb. rewrite !list_lookup_fmap, Hc in Hb.
  destruct (ctl_clients h' !! Z.to_nat cidx) as [c'|] eqn:E; [|done].
  exists c'. rewrite at_idx_Some. by injection Hb.
Qed.

Lemma ctl_lines_safe fuel c h :
  hub_ok h → calm h → at_idx (ctl_clients h) cidx = Some c →
  zlen (ct_buf c) ≤ Z.of_nat fuel → hsafe (ctl_lines fuel cidx) h (λ _ h', ctl_keep h h').
Proof using Hcidx.
  revert c h. induction fuel as [|fuel IH]; intros c h Hh Hc Hat Hlen; cbn [ctl_lines];
    safe_step; (apply ctl_at_safe; [done..|]); intros c0 Hc0 Hok;
    (assert (c0 = c) as -> by congruence).
  { destruct (ct_buf c) as [|b l] eqn:E; [by apply safe_skip|].
    rewrite zlen_cons in Hlen. pose proof (zlen_nonneg l). lia. }
  destruct (find_idx _ _) as [k|] eqn:Ek; [|by apply safe_skip].
  apply find_idx_lt in Ek. cbv zeta. safe_step.
  eapply (safe_mono _ _ _ _ (λ _ h', ctl_rel h h')).
  { apply csafe_when; [done|]. intros _. by apply ctl_dispatch_safe. }
  intros [] h1 Hh1 Hr1. destruct (ctl_rel_buf _ _ _ Hr1 Hat) as (c1 & Hc1 & Hb1). safe_step.
  eapply safe_mono; [apply ctl_upd_safe; [done..|]|].
  { intros c' Hc' []. split; [|done]. cbn. unfold zlen in *. rewrite length_drop. lia. }
  intros [] h2 Hh2 ->. set (h2 := set_ctl_clients _ h1).
  assert (at_idx (ctl_clients h2) cidx = Some (set_ct_buf (drop (S k) (ct_buf c1)) c1)) as Hc2
    by (by apply (at_upd_idx_eq cidx (λ c, set_ct_buf (drop (S k) (ct_buf c)) c))).
  assert (ctl_keep h h2) as Hk2.
  { transitivity h1; [by apply ctl_rel_keep|]. by split. }
  safe_step. apply ctl_at_safe; [done..|]. intros c2 Hc2' _.
  apply safe_if; intros _; [by apply safe_skip|].
  eapply safe_mono; [eapply IH; [done|by apply (ckp_calm _ _ Hk2)|exact Hc2|]|].
  - cbn. unfold zlen in *. rewrite length_drop, Hb1. lia.
  - intros [] h3 _ Hk3. by transitivity h2.
Qed.

Lemma ctl_readable_safe r h :
  hub_ok h → calm h → hsafe (ctl_readable cidx r) h (λ _ h', ctl_keep h h').
Proof using Hcidx.
  intros Hh Hc. assert (hsafe (ctl_close cidx) h (λ _ h', ctl_keep h h')) as Hcl.
  { eapply safe_mono; [by apply ctl_close_safe|]. intros. by apply ctl_rel_keep. }
  unfold ctl_readable. safe_step. apply ctl_at_safe; [done..|]. intros c Hat Hok.
  destruct r as [l| |again]; [|done|by destruct again; [apply safe_skip|]].
  cbv zeta. set (l' := take _ l). apply safe_if; intros Hz; [done|]. safe_step.
  pose proof (tok_buf _ Hok) as Hb.
  assert (zlen (ct_buf c) + zlen l' ≤ CTL_BUF_SIZE - 1) as Hfit.
  { subst l'. unfold zlen in *. rewrite length_take. lia. }
  eapply safe_mono; [apply ctl_upd_safe; [done..|]|].
  { intros c' Hc' []. assert (c' = c) as -> by congruence. split; [|done].
    cbn. rewrite zlen_app. lia. }
  intros [] h1 Hh1 ->. set (h1 := set_ctl_clients _ h).
  eapply safe_mono; [eapply ctl_lines_safe; [done|done| |]|].
  - by apply (at_upd_idx_eq cidx (λ c, set_ct_buf (ct_buf c ++ l') c)).
  - cbn. rewrite zlen_app. change CTL_BUF_SIZE with 1024 in *. lia.
  - intros [] h2 _ Hk. transitivity h1; [by split|done].
Qed.

Lemma ctl_flush_safe h : hub_ok h → calm h → csafe (ctl_flush cidx) h.
Proof using Hcidx.
  intros Hh (Hw & Hm & Hf). unfold ctl_flush. safe_step. apply ctl_at_safe; [done..|].
  intros c Hat Hok. apply safe_if; intros _; [by apply safe_skip|].
  safe_step. apply safe_get; [done|]. destruct (e_writes (henv h)) as [|w ws] eqn:E.
  { by apply safe_skip. }
  apply Forall_cons_1 in Hw as [_ Hw]. safe_step. apply safe_modify; [auto with vbt|].
  set (h1 := set_henv _ h). assert (ctl_rel h h1) as Hr.
  { split; [done|done| |done]. intros _. by split_and!. }
  assert (hub_ok h1) as Hh1 by (subst h1; auto with vbt).
  destruct w as [n| | |]; try by apply safe_skip.
  eapply (safe_mono _ _ _ _ (λ _ h', ctl_rel h1 h')); [|intros ????; by transitivity h1].
  apply csafe_when; [done|]. intros _. safe_step. apply safe_emit; [done|done|].
  apply ctl_upd_csafe; [done..|]. intros c' _ []. split; [done|]. cbn.
  unfold zlen in *. rewrite length_drop. lia.
Qed.
End CtlCommands.

Lemma zero_ctl_ok fd : ctl_ok (set_ct_active 1 (set_ct_fd fd zero_ctl)).
Proof. by split. Qed.

Lemma accept_ctl_safe fd h : hub_ok h → hsafe (accept_ctl fd) h (λ _ h', ctl_keep h h').
Proof.
  intros Hh. unfold accept_ctl. apply safe_if; intros _; [by apply safe_skip|].
  safe_step. apply safe_get; [done|]. destruct (find_idx _ _) as [i|] eqn:E.
  - apply find_idx_lt in E.
    eapply safe_mono; [apply ctl_upd_safe; [done| |]|intros [] h1 _ ->; by split].
    + pose proof (hok_num_ctl _ Hh) as Hn. unfold zlen in Hn. lia.
    + intros. apply zero_ctl_ok.
  - by apply safe_emit.
Qed.
