(* ===== verification/HubLoopInv.v ===== *)
(** * The main loop, start-up and shutdown of the hub keep its invariant *)

From Stdlib Require Import ZArith Lia String.
From stdpp Require Import base list numbers option.
From S2P Require Import Prelude Wire Text TextInv HubState HubTables HubModel HubIO HubRoute.
From S2P Require Import HubCtl HubLoop HubIds HubInv HubCtlInv.

(** No receive buffer is full: [read] is never asked for zero bytes, so a zero
    return means end of file. *)
Definition rooms (h : hub) : Prop := Forall (λ p, p_rxused p < RECV_BUF_SIZE) (peers h).

Definition good (h : hub) : Prop := calm h ∧ rooms h.

Lemma rooms_at h i p : rooms h → at_idx (peers h) i = Some p → p_rxused p < RECV_BUF_SIZE.
Proof. intros Hr Hp. exact (at_idx_Forall _ _ _ _ Hr Hp). Qed.

Lemma rooms_intro h : (∀ i p, at_idx (peers h) i = Some p → p_rxused p < RECV_BUF_SIZE) → rooms h.
Proof.
  intros H. apply Forall_lookup_2. intros k p Hk. apply (H (Z.of_nat k)).
  apply at_idx_Some. rewrite Nat2Z.id. split; [lia|done].
Qed.

(** Only the buffer of peer [idx] changed, and it has room. *)
Lemma rooms_others idx h h' : rx_others idx h h' → rx_room idx h' → rooms h → rooms h'.
Proof.
  intros [Hn Hk] Hi Hr. apply rooms_intro. intros j p Hp.
  destruct (decide (j = idx)) as [->|Hj]; [by apply Hi|].
  destruct (at_idx_is_Some (peers h) j) as [q Hq].
  { apply at_idx_lt in Hp. unfold num_peers in Hn. lia. }
  destruct (Hk j q Hj Hq) as (p' & Hp' & [_ _ Hu]). assert (p' = p) as -> by congruence.
  rewrite Hu. by eapply rooms_at.
Qed.

Lemma good_evolves h h' : evolves h h' → good h → good h'.
Proof.
  intros He [Hc Hr]. destruct (evo_kept _ _ He Hc) as [Hc' K]. split; [done|].
  unfold rooms in *. apply Forall_lookup_2. intros k p Hp.
  destruct (Forall2_lookup_r _ _ _ _ _ K Hp) as (q & Hq & Kq).
  rewrite (kept_rxused _ _ Kq). exact (Forall_lookup_1 _ _ _ _ Hr Hq).
Qed.

Lemma good_closes idx h h' : closes idx h h' → good h → good h'.
Proof.
  intros Hcl [Hc Hr]. split; [by eapply closes_calm|].
  eapply (rooms_others idx); [by apply closes_rx_others| |done].
  eapply closes_room; [done|]. intros p Hp. by eapply rooms_at.
Qed.

Lemma good_ctl_keep h h' : ctl_keep h h' → good h → good h'.
Proof. intros [Hp _ Hc] [? ?]. split; [auto|]. unfold rooms. by rewrite Hp. Qed.

Abbreviation gsafe m h := (good h → hsafe m h (λ _ h', good h')).

Lemma gsafe_bind {A B} (m : HUB A) (k : A → HUB B) h :
  gsafe m h → (∀ a h1, hub_ok h1 → gsafe (k a) h1) → gsafe (m ≫= k) h.
Proof.
  intros Hm Hk Hg. safe_step. eapply safe_mono; [by apply Hm|]. intros a h1 Hh1 Hg1.
  by apply Hk.
Qed.

Lemma gsafe_each {A} (l : list A) (f : A → HUB unit) h :
  hub_ok h → (∀ x h1, x ∈ l → hub_ok h1 → gsafe (f x) h1) → gsafe (for_each l f) h.
Proof.
  revert h. induction l as [|x l IH]; intros h Hh Hf; cbn [for_each].
  { intros Hg. by apply safe_skip. }
  apply gsafe_bind; [apply Hf; [by left|done]|]. intros _ h1 Hh1. apply IH; [done|].
  intros y h2 Hy. apply Hf. by right.
Qed.

(** ** Taking and making connections *)

Lemma peer_alloc_good fd b label h :
  hub_ok h → good h → hsafe (peer_alloc fd b label) h (λ i h',
    good h' ∧ idx_ok (num_peers h') i ∧ upstream_states h' = upstream_states h ∧
    upstreams h' = upstreams h).
Proof.
  intros Hh [Hc Hr]. pose proof (zlen_nonneg (nodes h)). pose proof (zlen_nonneg (peers h)).
  unfold peer_alloc. safe_step. apply safe_get; [done|].
  destruct (tab_alloc _ _ _ _) as [[i l]|] eqn:E.
  - destruct (tab_alloc_zlen _ _ _ _ _ _ E) as (H1 & H2 & H3).
    assert (hub_ok (set_peers l h)).
    { apply hub_ok_set_peers; [done|split; [done|apply H2, Hh]|].
      eapply tab_alloc_Forall; [done|apply Hh|by apply new_peer_ok]. }
    safe_step. apply safe_modify; [done|]. apply safe_ret; [done|]. split_and!; [|..|done|done].
    + split; [done|]. by eapply (tab_alloc_Forall _ _ _ (λ p, p_rxused p < RECV_BUF_SIZE)).
    + change (num_peers _) with (zlen l). mlia.
  - safe_step. apply safe_emit; [done|done|]. apply safe_ret; [done|].
    split_and!; [done| |done|done]. unfold num_peers. mlia.
Qed.

Lemma accept_unix_good fd h : hub_ok h → gsafe (accept_unix fd) h.
Proof.
  intros Hh Hg. unfold accept_unix. apply safe_if; intros _; [by apply safe_skip|].
  safe_step. eapply safe_mono; [by apply peer_alloc_good|]. intros i h1 Hh1 [? _].
  by apply safe_skip.
Qed.

Lemma accept_tcp_good fd label h : hub_ok h → gsafe (accept_tcp fd label) h.
Proof.
  intros Hh Hg. unfold accept_tcp. apply safe_if; intros _; [by apply safe_skip|].
  safe_step. eapply safe_mono; [by apply peer_alloc_good|]. intros i h1 Hh1 [? _].
  by apply safe_skip.
Qed.

Lemma upstream_upd_good i f h :
  hub_ok h → 0 ≤ i < zlen (upstreams h) →
  (∀ u, idx_ok (num_peers h) (us_peer_idx u) → idx_ok (num_peers h) (us_peer_idx (f u))) →
  good h → hsafe (upstream_upd i f) h (λ _ h', good h' ∧ upstreams h' = upstreams h).
Proof.
  intros Hh Hi Hf Hg. unfold upstream_upd. safe_step. apply safe_get; [done|].
  destruct (at_idx_is_Some (upstream_states h) i) as [u Hu]; [by rewrite (hok_ups_len _ Hh)|].
  rewrite Hu. apply safe_modify; [|by split].
  apply hub_ok_set_upstream_states; [done| |apply zlen_upd_idx].
  by apply Forall_upd_idx; [apply Hh|].
Qed.

Lemma upstream_one_good now i h :
  hub_ok h → 0 ≤ i < zlen (upstreams h) → good h →
  hsafe (upstream_one now i) h (λ _ h', good h' ∧ upstreams h' = upstreams h).
Proof.
  intros Hh Hi Hg. unfold upstream_one. safe_step. apply safe_get; [done|].
  destruct (at_idx_is_Some (upstream_states h) i) as [u Hu]; [by rewrite (hok_ups_len _ Hh)|].
  rewrite Hu. apply safe_if; intros _; [by apply safe_skip|].
  apply safe_if; intros _; [by apply safe_skip|]. safe_step.
  eapply safe_mono; [by apply upstream_upd_good|]. intros [] h1 Hh1 [Hg1 Hu1].
  unfold upstream_connect, c_connect. safe_step. safe_step. apply safe_get; [done|].
  assert (∀ fd h2, hub_ok h2 → good h2 → upstreams h2 = upstreams h →
    hsafe match fd with
      | None => skip
      | Some fd =>
          h ← get;
          match at_idx (upstreams h) i with
          | None => fail OobRead
          | Some (host, port) =>
              pidx ← peer_alloc fd true
                (snprintf_s 300 (str "upstream:" ++ host ++ str ":" ++ port));
              when (0 <=? pidx) (upstream_upd i (set_us_peer_idx pidx))
          end
      end h2 (λ _ h', good h' ∧ upstreams h' = upstreams h)) as Hk.
  { intros [fd|] h2 Hh2 Hg2 Hu2; [|by apply safe_skip]. safe_step. apply safe_get; [done|].
    destruct (at_idx_is_Some (upstreams h2) i) as [[host port] Hhp]; [by rewrite Hu2|].
    rewrite Hhp. safe_step. eapply safe_mono; [by apply peer_alloc_good|].
    intros pidx h3 Hh3 (Hg3 & Hp3 & _ & Hu3). apply safe_when; [done| |].
    - intros _. eapply safe_mono; [apply upstream_upd_good; [done| |by intros|done]|].
      + by rewrite Hu3, Hu2.
      + intros [] h4 _ [? Hu4]. split; [done|]. by rewrite Hu4, Hu3.
    - intros _. split; [done|]. by rewrite Hu3. }
  destruct (e_connects (henv h1)) as [|r l].
  - apply safe_ret; [done|]. by apply (Hk None).
  - safe_step. apply safe_modify; [auto with vbt|]. apply safe_ret; [auto with vbt|].
    apply Hk; [auto with vbt|by destruct Hg1|done].
Qed.

Lemma upstream_tick_good h : hub_ok h → gsafe upstream_tick h.
Proof.
  intros Hh Hg. unfold upstream_tick. safe_step. apply safe_get; [done|].
  set (now := e_now (henv h)).
  assert (∀ l h1, (∀ i, i ∈ l → 0 ≤ i < zlen (upstreams h)) → hub_ok h1 → good h1 →
    upstreams h1 = upstreams h → hsafe (for_each l (upstream_one now)) h1 (λ _ h', good h')) as Hl.
  { induction l as [|i l IH]; intros h1 Hl Hh1 Hg1 Hu1; cbn [for_each]; [by apply safe_skip|].
    safe_step. eapply safe_mono; [apply upstream_one_good; [done| |done]|].
    - rewrite Hu1. apply Hl. by left.
    - intros [] h2 Hh2 [Hg2 Hu2]. apply IH; [|done|done|congruence].
      intros j Hj. apply Hl. by right. }
  apply Hl; [|done..]. intros i Hi%elem_of_seqZ. lia.
Qed.

(** ** Serving the rows *)

Definition answer_ok (a : answer) : Prop :=
  match an_in a with Some r => rres_ok r | None => True end.

Lemma serve_peer_good `{Libm} i a h :
  hub_ok h → 0 ≤ i < num_peers h → answer_ok a → good h → next_auto_id h + HELLOS_PER_READ ≤ INT_MAX →
  hsafe (serve_peer i a) h (λ _ h', good h' ∧ num_peers h' = num_peers h ∧
    next_auto_id h' ≤ next_auto_id h + HELLOS_PER_READ).
Proof.
  intros Hh Hi Ha Hg Hid. assert (0 ≤ HELLOS_PER_READ) as H0 by done. unfold serve_peer. apply safe_if; intros _.
  { eapply safe_mono; [apply hsafe_stays; [by apply peer_close_safe|auto with stays]|]. intros [] h1 Hh1 [Hcl ->].
    split_and!; [by eapply good_closes|apply Hcl|lia]. }
  safe_step. eapply (safe_mono _ _ _ _ (λ _ h', evolves h h' ∧ next_auto_id h' = next_auto_id h)).
  { apply hsafe_stays; [|apply stays_when; auto with stays].
    apply safe_when; [done| |done]. intros _. by apply peer_flush_safe. }
  intros [] h1 Hh1 [He1 Hid1]. pose proof (good_evolves _ _ He1 Hg) as Hg1.
  assert (num_peers h1 = num_peers h) as Hn1 by apply He1.
  safe_step. apply peer_at_safe; [done|lia|]. intros p Hp Hok.
  unfold answer_ok in Ha. destruct (an_in a) as [r|]; [|apply safe_skip; [done|]; split_and!; [done..|lia]].
  apply safe_when; [done| |intros _; split_and!; [done..|lia]]. intros Hfd. destruct Hg1 as [Hc1 Hr1].
  eapply safe_mono; [apply (peer_readable_safe i p); try done; [lia|by eapply rooms_at|lia]|].
  intros [] h2 Hh2 (Hc2 & Ho2 & Hr2 & Hid2). split_and!.
  - split; [done|]. by eapply rooms_others.
  - destruct Ho2. lia.
  - lia.
Qed.

Lemma serve_peers_good `{Libm} idxs rows h :
  hub_ok h → (∀ i, i ∈ idxs → 0 ≤ i < num_peers h) → Forall (λ x, answer_ok x.2) rows →
  good h → next_auto_id h + HELLOS_PER_READ * zlen idxs ≤ INT_MAX →
  hsafe (serve_peers idxs rows) h (λ _ h', good h' ∧ next_auto_id h' ≤ next_auto_id h + HELLOS_PER_READ * zlen idxs).
Proof.
  assert (0 ≤ HELLOS_PER_READ) as H0 by done.
  revert rows h. induction idxs as [|i idxs IH]; intros rows h Hh Hi Hrows Hg Hid;
    [apply safe_skip; [done|]; split; [done|]; change (zlen []) with 0; lia|].
  pose proof (zlen_nonneg idxs). rewrite zlen_cons in *.
  destruct rows as [|[fd a] rest]; [apply safe_skip; [done|]; split; [done|nia]|]. cbn [serve_peers].
  assert (∀ j, j ∈ idxs → 0 ≤ j < num_peers h) as Hi' by (intros; apply Hi; by right).
  safe_step. apply peer_at_safe; [done|apply Hi; left|]. intros p Hp Hok.
  apply safe_if; intros _.
  { eapply safe_mono; [apply IH; [done..|nia]|]. intros [] h1 _ [? ?]. split; [done|nia]. }
  safe_step. apply Forall_cons_1 in Hrows as [Ha Hrest].
  eapply (safe_mono _ _ _ _ (λ _ h', good h' ∧ num_peers h' = num_peers h ∧
    next_auto_id h' ≤ next_auto_id h + HELLOS_PER_READ)).
  { apply safe_when; [done| |intros _; split_and!; [done..|lia]]. intros _.
    apply serve_peer_good; [done|apply Hi; left|done..|nia]. }
  intros [] h1 Hh1 (Hg1 & Hn1 & Hid1). eapply safe_mono; [apply IH; [done| |done|done|nia]|].
  { by rewrite Hn1. }
  intros [] h2 _ [? ?]. split; [done|nia].
Qed.

Lemma ctl_finish_good i h :
  hub_ok h → 0 ≤ i < MAX_CTL_CLIENTS → gsafe (ctl_finish i) h.
Proof.
  intros Hh Hi Hg. unfold ctl_finish. safe_step. apply ctl_at_safe; [done..|]. intros c _ _.
  safe_step. eapply (safe_mono _ _ _ _ (λ _ h', ctl_rel h h')).
  { apply csafe_when; [done|]. intros _. apply ctl_flush_safe; [done|done|apply Hg]. }
  intros [] h1 Hh1 Hr1. assert (good h1) as Hg1 by (eapply good_ctl_keep; [by apply ctl_rel_keep|done]).
  safe_step. apply ctl_at_safe; [done..|]. intros c1 _ _.
  apply safe_when; [done| |done]. intros _.
  eapply safe_mono; [by apply ctl_close_safe|]. intros [] h2 _ Hr2.
  eapply good_ctl_keep; [by apply ctl_rel_keep|done].
Qed.

Lemma serve_ctls_good idxs rows reads h :
  hub_ok h → (∀ i, i ∈ idxs → 0 ≤ i < MAX_CTL_CLIENTS) → gsafe (serve_ctls idxs rows reads) h.
Proof.
  revert rows reads h. induction idxs as [|i idxs IH]; intros rows reads h Hh Hi Hg;
    [by apply safe_skip|].
  destruct rows as [|re rest]; [by apply safe_skip|]. cbn [serve_ctls].
  assert (∀ j, j ∈ idxs → 0 ≤ j < MAX_CTL_CLIENTS) as Hi' by (intros; apply Hi; by right).
  assert (0 ≤ i < MAX_CTL_CLIENTS) as Hii by (apply Hi; left).
  safe_step. apply ctl_at_safe; [done..|]. intros c _ _.
  apply safe_if; intros _; [by apply IH|]. destruct re.
  - safe_step. eapply safe_mono; [apply ctl_readable_safe; [done|done|apply Hg]|].
    intros [] h1 Hh1 Hk1. pose proof (good_ctl_keep _ _ Hk1 Hg) as Hg1.
    safe_step. eapply safe_mono; [by apply ctl_finish_good|]. intros [] h2 Hh2 Hg2. by apply IH.
  - safe_step. eapply safe_mono; [by apply ctl_finish_good|]. intros [] h2 Hh2 Hg2. by apply IH.
Qed.

(** ** The iteration *)

(** What the kernel may answer: no hard error on a write, no failed
    allocation, bytes are bytes. *)
Record poll_ok (x : poll_in) : Prop := PollOk {
  pk_env : ∀ h, calm (set_henv (pi_env x) h);
  pk_peers : Forall answer_ok (pi_peers x)
}.

(** The automatic names of one iteration. *)
Definition NAMES_PER_ITER : Z := HELLOS_PER_READ * MAX_PEERS.

Lemma main_iter_good `{Libm} x h :
  hub_ok h → rooms h → poll_ok x → next_auto_id h + NAMES_PER_ITER ≤ INT_MAX →
  hsafe (main_iter x) h (λ _ h', good h' ∧ next_auto_id h' ≤ next_auto_id h + NAMES_PER_ITER).
Proof.
  intros Hh Hr [Henv Hans] Hid. assert (0 ≤ NAMES_PER_ITER) as Hpos by done.
  unfold main_iter. safe_step.
  apply safe_modify; [auto with vbt|]. set (h0 := set_henv _ h).
  assert (hub_ok h0) as Hh0 by (subst h0; auto with vbt).
  assert (good h0) as Hg0 by (split; [apply Henv|done]).
  change (next_auto_id h) with (next_auto_id h0) in *. clearbody h0. clear h Hh Hr.
  safe_step. apply safe_get; [done|]. cbv zeta. set (rows := zip _ _). set (crows := take _ _).
  assert (Forall (λ x, answer_ok x.2) rows) as Hrows.
  { subst rows. apply Forall_lookup_2. intros k [fd a] Hk.
    apply lookup_zip_with_Some in Hk as (u & v & [= -> ->] & _ & Hv). cbn.
    by eapply Forall_lookup_1. }
  set (held := λ (_ : unit) h', good h' ∧ next_auto_id h' = next_auto_id h0).
  safe_step. eapply (safe_mono _ _ _ _ held).
  { apply hsafe_stays; [|stay]. apply safe_when; [done| |done]. intros _. by apply upstream_tick_good. }
  intros [] h1 Hh1 [Hg1 Hid1]. apply safe_when; [done| |intros _; split; [done|lia]]. intros _.
  safe_step. eapply (safe_mono _ _ _ _ held).
  { unfold held. rewrite <- Hid1. apply hsafe_stays; [|stay].
    destruct (pi_unix x); [by apply accept_unix_good|by apply safe_skip]. }
  intros [] h2 Hh2 [Hg2 Hid2]. safe_step. eapply (safe_mono _ _ _ _ held).
  { unfold held. rewrite <- Hid2. apply hsafe_stays; [|stay].
    destruct (pi_tcp x) as [[fd lb]|]; [by apply accept_tcp_good|by apply safe_skip]. }
  intros [] h3 Hh3 [Hg3 Hid3]. safe_step. eapply (safe_mono _ _ _ _ held).
  { unfold held. rewrite <- Hid3. apply hsafe_stays; [|stay]. destruct (pi_ctl x); [|by apply safe_skip].
    eapply safe_mono; [by apply accept_ctl_safe|]. intros [] h4 _ Hk. by eapply good_ctl_keep. }
  intros [] h4 Hh4 [Hg4 Hid4]. safe_step. apply safe_get; [done|]. safe_step.
  pose proof (hok_num_peers _ Hh4) as Hn4. pose proof (zlen_nonneg (peers h4)) as Hn0.
  assert (zlen (seqZ 0 (num_peers h4)) = num_peers h4) as Hz.
  { unfold zlen. rewrite length_seqZ. unfold num_peers, zlen. lia. }
  assert (0 < HELLOS_PER_READ) as Hh by done. unfold NAMES_PER_ITER in *. unfold num_peers in *.
  eapply safe_mono; [apply serve_peers_good; [done| |done|done|rewrite Hz; nia]|].
  { intros i Hi%elem_of_seqZ. unfold num_peers. lia. }
  intros [] h5 Hh5 [Hg5 Hid5]. rewrite Hz in Hid5.
  eapply safe_mono; [apply hsafe_stays; [apply serve_ctls_good; [done| |done]|auto with stays]|].
  { intros i Hi%elem_of_seqZ. lia. }
  intros [] h6 _ [Hg6 ->]. split; [done|nia].
Qed.

Lemma init_hub_ok ups start e : hub_ok (init_hub ups start e).
Proof.
  assert (stats_ok zero_stats) by (by split; cbn; mlia).
  split; try by constructor.
  all: try done.
  - by apply Forall_replicate.
  - unfold init_hub, zlen. cbn [upstream_states upstreams]. by rewrite length_replicate.
  - by apply Forall_replicate.
Qed.

(** The counter of automatic names has room in every iteration of a run: no
    more than [INT_MAX] hellos without a name come, less those that one
    iteration can bring. *)
Fixpoint names_left `{Libm} (xs : list poll_in) (h : hub) : bool :=
  (next_auto_id h + NAMES_PER_ITER <=? INT_MAX) &&
  match xs with
  | [] => true
  | x :: xs => match main_iter x h with Ok (_, h', _) => names_left xs h' | Fault _ => true end
  end.

Lemma main_loop_good `{Libm} xs h :
  hub_ok h → rooms h → Forall poll_ok xs → names_left xs h = true → hsafe (main_loop xs) h (λ _ h', rooms h').
Proof.
  intros Hh Hr Hxs. unfold main_loop. revert h Hh Hr.
  induction Hxs as [|x xs Hx _ IH]; intros h Hh Hr [Hid%Z.leb_le Hn]%andb_true_iff; cbn [for_each];
    [by apply safe_skip|].
  safe_step. pose proof (main_iter_good x h Hh Hr Hx Hid) as Hit. unfold safe, wp in Hit |- *.
  destruct (main_iter x h) as [[[[] h1] o]|]; [|done]. destruct Hit as (Hh1 & Ho & [_ ?] & _).
  split_and!; [done..|]. by apply IH.
Qed.

(** So it has at least for the first hundred thousand iterations. *)
Lemma names_left_first `{Libm} xs h :
  hub_ok h → rooms h → Forall poll_ok xs →
  next_auto_id h + NAMES_PER_ITER * (1 + zlen xs) ≤ INT_MAX → names_left xs h = true.
Proof.
  intros Hh Hr Hxs. assert (0 < NAMES_PER_ITER) as Hpos by done. revert h Hh Hr.
  induction Hxs as [|x xs Hx _ IH]; intros h Hh Hr Hid; cbn [names_left]; apply andb_true_iff.
  { split; [apply Z.leb_le; change (zlen []) with 0 in Hid; lia|done]. }
  rewrite zlen_cons in Hid. pose proof (zlen_nonneg xs). split; [apply Z.leb_le; nia|].
  pose proof (main_iter_good x h Hh Hr Hx ltac:(nia)) as Hit. unfold safe, wp in Hit.
  destruct (main_iter x h) as [[[[] h1] o]|]; [|done]. destruct Hit as (Hh1 & _ & [_ Hr1] & Hid1).
  apply IH; [done..|]. nia.
Qed.

(** ** Start-up and shutdown *)

Lemma load_line_safe line h : hub_ok h → calm h → csafe (load_line line) h.
Proof.
  intros Hh Hc. unfold load_line. destruct (cut_at _ _) as [|c l]; [by apply safe_skip|].
  apply safe_if; intros _; [by apply safe_skip|].
  apply csafe_bind; [by apply ctl_dispatch_safe|]. intros [] h1 Hh1 _.
  apply ctl_upd_csafe; [done..|]. intros ? _ []. by split.
Qed.

Lemma load_config_safe file h :
  hub_ok h → calm h → hsafe (load_config_file file) h (λ _ h', peers h' = peers h).
Proof.
  intros Hh Hc. destruct file as [text|]; [|by apply safe_skip]. unfold load_config_file.
  safe_step. eapply safe_mono; [apply ctl_upd_safe; [done..|]; intros c _ []; by split|].
  intros [] h1 Hh1 ->. safe_step. eapply safe_mono.
  { apply csafe_each; [done|]. intros l h2 _ Hh2 Hr. apply load_line_safe; [done|].
    apply Hr, Hc. }
  intros [] h2 Hh2 Hr. eapply safe_mono; [apply ctl_upd_csafe; [done..|]; intros c _ []; by split|].
  intros [] h3 _ Hr3. rewrite (crl_peers _ _ Hr3). apply Hr.
Qed.

(** A closed slot stays closed. *)
Lemma close_all_safe l h :
  hub_ok h → (∀ i, i ∈ l → 0 ≤ i < num_peers h) →
  hsafe (for_each l peer_close) h (λ _ h', num_peers h' = num_peers h ∧
    ∀ j p, at_idx (peers h') j = Some p →
      (j ∈ l ∨ ∃ q, at_idx (peers h) j = Some q ∧ p_fd q < 0) → p_fd p < 0).
Proof.
  revert h. induction l as [|i l IH]; intros h Hh Hl; cbn [for_each].
  { apply safe_skip; [done|]. split; [done|]. intros j p Hp [Hj|(q & Hq & ?)].
    - by apply not_elem_of_nil in Hj.
    - congruence. }
  safe_step. eapply safe_mono; [apply peer_close_safe; [done|apply Hl; by left]|].
  intros [] h1 Hh1 [[_ Hn] _ Hslot Hother]. eapply safe_mono.
  { apply IH; [done|]. intros k Hk. rewrite Hn. apply Hl. by right. }
  intros [] h2 Hh2 [Hn2 Hall]. split; [congruence|]. intros j p Hp Hj. apply (Hall j p Hp).
  destruct (decide (j ∈ l)) as [|Hnl]; [by left|right].
  destruct (at_idx_is_Some (peers h1) j) as [q Hq].
  { apply at_idx_lt in Hp. unfold num_peers in *. lia. }
  exists q. split; [done|]. destruct (decide (j = i)) as [->|Hne]; [by apply Hslot|].
  rewrite Hother in Hq by done. destruct Hj as [[?|?]%elem_of_cons|(q' & Hq' & ?)]; [done..|congruence].
Qed.

Lemma shutdown_safe h :
  hub_ok h → hsafe shutdown h (λ _ h', Forall (λ p, p_fd p < 0) (peers h')).
Proof.
  intros Hh. unfold shutdown. safe_step. apply safe_get; [done|]. eapply safe_mono.
  { apply close_all_safe; [done|]. intros i Hi%elem_of_seqZ. lia. }
  intros [] h' _ [Hn Hall]. apply Forall_lookup_2. intros j p Hp.
  assert (at_idx (peers h') (Z.of_nat j) = Some p) as Hp'.
  { apply at_idx_Some. rewrite Nat2Z.id. split; [lia|done]. }
  apply (Hall _ _ Hp'). left. apply elem_of_seqZ. apply at_idx_lt in Hp'. unfold num_peers in *. lia.
Qed.

(** The upstreams fit their array, and their names its fields. *)
Lemma add_upstreams_fit us ups :
  zlen ups ≤ MAX_UPSTREAMS → Forall (λ u, zlen u.1 ≤ 255 ∧ zlen u.2 ≤ 15) ups →
  zlen (foldl add_upstream ups us) ≤ MAX_UPSTREAMS ∧
  Forall (λ u, zlen u.1 ≤ 255 ∧ zlen u.2 ≤ 15) (foldl add_upstream ups us).
Proof.
  revert ups. induction us as [|a us IH]; intros ups Hn Hf; [done|]. cbn [foldl]. apply IH.
  - unfold add_upstream. destruct (MAX_UPSTREAMS <=? zlen ups) eqn:E; [done|].
    destruct (strrchr _ _) as [[host port]|]; [|done]. rewrite zlen_app. change (zlen [_]) with 1. lia.
  - unfold add_upstream. destruct (MAX_UPSTREAMS <=? zlen ups); [done|].
    destruct (strrchr _ _) as [[host port]|]; [|done]. apply Forall_app_2; [done|].
    constructor; [|done]. cbn. unfold zlen. rewrite !length_take. lia.
Qed.
