(* ===== verification/HubSpec.v ===== *)
(** * What the hub promises: routing as a function

    The abstract specification of [forward_frame]: for every peer, the frames
    it is to receive, as a pure function of the hub's tables; and the proof
    that the hub's loops, buffers and non-blocking writes implement it.

    A peer's stream is what the kernel has accepted for its descriptor
    followed by its backlog.  [queues h o h' F] says that the step from [h] to
    [h'] with the events [o] extended the stream of every open peer [i] by
    whole frames out of [F i], and by all of them where the backlog has room. *)

From Stdlib Require Import ZArith Lia Floats.SpecFloat.
From stdpp Require Import base list numbers option.
From S2P Require Import Prelude Wire HubState HubTables HubModel HubIO HubRoute HubInv.

Lemma at_idx_neg {A} (l : list A) i : i < 0 → at_idx l i = None.
Proof. intros. unfold at_idx. by rewrite decide_False by lia. Qed.

(** ** Streams *)

Definition written_by (fd : Z) (e : ev) : list Z :=
  match e with EvWrite fd' b => if fd' =? fd then b else [] | _ => [] end.
Definition written (fd : Z) (o : list ev) : list Z := concat (map (written_by fd) o).

Definition backlog (p : peer) : list Z := default [] (p_outbuf p).

Definition extended (p p' : peer) (o : list ev) (F : list (list Z)) : Prop :=
  ∃ fs, sublist fs F ∧ written (p_fd p) o ++ backlog p' = backlog p ++ concat fs ∧
    (zlen (backlog p) + zlen (concat F) ≤ SEND_BUF_SIZE → fs = F).
Definition queued (p p' : peer) (o : list ev) (F : list (list Z)) : Prop :=
  kept p p' ∧ extended p p' o F.

Definition queues (h : hub) (o : list ev) (h' : hub) (F : Z → peer → list (list Z)) : Prop :=
  ∀ i p, at_idx (peers h) i = Some p → 0 ≤ p_fd p →
    ∃ p', at_idx (peers h') i = Some p' ∧ queued p p' o (F i p).

(** The kernel never hands out a descriptor twice. *)
Definition fds_distinct (h : hub) : Prop :=
  ∀ i j p q, at_idx (peers h) i = Some p → at_idx (peers h) j = Some q →
    0 ≤ p_fd p → p_fd p = p_fd q → i = j.

(** The part of the tables the propagation model depends on; [view] adds the
    connection table. *)
Definition static (nd : node) : node :=
  set_nd_addrs [] (set_nd_tx_pdus 0 (set_nd_last_channel 0 (set_nd_last_phy 0
    (set_nd_rx_dropped 0 (set_nd_rx_pdus 0 nd))))).
Record sees (h h' : hub) : Prop := Sees {
  see_nodes : map static (nodes h') = map static (nodes h);
  see_overrides : overrides h' = overrides h;
  see_exponent : g_path_exponent h' = g_path_exponent h
}.
Record view (h h' : hub) : Prop := View {
  vw_sees : sees h h';
  vw_conns : conns h' = conns h
}.
#[export] Instance sees_preorder : PreOrder sees.
Proof. split; [by split|]. intros ??? [] []. split; congruence. Qed.
#[export] Instance view_preorder : PreOrder view.
Proof. split; [by split|]. intros h1 h2 h3 [] []. split; [by transitivity h2|congruence]. Qed.

Lemma written_app fd o1 o2 : written fd (o1 ++ o2) = written fd o1 ++ written fd o2.
Proof. unfold written. by rewrite map_app, concat_app. Qed.

Lemma queued_refl p : queued p p [] [].
Proof. split; [done|]. exists []. split_and!; [done|by rewrite app_nil_r|done]. Qed.

(** The backlog grows by no more than the frames. *)
Lemma queued_backlog p p' o F :
  queued p p' o F → zlen (backlog p') ≤ zlen (backlog p) + zlen (concat F).
Proof.
  intros [_ (fs & Hsub & Heq & _)]. apply (f_equal zlen) in Heq.
  rewrite !zlen_app in Heq. pose proof (zlen_nonneg (written (p_fd p) o)).
  enough (zlen (concat fs) ≤ zlen (concat F)) by lia. clear -Hsub.
  induction Hsub as [|x l k _ IH|x l k _ IH]; cbn [concat]; rewrite ?zlen_app; [lia|lia|].
  pose proof (zlen_nonneg x). lia.
Qed.

Lemma queued_trans p1 p2 p3 o1 o2 F1 F2 :
  queued p1 p2 o1 F1 → queued p2 p3 o2 F2 → queued p1 p3 (o1 ++ o2) (F1 ++ F2).
Proof.
  intros Hq1 Hq2. pose proof (queued_backlog _ _ _ _ Hq1) as Hb.
  destruct Hq1 as [K1 (f1 & S1 & E1 & R1)], Hq2 as [K2 (f2 & S2 & E2 & R2)].
  split; [by transitivity p2|]. exists (f1 ++ f2). split_and!.
  - by apply sublist_app.
  - rewrite (kept_fd _ _ K1) in E2.
    rewrite written_app, concat_app, <- app_assoc, E2, app_assoc, E1. by rewrite <- app_assoc.
  - rewrite concat_app, zlen_app. intros Hr. pose proof (zlen_nonneg (concat F1)).
    pose proof (zlen_nonneg (concat F2)). rewrite R1, R2 by lia. done.
Qed.

Lemma queues_trans h1 h2 h3 o1 o2 F1 F2 :
  queues h1 o1 h2 F1 → queues h2 o2 h3 F2 →
  (∀ i p q, kept p q → F2 i q = F2 i p) →
  queues h1 (o1 ++ o2) h3 (λ i p, F1 i p ++ F2 i p).
Proof.
  intros Q1 Q2 HF i p Hp Hfd. destruct (Q1 i p Hp Hfd) as (p2 & Hp2 & q1).
  pose proof (proj1 q1) as K. destruct (Q2 i p2 Hp2) as (p3 & Hp3 & q2).
  { by rewrite (kept_fd _ _ K). }
  exists p3. split; [done|]. rewrite (HF i p p2 K) in q2. by eapply queued_trans.
Qed.

Lemma fds_distinct_kept h h' :
  Forall2 kept (peers h) (peers h') → fds_distinct h → fds_distinct h'.
Proof.
  intros Hk Hd i j p q Hp Hq Hfd Heq.
  apply at_idx_Some in Hp as [? Hp], Hq as [? Hq].
  destruct (Forall2_lookup_r _ _ _ _ _ Hk Hp) as (p0 & Hp0 & Kp).
  destruct (Forall2_lookup_r _ _ _ _ _ Hk Hq) as (q0 & Hq0 & Kq).
  apply (Hd i j p0 q0); [by apply at_idx_Some..| |].
  - by rewrite <- (kept_fd _ _ Kp).
  - by rewrite <- (kept_fd _ _ Kp), <- (kept_fd _ _ Kq).
Qed.

(** ** Sends *)

Lemma peer_at_ok i p h : at_idx (peers h) i = Some p → peer_at i h = Ok (p, h, []).
Proof. intros E. unfold peer_at. rewrite bind_get. by rewrite E. Qed.
Lemma node_at_ok i nd h : at_idx (nodes h) i = Some nd → node_at i h = Ok (nd, h, []).
Proof. intros E. unfold node_at. rewrite bind_get. by rewrite E. Qed.
Lemma conn_at_ok i c h : at_idx (conns h) i = Some c → conn_at i h = Ok (c, h, []).
Proof. intros E. unfold conn_at. rewrite bind_get. by rewrite E. Qed.
Lemma peer_upd_ok i p f h :
  at_idx (peers h) i = Some p →
  peer_upd i f h = Ok (tt, set_peers (upd_idx i f (peers h)) h, []).
Proof. intros E. unfold peer_upd. rewrite bind_get. by rewrite E. Qed.
Lemma node_upd_ok i nd f h :
  at_idx (nodes h) i = Some nd →
  node_upd i f h = Ok (tt, set_nodes (upd_idx i f (nodes h)) h, []).
Proof. intros E. unfold node_upd. rewrite bind_get. by rewrite E. Qed.
Lemma conn_upd_ok i c f h :
  at_idx (conns h) i = Some c →
  conn_upd i f h = Ok (tt, set_conns (upd_idx i f (conns h)) h, []).
Proof. intros E. unfold conn_upd. rewrite bind_get. by rewrite E. Qed.

(** A program known to run to a result. *)
Lemma wp_ok {S W A} (m : cmd S W A) s a s' o (Q : A → S → list W → Prop) :
  m s = Ok (a, s', o) → Q a s' o → wp m s Q.
Proof. unfold wp. by intros ->. Qed.

Lemma emit_writes_ok fd cs (h : hub) :
  for_each cs (λ c, emit (EvWrite fd c)) h = Ok (tt, h, map (EvWrite fd) cs).
Proof.
  induction cs as [|c cs IH]; cbn [for_each map]; [done|].
  rewrite bind_emit. by rewrite IH.
Qed.

Lemma write_all_ok fd data h :
  ∃ cs todo stop e,
    write_all fd data h = Ok ((todo, stop), set_henv e h, map (EvWrite fd) cs) ∧
    data = concat cs ++ todo ∧ (stop = WDone ↔ todo = []) ∧
    (calm h → calm (set_henv e h) ∧ stop ≠ WHard).
Proof.
  pose proof (write_loop_spec (e_writes (henv h)) data) as Hw.
  unfold write_all. rewrite bind_get.
  destruct (write_loop _ _) as [[[cs todo] ws] stop]. destruct Hw as (Hd & Hs & Hc).
  exists cs, todo, stop, (set_e_writes ws (henv h)). split_and!; [|done..|].
  - rewrite bind_modify. erewrite bind_ok by apply emit_writes_ok.
    cbn. by rewrite app_nil_r.
  - intros (Hw & Hm & Hf). destruct (Hc Hw). by repeat split.
Qed.

Lemma c_malloc_calm h :
  calm h → ∃ e, c_malloc h = Ok (true, set_henv e h, []) ∧ calm (set_henv e h).
Proof.
  intros Hc. unfold c_malloc. rewrite bind_get.
  destruct (e_mallocs (henv h)) as [|b l] eqn:E.
  - exists (henv h). by destruct h.
  - destruct Hc as (Hw & Hm & Hf). rewrite E in Hm. apply Forall_cons_1 in Hm as [-> Hm].
    exists (set_e_mallocs l (henv h)). by repeat split.
Qed.

(** What buffering did to the peer. *)
Definition buffered (idx : Z) (p : peer) (rem : list Z) (h h' : hub) : Prop :=
  view h h' ∧ nodes h' = nodes h ∧
  (∀ j, j ≠ idx → at_idx (peers h') j = at_idx (peers h) j) ∧
  ∃ p', at_idx (peers h') idx = Some p' ∧ kept p p' ∧
    if SEND_BUF_SIZE <? zlen (backlog p) + zlen rem then backlog p' = backlog p
    else backlog p' = backlog p ++ rem.

Lemma buffered_upd idx p f rem h :
  at_idx (peers h) idx = Some p → kept p (f p) →
  (if SEND_BUF_SIZE <? zlen (backlog p) + zlen rem then backlog (f p) = backlog p
   else backlog (f p) = backlog p ++ rem) →
  buffered idx p rem h (set_peers (upd_idx idx f (peers h)) h).
Proof.
  intros Hp Hk Hb. pose proof (at_idx_lt _ _ _ Hp) as Hi. split_and!; [done|done| |].
  - intros j Hj. apply at_upd_idx_ne; [lia|done].
  - exists (f p). split_and!; [|done|done]. by apply at_upd_idx_eq.
Qed.

Lemma peer_store_wp idx p rem h :
  hub_ok h → zlen rem ≤ 4 + VBT_MAX_MSG_SIZE → at_idx (peers h) idx = Some p →
  wp (if SEND_BUF_SIZE <? u32 (p_outused p + zlen rem) then
      peer_upd idx (λ p, set_p_tx_dropped (inc64 (p_tx_dropped p)) p);;
      stat_upd (λ s, set_stat_dropped_backpressure (inc64 (stat_dropped_backpressure s)) s);;
      mret false
    else
      peer_upd idx (λ p, set_p_want_write true
        (set_p_outbuf (Some (default [] (p_outbuf p) ++ rem)) p));;
      mret true) h (λ _ h' o, o = [] ∧ buffered idx p rem h h').
Proof.
  intros Hh Hl Hp. pose proof (at_idx_Forall _ _ _ _ (hok_peers _ Hh) Hp) as Hok.
  assert (u32 (p_outused p + zlen rem) = zlen (backlog p) + zlen rem) as ->.
  { rewrite outused_default. fold (backlog p). apply u32_small.
    pose proof (pok_outused _ _ Hok) as Ho. rewrite outused_default in Ho.
    fold (backlog p) in Ho. pose proof (zlen_nonneg rem). pose proof (zlen_nonneg (backlog p)).
    unfold SEND_BUF_SIZE, VBT_MAX_MSG_SIZE, VBT_HDR_SIZE, VBT_MAX_PDU_SIZE in *. mlia. }
  apply wp_if; intros Hfull.
  - eapply wp_ok; [erewrite bind_ok by (by apply (peer_upd_ok idx p)); done|].
    split; [done|].
    pose proof (buffered_upd idx p (λ p, set_p_tx_dropped (inc64 (p_tx_dropped p)) p) rem h Hp)
      as [Hv Hb]; [by split|by rewrite Hfull|]. split; [|done]. by destruct Hv as [[] ?].
  - eapply wp_ok; [erewrite bind_ok by (by apply (peer_upd_ok idx p)); done|].
    split; [done|]. apply buffered_upd; [done|by split|]. by rewrite Hfull.
Qed.

Lemma buffered_env idx p rem h e h' :
  buffered idx p rem (set_henv e h) h' → buffered idx p rem h h'.
Proof. intros [[[] ?] Hb]. split; [by split|done]. Qed.

Lemma peer_buffer_wp idx p rem h :
  hub_ok h → calm h → zlen rem ≤ 4 + VBT_MAX_MSG_SIZE → at_idx (peers h) idx = Some p →
  wp (peer_buffer idx rem) h (λ _ h' o, o = [] ∧ buffered idx p rem h h').
Proof.
  intros Hh Hc Hl Hp. unfold wp, peer_buffer.
  erewrite bind_silent by by apply peer_at_ok.
  destruct (p_outbuf p) as [b|] eqn:Eb.
  { rewrite bind_ret. cbn [negb]. by apply peer_store_wp. }
  destruct (c_malloc_calm h Hc) as (e & Em & _).
  rewrite bind_assoc. erewrite bind_silent by done. cbn [when].
  rewrite bind_assoc.
  erewrite bind_silent by (by apply (peer_upd_ok idx p)). rewrite bind_ret. cbn [negb].
  set (p2 := set_p_outbuf (Some []) p). set (h2 := set_peers _ _).
  replace (p_outused p) with (p_outused p2) by (subst p2; unfold p_outused; by rewrite Eb).
  assert (at_idx (peers h2) idx = Some p2) as Hp2
    by (by apply (at_upd_idx_eq idx (set_p_outbuf (Some [])) (peers h) p)).
  assert (hub_ok h2) as Hh2.
  { apply hub_ok_set_peers; [auto with vbt| |].
    - rewrite zlen_upd_idx. split; [done|apply Hh].
    - apply Forall_upd_idx; [apply Hh|]. intros. by apply peer_ok_outbuf. }
  apply (wp_mono _ _ _ _ (peer_store_wp idx p2 rem h2 Hh2 Hl Hp2)).
  intros b h' o (-> & Hv & Hnd & Hoth & p' & Hp' & Hk & Hbl). split; [done|].
  split_and!; [by destruct Hv as [[] ?]|done| |].
  - intros j Hj. rewrite Hoth by done. apply at_upd_idx_ne; [|done].
    by apply at_idx_lt in Hp as [? _].
  - exists p'. split_and!; [done|by destruct Hk|].
    replace (backlog p2) with (backlog p) in Hbl by (unfold backlog; by rewrite Eb). done.
Qed.

Lemma written_own fd cs : written fd (map (EvWrite fd) cs) = concat cs.
Proof.
  unfold written. induction cs as [|c cs IH]; cbn; [done|].
  rewrite Z.eqb_refl. f_equal. exact IH.
Qed.

Lemma written_other fd fd' cs : fd ≠ fd' → written fd (map (EvWrite fd') cs) = [].
Proof.
  intros Hf. unfold written. induction cs as [|c cs IH]; cbn; [done|].
  rewrite (proj2 (Z.eqb_neq fd' fd)) by done. exact IH.
Qed.

(** A step that only touches the stream of one peer. *)
Lemma queues_one idx p p' cs data h h' :
  fds_distinct h → at_idx (peers h) idx = Some p → 0 ≤ p_fd p →
  at_idx (peers h') idx = Some p' →
  (∀ j, j ≠ idx → at_idx (peers h') j = at_idx (peers h) j) →
  queued p p' (map (EvWrite (p_fd p)) cs) data →
  queues h (map (EvWrite (p_fd p)) cs) h' (λ i _, if i =? idx then data else []).
Proof.
  intros Hd Hp Hfd Hp' Ho Hq i q Hqi Hqfd. destruct (i =? idx) eqn:Ei.
  - apply Z.eqb_eq in Ei as ->. rewrite Hp in Hqi. injection Hqi as <-. eauto.
  - apply Z.eqb_neq in Ei. exists q. split; [by rewrite Ho|].
    split; [done|]. exists []. split_and!; [done| |done].
    rewrite written_other; [by rewrite app_nil_r|]. intros E. apply Ei. by apply (Hd i idx q p).
Qed.

Lemma queues_none idx data h h' :
  (∀ i, at_idx (peers h') i = at_idx (peers h) i) →
  (∀ p, at_idx (peers h) idx = Some p → p_fd p < 0) →
  queues h [] h' (λ i _, if i =? idx then data else []).
Proof.
  intros Heq Hcl i p Hp Hfd. exists p. split; [by rewrite Heq|].
  destruct (i =? idx) eqn:Ei; [|by apply queued_refl].
  apply Z.eqb_eq in Ei as ->. specialize (Hcl p Hp). lia.
Qed.

(** Sending a frame extends the stream by the whole frame, or, if the backlog
    has no room for it, by nothing. *)
Lemma peer_send_wp idx p data h :
  hub_ok h → calm h → fds_distinct h → zlen data ≤ 4 + VBT_MAX_MSG_SIZE →
  at_idx (peers h) idx = Some p →
  wp (peer_send idx data) h (λ _ h' o, view h h' ∧ nodes h' = nodes h ∧
    queues h o h' (λ i _, if i =? idx then [data] else [])).
Proof.
  intros Hh Hc Hd Hl Hp. unfold wp, peer_send. erewrite bind_silent by by apply peer_at_ok.
  destruct (p_fd p <? 0) eqn:Hfd.
  { split_and!; [done|done|]. apply queues_none; [done|].
    intros q Hq. rewrite Hp in Hq. injection Hq as <-. lia. }
  pose proof (at_idx_Forall _ _ _ _ (hok_peers _ Hh) Hp) as Hok.
  pose proof (pok_outused _ _ Hok) as Ho. rewrite outused_default in Ho |- *.
  fold (backlog p) in *. destruct (zlen (backlog p) =? 0) eqn:Hz.
  - destruct (write_all_ok (p_fd p) data h) as (cs & todo & stop & e & Ew & Hdata & Hst & Hcalm).
    destruct (Hcalm Hc) as [Hce Hhard].
    assert (backlog p = []) as Hnil.
    { apply Z.eqb_eq in Hz. unfold zlen in Hz. destruct (backlog p); [done|simpl in Hz; lia]. }
    erewrite bind_ok by done. cbn [fst snd]. destruct stop; [| |done].
    + rewrite (proj1 Hst eq_refl), app_nil_r in Hdata. cbn. rewrite app_nil_r.
      split_and!; [done|done|]. apply (queues_one _ _ p); [done|done|lia|done|done|].
      split; [done|]. exists [data]. split_and!; [done| |done].
      rewrite written_own, Hnil, Hdata. cbn. by rewrite !app_nil_r.
    + assert (zlen todo ≤ zlen data) as Htl.
      { rewrite Hdata, zlen_app. pose proof (zlen_nonneg (concat cs)). lia. }
      pose proof (peer_buffer_wp idx p todo (set_henv e h) (hub_ok_set_henv _ _ Hh) Hce
        ltac:(lia) Hp) as Hb. unfold wp in Hb.
      destruct (peer_buffer idx todo (set_henv e h)) as [[[b h'] o]|]; [|done].
      destruct Hb as (-> & Hb). apply buffered_env in Hb as (Hv & Hnd & Hoth & p' & Hp' & Hk & Hb).
      rewrite app_nil_r. split_and!; [done|done|].
      apply (queues_one _ _ p'); [done|done|lia|done|done|].
      rewrite Hnil in Hb. change (zlen []) with 0 in Hb.
      rewrite (proj2 (Z.ltb_ge _ _)) in Hb.
      2: { unfold SEND_BUF_SIZE, VBT_MAX_MSG_SIZE, VBT_HDR_SIZE, VBT_MAX_PDU_SIZE in *. lia. }
      split; [done|]. exists [data]. split_and!; [done| |done].
      rewrite written_own, Hnil, Hb, Hdata. cbn. by rewrite app_nil_r.
  - pose proof (peer_buffer_wp idx p data h Hh Hc Hl Hp) as Hb. unfold wp in Hb.
    destruct (peer_buffer idx data h) as [[[b h'] o]|]; [|done].
    destruct Hb as (-> & Hv & Hnd & Hoth & p' & Hp' & Hk & Hb).
    split_and!; [done|done|]. change (@nil ev) with (map (EvWrite (p_fd p)) []).
    apply (queues_one _ _ p'); [done|done|lia|done|done|]. split; [done|].
    destruct (SEND_BUF_SIZE <? _) eqn:Hfull.
    + exists []. split_and!.
      * apply sublist_nil_l.
      * cbn. by rewrite Hb, app_nil_r.
      * cbn. rewrite app_nil_r. lia.
    + exists [data]. split_and!; [done| |done]. cbn. by rewrite Hb, app_nil_r.
Qed.

(** ** The routing function *)

Section Spec.
Context `{LM : Libm}.

(** [propagate] where no override draws a random number. *)
Definition prop_spec (h : hub) (tx : option node) (rx : node) (txp r : Z) : bool * Z :=
  let dflt := if r =? 0 then VBT_DEFAULT_RSSI else r in
  match tx with
  | None => (true, dflt)
  | Some tx =>
      if nd_physical tx || nd_physical rx then (true, r)
      else
        let geo :=
          if negb (nd_pos_set tx) || negb (nd_pos_set rx) then (true, dflt)
          else geometric (g_path_exponent h) tx rx txp in
        match at_idx (overrides h)
                (idx_of (find_idx (link_match (nd_node_id tx) (nd_node_id rx)) (overrides h))) with
        | Some o =>
            if o_rssi_set o then
              (negb (o_rssi_dbm o <? d_toint (nd_rx_sens_dbm rx)), o_rssi_dbm o)
            else geo
        | None => geo
        end
  end.

(** The RSSI with which node [rxn] hears node [src_node], if it does. *)
Definition heard (h : hub) (hdr : vbt_frame_hdr) (src_node rxn : Z) : option Z :=
  rx ← at_idx (nodes h) rxn;
  let r := prop_spec h (at_idx (nodes h) src_node) rx (tx_power_dbm hdr) (rssi hdr) in
  if r.1 then Some r.2 else None.

(** The frame as a receiver gets it. *)
Definition image (hdr : vbt_frame_hdr) (pdu : list Z) (r : Z) : list Z :=
  frame_bytes (set_rssi (s8 r) hdr) pdu.

Context (src : Z) (hdr : vbt_frame_hdr) (pdu : list Z).

Definition tap_frames (i : Z) (p : peer) : list (list Z) :=
  if negb (i =? src) && (0 <=? p_fd p) && p_is_monitor p then [image hdr pdu (rssi hdr)] else [].

Definition bridge_frames (i : Z) (p : peer) : list (list Z) :=
  if negb (i =? src) && (0 <=? p_fd p) && p_is_bridge p then [image hdr pdu (rssi hdr)] else [].

Definition heard_frames (h : hub) (src_node rxn : Z) : list (list Z) :=
  match heard h hdr src_node rxn with Some r => [image hdr pdu r] | None => [] end.

(** Advertising: every other bridge, and every other node that hears it. *)
Definition adv_frames (h : hub) (src_node i : Z) (p : peer) : list (list Z) :=
  if (i =? src) || (p_fd p <? 0) then []
  else if p_is_bridge p then [image hdr pdu (rssi hdr)]
  else if p_node_idx p <? 0 then [] else heard_frames h src_node (p_node_idx p).

(** The peer behind the other endpoint of the connection of the frame. *)
Definition opposite (a : Z) (c : conn) : Z := if cn_node_a c =? a then cn_node_b c else cn_node_a c.
Definition conn_route (h : hub) (src_node : Z) : option (Z * Z) :=
  c ← at_idx (conns h) (find_conn (access_addr hdr) (conns h));
  nd ← at_idx (nodes h) (opposite src_node c);
  if nd_active nd && (0 <=? nd_peer_idx nd) then Some (nd_peer_idx nd, opposite src_node c)
  else None.

(** Data: the other endpoint if it hears it, and every other bridge. *)
Definition data_frames (h : hub) (src_node i : Z) (p : peer) : list (list Z) :=
  match conn_route h src_node with
  | Some (dst, rxn) => if i =? dst then heard_frames h src_node rxn else []
  | None => []
  end ++ bridge_frames i p.

End Spec.

(** What peer [i] is to receive of a frame [hdr], [pdu] read from peer [src]. *)
Definition to_peer `{Libm} (h : hub) (src : Z) (hdr : vbt_frame_hdr) (pdu : list Z)
    (i : Z) (p : peer) : list (list Z) :=
  match at_idx (peers h) src with
  | None => []
  | Some sp =>
      match hop (p_is_bridge sp) hdr with
      | None => []
      | Some hdr =>
          tap_frames src hdr pdu i p ++
          if ll_type hdr =? VBT_LL_ADV then adv_frames src hdr pdu h (p_node_idx sp) i p
          else if ll_type hdr =? VBT_LL_DATA then data_frames src hdr pdu h (p_node_idx sp) i p
          else []
      end
  end.

(** No override draws random losses. *)
Definition lossless (h : hub) : Prop := Forall (λ o, o_loss_set o = false) (overrides h).

(** ** The hub implements the routing function *)

Definition stable (F : Z → peer → list (list Z)) : Prop :=
  ∀ i p q, kept p q → F i q = F i p.

Definition routes (h : hub) (m : HUB unit) (F : Z → peer → list (list Z)) : Prop :=
  wp m h (λ _ h' o, hub_ok h' ∧ evolves h h' ∧ view h h' ∧ queues h o h' F).

Lemma queues_ext h o h' F G :
  queues h o h' F → (∀ i p, at_idx (peers h) i = Some p → 0 ≤ p_fd p → F i p = G i p) →
  queues h o h' G.
Proof. intros Hq HFG i p Hp Hfd. rewrite <- HFG by done. by apply Hq. Qed.

Lemma routes_ext h m F G :
  routes h m F → (∀ i p, at_idx (peers h) i = Some p → 0 ≤ p_fd p → F i p = G i p) →
  routes h m G.
Proof.
  intros Hm HFG. eapply wp_mono; [exact Hm|]. intros [] h' o (?&?&?&?). split_and!; try done.
  by eapply queues_ext.
Qed.

Lemma queues_same h h' : peers h' = peers h → queues h [] h' (λ _ _, []).
Proof. intros Hp i p Hi Hfd. exists p. split; [by rewrite Hp|apply queued_refl]. Qed.

Lemma routes_skip h : hub_ok h → routes h skip (λ _ _, []).
Proof. intros. apply wp_skip. split_and!; [done..|]. by apply queues_same. Qed.

Lemma routes_bind h m k F G :
  routes h m F →
  (∀ h1, hub_ok h1 → evolves h h1 → view h h1 → routes h1 k G) → stable G →
  routes h (m;; k) (λ i p, F i p ++ G i p).
Proof.
  intros Hm Hk HG. apply wp_bind. eapply wp_mono; [exact Hm|].
  intros [] h1 o1 (Hh1 & He1 & Hv1 & Hq1). eapply wp_mono; [by apply Hk|].
  intros [] h2 o2 (Hh2 & He2 & Hv2 & Hq2). split_and!; [done|by transitivity h1..|].
  by eapply queues_trans.
Qed.

(** Facts that hold at the start of a loop and in all its iterations. *)
Record steady (src : Z) (sp : peer) (h : hub) : Prop := Steady {
  st_ok : hub_ok h;
  st_calm : calm h;
  st_fds : fds_distinct h;
  st_src : ∃ sp', at_idx (peers h) src = Some sp' ∧ kept sp sp';
  st_loss : lossless h
}.

Lemma steady_next src sp h h' :
  steady src sp h → hub_ok h' → evolves h h' → overrides h' = overrides h → steady src sp h'.
Proof.
  intros [Hok Hc Hfd (sp' & Hs & Hk) Hl] Hok' He Ho. destruct (evo_kept _ _ He Hc) as [Hc' K].
  split; [done|done|by eapply fds_distinct_kept| |by unfold lossless; rewrite Ho].
  destruct (evolves_at _ _ _ _ He Hc Hs) as (sp2 & ? & ?).
  exists sp2. split; [done|by transitivity sp'].
Qed.

(** A loop whose iteration [j] sends to peer [j] only. *)
Lemma routes_each src sp l (f : Z → HUB unit) B h :
  NoDup l → stable B → steady src sp h →
  (∀ j h1, j ∈ l → steady src sp h1 → evolves h h1 → view h h1 →
     routes h1 (f j) (λ i p, if i =? j then B i p else [])) →
  routes h (for_each l f) (λ i p, if bool_decide (i ∈ l) then B i p else []).
Proof.
  intros Hnd HB. revert h. induction Hnd as [|j l Hj Hnd IH]; intros h Hst Hf; cbn [for_each].
  { apply routes_skip, Hst. }
  eapply routes_ext.
  { eapply routes_bind; [apply (Hf j); [by left|done..]| |].
    - intros h1 Hh1 He1 Hv1. apply IH.
      + eapply steady_next; [done..|]. apply Hv1.
      + intros k h2 Hk Hst2 He2 Hv2. apply Hf; [by right|done|by transitivity h1..].
    - intros i p q Hk. case_bool_decide; [by apply HB|done]. }
  intros i p _ _. cbn beta. destruct (i =? j) eqn:Ei.
  - apply Z.eqb_eq in Ei as ->. rewrite (bool_decide_false (j ∈ l)) by done.
    rewrite (bool_decide_true (j ∈ j :: l)) by by left. apply app_nil_r.
  - apply Z.eqb_neq in Ei. cbn. apply f_equal with (f := λ b : bool, if b then B i p else []).
    apply bool_decide_ext. rewrite elem_of_cons. split; [by right|]. by intros [?|?].
Qed.

Lemma routes_peers src sp (f : Z → HUB unit) B h :
  stable B → steady src sp h →
  (∀ j q h1, at_idx (peers h1) j = Some q → steady src sp h1 → view h h1 →
     routes h1 (f j) (λ i p, if i =? j then B i p else [])) →
  routes h (for_peers f) B.
Proof.
  intros HB Hst Hf. unfold for_peers, routes, wp. rewrite bind_get.
  apply (routes_ext _ _ (λ i p, if bool_decide (i ∈ seqZ 0 (num_peers h)) then B i p else [])).
  - eapply routes_each; [apply NoDup_seqZ|done|done|].
    intros j h1 Hj%elem_of_seqZ Hst1 He1 Hv1.
    destruct (at_idx_is_Some (peers h1) j) as [q Hq].
    { destruct He1 as [_ Hn _]. unfold num_peers in Hn, Hj. lia. }
    by eapply Hf.
  - intros i p Hp _. rewrite bool_decide_true; [done|]. apply elem_of_seqZ.
    apply at_idx_lt in Hp. unfold num_peers. lia.
Qed.

Lemma image_wire hdr pdu r n :
  zlen pdu = n → be32 (VBT_HDR_SIZE + n) ++ hdr_bytes (set_rssi (s8 r) hdr) ++ pdu =
  image hdr pdu r.
Proof. by intros <-. Qed.

Lemma rx_counter_sees i h :
  sees h (set_nodes (upd_idx i (λ nd, set_nd_rx_pdus (inc64 (nd_rx_pdus nd)) nd) (nodes h)) h).
Proof.
  split; [|done..]. cbn. unfold upd_idx. apply list_eq. intros k.
  rewrite !list_lookup_fmap. destruct (decide (k = Z.to_nat i)) as [->|Hk].
  - rewrite list_lookup_alter_eq. by destruct (nodes h !! Z.to_nat i).
  - by rewrite list_lookup_alter_ne.
Qed.

(** Two facts about one run. *)
Lemma wp_both {S W A} (m : cmd S W A) s (I : S → Prop) (O : W → Prop) P
    (Q : A → S → list W → Prop) :
  safe I O m s P → wp m s Q → wp m s (λ a s' o, I s' ∧ P a s' ∧ Q a s' o).
Proof.
  unfold safe, wp. destruct (m s) as [[[a s'] o]|]; [|done]. by intros (?&?&?) ?.
Qed.

Section Implements.
Context `{LM : Libm}.
Context (src : Z) (sp : peer) (hdr : vbt_frame_hdr) (n : Z).
Context (Hhdr : hdr_ok hdr) (Hn : msg_len_ok n) (Hsp : zlen (p_rxbuf sp) = RECV_BUF_SIZE).
Let pdu := slice (4 + VBT_HDR_SIZE) n (p_rxbuf sp).
Implicit Types (h : hub).

Lemma pdu_len_n : zlen pdu = n.
Proof using Hn Hsp.
  destruct Hn. unfold RECV_BUF_SIZE, VBT_RXBUF_SIZE, VBT_HDR_SIZE, VBT_MAX_PDU_SIZE in *.
  apply zlen_slice; unfold VBT_HDR_SIZE; lia.
Qed.

Lemma pdu_bytes_ok h : steady src sp h → pdu_bytes src n h = Ok (pdu, h, []).
Proof using Hn Hsp.
  intros [_ _ _ (sp' & Hs & Hk) _]. unfold pdu_bytes.
  erewrite bind_silent by by apply peer_at_ok. rewrite (kept_rxbuf _ _ Hk). destruct Hn.
  unfold RECV_BUF_SIZE, VBT_RXBUF_SIZE, VBT_HDR_SIZE, VBT_MAX_PDU_SIZE in *.
  apply rdn_ok; unfold VBT_HDR_SIZE; lia.
Qed.

Lemma deliver_wp dst q r h :
  steady src sp h → at_idx (peers h) dst = Some q →
  wp (deliver_to_peer dst hdr src n r) h (λ _ h' o, view h h' ∧
    queues h o h' (λ i _, if i =? dst then [image hdr pdu r] else [])).
Proof using Hhdr Hn Hsp.
  intros Hst Hq. pose proof pdu_len_n as Hlen.
  unfold deliver_to_peer, wp. erewrite bind_silent by by apply pdu_bytes_ok.
  assert (zlen (image hdr pdu r) ≤ 4 + VBT_MAX_MSG_SIZE) as Hwl.
  { rewrite <- (image_wire _ _ _ n) by done. rewrite frame_wire_len; [|apply set_rssi_ok|]; try done.
    - destruct Hn. unfold VBT_MAX_MSG_SIZE, VBT_HDR_SIZE. lia.
    - apply s8_range. }
  rewrite (image_wire hdr pdu r n) by done. rewrite bind_local_buf by done.
  change (wp (sent ← peer_send dst (image hdr pdu r);
     when sent (p ← peer_at dst; when (0 <=? p_node_idx p)
      (node_upd (p_node_idx p) (λ nd, set_nd_rx_pdus (inc64 (nd_rx_pdus nd)) nd)))) h
    (λ _ h' o, view h h' ∧ queues h o h' (λ i _, if i =? dst then [image hdr pdu r] else []))).
  apply wp_bind.
  assert (bytes_ok (image hdr pdu r)) as Hib.
  { destruct Hst as [Hok _ _ (sp' & Hs & Hk) _].
    pose proof (at_idx_Forall _ _ _ _ (hok_peers _ Hok) Hs) as Hpok.
    apply Forall_app_2; [apply be32_ok|]. apply Forall_app_2.
    - apply hdr_bytes_ok, set_rssi_ok; [done|apply s8_range].
    - subst pdu. rewrite <- (kept_rxbuf _ _ Hk). apply Forall_take, Forall_drop.
      apply (pok_rxbuf _ _ Hpok). }
  destruct Hst as [Hok Hc Hfd _ _].
  eapply wp_mono.
  { eapply wp_both; [apply (peer_send_safe dst (image hdr pdu r) h Hok
      (at_idx_lt _ _ _ Hq) Hib Hwl)|]. by apply (peer_send_wp dst q). }
  intros sent h1 o1 (Hh1 & He1 & Hv1 & Hnd1 & Hq1).
  apply wp_when; intros Hsent; [|by rewrite app_nil_r].
  destruct (evolves_at _ _ _ _ He1 Hc Hq) as (q1 & Hq1' & K1).
  apply wp_bind. eapply wp_ok; [by apply peer_at_ok|]. apply wp_when; intros Hpos.
  2: { rewrite app_nil_r. by split. }
  pose proof (pok_node _ _ (at_idx_Forall _ _ _ _ (hok_peers _ Hh1) Hq1')) as Hni.
  destruct (at_idx_is_Some (nodes h1) (p_node_idx q1)) as [nd Hnd].
  { unfold num_nodes in Hni. mlia. }
  eapply wp_ok; [by apply (node_upd_ok _ nd)|]. rewrite !app_nil_r. split; [|done].
  split; [|apply Hv1]. transitivity h1; [apply Hv1|]. apply rx_counter_sees.
Qed.

Lemma deliver_routes dst q r h :
  steady src sp h → at_idx (peers h) dst = Some q →
  routes h (deliver_to_peer dst hdr src n r) (λ i _, if i =? dst then [image hdr pdu r] else []).
Proof using Hhdr Hn Hsp.
  intros Hst Hq. pose proof (st_src _ _ _ Hst) as (sp' & Hs & _).
  eapply wp_mono; [eapply wp_both; [apply deliver_to_peer_safe; try done|by apply (deliver_wp dst q)]|].
  - apply Hst.
  - by eapply at_idx_lt.
  - by eapply at_idx_lt.
  - intros [] h' o (?&?&?&?). by split_and!.
Qed.
Lemma propagate_ok tx rx txp r h :
  lossless h → propagate tx (Some rx) txp r h = Ok (prop_spec h tx rx txp r, h, []).
Proof using.
  intros Hl. unfold propagate, prop_spec. destruct tx as [tx|]; [|done].
  destruct (_ || _); [done|].
  unfold find_override. rewrite bind_assoc, bind_get.
  set (fo := find_idx _ _).
  erewrite bind_silent; [|by instantiate (2 := idx_of fo); destruct fo].
  rewrite bind_get. destruct (at_idx (overrides h) (idx_of fo)) as [o|] eqn:Eo.
  - unfold loss_draw.
    rewrite (at_idx_Forall _ _ _ _ Hl Eo). cbn [andb]. rewrite bind_assoc, bind_ret.
    destruct (o_rssi_set o); rewrite bind_ret; [done|]. by destruct (_ || _).
  - rewrite bind_ret. by destruct (_ || _).
Qed.

(** The code finds the other endpoint. *)
Lemma other_end_opposite a c : other_end a c = opposite a c.
Proof using.
  unfold other_end, opposite.
  destruct (0 <=? a), (Z.eqb_spec (cn_node_a c) a), (Z.eqb_spec (cn_node_b c) a); cbn; congruence.
Qed.

(** Routing decisions depend on the static part of the nodes only. *)
Lemma at_idx_static l i : at_idx (map static l) i = static <$> at_idx l i.
Proof using. unfold at_idx. case_decide; [|done]. by rewrite list_lookup_fmap. Qed.

Lemma heard_sees h h' a b : sees h h' → heard h' hdr a b = heard h hdr a b.
Proof using.
  intros [Hnodes Ho Hx]. unfold heard.
  assert (∀ i, static <$> at_idx (nodes h') i = static <$> at_idx (nodes h) i) as Hs
    by (intros i; by rewrite <- !at_idx_static, Hnodes).
  pose proof (Hs a) as Ha. pose proof (Hs b) as Hb.
  destruct (at_idx (nodes h') b) as [rx'|], (at_idx (nodes h) b) as [rx|]; try done.
  injection Hb as Hb. cbn [mbind option_bind].
  enough (prop_spec h' (at_idx (nodes h') a) rx' (tx_power_dbm hdr) (rssi hdr) =
          prop_spec h (at_idx (nodes h) a) rx (tx_power_dbm hdr) (rssi hdr)) as -> by done.
  destruct (at_idx (nodes h') a) as [tx'|], (at_idx (nodes h) a) as [tx|]; try done.
  injection Ha as Ha. destruct tx, tx', rx, rx'. cbn in Ha, Hb.
  unfold prop_spec, geometric, link_distance. cbn in *. rewrite Ho, Hx. by simplify_eq.
Qed.
Lemma drop_model_sees i h :
  sees h (set_nodes (upd_idx i (λ nd, set_nd_rx_dropped (inc64 (nd_rx_dropped nd)) nd) (nodes h)) h).
Proof using.
  split; [|done..]. cbn. unfold upd_idx. apply list_eq. intros k.
  rewrite !list_lookup_fmap. destruct (decide (k = Z.to_nat i)) as [->|Hk].
  - rewrite list_lookup_alter_eq. by destruct (nodes h !! Z.to_nat i).
  - by rewrite list_lookup_alter_ne.
Qed.

Lemma tx_node_ok src_node h :
  idx_ok (num_nodes h) src_node →
  tx_node src_node h = Ok (at_idx (nodes h) src_node, h, []).
Proof using.
  intros Hi. unfold tx_node. destruct (0 <=? src_node) eqn:E.
  - destruct (at_idx_is_Some (nodes h) src_node) as [nd Hnd]; [unfold num_nodes in Hi; mlia|].
    erewrite bind_silent by by apply node_at_ok. by rewrite Hnd.
  - unfold at_idx. by rewrite decide_False by lia.
Qed.

Lemma deliver_to_node_routes src_node dst rxn q h :
  steady src sp h → idx_ok (num_nodes h) src_node → at_idx (peers h) dst = Some q →
  0 ≤ rxn < num_nodes h →
  routes h (deliver_to_node src hdr n src_node dst rxn)
    (λ i _, if i =? dst then heard_frames hdr pdu h src_node rxn else []).
Proof using Hhdr Hn Hsp.
  intros Hst Hsn Hq Hr. destruct (at_idx_is_Some (nodes h) rxn Hr) as [rx Hrx].
  unfold routes, deliver_to_node, wp.
  erewrite bind_silent by by apply tx_node_ok.
  erewrite bind_silent by by apply node_at_ok.
  erewrite bind_silent by by apply propagate_ok, (st_loss _ _ _ Hst).
  unfold heard_frames, heard. rewrite Hrx. cbn [mbind option_bind].
  destruct (prop_spec _ _ _ _ _) as [[] r]; cbn [fst snd negb].
  - by apply (deliver_routes dst q).
  - unfold drop_model. erewrite bind_silent by by apply (node_upd_ok _ rx). cbn.
    pose proof (st_ok _ _ _ Hst) as Hok. split_and!.
    + apply hub_ok_set_stats; [apply hub_ok_set_nodes; [done| |]|].
      * rewrite zlen_upd_idx. split; [done|apply Hok].
      * apply Forall_upd_idx; [apply Hok|]. intros. apply node_ok_rx_dropped; auto with vbt.
      * pose proof (hok_stats _ Hok) as Hst'. revert Hst'. generalize (stats h). stats_tac.
    + apply evolves_same; [apply zlen_upd_idx|done..].
    + split; [|done]. by destruct (drop_model_sees rxn h).
    + eapply queues_ext; [by apply queues_same|]. intros i p _ _. by destruct (i =? dst).
Qed.

Lemma guarded_routes j q (b : bool) m B h :
  steady src sp h → at_idx (peers h) j = Some q →
  (b = true → routes h m (λ i p, if i =? j then B i p else [])) →
  (b = false → B j q = []) →
  routes h (when b m) (λ i p, if i =? j then B i p else []).
Proof using.
  intros Hst Hq Ht Hf. destruct b; [by apply Ht|].
  eapply routes_ext; [apply routes_skip, Hst|]. intros i p Hp _.
  destruct (i =? j) eqn:E; [|done]. apply Z.eqb_eq in E as ->.
  rewrite Hq in Hp. injection Hp as <-. by rewrite Hf.
Qed.

(** Two functions that agree on peer [j] at hand. *)
Lemma routes_at j q m (B : Z → peer → list (list Z)) F h :
  at_idx (peers h) j = Some q → F = B j q →
  routes h m (λ i _, if i =? j then F else []) →
  routes h m (λ i p, if i =? j then B i p else []).
Proof using.
  intros Hq -> Hm. eapply routes_ext; [exact Hm|]. intros i p Hp _. cbn beta.
  destruct (i =? j) eqn:E; [|done]. apply Z.eqb_eq in E as ->.
  rewrite Hq in Hp. by injection Hp as <-.
Qed.

Lemma tap_one_routes j q h :
  steady src sp h → at_idx (peers h) j = Some q →
  routes h (tap_one src hdr n j) (λ i p, if i =? j then tap_frames src hdr pdu i p else []).
Proof using Hhdr Hn Hsp.
  intros Hst Hq. unfold routes, tap_one, wp. erewrite bind_silent by by apply peer_at_ok.
  apply (guarded_routes j q _ _ (tap_frames src hdr pdu)); [done..| |].
  - intros Hb. eapply (routes_at j q); [done| |by apply (deliver_routes j q)].
    unfold tap_frames. by rewrite Hb.
  - unfold tap_frames. by intros ->.
Qed.

Lemma bridge_one_routes j q h :
  steady src sp h → at_idx (peers h) j = Some q →
  routes h (bridge_one src hdr n j) (λ i p, if i =? j then bridge_frames src hdr pdu i p else []).
Proof using Hhdr Hn Hsp.
  intros Hst Hq. unfold routes, bridge_one, wp. erewrite bind_silent by by apply peer_at_ok.
  apply (guarded_routes j q _ _ (bridge_frames src hdr pdu)); [done..| |].
  - intros Hb. eapply (routes_at j q); [done| |by apply (deliver_routes j q)].
    unfold bridge_frames. by rewrite Hb.
  - unfold bridge_frames. by intros ->.
Qed.

Lemma adv_one_routes src_node j q h :
  steady src sp h → idx_ok (num_nodes h) src_node → at_idx (peers h) j = Some q →
  routes h (adv_one src hdr n src_node j)
    (λ i p, if i =? j then adv_frames src hdr pdu h src_node i p else []).
Proof using Hhdr Hn Hsp.
  intros Hst Hsn Hq. unfold routes, adv_one, wp. erewrite bind_silent by by apply peer_at_ok.
  assert (∀ m F, F = adv_frames src hdr pdu h src_node j q →
    routes h m (λ i _, if i =? j then F else []) →
    routes h m (λ i p, if i =? j then adv_frames src hdr pdu h src_node i p else [])) as Hat
    by (intros m F HF Hm; by apply (routes_at j q _ (adv_frames src hdr pdu h src_node) F)).
  assert ([] = adv_frames src hdr pdu h src_node j q → routes h skip
    (λ i p, if i =? j then adv_frames src hdr pdu h src_node i p else [])) as Hsk.
  { intros HF. apply (Hat _ []); [done|]. eapply routes_ext; [apply routes_skip, Hst|].
    intros i p _ _. by destruct (i =? j). }
  unfold adv_frames in Hat, Hsk |- *.
  destruct ((j =? src) || (p_fd q <? 0)); [by apply Hsk|].
  destruct (p_is_bridge q) eqn:Hb; cbn [negb andb]; rewrite ?andb_false_r, ?andb_true_r.
  - eapply Hat; [reflexivity|]. by apply (deliver_routes j q).
  - destruct (p_node_idx q <? 0) eqn:Hneg; [by apply Hsk|]. eapply Hat; [reflexivity|].
    apply (deliver_to_node_routes src_node j (p_node_idx q) q); [done..|].
    pose proof (pok_node _ _ (at_idx_Forall _ _ _ _ (hok_peers _ (st_ok _ _ _ Hst)) Hq)). mlia.
Qed.
End Implements.

(** Steps without events that leave peers, operating-system results and the
    static part of the nodes alone. *)
Definition silent (h : hub) (m : HUB unit) : Prop :=
  wp m h (λ _ h' o, o = [] ∧ peers h' = peers h ∧ henv h' = henv h ∧ sees h h').

Lemma observe_silent init pdu n h :
  hub_ok h → idx_ok (num_nodes h) init → bytes_ok pdu → n ≤ zlen pdu →
  silent h (observe_connect_ind init pdu n).
Proof.
  intros Hh Hi Hb Hn. unfold silent, observe_connect_ind, VBT_CONNIND_AA_OFF,
    VBT_CONNIND_INITA_OFF, VBT_CONNIND_ADVA_OFF.
  apply wp_if; intros Hl; [by apply wp_skip|].
  apply wp_bind, wp_rdn; [lia..|]. apply wp_bind, wp_rdn; [lia..|].
  apply wp_bind, wp_rdn; [lia..|]. apply wp_if; intros Haa; [by apply wp_skip|].
  apply wp_bind, wp_get, wp_bind.
  eapply wp_mono.
  { eapply (wp_both _ _ _ _ _ (λ _ h' o, o = [] ∧ peers h' = peers h ∧ henv h' = henv h ∧
      sees h h')); [apply (conn_slot_safe _ _ Hh), le_join4_ok|].
    - by apply Forall_take, Forall_drop.
    - apply zlen_slice; lia.
    - cbv zeta. apply wp_if; intros _; [|by apply wp_ret].
      apply wp_bind. unfold conn_alloc. apply wp_bind, wp_get.
      destruct (tab_alloc _ _ _ _) as [[i l]|].
      + apply wp_bind, wp_modify, wp_ret, wp_bind, wp_when; intros _.
        * apply wp_modify, wp_ret. split_and!; try done; by split.
        * apply wp_ret. split_and!; try done; by split.
      + apply wp_ret, wp_bind, wp_when; intros _; [apply wp_modify|]; apply wp_ret;
          split_and!; try done; by split. }
  intros c h1 o1 (Hh1 & [He Hc] & -> & Hp & Hv & Hs).
  apply wp_if; intros Hneg; [apply wp_skip; by split_and!|].
  apply wp_bind, wp_get. destruct (at_idx_is_Some (conns h1) c) as [k Hk].
  { unfold num_conns in Hc. mlia. }
  eapply wp_ok; [by apply (conn_upd_ok c k)|]. split_and!; try done. by destruct Hs.
Qed.

Lemma note_tx_silent src_node hdr h :
  hub_ok h → idx_ok (num_nodes h) src_node →
  wp (note_tx src_node hdr) h (λ _ h' o, o = [] ∧ peers h' = peers h ∧ henv h' = henv h ∧
    view h h').
Proof.
  intros Hh Hs. unfold note_tx. apply wp_when; intros Hpos; [|done].
  assert (∀ (l : list node) i f, (∀ nd, static (f nd) = static nd) →
    map static (upd_idx i f l) = map static l) as Hupd.
  { intros l i f Hf. unfold upd_idx. apply list_eq. intros k. rewrite !list_lookup_fmap.
    destruct (decide (k = Z.to_nat i)) as [->|?].
    - rewrite list_lookup_alter_eq. destruct (l !! Z.to_nat i) as [nd|]; cbn; [|done].
      by rewrite Hf.
    - by rewrite list_lookup_alter_ne. }
  destruct (at_idx_is_Some (nodes h) src_node) as [nd Hnd]; [unfold num_nodes in *; mlia|].
  apply wp_bind. eapply wp_ok; [by apply (node_upd_ok _ nd)|].
  set (h1 := set_nodes _ h). assert (view h h1) as Hv1.
  { split; [split; [|done..]|done]. by apply Hupd. }
  apply (at_upd_idx_eq src_node (λ nd, set_nd_last_phy (phy hdr)
    (set_nd_last_channel (channel hdr) (set_nd_tx_pdus (inc64 (nd_tx_pdus nd)) nd)))) in Hnd.
  unfold node_add_addr. apply wp_if; intros _; [by apply wp_skip|]. apply wp_bind.
  eapply wp_ok; [by apply node_at_ok|]. apply wp_if; intros _; [by apply wp_skip|].
  apply wp_bind, wp_modify. set (h2 := set_nodes _ h1). assert (view h1 h2) as Hv2.
  { split; [split; [|done..]|done]. cbn. apply list_eq. intros k.
    rewrite !list_lookup_fmap, list_lookup_imap. destruct (upd_idx _ _ _ !! k) as [x|]; [|done].
    cbn. f_equal. case_match; [done|]. unfold forget_addr. by case_match. }
  apply wp_when; intros _; [|split_and!; [done..|by transitivity h1]].
  destruct (at_idx_is_Some (nodes h2) src_node) as [nd2 Hnd2].
  { apply at_idx_lt in Hnd. subst h2. cbn. unfold zlen in *. rewrite length_imap. done. }
  eapply wp_ok; [by apply (node_upd_ok _ nd2)|]. split_and!; [done..|].
  transitivity h1; [done|]. transitivity h2; [done|].
  split; [split; [|done..]|done]. by apply Hupd.
Qed.

Definition lands (h : hub) (m : HUB unit) (F : Z → peer → list (list Z)) : Prop :=
  wp m h (λ _ h' o, hub_ok h' ∧ queues h o h' F).

Lemma lands_bind h m k F G :
  routes h m F → (∀ h1, hub_ok h1 → evolves h h1 → view h h1 → lands h1 k G) → stable G →
  lands h (m;; k) (λ i p, F i p ++ G i p).
Proof.
  intros Hm Hk HG. apply wp_bind. eapply wp_mono; [exact Hm|].
  intros [] h1 o1 (Hh1 & He1 & Hv1 & Hq1). eapply wp_mono; [by apply Hk|].
  intros [] h2 o2 (Hh2 & Hq2). split; [done|]. by eapply queues_trans.
Qed.

(** A first step that sends nothing. *)
Lemma lands_after {A} h (m : HUB A) (P : A → hub → Prop) k G :
  hsafe m h (λ _ _, True) →
  wp m h (λ a h' o, o = [] ∧ peers h' = peers h ∧ P a h') →
  (∀ a h1, hub_ok h1 → peers h1 = peers h → P a h1 → lands h1 (k a) G) →
  lands h (m ≫= k) G.
Proof.
  intros Hs Hm Hk. apply wp_bind. eapply wp_mono; [eapply wp_both; [exact Hs|exact Hm]|].
  intros a h1 o (Hh1 & _ & -> & Hp & HP). eapply wp_mono; [by apply Hk|].
  intros [] h2 o2 [Hh2 Hq]. split; [done|]. intros i p Hpi Hfd.
  apply (Hq i p); [by rewrite Hp|done].
Qed.

Lemma routes_lands h m F : routes h m F → lands h m F.
Proof. intros Hm. eapply wp_mono; [exact Hm|]. by intros [] h' o (?&_&_&?). Qed.

Lemma lands_stat h m F f :
  routes h m F → (∀ s, stats_ok s → stats_ok (f s)) → lands h (m;; stat_upd f) F.
Proof.
  intros Hm Hf. apply wp_bind. eapply wp_mono; [exact Hm|]. intros [] h1 o (Hh1 & _ & _ & Hq).
  apply wp_modify. rewrite app_nil_r. split; [|done].
  apply hub_ok_set_stats; [done|]. apply Hf, Hh1.
Qed.

Section Stable.
Context `{LM : Libm}.
Context (src : Z) (hdr : vbt_frame_hdr) (pdu : list Z).

Lemma tap_stable : stable (tap_frames src hdr pdu).
Proof. intros i p q K. unfold tap_frames. by rewrite (kept_fd _ _ K), (kept_monitor _ _ K). Qed.
Lemma bridge_stable : stable (bridge_frames src hdr pdu).
Proof. intros i p q K. unfold bridge_frames. by rewrite (kept_fd _ _ K), (kept_bridge _ _ K). Qed.
Lemma adv_stable h a : stable (adv_frames src hdr pdu h a).
Proof.
  intros i p q K. unfold adv_frames.
  by rewrite (kept_fd _ _ K), (kept_bridge _ _ K), (kept_node _ _ K).
Qed.
Lemma data_stable h a : stable (data_frames src hdr pdu h a).
Proof. intros i p q Hk. unfold data_frames. f_equal. by apply bridge_stable. Qed.
End Stable.

Section Frames.
Context `{LM : Libm}.
Context (src : Z) (sp : peer) (hdr : vbt_frame_hdr) (n : Z).
Context (Hhdr : hdr_ok hdr) (Hn : msg_len_ok n) (Hsp : zlen (p_rxbuf sp) = RECV_BUF_SIZE).
Let pdu := slice (4 + VBT_HDR_SIZE) n (p_rxbuf sp).
Implicit Types (h : hub).

Lemma adv_frames_sees h h' a i p :
  sees h h' → adv_frames src hdr pdu h' a i p = adv_frames src hdr pdu h a i p.
Proof using. intros Hs. unfold adv_frames, heard_frames. by rewrite (heard_sees hdr h h' _ _ Hs). Qed.

Lemma adv_loop_routes a h :
  steady src sp h → idx_ok (num_nodes h) a →
  routes h (for_peers (adv_one src hdr n a)) (adv_frames src hdr pdu h a).
Proof using Hhdr Hn Hsp.
  intros Hst Ha. apply (routes_peers src sp); [apply adv_stable|done|].
  intros j q h1 Hq Hst1 Hv. eapply routes_ext; [apply (adv_one_routes src sp hdr n Hhdr Hn Hsp a j q); [done| |done]|].
  - assert (num_nodes h1 = num_nodes h) as ->; [|done].
    pose proof (f_equal length (see_nodes _ _ (vw_sees _ _ Hv))) as E.
    rewrite !length_map in E. unfold num_nodes, zlen. congruence.
  - intros i p _ _. cbn beta. case_match; [|done]. apply adv_frames_sees, Hv.
Qed.

Lemma forward_adv_lands a h :
  steady src sp h → idx_ok (num_nodes h) a →
  lands h (forward_adv src hdr n a) (adv_frames src hdr pdu h a).
Proof using Hhdr Hn Hsp.
  intros Hst Ha. unfold forward_adv.
  pose proof (pdu_bytes_ok src sp n Hn Hsp h Hst) as Hpb.
  pose proof (pdu_len_n sp n Hn Hsp) as Hpl. fold pdu in Hpb, Hpl.
  destruct (st_src _ _ _ Hst) as (sp' & Hs & Hk). pose proof (st_ok _ _ _ Hst) as Hok.
  assert (bytes_ok pdu) as Hb.
  { subst pdu. rewrite <- (kept_rxbuf _ _ Hk). apply Forall_take, Forall_drop.
    apply (pok_rxbuf _ _ (at_idx_Forall _ _ _ _ (hok_peers _ Hok) Hs)). }
  assert (silent h (when (2 <=? n) (b ← pdu_bytes src n; b0 ← rd b 0;
    when (Z.land b0 VBT_ADV_PDU_TYPE_MASK =? VBT_CONNECT_IND) (observe_connect_ind a b n)))) as Hsil.
  { apply wp_when; intros H2; [|done]. apply wp_bind. eapply wp_ok; [done|].
    apply wp_bind, wp_rd; [lia|]. intros v Hv. apply wp_when; intros _; [|done].
    by apply observe_silent; [..|lia]. }
  eapply (lands_after _ _ (λ _ h', henv h' = henv h ∧ sees h h')); [|exact Hsil|].
  { apply safe_when; [done| |done]. intros H2. safe_step.
    eapply wp_ok; [done|]. split_and!; [done|by constructor|]. safe_step.
    apply safe_rd; [done|done|lia|]. intros v Hv _. apply safe_when; [done| |done].
    intros _. eapply safe_mono; [by apply observe_connect_ind_safe; [..|lia]|done]. }
  intros [] h1 Hh1 Hp1 [He1 Hs1]. apply lands_stat; [|stats_tac].
  assert (num_nodes h1 = num_nodes h) as Hnn.
  { pose proof (f_equal length (see_nodes _ _ Hs1)) as E. rewrite !length_map in E.
    unfold num_nodes, zlen. congruence. }
  eapply routes_ext; [apply adv_loop_routes|].
  - destruct Hst as [_ Hc Hfd Hsrc Hl]. split; [done| | | |].
    + unfold calm. by rewrite He1.
    + unfold fds_distinct. by rewrite Hp1.
    + by rewrite Hp1.
    + unfold lossless. by rewrite (see_overrides _ _ Hs1).
  - by rewrite Hnn.
  - intros i p _ _. by apply adv_frames_sees.
Qed.

Lemma bridges_routes h :
  steady src sp h → routes h (for_peers (bridge_one src hdr n)) (bridge_frames src hdr pdu).
Proof using Hhdr Hn Hsp.
  intros Hst. apply (routes_peers src sp); [apply bridge_stable|done|].
  intros j q h1 Hq Hst1 Hv. by apply (bridge_one_routes src sp hdr n Hhdr Hn Hsp j q).
Qed.

(** The delivery to the other endpoint. *)
Lemma endpoint_routes a c h :
  steady src sp h → idx_ok (num_nodes h) a → conn_ok (num_nodes h) c →
  routes h (when (0 <=? other_end a c) (
      nd ← node_at (other_end a c);
      when (nd_active nd && (0 <=? nd_peer_idx nd))
        (deliver_to_node src hdr n a (nd_peer_idx nd) (other_end a c))))
    (λ i _, match at_idx (nodes h) (other_end a c) with
            | Some nd => if nd_active nd && (0 <=? nd_peer_idx nd) then
                           if i =? nd_peer_idx nd then heard_frames hdr pdu h a (other_end a c)
                           else []
                         else []
            | None => []
            end).
Proof using Hhdr Hn Hsp.
  intros Hst Ha Hc. pose proof (st_ok _ _ _ Hst) as Hok.
  pose proof (other_end_ok _ a _ Hc) as Ho. destruct (0 <=? other_end a c) eqn:Hpos; cbn [when].
  - destruct (at_idx_is_Some (nodes h) (other_end a c)) as [nd Hnd];
      [unfold num_nodes in Ho; mlia|].
    rewrite Hnd. unfold routes, wp. erewrite bind_silent by by apply node_at_ok.
    destruct (_ && _) eqn:Hon; [|by apply routes_skip].
    pose proof (nok_peer _ _ (at_idx_Forall _ _ _ _ (hok_nodes _ Hok) Hnd)) as Hpi.
    destruct (at_idx_is_Some (peers h) (nd_peer_idx nd)) as [q Hq];
      [unfold num_peers in Hpi; mlia|].
    apply (deliver_to_node_routes src sp hdr n Hhdr Hn Hsp a _ _ q); [done..|].
    by apply at_idx_lt in Hnd.
  - rewrite (at_idx_neg _ (other_end a c)) by lia. by apply routes_skip.
Qed.

Lemma forward_data_lands a h :
  steady src sp h → idx_ok (num_nodes h) a →
  lands h (forward_data src hdr n a) (data_frames src hdr pdu h a).
Proof using Hhdr Hn Hsp.
  intros Hst Ha. pose proof (st_ok _ _ _ Hst) as Hok.
  unfold lands, forward_data, wp. rewrite bind_get. cbv zeta.
  pose proof (find_conn_ok (access_addr hdr) (conns h)) as Hci. set (ci := find_conn _ _) in *.
  unfold data_frames, conn_route. fold ci. destruct (ci <? 0) eqn:Hneg.
  { rewrite (at_idx_neg (conns h)) by lia. cbn [mbind option_bind app].
    by apply routes_lands, bridges_routes. }
  destruct (at_idx_is_Some (conns h) ci) as [c Hc]; [mlia|]. rewrite Hc. cbn [mbind option_bind].
  rewrite <- (other_end_opposite a c).
  erewrite bind_silent by by apply conn_at_ok.
  pose proof (at_idx_Forall _ _ _ _ (hok_conns _ Hok) Hc) as Hcok.
  apply (lands_after _ _ (λ _ h', ∃ l, h' = set_conns l h)).
  { apply conn_upd_safe; [done|by apply at_idx_lt in Hc| |done].
    intros. by apply conn_ok_pdus. }
  { eapply wp_ok; [by apply (conn_upd_ok ci c)|]. split_and!; [done|done|by eexists]. }
  intros [] h1 Hh1 Hp1 [l ->].
  assert (steady src sp (set_conns l h)) as Hst1 by (destruct Hst; by split).
  eapply wp_mono; [apply (lands_bind (set_conns l h)); [by apply endpoint_routes| |]|].
  - intros h2 Hh2 He2 Hv2. apply lands_stat; [|stats_tac]. apply bridges_routes.
    eapply steady_next; [done..|]. apply Hv2.
  - apply bridge_stable.
  - intros [] h2 o (Hh2 & Hq). split; [done|]. eapply queues_ext; [exact Hq|].
    intros i p _ _. cbn beta. f_equal. cbn [nodes set_conns].
    destruct (at_idx (nodes h) (other_end a c)) as [nd|]; [|done]. cbn [mbind option_bind].
    destruct (_ && _); [|done]. case_match; [|done]. unfold heard_frames.
    rewrite (heard_sees hdr h (set_conns l h)); [done|]. by split.
Qed.
End Frames.

Lemma lands_ext h m F G :
  lands h m F → (∀ i p, F i p = G i p) → lands h m G.
Proof.
  intros Hm HFG. eapply wp_mono; [exact Hm|]. intros [] h' o [? Hq]. split; [done|].
  by eapply queues_ext.
Qed.

Lemma data_frames_view `{Libm} src hdr pdu h h' a i p :
  view h h' → data_frames src hdr pdu h' a i p = data_frames src hdr pdu h a i p.
Proof.
  intros [Hs Hc]. unfold data_frames, conn_route. rewrite Hc. f_equal.
  destruct (at_idx (conns h) _) as [c|]; [|done]. cbn [mbind option_bind].
  pose proof (f_equal (λ l, at_idx l (opposite a c)) (see_nodes _ _ Hs)) as E.
  cbn beta in E. rewrite !at_idx_static in E.
  destruct (at_idx (nodes h') _) as [x|], (at_idx (nodes h) _) as [y|]; try done.
  cbn [mbind option_bind]. injection E as E.
  assert (nd_active x = nd_active y ∧ nd_peer_idx x = nd_peer_idx y) as [-> ->]
    by (destruct x, y; cbn in *; by simplify_eq).
  destruct (_ && _); [|done]. unfold heard_frames. by rewrite (heard_sees hdr h h').
Qed.

Lemma forward_frame_lands `{Libm} src sp hdr n h :
  hub_ok h → calm h → fds_distinct h → lossless h → hdr_ok hdr → msg_len_ok n →
  at_idx (peers h) src = Some sp →
  lands h (forward_frame src hdr n)
    (to_peer h src hdr (slice (4 + VBT_HDR_SIZE) n (p_rxbuf sp))).
Proof.
  intros Hok Hc Hfd Hl Hhdr Hn Hsp. unfold lands, forward_frame, wp.
  erewrite bind_silent by by apply peer_at_ok.
  pose proof (at_idx_Forall _ _ _ _ (hok_peers _ Hok) Hsp) as Hpok.
  pose proof (pok_node _ _ Hpok) as Hsn. pose proof (proj2 (pok_rxbuf _ _ Hpok)) as Hbl.
  unfold to_peer. rewrite Hsp. destruct (hop _ _) as [hdr'|] eqn:Hhop.
  2: { by apply routes_lands, routes_skip. }
  pose proof (hop_ok _ _ _ Hhop Hhdr) as Hhdr'. cbv zeta.
  apply (lands_after _ _ (λ _ h', henv h' = henv h ∧ view h h')).
  { eapply safe_mono; [by apply note_tx_safe|done]. }
  { by apply note_tx_silent. }
  intros [] h1 Hh1 Hp1 [He1 Hv1].
  assert (steady src sp h1) as Hst.
  { split; [done|by unfold calm; rewrite He1|by unfold fds_distinct; rewrite Hp1| |].
    - exists sp. by rewrite Hp1.
    - unfold lossless. by rewrite (see_overrides _ _ (vw_sees _ _ Hv1)). }
  assert (num_nodes h1 = num_nodes h) as Hnn.
  { pose proof (f_equal length (see_nodes _ _ (vw_sees _ _ Hv1))) as E.
    rewrite !length_map in E. unfold num_nodes, zlen. congruence. }
  apply lands_bind.
  - apply (routes_peers src sp); [apply tap_stable|done|].
    intros j q h2 Hq Hst2 Hv2. by apply (tap_one_routes src sp hdr' n Hhdr' Hn Hbl j q).
  - intros h2 Hh2 He2 Hv2. assert (view h h2) as Hv by by transitivity h1.
    assert (steady src sp h2) as Hst2 by (eapply steady_next; [done..|apply Hv2]).
    assert (idx_ok (num_nodes h2) (p_node_idx sp)) as Ha by by rewrite (evo_nodes _ _ He2), Hnn.
    destruct (ll_type hdr' =? VBT_LL_ADV).
    { eapply lands_ext; [by apply forward_adv_lands|]. intros. by apply adv_frames_sees, Hv. }
    destruct (ll_type hdr' =? VBT_LL_DATA); [|by apply routes_lands, routes_skip].
    eapply lands_ext; [by apply forward_data_lands|]. intros. by apply data_frames_view.
  - intros i p q K. destruct (ll_type hdr' =? VBT_LL_ADV); [by apply adv_stable|].
    destruct (ll_type hdr' =? VBT_LL_DATA); [by apply data_stable|done].
Qed.
