(* ===== verification/HubStream.v ===== *)
(** * Reassembly of the byte stream (src/vbt_medium.c, [peer_readable])

    What a peer sends is a sequence of payloads, each behind its length in
    network order.  However the kernel splits that stream into reads, the hub
    handles exactly those payloads, each once, whole and in order. *)

From Stdlib Require Import ZArith Lia Floats.SpecFloat.
From stdpp Require Import base list numbers option.
From S2P Require Import Prelude Wire Framing HubState HubTables HubModel HubIO HubRoute HubIds HubInv.
From S2P Require Import HubSpec.

(** The bytes received and not yet handled. *)
Definition rx_bytes (p : peer) : list Z := take (Z.to_nat (p_rxused p)) (p_rxbuf p).

(** ** Hubs that differ in the receive buffer of one peer only *)

Definition scrub_peer (p : peer) : peer :=
  set_p_frames_seen 0 (set_p_rxused 0 (set_p_rxbuf [] p)).
Definition scrub (idx : Z) (h : hub) : hub :=
  set_peers (upd_idx idx scrub_peer (peers h)) h.
Definition rx_eq (idx : Z) (h h' : hub) : Prop := scrub idx h = scrub idx h'.
#[export] Instance rx_eq_equivalence idx : Equivalence (rx_eq idx).
Proof. split; [done|by intros ???|intros ???; unfold rx_eq; congruence]. Qed.

Lemma rx_eq_upd idx f h :
  (∀ p, scrub_peer (f p) = scrub_peer p) →
  rx_eq idx h (set_peers (upd_idx idx f (peers h)) h).
Proof.
  intros Hf. unfold rx_eq, scrub. change (peers (set_peers ?l h)) with l.
  assert (upd_idx idx scrub_peer (upd_idx idx f (peers h)) = upd_idx idx scrub_peer (peers h))
    as E; [|by rewrite E; destruct h].
  unfold upd_idx. apply list_eq. intros i. destruct (decide (i = Z.to_nat idx)) as [->|Hi].
  - rewrite !list_lookup_alter_eq. destruct (_ !! _); cbn; [|done]. by rewrite Hf.
  - by rewrite !list_lookup_alter_ne by done.
Qed.

Lemma rx_eq_env idx h h' : rx_eq idx h h' → henv h' = henv h.
Proof. intros E. by apply (f_equal henv) in E. Qed.

(** ** Handling a sequence of payloads

    The hub handles each payload where it lies in the receive buffer of the
    peer; between payloads only that buffer changes. *)

Inductive serves `{Libm} (idx : Z) : hub → list (list Z) → list ev → hub → Prop :=
  | serves_nil h h' : rx_eq idx h h' → serves idx h [] [] h'
  | serves_cons h h0 p0 payload h1 o1 ps o2 h2 :
      rx_eq idx h h0 → hub_ok h0 → calm h0 →
      at_idx (peers h0) idx = Some p0 → slice 4 (zlen payload) (p_rxbuf p0) = payload →
      rx_message idx payload h0 = Ok (tt, h1, o1) →
      serves idx h1 ps o2 h2 → serves idx h (payload :: ps) (o1 ++ o2) h2.

Section Serves.
Context `{Libm} (idx : Z).

Lemma serves_eq h h' ps o h2 : rx_eq idx h h' → serves idx h' ps o h2 → serves idx h ps o h2.
Proof using.
  intros E Hs. destruct Hs as [h' h2 E2|h' h0 p0 payload h1 o1 ps o2 h2 E2].
  - apply serves_nil. by transitivity h'.
  - eapply (serves_cons _ _ h0 p0); [by transitivity h'|done..].
Qed.

Lemma serves_counts h ps o h' : serves idx h ps o h' → next_auto_id h' = next_auto_id h + anons ps.
Proof using.
  induction 1 as [h h' E|h h0 p0 payload h1 o1 ps o2 h2 E _ _ _ _ Hm _ IH]; cbn [anons].
  - rewrite (f_equal next_auto_id E : next_auto_id h = next_auto_id h'). lia.
  - rewrite IH, (rx_message_counts _ _ _ _ _ Hm), (f_equal next_auto_id E : next_auto_id h = next_auto_id h0). lia.
Qed.

Lemma serves_app h ps o h1 qs o' h2 :
  serves idx h ps o h1 → serves idx h1 qs o' h2 → serves idx h (ps ++ qs) (o ++ o') h2.
Proof using.
  induction 1 as [|h h0 p0 payload h1 o1 ps o2 hn ??????? IH]; intros Hq.
  - by eapply serves_eq.
  - rewrite <- app_assoc. eapply serves_cons; eauto.
Qed.
End Serves.

(** ** One message *)

Lemma zlen_rx_bytes np p : peer_ok np p → zlen (rx_bytes p) = p_rxused p.
Proof.
  intros Hok. destruct (pok_rxbuf _ _ Hok) as [_ Hl]. pose proof (pok_rxused _ _ Hok).
  unfold rx_bytes, zlen in *. rewrite length_take. lia.
Qed.

Lemma rx_consume_run idx total p h :
  hub_ok h → at_idx (peers h) idx = Some p → 0 < total ≤ p_rxused p →
  ∃ h' p', rx_consume idx total h = Ok (tt, h', []) ∧ hub_ok h' ∧ rx_eq idx h h' ∧
    at_idx (peers h') idx = Some p' ∧ rx_bytes p' = drop (Z.to_nat total) (rx_bytes p) ∧
    p_fd p' = p_fd p.
Proof.
  intros Hh Hp Ht. pose proof (at_idx_Forall _ _ _ _ (hok_peers _ Hh) Hp) as Hok.
  destruct (hsafe_run _ _ _ (rx_consume_safe idx total p h Hh Hp Ht))
    as ([] & h' & o & Hrun & Hh' & _ & _). revert Hrun.
  destruct (pok_rxbuf _ _ Hok) as [_ Hl]. pose proof (pok_rxused _ _ Hok) as Hu.
  unfold rx_consume. erewrite bind_silent by by apply peer_at_ok. cbv zeta.
  assert (u32 (p_rxused p - total) = p_rxused p - total) as ->.
  { apply u32_small. unfold RECV_BUF_SIZE, VBT_RXBUF_SIZE, VBT_HDR_SIZE, VBT_MAX_PDU_SIZE in Hu. mlia. }
  destruct (0 <? p_rxused p - total) eqn:Hpos.
  - rewrite bind_rdn by lia. erewrite peer_upd_ok by done. intros [= <- <-].
    eexists _, _. split_and!; [done|done|by apply rx_eq_upd|by apply at_upd_idx_eq| |done].
    unfold rx_bytes. cbn. unfold splice, slice, zlen in *.
    change (Z.to_nat 0) with 0%nat. rewrite take_0. cbn [app].
    rewrite take_app_le by (rewrite length_take, length_drop; lia).
    rewrite take_take, take_drop_commute. do 2 f_equal. lia.
  - erewrite peer_upd_ok by done. intros [= <- <-].
    eexists _, _. split_and!; [done|done|by apply rx_eq_upd|by apply at_upd_idx_eq| |done].
    unfold rx_bytes. cbn. replace (p_rxused p - total) with 0 by lia. cbn.
    symmetry. apply drop_ge. rewrite length_take. lia.
Qed.

Lemma rx_bytes_slice np p off n :
  peer_ok np p → 0 ≤ off → 0 ≤ n → off + n ≤ p_rxused p →
  slice off n (p_rxbuf p) = slice off n (rx_bytes p).
Proof.
  intros Hok ???. destruct (pok_rxbuf _ _ Hok) as [_ Hl]. pose proof (pok_rxused _ _ Hok).
  rewrite <- (take_drop (Z.to_nat (p_rxused p)) (p_rxbuf p)) at 1.
  fold (rx_bytes p). apply slice_app_l; [done..|]. by rewrite (zlen_rx_bytes _ _ Hok).
Qed.

(** The hub takes up the payload at the head of the receive buffer. *)
Lemma rx_one_head `{Libm} idx p payload rest h :
  hub_ok h → at_idx (peers h) idx = Some p → rx_bytes p = wire payload ++ rest →
  ∃ h0 p0, rx_one idx p (zlen payload) h = (rx_message idx payload;; rx_consume idx (4 + zlen payload)) h0 ∧
    rx_eq idx h h0 ∧ hub_ok h0 ∧ at_idx (peers h0) idx = Some p0 ∧ rx_bytes p0 = rx_bytes p ∧
    p_rxused p0 = p_rxused p ∧ p_fd p0 = p_fd p ∧ slice 4 (zlen payload) (p_rxbuf p0) = payload.
Proof.
  intros Hh Hp Hd. pose proof (at_idx_Forall _ _ _ _ (hok_peers _ Hh) Hp) as Hok.
  pose proof (zlen_rx_bytes _ _ Hok) as Hu. rewrite Hd, zlen_app, zlen_wire in Hu.
  pose proof (zlen_nonneg payload). pose proof (zlen_nonneg rest).
  pose proof (pok_rxused _ _ Hok). destruct (pok_rxbuf _ _ Hok) as [_ Hl].
  assert (slice 4 (zlen payload) (p_rxbuf p) = payload) as Hs.
  { rewrite (rx_bytes_slice _ _ _ _ Hok), Hd by lia. apply slice_wire. }
  unfold rx_one. rewrite bind_rdn, Hs by lia.
  set (f := λ p, set_p_frames_seen (inc64 (p_frames_seen p)) p).
  erewrite bind_silent by by apply (peer_upd_ok _ p).
  exists (set_peers (upd_idx idx f (peers h)) h), (f p). split_and!; try done.
  - by apply rx_eq_upd.
  - apply hub_ok_set_peers; [done|rewrite zlen_upd_idx; split; [done|apply Hh]|].
    apply Forall_upd_idx; [apply Hh|]. intros q []. by split.
  - by apply at_upd_idx_eq.
Qed.

(** A payload at the head of the receive buffer is handled and removed. *)
Lemma rx_one_run `{Libm} idx p payload rest h :
  hub_ok h → calm h → at_idx (peers h) idx = Some p → bytes_ok payload →
  rx_bytes p = wire payload ++ rest → next_auto_id h + anon payload ≤ INT_MAX →
  ∃ h' p' o, rx_one idx p (zlen payload) h = Ok (tt, h', o) ∧ hub_ok h' ∧ calm h' ∧
    serves idx h [payload] o h' ∧ at_idx (peers h') idx = Some p' ∧ rx_bytes p' = rest ∧
    p_fd p' = p_fd p.
Proof.
  intros Hh Hc Hp Hb Hd Hid.
  destruct (rx_one_head idx p payload rest h Hh Hp Hd)
    as (h0 & p0 & Eone & E0 & Hh0 & Hp0 & Hd0 & Hu0 & Hfd0 & Hs).
  assert (calm h0) as Hc0 by (unfold calm; by rewrite (rx_eq_env _ _ _ E0)).
  pose proof (f_equal next_auto_id E0 : next_auto_id h = next_auto_id h0) as Ei. rewrite Ei in Hid.
  destruct (hsafe_run _ _ _ (rx_message_safe idx payload h0 Hh0 Hc0 (at_idx_lt _ _ _ Hp0) Hb Hid))
    as ([] & h1 & o1 & Hm & Hh1 & _ & Hc1 & _ & Hr).
  destruct (Hr idx p0 (λ x, x) Hp0) as (p1 & Hp1 & [Hfd1 Hb1 Hu1]).
  assert (rx_bytes p1 = rx_bytes p) as Hd1 by (rewrite <- Hd0; unfold rx_bytes; by rewrite Hb1, Hu1).
  pose proof (zlen_rx_bytes _ _ (at_idx_Forall _ _ _ _ (hok_peers _ Hh0) Hp0)) as Hu.
  rewrite Hd0, Hd, zlen_app, zlen_wire in Hu. pose proof (zlen_nonneg rest). pose proof (zlen_nonneg payload).
  destruct (rx_consume_run idx (4 + zlen payload) p1 h1) as (h2 & p2 & Hrun & Hh2 & He & Hp2 & Hd2 & Hfd2);
    [done|done|rewrite Hu1; lia|].
  exists h2, p2, o1. split_and!; [|done| | |done| |].
  - rewrite Eone. unfold mbind, cmd_bind. rewrite Hm, Hrun. by rewrite app_nil_r.
  - unfold calm. by rewrite (rx_eq_env _ _ _ He).
  - rewrite <- (app_nil_r o1). eapply (serves_cons _ _ h0 p0); try done. by apply serves_nil.
  - rewrite Hd2, Hd1, Hd. apply drop_wire.
  - by rewrite Hfd2, Hfd1.
Qed.

(** An iteration of the loop with a complete payload at the head. *)
Lemma rx_loop_head `{Libm} fuel idx p payload rest h :
  hub_ok h → at_idx (peers h) idx = Some p → payload_ok payload → rx_bytes p = wire payload ++ rest →
  rx_loop (S fuel) idx h = (rx_one idx p (zlen payload);; rx_loop fuel idx) h.
Proof.
  intros Hh Hp [_ Hm] Hd. cbn [rx_loop]. erewrite bind_silent by by apply peer_at_ok.
  pose proof (at_idx_Forall _ _ _ _ (hok_peers _ Hh) Hp) as Hok.
  pose proof (zlen_rx_bytes _ _ Hok) as Hu. destruct (pok_rxbuf _ _ Hok) as [_ Hl].
  pose proof (pok_rxused _ _ Hok). rewrite Hd, zlen_app, zlen_wire in Hu.
  pose proof (zlen_nonneg payload). pose proof (zlen_nonneg rest).
  rewrite if_false by lia. rewrite bind_rdn by lia. cbv zeta.
  assert (of_be32 (slice 0 4 (p_rxbuf p)) = zlen payload) as ->.
  { rewrite (rx_bytes_slice _ _ _ _ Hok), Hd by lia. unfold wire. rewrite <- app_assoc.
    change 4 with (zlen (be32 (zlen payload))). rewrite slice_app_exact. apply of_be32_be32.
    unfold VBT_MAX_MSG_SIZE, VBT_HDR_SIZE, VBT_MAX_PDU_SIZE in Hm. mlia. }
  rewrite if_false by lia. by rewrite if_false by lia.
Qed.

(** The loop handles the complete payloads and leaves the rest. *)
Lemma rx_loop_run `{Libm} idx ps rest fuel p h :
  hub_ok h → calm h → at_idx (peers h) idx = Some p → Forall payload_ok ps → incomplete rest →
  rx_bytes p = concat (map wire ps) ++ rest → (length ps < fuel)%nat →
  next_auto_id h + anons ps ≤ INT_MAX →
  ∃ h' p' o, rx_loop fuel idx h = Ok (tt, h', o) ∧ hub_ok h' ∧ calm h' ∧
    serves idx h ps o h' ∧ at_idx (peers h') idx = Some p' ∧ rx_bytes p' = rest ∧
    p_fd p' = p_fd p.
Proof.
  revert fuel p h. induction ps as [|payload ps IH]; intros fuel p h Hh Hc Hp Hps Hrest Hd Hf Hid;
    (destruct fuel as [|fuel]; [cbn in Hf; lia|]).
  - cbn [rx_loop]. erewrite bind_silent by by apply peer_at_ok.
    pose proof (at_idx_Forall _ _ _ _ (hok_peers _ Hh) Hp) as Hok.
    pose proof (zlen_rx_bytes _ _ Hok) as Hu. destruct (pok_rxbuf _ _ Hok) as [_ Hl].
    pose proof (pok_rxused _ _ Hok).
    assert (∃ h' p' o, skip h = Ok (tt, h', o) ∧ hub_ok h' ∧ calm h' ∧ serves idx h [] o h' ∧
      at_idx (peers h') idx = Some p' ∧ rx_bytes p' = rest ∧ p_fd p' = p_fd p) as Hskip.
    { exists h, p, []. split_and!; [done..|by apply serves_nil|done|done|done]. }
    cbn [map concat app] in Hd. destruct (p_rxused p <? 4) eqn:Hlt; [done|].
    rewrite bind_rdn by lia. cbv zeta.
    rewrite (rx_bytes_slice _ _ _ _ Hok), Hd by lia. change (slice 0 4 rest) with (take 4 rest).
    rewrite Hd in Hu. destruct Hrest as [?|[Hmax Hmore]]; [lia|].
    rewrite if_false by lia. rewrite if_true by lia. done.
  - apply Forall_cons_1 in Hps as [Hpok Hps]. cbn [map concat] in Hd. rewrite <- app_assoc in Hd.
    rewrite (rx_loop_head fuel idx p payload _ h Hh Hp Hpok Hd). destruct Hpok as [Hb _].
    cbn [anons] in Hid. pose proof (anons_nonneg ps).
    destruct (rx_one_run idx p payload _ h Hh Hc Hp Hb Hd ltac:(lia))
      as (h1 & p1 & o1 & Hrun & Hh1 & Hc1 & Hs1 & Hp1 & Hd1 & Hfd1).
    destruct (IH fuel p1 h1 Hh1 Hc1 Hp1 Hps Hrest Hd1)
      as (h2 & p2 & o2 & Hrun2 & Hh2 & Hc2 & Hs2 & Hp2 & Hd2 & Hfd2); [cbn in Hf; lia| |].
    { rewrite (serves_counts _ _ _ _ _ Hs1). cbn [anons]. lia. }
    exists h2, p2, (o1 ++ o2). split_and!; [|done|done| |done|done|congruence].
    + unfold mbind, cmd_bind. by rewrite Hrun, Hrun2.
    + by apply (serves_app _ _ [payload] _ h1).
Qed.

(** ** Reads *)

(** The bytes read join those in the buffer. *)
Lemma peer_fill `{Libm} idx c p h :
  hub_ok h → at_idx (peers h) idx = Some p → c ≠ [] → bytes_ok c →
  zlen c ≤ RECV_BUF_SIZE - p_rxused p →
  ∃ h0 p0, peer_readable idx (RBytes c) h = rx_loop rx_fuel idx h0 ∧ rx_eq idx h h0 ∧ hub_ok h0 ∧
    at_idx (peers h0) idx = Some p0 ∧ rx_bytes p0 = rx_bytes p ++ c ∧ p_fd p0 = p_fd p.
Proof.
  intros Hh Hp Hne Hb Hroom. pose proof (at_idx_Forall _ _ _ _ (hok_peers _ Hh) Hp) as Hok.
  destruct (pok_rxbuf _ _ Hok) as [Hbb Hl].
  pose proof (pok_rxused _ _ Hok). assert (0 < zlen c) as Hpos.
  { unfold zlen. destruct c; [done|]. cbn. lia. }
  unfold peer_readable. erewrite bind_silent by by apply peer_at_ok. cbv zeta.
  rewrite take_ge by (unfold zlen in *; lia). rewrite if_false by lia.
  set (f := λ p, set_p_rxused (u32 (p_rxused p + zlen c))
    (set_p_rxbuf (splice (p_rxused p) c (p_rxbuf p)) p)).
  erewrite bind_silent by by apply (peer_upd_ok _ p).
  assert (u32 (p_rxused p + zlen c) = p_rxused p + zlen c) as Hu32 by (apply u32_below_buf; lia).
  exists (set_peers (upd_idx idx f (peers h)) h), (f p). split_and!; try done.
  - by apply rx_eq_upd.
  - apply hub_ok_set_peers; [done|rewrite zlen_upd_idx; split; [done|apply Hh]|].
    apply Forall_alter; [apply Hh|]. intros q Hq Hqok.
    apply at_idx_Some in Hp as [_ Hp]. rewrite Hp in Hq. injection Hq as <-.
    unfold f. rewrite Hu32. apply peer_ok_rx; [done|by apply bytes_ok_splice| |lia].
    rewrite zlen_splice; lia.
  - by apply at_upd_idx_eq.
  - unfold rx_bytes, f. cbn. rewrite Hu32. unfold splice, rx_bytes, zlen in *.
    rewrite take_app_ge; rewrite length_take; [|lia]. f_equal. rewrite Nat.min_l by lia.
    rewrite take_app_le; [apply take_ge|]; lia.
Qed.

Lemma peer_readable_run `{Libm} idx ps rest c p h :
  hub_ok h → calm h → at_idx (peers h) idx = Some p → Forall payload_ok ps → incomplete rest →
  c ≠ [] → bytes_ok c → zlen c ≤ RECV_BUF_SIZE - p_rxused p →
  rx_bytes p ++ c = concat (map wire ps) ++ rest → next_auto_id h + anons ps ≤ INT_MAX →
  ∃ h' p' o, peer_readable idx (RBytes c) h = Ok (tt, h', o) ∧ hub_ok h' ∧ calm h' ∧
    serves idx h ps o h' ∧ at_idx (peers h') idx = Some p' ∧ rx_bytes p' = rest ∧
    p_fd p' = p_fd p.
Proof.
  intros Hh Hc Hp Hps Hrest Hne Hb Hroom Hd Hid.
  destruct (peer_fill idx c p h Hh Hp Hne Hb Hroom) as (h0 & p0 & Er & E0 & Hh0 & Hp0 & Hd0 & Hf0).
  pose proof (zlen_rx_bytes _ _ (at_idx_Forall _ _ _ _ (hok_peers _ Hh) Hp)) as Hu.
  destruct (rx_loop_run idx ps rest rx_fuel p0 h0)
    as (h' & p' & o & Hrun & Hh' & Hc' & Hs & Hp' & Hd' & Hfd); try done.
  { unfold calm. by rewrite (rx_eq_env _ _ _ E0). }
  { by rewrite Hd0. }
  { pose proof (wires_len ps) as Hw. pose proof (zlen_nonneg rest).
    apply (f_equal zlen) in Hd. rewrite !zlen_app in Hd.
    change rx_fuel with 141%nat. change RECV_BUF_SIZE with 560 in *. lia. }
  { by rewrite <- (f_equal next_auto_id E0 : next_auto_id h = next_auto_id h0). }
  exists h', p', o. rewrite Er. split_and!; try done; [by eapply serves_eq|congruence].
Qed.

(** The kernel's side: [s] is what the peer has sent and the hub has not read;
    each read returns at most [n] bytes, and no more than it asks for.  No
    read is made while nothing is there. *)
Fixpoint recv_all `{Libm} (idx : Z) (ns : list nat) (s : list Z) : HUB (list Z) :=
  match ns, s with
  | n :: ns, _ :: _ =>
      p ← peer_at idx;
      let k := Nat.min n (Z.to_nat (RECV_BUF_SIZE - p_rxused p)) in
      peer_readable idx (RBytes (take k s));;
      recv_all idx ns (drop k s)
  | _, _ => mret s
  end.

(** With nothing left to read, everything has been handled. *)
Lemma recv_done `{Libm} idx ns ps p h :
  hub_ok h → calm h → at_idx (peers h) idx = Some p → Forall payload_ok ps →
  incomplete (rx_bytes p) → rx_bytes p ++ [] = concat (map wire ps) →
  ∃ h' p' o, recv_all idx ns [] h = Ok ([], h', o) ∧ hub_ok h' ∧ calm h' ∧
    serves idx h ps o h' ∧ at_idx (peers h') idx = Some p' ∧ rx_bytes p' = [] ∧
    p_fd p' = p_fd p.
Proof.
  intros Hh Hc Hp Hps Hi Hd. rewrite app_nil_r in Hd.
  assert (ps = []) as -> by (apply incomplete_wires; [done|by rewrite <- Hd]).
  exists h, p, []. split_and!; [by destruct ns|done|done|by apply serves_nil|done|done|done].
Qed.

Lemma recv_all_run `{Libm} idx ns s ps p h :
  hub_ok h → calm h → at_idx (peers h) idx = Some p → Forall payload_ok ps → bytes_ok s →
  incomplete (rx_bytes p) → Forall (λ n, 0 < n)%nat ns → (length s ≤ length ns)%nat →
  rx_bytes p ++ s = concat (map wire ps) → next_auto_id h + anons ps ≤ INT_MAX →
  ∃ h' p' o, recv_all idx ns s h = Ok ([], h', o) ∧ hub_ok h' ∧ calm h' ∧
    serves idx h ps o h' ∧ at_idx (peers h') idx = Some p' ∧ rx_bytes p' = [] ∧
    p_fd p' = p_fd p.
Proof.
  revert s ps p h. induction ns as [|n ns IH]; intros s ps p h Hh Hc Hp Hps Hb Hi Hns Hlen Hd Hid.
  { destruct s; [|cbn in Hlen; lia]. by apply recv_done. }
  destruct (decide (s = [])) as [->|Hne]; [by apply recv_done|].
  apply Forall_cons_1 in Hns as [Hn Hns].
  pose proof (at_idx_Forall _ _ _ _ (hok_peers _ Hh) Hp) as Hok.
  pose proof (incomplete_room _ Hi) as Hroom. change VBT_RXBUF_SIZE with RECV_BUF_SIZE in Hroom.
  rewrite (zlen_rx_bytes _ _ Hok) in Hroom.
  set (k := Nat.min n (Z.to_nat (RECV_BUF_SIZE - p_rxused p))).
  destruct (split_wires ps (rx_bytes p ++ take k s) (drop k s))
    as (ps1 & ps2 & rest & -> & Hd1 & Hd2 & Hi').
  { done. }
  { by rewrite <- app_assoc, take_drop. }
  apply Forall_app in Hps as [Hps1 Hps2]. rewrite anons_app in Hid. pose proof (anons_nonneg ps2).
  destruct (peer_readable_run idx ps1 rest (take k s) p h)
    as (h1 & p1 & o1 & Hrun1 & Hh1 & Hc1 & Hs1 & Hp1 & Hb1 & Hfd1); try done.
  { destruct s; [done|]. destruct k eqn:Ek; [lia|done]. }
  { by apply Forall_take. }
  { unfold zlen. rewrite length_take. lia. }
  { lia. }
  destruct (IH (drop k s) ps2 p1 h1)
    as (h2 & p2 & o2 & Hrun2 & Hh2 & Hc2 & Hs2 & Hp2 & Hb2 & Hfd2); try done.
  { by apply Forall_drop. }
  { by rewrite Hb1. }
  { rewrite length_drop. destruct s; cbn in Hlen |- *; [done|]. lia. }
  { by rewrite Hb1. }
  { rewrite (serves_counts _ _ _ _ _ Hs1). lia. }
  exists h2, p2, (o1 ++ o2). split_and!; [|done|done|by eapply serves_app|done|done|congruence].
  destruct s as [|x s]; [done|]. cbn [recv_all]. erewrite bind_silent by by apply peer_at_ok.
  fold k. unfold mbind, cmd_bind. by rewrite Hrun1, Hrun2.
Qed.

(** ** Frames *)

Section Frame.
Context (hdr : vbt_frame_hdr) (pdu : list Z).
Hypothesis Hhdr : hdr_ok hdr.
Hypothesis Hmagic : magic hdr = VBT_MAGIC.
Hypothesis Hlen : pdu_len hdr = zlen pdu.
Hypothesis Hmax : zlen pdu ≤ VBT_MAX_PDU_SIZE.

Lemma frame_magic : le_join (slice 0 4 (frame_payload hdr pdu)) = VBT_MAGIC.
Proof using Hhdr Hmagic.
  unfold frame_payload. rewrite slice_app_l; [|done..|by rewrite length_hdr_bytes].
  rewrite <- Hmagic. by apply (f_equal magic (hdr_of_bytes_hdr_bytes hdr Hhdr)).
Qed.
Lemma frame_not_anonymous : anon (frame_payload hdr pdu) = 0.
Proof using Hhdr Hmagic. unfold anon, anonymous. rewrite frame_magic. by rewrite andb_false_r. Qed.

(** The PDU lies behind the header wherever the payload lies in the buffer. *)
Lemma payload_pdu buf :
  slice 4 (zlen (frame_payload hdr pdu)) buf = frame_payload hdr pdu →
  slice (4 + VBT_HDR_SIZE) (zlen pdu) buf = pdu.
Proof using Hhdr.
  intros Hsl. pose proof (zlen_nonneg pdu).
  rewrite <- (slice_slice VBT_HDR_SIZE (zlen pdu) 4 (zlen (frame_payload hdr pdu))),
    Hsl by (rewrite ?zlen_frame_payload by done; unfold VBT_HDR_SIZE; lia).
  unfold frame_payload. rewrite <- (length_hdr_bytes _ Hhdr), slice_app_r, Z.sub_diag by done.
  by apply slice_all.
Qed.

(** A frame is not taken for a hello and passes the checks of the hub. *)
Lemma frame_is_forwarded `{Libm} idx h :
  rx_message idx (frame_payload hdr pdu) h = forward_frame idx hdr (zlen pdu) h.
Proof using Hhdr Hmagic Hlen Hmax.
  pose proof (zlen_nonneg pdu). pose proof (zlen_frame_payload hdr pdu Hhdr) as Hl.
  assert (slice 0 VBT_HDR_SIZE (frame_payload hdr pdu) = hdr_bytes hdr) as Hs.
  { rewrite <- (length_hdr_bytes _ Hhdr). apply slice_app_exact. }
  pose proof frame_magic as Hm. unfold rx_message, maybe_hello. cbv zeta. rewrite Hm, Hl.
  rewrite if_false by (unfold VBT_HDR_SIZE; lia). rewrite if_true by done.
  rewrite bind_ret. cbn [when Z.eqb]. unfold frame_of. rewrite Hs, Hl, hdr_of_bytes_hdr_bytes by done.
  rewrite if_true by lia. cbv zeta. replace (VBT_HDR_SIZE + zlen pdu - VBT_HDR_SIZE) with (zlen pdu) by lia.
  rewrite Hmagic, Hlen, !Z.eqb_refl. cbn [andb]. by rewrite if_true by lia.
Qed.
End Frame.

Lemma scrub_at idx h h' i p :
  rx_eq idx h h' → at_idx (peers h) i = Some p →
  ∃ p', at_idx (peers h') i = Some p' ∧ scrub_peer p = scrub_peer p'.
Proof.
  intros E Hp. apply (f_equal peers) in E. cbn in E. apply at_idx_Some in Hp as [Hi Hp].
  pose proof (f_equal (.!! Z.to_nat i) E) as Ei. cbn in Ei. unfold upd_idx in Ei.
  destruct (decide (Z.to_nat i = Z.to_nat idx)) as [Hii|Hii].
  - rewrite Hii in *. rewrite !list_lookup_alter_eq, Hp in Ei. cbn in Ei.
    destruct (peers h' !! Z.to_nat idx) as [p'|] eqn:Hp'; [|done]. apply (inj Some) in Ei.
    exists p'. by rewrite at_idx_Some, Hii.
  - rewrite !list_lookup_alter_ne, Hp in Ei by done. exists p. by rewrite at_idx_Some.
Qed.

Lemma scrub_fields p q :
  scrub_peer p = scrub_peer q →
  p_fd q = p_fd p ∧ p_is_bridge q = p_is_bridge p ∧ p_is_monitor q = p_is_monitor p ∧
  p_node_idx q = p_node_idx p ∧ p_outbuf q = p_outbuf p.
Proof.
  intros E. split_and!; symmetry; [apply (f_equal p_fd E)|apply (f_equal p_is_bridge E)|
    apply (f_equal p_is_monitor E)|apply (f_equal p_node_idx E)|apply (f_equal p_outbuf E)].
Qed.

(** What is handed to the peers does not depend on receive buffers. *)
Lemma to_peer_rx_eq `{Libm} src h h0 hdr pdu i p p0 :
  rx_eq src h h0 → scrub_peer p = scrub_peer p0 →
  to_peer h0 src hdr pdu i p0 = to_peer h src hdr pdu i p.
Proof.
  intros E Ep. unfold to_peer.
  assert (nodes h0 = nodes h ∧ conns h0 = conns h ∧ overrides h0 = overrides h ∧
    g_path_exponent h0 = g_path_exponent h) as (En & Ec & Eo & Ex).
  { split_and!; symmetry; [apply (f_equal nodes E)|apply (f_equal conns E)|
      apply (f_equal overrides E)|apply (f_equal g_path_exponent E)]. }
  assert (∀ a b hdr, heard h0 hdr a b = heard h hdr a b) as Hheard.
  { intros. unfold heard, prop_spec. by rewrite En, Eo, Ex. }
  destruct (scrub_fields _ _ Ep) as (Efd & Ebr & Emo & Eno & _).
  assert (match at_idx (peers h0) src, at_idx (peers h) src with
          | Some q0, Some q => p_is_bridge q0 = p_is_bridge q ∧ p_node_idx q0 = p_node_idx q
          | None, None => True | _, _ => False end) as Hsrc.
  { destruct (at_idx (peers h) src) as [q|] eqn:Hq.
    - destruct (scrub_at _ _ _ _ _ E Hq) as (q0 & -> & Eq). by apply scrub_fields in Eq as (?&?&?&?&?).
    - destruct (at_idx (peers h0) src) as [q0|] eqn:Hq0; [|done].
      destruct (scrub_at _ h0 h _ _ ltac:(by symmetry) Hq0) as (q & ? & _). congruence. }
  destruct (at_idx (peers h0) src) as [q0|], (at_idx (peers h) src) as [q|]; try done.
  destruct Hsrc as [-> ->]. destruct (hop _ hdr) as [hdr'|]; [|done].
  unfold tap_frames, adv_frames, data_frames, bridge_frames, conn_route, heard_frames.
  rewrite Efd, Ebr, Emo, Eno, En, Ec, Hheard.
  destruct (at_idx (conns h) _ ≫= _) as [[dst rxn]|]; [by rewrite Hheard|done].
Qed.

Lemma fds_distinct_rx_eq idx h h0 : rx_eq idx h h0 → fds_distinct h → fds_distinct h0.
Proof.
  intros E Hfd i j p q Hp Hq Hf Heq. symmetry in E.
  destruct (scrub_at _ _ _ _ _ E Hp) as (p2 & Hp2 & (F1 & _)%scrub_fields).
  destruct (scrub_at _ _ _ _ _ E Hq) as (q2 & Hq2 & (F2 & _)%scrub_fields).
  apply (Hfd i j p2 q2); [done..|lia|congruence].
Qed.

(** ** From wire to wire *)

(** One frame, whatever way its bytes are split into reads: it is forwarded
    where it lies in the receive buffer, which is empty afterwards. *)
Lemma recv_frame_run `{Libm} (src : Z) (ns : list nat) (hdr : vbt_frame_hdr)
    (pdu : list Z) (sp : peer) (h : hub) :
  hub_ok h → calm h → hdr_ok hdr → magic hdr = VBT_MAGIC →
  pdu_len hdr = zlen pdu → bytes_ok pdu → zlen pdu ≤ VBT_MAX_PDU_SIZE →
  at_idx (peers h) src = Some sp → rx_bytes sp = [] →
  Forall (λ n, 0 < n)%nat ns → (length (frame_bytes hdr pdu) ≤ length ns)%nat →
  ∃ h0 p0 h1 h' p' o, recv_all src ns (frame_bytes hdr pdu) h = Ok ([], h', o) ∧
    hub_ok h' ∧ calm h' ∧ rx_eq src h h0 ∧ hub_ok h0 ∧ calm h0 ∧
    at_idx (peers h0) src = Some p0 ∧ slice (4 + VBT_HDR_SIZE) (zlen pdu) (p_rxbuf p0) = pdu ∧
    forward_frame src hdr (zlen pdu) h0 = Ok (tt, h1, o) ∧ rx_eq src h1 h' ∧
    at_idx (peers h') src = Some p' ∧ rx_bytes p' = [].
Proof.
  intros Hh Hc Hhdr Hm Hlen Hb Hmax Hsp Hrx Hns Hnl.
  pose proof (frame_payload_ok hdr pdu Hhdr Hmax Hb) as Hpok.
  pose proof (wire_frame hdr pdu Hhdr) as Hw.
  destruct (recv_all_run src ns (frame_bytes hdr pdu) [frame_payload hdr pdu] sp h)
    as (h' & p' & o & Hrun & Hh' & Hc' & Hs & Hp' & Hrx' & _); try done.
  { by apply Forall_cons_2; [|apply Forall_nil_2]. }
  { rewrite <- Hw. apply Forall_app_2; [apply be32_ok|apply Hpok]. }
  { rewrite Hrx. by left. }
  { rewrite Hrx. cbn [map concat]. by rewrite Hw, app_nil_r. }
  { cbn [anons]. rewrite frame_not_anonymous by done. pose proof (hok_auto _ Hh). lia. }
  inversion Hs as [|h_ h0 p0 pl h1 o1 ps o2 h2 E0 Hh0 Hc0 Hp0 Hsl Hmsg Hs2]; subst.
  inversion Hs2 as [h1_ h2_ E1|]; subst. rewrite app_nil_r in *. clear Hs Hs2.
  rewrite frame_is_forwarded in Hmsg by done. pose proof (zlen_nonneg pdu).
  exists h0, p0, h1, h', p', o1. split_and!; try done. by apply (payload_pdu hdr).
Qed.

Lemma recv_frame_lands `{Libm} (src : Z) (ns : list nat) (hdr : vbt_frame_hdr)
    (pdu : list Z) (sp : peer) (h : hub) :
  hub_ok h → calm h → fds_distinct h → lossless h → hdr_ok hdr → magic hdr = VBT_MAGIC →
  pdu_len hdr = zlen pdu → bytes_ok pdu → zlen pdu ≤ VBT_MAX_PDU_SIZE →
  at_idx (peers h) src = Some sp → rx_bytes sp = [] →
  Forall (λ n, 0 < n)%nat ns → (length (frame_bytes hdr pdu) ≤ length ns)%nat →
  ∃ h' o, recv_all src ns (frame_bytes hdr pdu) h = Ok ([], h', o) ∧ hub_ok h' ∧
    ∀ i p, at_idx (peers h) i = Some p → 0 ≤ p_fd p →
      ∃ p', at_idx (peers h') i = Some p' ∧ p_fd p' = p_fd p ∧
        extended p p' o (to_peer h src hdr pdu i p).
Proof.
  intros Hh Hc Hfd Hl Hhdr Hm Hlen Hb Hmax Hsp Hrx Hns Hnl.
  destruct (recv_frame_run src ns hdr pdu sp h) as (h0 & p0 & h1 & h' & p' & o & Hrun & Hh' & _ & E0 &
    Hh0 & Hc0 & Hp0 & Hpdu & Hmsg & E1 & _); try done.
  exists h', o. split; [done|]. split; [done|]. pose proof (zlen_nonneg pdu).
  assert (overrides h0 = overrides h) as Ho by (symmetry; apply (f_equal overrides E0)).
  pose proof (forward_frame_lands src p0 hdr (zlen pdu) h0 Hh0 Hc0) as Hland.
  unfold lands, wp in Hland. rewrite Hmsg, Hpdu in Hland.
  destruct Hland as [_ Hq];
    [by eapply fds_distinct_rx_eq|by unfold lossless; rewrite Ho|done|by split|done|].
  intros i p Hp Hpf. destruct (scrub_at _ _ _ _ _ E0 Hp) as (pi & Hpi & Epi).
  destruct (scrub_fields _ _ Epi) as (Efd & _ & _ & _ & Eout).
  destruct (Hq i pi Hpi) as (pj & Hpj & [K Hext]); [by rewrite Efd|].
  destruct (scrub_at _ _ _ _ _ E1 Hpj) as (pk & Hpk & Epk).
  destruct (scrub_fields _ _ Epk) as (Efd' & _ & _ & _ & Eout').
  exists pk. split; [done|]. split; [rewrite Efd', (kept_fd _ _ K); done|].
  rewrite (to_peer_rx_eq _ _ _ _ _ _ p pi E0 Epi) in Hext.
  unfold extended, backlog in *. by rewrite Efd, Eout, <- Eout' in Hext.
Qed.

(** What a peer that is neither a bridge nor a tap is to receive of a data
    PDU. *)
Lemma to_peer_data `{Libm} src sp hdr pdu h dst rxn i p :
  at_idx (peers h) src = Some sp → p_is_bridge sp = false → ll_type hdr = VBT_LL_DATA →
  conn_route hdr h (p_node_idx sp) = Some (dst, rxn) → p_is_bridge p = false → p_is_monitor p = false →
  to_peer h src hdr pdu i p =
    if i =? dst then heard_frames (set_ttl 8 hdr) pdu h (p_node_idx sp) rxn else [].
Proof.
  intros Hsp Hbr Hty Hroute Hpb Hpm. unfold to_peer, hop. rewrite Hsp, Hbr. cbn [set_ttl set_flags ll_type].
  rewrite Hty. cbn [Z.eqb]. unfold tap_frames, bridge_frames, data_frames, bridge_frames.
  rewrite Hpm, Hpb, !andb_false_r. change (conn_route (set_ttl 8 hdr) h (p_node_idx sp))
    with (conn_route hdr h (p_node_idx sp)). rewrite Hroute. cbn. by rewrite app_nil_r.
Qed.
