(* ===== verification/HubDemo.v ===== *)
(** * Concrete hubs, frames and kernel answers

    The inputs the witnesses and the example runs of the hub are evaluated on. *)

From Stdlib Require Import ZArith Lia Floats.SpecFloat String.
From stdpp Require Import base list numbers option.
From S2P Require Import Prelude Wire Text TextInv HubState HubTables HubModel HubIO HubRoute.
From S2P Require Import HubLoop HubInv HubCtlInv HubLoopInv HubSpec.

(** ** Concrete inputs *)

(** A mathematical library whose [log10] is 0: enough for runs without
    positions. *)
Definition demo_libm : Libm := {| log10 := λ _, S754_zero false;
  lround_oob := λ _, 0; toint_oob := λ _, 0 |}.

Definition env0 : env := Env [] [] [] [] [] 0.
Definition big_writes (n : nat) : env := Env (replicate n (WBytes 4096)) [] [] [] [] 0.

(** The hello of a node, without the optional flags byte. *)
Definition hello_bytes (nid : list Z) : list Z :=
  be32 (5 + zlen nid) ++ le_split 4 VBT_HELLO_MAGIC ++ nid ++ [0].

Definition mk_hdr (lt aa len : Z) (addr : list Z) : vbt_frame_hdr :=
  Hdr VBT_MAGIC VBT_VERSION len aa 0 0 0 addr 0 lt 37 VBT_PHY_1M 0 0 0 (replicate 6 0).
Definition mk_frame (lt aa : Z) (addr pdu : list Z) : list Z :=
  frame_bytes (mk_hdr lt aa (zlen pdu) addr) pdu.

Definition adv_pdu (addr : list Z) : list Z := [VBT_ADV_IND; 6] ++ addr.
Definition connect_pdu (inita adva : list Z) (aa : Z) : list Z :=
  [VBT_CONNECT_IND; 34] ++ inita ++ adva ++ le_split 4 aa ++ replicate 18 0.

(** Iterations in which one listener or one row is ready. *)
Definition it_accept (fd : Z) : poll_in := PollIn env0 true (Some fd) None None [] [] [].
Definition idle_row : answer := Answer false false None.
Definition it_read (e : env) (before : nat) (bytes : list Z) : poll_in :=
  PollIn e true None None None
    (replicate before idle_row ++ [Answer false false (Some (RBytes bytes))]) [] [].
Definition it_hup : poll_in := PollIn env0 true None None None [Answer true false None] [] [].

Definition addr1 : list Z := [1; 2; 3; 4; 5; 6].
Definition addr2 : list Z := [7; 2; 3; 4; 5; 6].

(** A hub with three nodes, the first two connected. *)
Definition node_named (s : string) (p : Z) (a : list Z) : node :=
  set_nd_addrs [a] (set_nd_peer_idx p (new_node (str s))).
Definition peer_of (fd n : Z) : peer := set_p_node_idx n (new_peer fd false (str "unix")).
Definition demo_hub : hub :=
  set_conns [set_cn_node_b 1 (set_cn_node_a 0 (new_conn 0x12345678))]
    (set_peers [peer_of 5 0; peer_of 6 1; peer_of 7 2]
      (set_nodes [node_named "a" 0 addr1; node_named "b" 1 addr2; node_named "c" 2 [9; 9; 9; 9; 9; 9]]
        (init_hub [] 0 (big_writes 4)))).
Definition demo_data : vbt_frame_hdr := mk_hdr VBT_LL_DATA 0x12345678 2 addr1.

Lemma demo_hub_ok : hub_ok demo_hub.
Proof.
  assert (∀ s p a, -1 ≤ p < 3 → addr_ok a → node_ok 3 (node_named s p a)) as Hnode.
  { intros s p a Hp Ha. pose proof (new_node_ok 3 (str s) ltac:(lia)) as [].
    split; try done. by constructor. }
  assert (∀ fd n, -1 ≤ n < 3 → peer_ok 3 (peer_of fd n)) as Hpeer.
  { intros fd n Hn. pose proof (new_peer_ok 3 fd false (str "unix") ltac:(lia)) as []. by split. }
  assert (∀ a, bool_decide (bytes_ok a ∧ zlen a = 6) = true → addr_ok a) as Hdec.
  { intros a Ha. by apply bool_decide_eq_true in Ha. }
  pose proof (new_conn_ok 3 0x12345678 ltac:(lia) ltac:(mlia)) as Hconn.
  pose proof (init_hub_ok [] 0 (big_writes 4)) as Hinit. split; try apply Hinit; try done.
  - repeat (apply Forall_cons_2; [apply Hnode; [lia|by apply Hdec]|]). apply Forall_nil_2.
  - repeat (apply Forall_cons_2; [apply Hpeer; lia|]). apply Forall_nil_2.
  - apply Forall_cons_2; [|apply Forall_nil_2]. destruct Hconn. by split.
Qed.

Lemma demo_hub_calm : calm demo_hub.
Proof. by split_and!; try apply Forall_replicate. Qed.

Lemma demo_hub_fds : fds_distinct demo_hub.
Proof.
  intros i j p q Hp Hq _ Heq.
  apply at_idx_lt in Hp as Hi. apply at_idx_lt in Hq as Hj. cbn in Hi, Hj.
  assert (i = 0 ∨ i = 1 ∨ i = 2) as Hi' by (change (zlen _) with 3 in Hi; lia).
  assert (j = 0 ∨ j = 1 ∨ j = 2) as Hj' by (change (zlen _) with 3 in Hj; lia).
  destruct Hi' as [->|[->| ->]], Hj' as [->|[->| ->]]; try reflexivity;
    injection Hp as <-; injection Hq as <-; discriminate Heq.
Qed.

Lemma demo_data_ok : hdr_ok demo_data.
Proof.
  split; try (cbn; mlia); (split; [|done]); apply (bool_decide_eq_true_1 _); reflexivity.
Qed.
