(* ===== verification/HubNet.v ===== *)
(** * Hubs connected by bridges

    A frame that arrives over a bridge leaves on the other bridges with its
    TTL one lower, and an expired one leaves on none.  So, whatever the
    topology of the hubs, a frame cannot circulate for ever: the frames in
    flight between hubs, weighted by their TTL, become fewer with every frame
    that any hub handles.  A hub handles a frame by [rx_message], and what it
    puts on its bridges is read off the streams of its peers. *)

From Stdlib Require Import ZArith Lia String Floats.SpecFloat.
From stdpp Require Import base list numbers option relations.
From S2P Require Import Prelude Wire Framing Text HubState HubTables HubModel HubIO HubRoute HubIds HubInv HubSpec.
From S2P Require Import HubStream HubDemo.

(** ** What a hub puts on its bridges *)

(** The length-prefixed messages a stream consists of. *)
Fixpoint messages (fuel : nat) (s : list Z) : list (list Z) :=
  match fuel, s with
  | S fuel, _ :: _ =>
      let n := Z.to_nat (4 + of_be32 (take 4 s)) in take n s :: messages fuel (drop n s)
  | _, _ => []
  end.

(** What a step with the events [o] appended to the stream of a peer: what it
    wrote and what is left in the backlog, behind the old backlog. *)
Definition appended (p p' : peer) (o : list ev) : list Z :=
  drop (length (backlog p)) (written (p_fd p) o ++ backlog p').

(** The messages a step from [h] to [h'] put on its open bridges. *)
Definition onto_bridge (h' : hub) (o : list ev) (i : nat) (p : peer) : list (list Z) :=
  if p_is_bridge p && (0 <=? p_fd p) then
    match at_idx (peers h') (Z.of_nat i) with
    | Some p' => let s := appended p p' o in messages (length s) s
    | None => []
    end
  else [].
Definition bridged (h : hub) (o : list ev) (h' : hub) : list (list Z) :=
  concat (imap (onto_bridge h' o) (peers h)).

(** The hub handles the frame where it lies, at the front of the receive buffer
    of peer [src]. *)
Record handles `{Libm} (src : Z) (sp : peer) (hdr : vbt_frame_hdr) (pdu : list Z) (h : hub)
    (o : list ev) (h' : hub) : Prop := Handles {
  ha_ok : hub_ok h;
  ha_calm : calm h;
  ha_fds : fds_distinct h;
  ha_lossless : lossless h;
  ha_peer : at_idx (peers h) src = Some sp;
  ha_front : slice 4 (zlen (frame_payload hdr pdu)) (p_rxbuf sp) = frame_payload hdr pdu;
  ha_run : rx_message src (frame_payload hdr pdu) h = Ok (tt, h', o)
}.

(** One frame in flight is handled by the hub at the end of its bridge. *)
Inductive net_step `{Libm} : list (list Z) → list (list Z) → Prop :=
  | net_step_intro fs1 fs2 src sp hdr pdu h o h' :
      forwardable hdr pdu → p_is_bridge sp = true → handles src sp hdr pdu h o h' →
      net_step (fs1 ++ frame_bytes hdr pdu :: fs2) (fs1 ++ bridged h o h' ++ fs2).

(** Byte 23 of the header, behind the length prefix. *)
Definition frame_ttl (f : list Z) : Z := default 0 (f !! 27%nat).

(** More than a hub sends for one frame: three for each of its peers. *)
Definition fanout : Z := 3 * MAX_PEERS.
Definition weight (fs : list (list Z)) : Z :=
  foldr (λ f w, (fanout + 1) ^ frame_ttl f + w) 0 fs.

Lemma weight_app fs gs : weight (fs ++ gs) = weight fs + weight gs.
Proof. induction fs as [|f fs IH]; [done|]. cbn [app weight foldr]. unfold weight in *. lia. Qed.

Lemma frame_ttl_bytes hdr pdu : hdr_ok hdr → frame_ttl (frame_bytes hdr pdu) = ttl_of hdr.
Proof.
  intros H. change (frame_ttl (frame_bytes hdr pdu)) with (flags hdr / 256 / 256 / 256 mod 256).
  pose proof (ok_flags _ H). unfold ttl_of. rewrite Z.shiftr_div_pow2 by lia.
  change (2 ^ 24) with (256 * 256 * 256). rewrite !Z.div_div by lia. mlia.
Qed.

(** ** What a hub relays *)

Lemma image_ttl hdr pdu r :
  hdr_ok hdr → frame_ttl (image hdr pdu r) = ttl_of hdr.
Proof.
  intros H. unfold image. rewrite frame_ttl_bytes; [done|]. apply set_rssi_ok; [done|apply s8_range].
Qed.

(** At most [k] whole messages, all with TTL [t]. *)
Definition copy (t : Z) (f : list Z) : Prop :=
  frame_ttl f = t ∧ ∃ payload, payload_ok payload ∧ f = wire payload.
Definition copies (t k : Z) (fs : list (list Z)) : Prop :=
  zlen fs ≤ k ∧ Forall (copy t) fs.

Lemma copies_nil t k : 0 ≤ k → copies t k [].
Proof. intros. by split. Qed.
Lemma copies_app t k k' fs gs : copies t k fs → copies t k' gs → copies t (k + k') (fs ++ gs).
Proof. intros [] []. split; [rewrite zlen_app; lia|by apply Forall_app_2]. Qed.
Lemma copies_weaken t k k' fs : copies t k fs → k ≤ k' → copies t k' fs.
Proof. intros [] ?. split; [lia|done]. Qed.
Lemma copies_sublist t k fs gs : sublist fs gs → copies t k gs → copies t k fs.
Proof.
  intros Hs [Hk Hgs]. split; [apply sublist_length in Hs; unfold zlen in *; lia|].
  apply Forall_forall. intros f Hf. apply (proj1 (Forall_forall _ _) Hgs).
  by eapply sublist_subseteq.
Qed.

(** Whole messages are found again in their concatenation. *)
Lemma messages_copies t fs fuel :
  Forall (copy t) fs → (length fs ≤ fuel)%nat → messages fuel (concat fs) = fs.
Proof.
  intros Hfs. revert fuel. induction Hfs as [|f fs (_ & q & [Hb Hq] & ->) _ IH]; intros fuel Hl.
  { by destruct fuel. }
  destruct fuel as [|fuel]; cbn [length] in Hl; [lia|]. cbn [concat]. pose proof (zlen_nonneg q).
  assert (take 4 (wire q ++ concat fs) = be32 (zlen q)) as Ht by done.
  destruct (wire q ++ concat fs) as [|c s] eqn:E; [done|]. cbn [messages]. rewrite <- E in *. rewrite Ht.
  rewrite of_be32_be32 by (unfold is_u32, VBT_MAX_MSG_SIZE, VBT_HDR_SIZE, VBT_MAX_PDU_SIZE in *; lia).
  rewrite <- zlen_wire. unfold zlen. rewrite Nat2Z.id, take_app_length, drop_app_length.
  f_equal. apply IH. lia.
Qed.

Lemma copies_short t k fs : copies t k fs → (length fs ≤ length (concat fs))%nat.
Proof.
  intros [_ Hfs]. induction Hfs as [|f fs (_ & q & _ & ->) _ IH]; [done|]. cbn [concat length].
  rewrite length_app. pose proof (zlen_wire q). pose proof (zlen_nonneg q). unfold zlen in *. lia.
Qed.

Section Copies.
Context `{Libm} (hdr : vbt_frame_hdr) (pdu : list Z) (h : hub) (src : Z).
Hypothesis (Hok : hdr_ok hdr) (Hpdu : bytes_ok pdu) (Hmax : zlen pdu ≤ VBT_MAX_PDU_SIZE).
Abbreviation few := (copies (ttl_of hdr) 1).

Lemma image_few r : few [image hdr pdu r].
Proof using Hok Hpdu Hmax.
  split; [done|]. apply Forall_cons_2; [|apply Forall_nil_2]. split; [by apply image_ttl|].
  assert (hdr_ok (set_rssi (s8 r) hdr)) as Hok' by (apply set_rssi_ok; [done|apply s8_range]).
  exists (frame_payload (set_rssi (s8 r) hdr) pdu). split; [by apply frame_payload_ok|].
  by rewrite wire_frame.
Qed.
Lemma heard_few a b : few (heard_frames hdr pdu h a b).
Proof using Hok Hpdu Hmax.
  unfold heard_frames. destruct (heard _ _ _ _); [apply image_few|by apply copies_nil].
Qed.
Lemma tap_few i p : few (tap_frames src hdr pdu i p).
Proof using Hok Hpdu Hmax. unfold tap_frames. destruct (_ && _); [apply image_few|by apply copies_nil]. Qed.
Lemma bridge_few i p : few (bridge_frames src hdr pdu i p).
Proof using Hok Hpdu Hmax. unfold bridge_frames. destruct (_ && _); [apply image_few|by apply copies_nil]. Qed.
Lemma adv_few a i p : few (adv_frames src hdr pdu h a i p).
Proof using Hok Hpdu Hmax.
  unfold adv_frames. destruct (_ || _); [by apply copies_nil|]. destruct (p_is_bridge p);
    [apply image_few|]. destruct (_ <? 0); [by apply copies_nil|apply heard_few].
Qed.
Lemma data_few a i p : copies (ttl_of hdr) 2 (data_frames src hdr pdu h a i p).
Proof using Hok Hpdu Hmax.
  unfold data_frames. apply (copies_app _ 1 1); [|apply bridge_few].
  destruct (conn_route _ _ _) as [[dst rxn]|]; [|by apply copies_nil].
  destruct (i =? dst); [apply heard_few|by apply copies_nil].
Qed.
End Copies.

(** At most three copies for a peer, all with the TTL after the hop. *)
Lemma to_peer_copies `{Libm} h src sp hdr hdr' pdu i p :
  forwardable hdr pdu → at_idx (peers h) src = Some sp → hop (p_is_bridge sp) hdr = Some hdr' →
  copies (ttl_of hdr') 3 (to_peer h src hdr pdu i p).
Proof.
  intros [Hhdr _ _ Hb Hm] Hsp Hhop. unfold to_peer. rewrite Hsp, Hhop.
  pose proof (hop_ok _ _ _ Hhop Hhdr) as Hok'. apply (copies_app _ 1 2); [by apply tap_few|].
  destruct (_ =? VBT_LL_ADV); [by eapply copies_weaken; [apply adv_few|]|].
  destruct (_ =? VBT_LL_DATA); [by apply data_few|by apply copies_nil].
Qed.

Lemma copies_imap t k (f : nat → peer → list (list Z)) ps :
  (∀ i p, ps !! i = Some p → copies t k (f i p)) → copies t (k * zlen ps) (concat (imap f ps)).
Proof.
  revert f. induction ps as [|p ps IH]; intros f Hf; [apply copies_nil; unfold zlen; cbn; lia|].
  cbn [imap concat]. rewrite zlen_cons. replace (k * (1 + zlen ps)) with (k + k * zlen ps) by lia.
  apply copies_app; [by apply Hf|]. apply IH. intros i q Hq. by apply Hf.
Qed.

(** What the hub put on a bridge are frames the routing function has for it. *)
Lemma onto_bridge_sublist p p' o t k F :
  extended p p' o F → copies t k F →
  ∃ fs, copies t k fs ∧ sublist fs F ∧ messages (length (appended p p' o)) (appended p p' o) = fs.
Proof.
  intros (fs & Hs & He & _) Hc. pose proof (copies_sublist _ _ _ _ Hs Hc) as Hc'.
  exists fs. split; [done|]. split; [done|]. unfold appended. rewrite He, drop_app_length.
  apply (messages_copies t); [apply Hc'|by eapply copies_short].
Qed.

(** Handling a frame is forwarding it. *)
Lemma handles_queues `{Libm} src sp hdr pdu h o h' :
  forwardable hdr pdu → handles src sp hdr pdu h o h' → queues h o h' (to_peer h src hdr pdu).
Proof.
  intros [Hhdr Hm Hl Hb Hmax] [Hok Hc Hfd Hlo Hsp Hsl Hrun]. pose proof (zlen_nonneg pdu).
  pose proof (forward_frame_lands src sp hdr (zlen pdu) h Hok Hc Hfd Hlo Hhdr ltac:(by split) Hsp) as Hw.
  rewrite frame_is_forwarded in Hrun by done. unfold lands, wp in Hw. rewrite Hrun in Hw.
  rewrite (payload_pdu hdr pdu Hhdr _ Hsl) in Hw. apply Hw.
Qed.

Lemma bridged_copies `{Libm} src sp hdr hdr' pdu h o h' :
  forwardable hdr pdu → handles src sp hdr pdu h o h' → hop (p_is_bridge sp) hdr = Some hdr' →
  copies (ttl_of hdr') fanout (bridged h o h').
Proof.
  intros Hpr Hha Hhop. pose proof (handles_queues _ _ _ _ _ _ _ Hpr Hha) as Hq.
  pose proof (hok_num_peers _ (ha_ok _ _ _ _ _ _ _ Hha)) as Hn. unfold num_peers in Hn.
  apply (copies_weaken _ (3 * zlen (peers h))); [|unfold fanout; lia]. unfold bridged.
  apply copies_imap. intros i p Hp. unfold onto_bridge.
  destruct (p_is_bridge p); [|by apply copies_nil]. destruct (Z.leb_spec 0 (p_fd p)) as [Hpf|]; [|by apply copies_nil].
  destruct (Hq (Z.of_nat i) p) as (p' & Hp' & _ & Hx); [apply at_idx_Some; rewrite Nat2Z.id; split; [lia|done]|done|].
  cbn [andb]. rewrite Hp'.
  destruct (onto_bridge_sublist _ _ _ _ _ _ Hx
    (to_peer_copies h src sp hdr hdr' pdu (Z.of_nat i) p Hpr (ha_peer _ _ _ _ _ _ _ Hha) Hhop)) as (fs & Hc & _ & E).
  cbv zeta. by rewrite E.
Qed.

Lemma bridged_expired `{Libm} src sp hdr pdu h o h' :
  forwardable hdr pdu → handles src sp hdr pdu h o h' → hop (p_is_bridge sp) hdr = None → bridged h o h' = [].
Proof.
  intros Hpr Hha Hhop. pose proof (handles_queues _ _ _ _ _ _ _ Hpr Hha) as Hq.
  unfold bridged. apply concat_nil_Forall, Forall_forall. intros x Hx.
  apply elem_of_lookup_imap in Hx as (i & p & -> & Hp). unfold onto_bridge.
  destruct (p_is_bridge p); [|done]. destruct (Z.leb_spec 0 (p_fd p)) as [Hpf|]; [|done]. cbn [andb].
  destruct (Hq (Z.of_nat i) p) as (p' & Hp' & _ & Hx); [apply at_idx_Some; rewrite Nat2Z.id; split; [lia|done]|done|].
  rewrite Hp'. unfold to_peer in Hx. rewrite (ha_peer _ _ _ _ _ _ _ Hha), Hhop in Hx.
  destruct (onto_bridge_sublist _ _ _ 0 0 _ Hx) as (fs & _ & Hs & E); [by apply copies_nil|].
  apply sublist_nil_r in Hs as ->. cbv zeta. by rewrite E.
Qed.

(** ** Weights *)

Lemma weight_nonneg fs : 0 ≤ weight fs.
Proof.
  induction fs as [|f fs IH]; [done|]. cbn [weight foldr]. fold (weight fs).
  pose proof (Z.pow_nonneg (fanout + 1) (frame_ttl f)). unfold fanout, MAX_PEERS in *. lia.
Qed.

Lemma weight_copies t k fs : copies t k fs → weight fs ≤ k * (fanout + 1) ^ t.
Proof.
  intros [Hk Hfs].
  pose proof (Z.pow_nonneg (fanout + 1) t ltac:(unfold fanout, MAX_PEERS; lia)) as Hp.
  transitivity (zlen fs * (fanout + 1) ^ t); [|nia]. clear Hk.
  induction Hfs as [|f fs [Hf _] _ IH]; [done|]. cbn [weight foldr]. fold (weight fs).
  rewrite Hf, zlen_cons. lia.
Qed.

(** Every frame handled makes the frames in flight lighter. *)
Lemma net_step_lighter `{Libm} fs gs : net_step fs gs → weight gs < weight fs.
Proof.
  intros [fs1 fs2 src sp hdr pdu h o h' Hpr Hb Hha]. pose proof (fr_hdr _ _ Hpr) as Hhdr.
  rewrite !weight_app. cbn [weight foldr]. fold (weight fs2).
  rewrite frame_ttl_bytes by done. pose proof (ttl_of_range _ Hhdr) as Ht.
  enough (weight (bridged h o h') < (fanout + 1) ^ ttl_of hdr) by lia.
  destruct (hop true hdr) as [hdr'|] eqn:Hhop.
  - assert (ttl_of hdr = ttl_of hdr' + 1) as ->.
    { revert Hhop. unfold hop. destruct (ttl_of hdr =? 0) eqn:E; [done|]. intros [= <-].
      rewrite ttl_set_ttl; mlia. }
    rewrite <- Hb in Hhop. pose proof (ttl_of_range _ (hop_ok _ _ _ Hhop Hhdr)) as Ht'.
    eapply Z.le_lt_trans; [by eapply weight_copies, bridged_copies|].
    rewrite Z.pow_add_r by mlia. pose proof (Z.pow_pos_nonneg (fanout + 1) (ttl_of hdr')).
    unfold fanout, MAX_PEERS in *. mlia.
  - rewrite <- Hb in Hhop. erewrite bridged_expired by done.
    apply Z.pow_pos_nonneg; [unfold fanout, MAX_PEERS; lia|mlia].
Qed.

Lemma nsteps_weight `{Libm} (n : nat) (fs gs : list (list Z)) :
  nsteps net_step n fs gs → Z.of_nat n ≤ weight fs.
Proof.
  induction 1 as [fs|n fs gs hs Hs _ IH]; [apply weight_nonneg|].
  apply net_step_lighter in Hs. lia.
Qed.

(** C17: bridged hubs do not flood each other for ever.  A hub handles the frame
    of a node and puts copies on its bridges; each of these is handled, with
    [rx_message], by the hub at the end of its bridge, which puts copies on its
    own bridges, and so on.  However the hubs are connected, cycles included,
    and whatever state each of them is in when a frame arrives (well-formed
    tables, no loss pinned to a link, a calm kernel), these copies run out: no
    more than 900 * 901^8 of them are ever handled. *)
Theorem flooding_bounded `{Libm} (src : Z) (sp : peer) (hdr : vbt_frame_hdr) (pdu : list Z)
    (h : hub) (o : list ev) (h' : hub) (n : nat) (gs : list (list Z)) :
  forwardable hdr pdu → p_is_bridge sp = false → handles src sp hdr pdu h o h' →
  nsteps net_step n (bridged h o h') gs →
  Z.of_nat n ≤ fanout * (fanout + 1) ^ 8.
Proof.
  intros Hpr Hb Hha Hn. apply nsteps_weight in Hn. etransitivity; [exact Hn|].
  assert (hop (p_is_bridge sp) hdr = Some (set_ttl 8 hdr)) as Hhop by by rewrite Hb.
  rewrite <- (ttl_set_ttl 8 hdr) by (apply Hpr || mlia). by eapply weight_copies, bridged_copies.
Qed.

(** Two nodes and two bridges; peer [src] has sent the frame [f]. *)
Definition holding (f : list Z) (p : peer) : peer := set_p_rxbuf (splice 0 f (p_rxbuf p)) p.
Definition bridge_peers : list peer :=
  [peer_of 5 0; peer_of 6 1; new_peer 7 true []; new_peer 8 true []].
Definition bridge_hub (src : nat) (f : list Z) : hub :=
  set_peers (alter (holding f) src bridge_peers) demo_hub.

Lemma holding_ok np f p : peer_ok np p → bytes_ok f → zlen f ≤ RECV_BUF_SIZE → peer_ok np (holding f p).
Proof.
  intros [] Hf Hl. split; try done. cbn. split.
  - apply bytes_ok_splice; [done|apply pok_rxbuf].
  - rewrite zlen_splice; [apply pok_rxbuf|lia|]. destruct pok_rxbuf as [_ ->]. lia.
Qed.

Lemma bridge_hub_ok src f :
  bytes_ok f → zlen f ≤ RECV_BUF_SIZE → hub_ok (bridge_hub src f).
Proof.
  intros Hf Hl.
  assert (∀ fd b, peer_ok 3 (new_peer fd b [])) as Hn by (intros; by apply new_peer_ok).
  assert (∀ fd n, -1 ≤ n < 3 → peer_ok 3 (peer_of fd n)) as Hpeer.
  { intros fd n Hn'. pose proof (new_peer_ok 3 fd false (str "unix") ltac:(lia)) as []. by split. }
  apply hub_ok_set_peers; [apply demo_hub_ok|unfold zlen; by rewrite length_alter|].
  apply Forall_alter.
  - repeat (apply Forall_cons_2; [first [apply Hn|apply Hpeer; lia]|]). apply Forall_nil_2.
  - intros p _ Hp. by apply holding_ok.
Qed.

Lemma bridge_hub_fds src f : fds_distinct (bridge_hub src f).
Proof.
  intros i j p q Hp Hq _ Heq. apply at_idx_Some in Hp as [Hi Hp], Hq as [Hj Hq].
  assert (p_fd <$> peers (bridge_hub src f) = p_fd <$> bridge_peers) as E.
  { unfold bridge_hub. cbn [peers set_peers]. apply list_eq. intros k. rewrite !list_lookup_fmap.
    destruct (decide (k = src)) as [->|Hne]; [|by rewrite list_lookup_alter_ne].
    rewrite list_lookup_alter_eq. by destruct (bridge_peers !! src). }
  enough (Z.to_nat i = Z.to_nat j) by lia.
  assert (NoDup (p_fd <$> bridge_peers)) as Hnd by (apply (bool_decide_eq_true_1 _); reflexivity).
  rewrite <- E in Hnd.
  eapply (NoDup_lookup _ _ _ (p_fd p) Hnd); rewrite list_lookup_fmap; [by rewrite Hp|by rewrite Hq, Heq].
Qed.

(** What the hub makes of the frame at the front of the buffer of peer [src]. *)
Definition hop_at (src : nat) (hdr : vbt_frame_hdr) : hub * list ev :=
  match rx_message (H:=demo_libm) (Z.of_nat src) (frame_payload hdr [1; 0])
          (bridge_hub src (frame_bytes hdr [1; 0])) with
  | Ok (_, h, o) => (h, o)
  | Fault _ => (demo_hub, [])
  end.
Definition hop_peer (src : nat) (hdr : vbt_frame_hdr) : peer :=
  default (peer_of 5 0) (holding (frame_bytes hdr [1; 0]) <$> bridge_peers !! src).

(** The header as the node sends it, and as it leaves the hub. *)
Definition demo_data8 : vbt_frame_hdr := set_ttl 8 demo_data.

Lemma demo_forwardable : forwardable demo_data [1; 0] ∧ forwardable demo_data8 [1; 0].
Proof.
  assert (bytes_ok [1; 0]) as Hb by (apply (bool_decide_eq_true_1 _); reflexivity).
  split; (split; [|done..]); [apply demo_data_ok|]. apply set_ttl_ok; [apply demo_data_ok|mlia].
Qed.

Lemma demo_handles :
  handles (H:=demo_libm) 0 (hop_peer 0 demo_data) demo_data [1; 0]
    (bridge_hub 0 (frame_bytes demo_data [1; 0])) (hop_at 0 demo_data).2 (hop_at 0 demo_data).1 ∧
  handles (H:=demo_libm) 2 (hop_peer 2 demo_data8) demo_data8 [1; 0]
    (bridge_hub 2 (frame_bytes demo_data8 [1; 0])) (hop_at 2 demo_data8).2 (hop_at 2 demo_data8).1.
Proof.
  split; (split; [by apply bridge_hub_ok; [apply (bool_decide_eq_true_1 _); vm_compute|vm_compute]|
    apply demo_hub_calm|apply bridge_hub_fds|apply Forall_nil_2|vm_compute; reflexivity..]).
Qed.

(** The frame leaves the hub of its sender on two bridges ... *)
Lemma demo_bridged :
  bridged (bridge_hub 0 (frame_bytes demo_data [1; 0])) (hop_at 0 demo_data).2 (hop_at 0 demo_data).1 =
  [frame_bytes demo_data8 [1; 0]] ++ frame_bytes demo_data8 [1; 0] :: [].
Proof. vm_compute. reflexivity. Qed.

(** ... and the next hub on one, with a TTL of 7. *)
Lemma demo_bridged_on :
  bridged (bridge_hub 2 (frame_bytes demo_data8 [1; 0])) (hop_at 2 demo_data8).2 (hop_at 2 demo_data8).1 =
  [frame_bytes (set_ttl 7 demo_data) [1; 0]].
Proof. vm_compute. reflexivity. Qed.

Lemma flooding_bounded_witness : Z.of_nat 1 ≤ fanout * (fanout + 1) ^ 8.
Proof.
  apply (flooding_bounded (H:=demo_libm) 0 (hop_peer 0 demo_data) demo_data [1; 0]
    (bridge_hub 0 (frame_bytes demo_data [1; 0])) (hop_at 0 demo_data).2 (hop_at 0 demo_data).1 1
    ([frame_bytes demo_data8 [1; 0]] ++ [frame_bytes (set_ttl 7 demo_data) [1; 0]] ++ [])).
  - apply demo_forwardable.
  - reflexivity.
  - apply demo_handles.
  - apply nsteps_once. rewrite demo_bridged, <- demo_bridged_on.
    apply (net_step_intro (H:=demo_libm) [frame_bytes demo_data8 [1; 0]] [] 2 (hop_peer 2 demo_data8) demo_data8 [1; 0]
      (bridge_hub 2 (frame_bytes demo_data8 [1; 0])) (hop_at 2 demo_data8).2 (hop_at 2 demo_data8).1).
    + apply demo_forwardable.
    + reflexivity.
    + apply demo_handles.
Defined.
