(* ===== verification/HubTabProps.v ===== *)
(** * The hub's tables as finite maps

    The connection table implements a partial map from Access Addresses to
    endpoint pairs, the learned addresses a partial map from device addresses
    to nodes, and the overrides a map on unordered pairs of nodes: each
    operation of the code is proved to be the map operation it means to be,
    including the cases where a table is full. *)

From Stdlib Require Import ZArith Lia Floats.SpecFloat String.
From stdpp Require Import base list numbers option.
From S2P Require Import Prelude Wire Text HubState HubTables HubInv HubSpec HubDemo.

Lemma nat_neg i : (Z.of_nat i <? 0) = false.
Proof. apply Z.ltb_ge. lia. Qed.

(** ** Connections *)

(** The endpoints the table routes an Access Address to. *)
Definition endpoints (l : list conn) (aa : Z) : option (Z * Z) :=
  c ← at_idx l (find_conn aa l); Some (cn_node_a c, cn_node_b c).

(** An Access Address is used by at most one live connection. *)
Definition aa_unique (l : list conn) : Prop :=
  ∀ i j c d, l !! i = Some c → l !! j = Some d → cn_active c = true → cn_active d = true →
    cn_access_addr c = cn_access_addr d → i = j.

Definition aa_valid (aa : Z) : bool := negb ((aa =? 0) || (aa =? VBT_ADV_ACCESS_ADDR)).

Lemma at_idx_of {A} (l : list A) (o : option nat) : at_idx l (idx_of o) = o ≫= (l !!.).
Proof.
  destruct o as [i|]; cbn; [|done]. unfold at_idx. rewrite decide_True by lia.
  by rewrite Nat2Z.id.
Qed.

Lemma find_conn_valid aa l :
  aa_valid aa = true → find_conn aa l = idx_of (find_idx (live_aa aa) l).
Proof. unfold find_conn, aa_valid. intros Hv%negb_true_iff. by rewrite Hv. Qed.

Lemma live_aa_true aa c : live_aa aa c = true ↔ cn_active c = true ∧ cn_access_addr c = aa.
Proof. unfold live_aa. rewrite andb_true_iff. by rewrite Z.eqb_eq. Qed.

(** With unique Access Addresses the lookup is the live entry. *)
Lemma endpoints_Some l aa a b :
  aa_unique l → aa_valid aa = true →
  endpoints l aa = Some (a, b) ↔
  ∃ i c, l !! i = Some c ∧ cn_active c = true ∧ cn_access_addr c = aa ∧
    cn_node_a c = a ∧ cn_node_b c = b.
Proof.
  intros Hu Hv. unfold endpoints. rewrite find_conn_valid, at_idx_of by done. destruct (find_idx (live_aa aa) l) as [i|] eqn:E; cbn.
  - apply find_idx_sat in E as (c & Hc & [Hact Haa]%live_aa_true). rewrite Hc. cbn. split.
    + intros [= <- <-]. by exists i, c.
    + intros (j & d & Hd & Hact' & Haa' & <- & <-).
      assert (i = j) as <- by (eapply (Hu i j c d); congruence). congruence.
  - split; [done|]. intros (j & d & Hd & Hact & Haa & _).
    rewrite find_idx_None in E. specialize (E j d Hd).
    rewrite (proj2 (live_aa_true aa d)) in E by done. done.
Qed.

Lemma find_conn_live l aa i c :
  aa_unique l → aa_valid aa = true → l !! i = Some c → cn_active c = true → cn_access_addr c = aa →
  at_idx l (find_conn aa l) = Some c.
Proof.
  intros Hu Hv Hc Hact Haa. rewrite find_conn_valid, at_idx_of by done.
  destruct (find_idx (live_aa aa) l) as [j|] eqn:E; cbn.
  - apply find_idx_sat in E as (d & Hd & [Hda Hdaa]%live_aa_true).
    assert (j = i) as -> by (eapply (Hu j i d c); congruence). congruence.
  - apply (proj1 (find_idx_None _ _)) with (i:=i) (x:=c) in E; [|done].
    by rewrite (proj2 (live_aa_true aa c)) in E.
Qed.

Lemma endpoints_None l aa :
  aa_unique l → aa_valid aa = true →
  endpoints l aa = None ↔
  ∀ i c, l !! i = Some c → cn_active c = true → cn_access_addr c ≠ aa.
Proof.
  intros Hu Hv. split.
  - intros Hn i c Hc Hact Haa.
    assert (endpoints l aa = Some (cn_node_a c, cn_node_b c)) as He
      by (apply endpoints_Some; eauto 10). congruence.
  - intros Hn. destruct (endpoints l aa) as [[a b]|] eqn:E; [|done].
    apply endpoints_Some in E as (i & c & Hc & Hact & Haa & _); [|done..].
    by destruct (Hn i c Hc Hact).
Qed.

(** Two tables with the same live entries up to one Access Address. *)
Lemma endpoints_ext l l' aa :
  aa_unique l → aa_unique l' → aa_valid aa = true →
  (∀ a b, (∃ i c, l !! i = Some c ∧ cn_active c = true ∧ cn_access_addr c = aa ∧
            cn_node_a c = a ∧ cn_node_b c = b) ↔
          (∃ i c, l' !! i = Some c ∧ cn_active c = true ∧ cn_access_addr c = aa ∧
            cn_node_a c = a ∧ cn_node_b c = b)) →
  endpoints l' aa = endpoints l aa.
Proof.
  intros Hu Hu' Hv Heq. apply option_eq. intros [a b].
  rewrite !endpoints_Some by done. symmetry. apply Heq.
Qed.

(** The entry a CONNECT_IND leaves behind. *)
Definition conn_entry (a b : Z) (inita adva : list Z) (c : conn) : conn :=
  set_cn_adva adva (set_cn_inita inita (set_cn_node_b b (set_cn_node_a a c))).

(** A table in which position [k] was overwritten by a live entry of [aa] and
    nothing else changed, [k] having been free, new, or the entry of [aa]. *)
Lemma endpoints_write l l' k e aa :
  aa_unique l → aa_valid aa = true → l' !! k = Some e → cn_active e = true →
  cn_access_addr e = aa → (∀ j, j ≠ k → l' !! j = l !! j) →
  (∀ j c, l !! j = Some c → cn_active c = true → cn_access_addr c = aa → j = k) →
  (∀ c, l !! k = Some c → cn_active c = true → cn_access_addr c = aa) →
  aa_unique l' ∧ endpoints l' aa = Some (cn_node_a e, cn_node_b e) ∧
  (∀ aa', aa_valid aa' = true → aa' ≠ aa → endpoints l' aa' = endpoints l aa').
Proof.
  intros Hu Hv Hk Hact Haa Hoth Hown Hold.
  assert (aa_unique l') as Hu'.
  { intros i j c d Hc Hd Hca Hda Heq.
    destruct (decide (i = k)) as [->|Hi], (decide (j = k)) as [->|Hj]; [done| | |].
    - rewrite Hoth in Hd by done. assert (c = e) as -> by congruence.
      symmetry. apply (Hown j d); [done|done|congruence].
    - rewrite Hoth in Hc by done. assert (d = e) as -> by congruence.
      apply (Hown i c); [done|done|congruence].
    - rewrite Hoth in Hc, Hd by done. by apply (Hu i j c d). }
  split_and!; [done| |].
  - apply endpoints_Some; [done..|]. by exists k, e.
  - intros aa' Hv' Hne. apply endpoints_ext; [done..|]. intros a b. split.
    + intros (i & c & Hc & Hca & Hcaa & ?). exists i, c. split; [|done].
      destruct (decide (i = k)) as [->|Hi]; [|by rewrite Hoth].
      destruct Hne. by rewrite <- Hcaa, (Hold c).
    + intros (i & c & Hc & Hca & Hcaa & ?). exists i, c. split; [|done].
      destruct (decide (i = k)) as [->|Hi]; [|by rewrite <- Hoth]. congruence.
Qed.

(** No slot is left for a new connection. *)
Definition conns_full (l : list conn) : bool :=
  (MAX_CONNS <=? zlen l) && forallb cn_active l.

Lemma conn_alloc_full aa l :
  tab_alloc (λ c, negb (cn_active c)) MAX_CONNS (new_conn aa) l = None ↔ conns_full l = true.
Proof.
  rewrite tab_alloc_None. unfold conns_full. rewrite andb_true_iff, Z.leb_le, forallb_forall.
  split; intros [? H]; (split; [done|]); intros x Hx.
  - apply list_elem_of_In in Hx. specialize (H x Hx). by apply negb_false_iff in H.
  - apply list_elem_of_In in Hx. apply negb_false_iff. by apply H.
Qed.

(** The write of the entry, at a valid index. *)
Lemma conn_write a b inita adva ci c h :
  at_idx (conns h) ci = Some c →
  conn_upd ci (conn_entry a b inita adva) h =
    Ok (tt, set_conns (upd_idx ci (conn_entry a b inita adva) (conns h)) h, []).
Proof. intros. by apply (conn_upd_ok ci c). Qed.

Section Observe.
Context (h : hub) (a : Z) (pdu : list Z) (n : Z).
Context (Hn : 18 ≤ n ≤ zlen pdu) (Hu : aa_unique (conns h)).
Let inita := slice VBT_CONNIND_INITA_OFF 6 pdu.
Let adva := slice VBT_CONNIND_ADVA_OFF 6 pdu.
Let aa := le_join (slice VBT_CONNIND_AA_OFF 4 pdu).
Let b := find_node_by_addr adva (nodes h).
Context (Hv : aa_valid aa = true).

(** The guards of [observe_connect_ind] passed. *)
Lemma observe_unfold :
  observe_connect_ind a pdu n h =
  (c ← (if find_conn aa (conns h) <? 0 then
          c ← conn_alloc aa;
          when (0 <=? c) (stat_upd (λ s,
            set_stat_conns_opened (inc64 (stat_conns_opened s)) s));;
          mret c
        else mret (find_conn aa (conns h)));
   if c <? 0 then skip
   else h ← get; conn_upd c (λ k, conn_entry a (find_node_by_addr adva (nodes h)) inita adva k)) h.
Proof using Hn Hv.
  unfold observe_connect_ind, VBT_CONNIND_AA_OFF, VBT_CONNIND_INITA_OFF, VBT_CONNIND_ADVA_OFF in *.
  rewrite (if_false _ _ (n <? 14 + 4)) by lia.
  rewrite bind_rdn by lia. rewrite bind_rdn by lia. rewrite bind_rdn by lia. cbv zeta.
  apply negb_true_iff in Hv. rewrite if_false by exact Hv. by rewrite bind_get.
Qed.

Lemma observe_known i c :
  find_idx (live_aa aa) (conns h) = Some i → conns h !! i = Some c →
  observe_connect_ind a pdu n h = Ok (tt,
    set_conns (alter (conn_entry a b inita adva) i (conns h)) h, []).
Proof using Hn Hv.
  intros Hi Hc. rewrite observe_unfold. rewrite (find_conn_valid _ _ Hv), Hi. cbn [idx_of].
  rewrite (if_false _ _ _ (nat_neg i)), bind_ret, (if_false _ _ _ (nat_neg i)), bind_get.
  rewrite (conn_upd_ok _ c).
  - unfold upd_idx. by rewrite Nat2Z.id.
  - apply at_idx_Some. rewrite Nat2Z.id. split; [lia|done].
Qed.

Lemma observe_new i l :
  find_idx (live_aa aa) (conns h) = None →
  tab_alloc (λ c, negb (cn_active c)) MAX_CONNS (new_conn aa) (conns h) = Some (i, l) →
  ∃ st, observe_connect_ind a pdu n h = Ok (tt,
    set_conns (alter (conn_entry a b inita adva) i l) (set_stats st h), []).
Proof using Hn Hv.
  intros Hi Hal. rewrite observe_unfold. rewrite (find_conn_valid _ _ Hv), Hi. cbn [idx_of].
  rewrite (if_true _ _ (-1 <? 0)) by lia. unfold conn_alloc. rewrite !bind_assoc, bind_get, Hal.
  rewrite bind_assoc, bind_modify, bind_ret. rewrite when_true by (apply Z.leb_le; lia).
  unfold stat_upd. rewrite bind_assoc, bind_modify, bind_ret.
  rewrite (if_false _ _ _ (nat_neg i)), bind_get.
  eexists. rewrite (conn_upd_ok _ (new_conn aa)).
  - cbn. unfold upd_idx. rewrite Nat2Z.id. reflexivity.
  - apply at_idx_Some. cbn. rewrite Nat2Z.id. split; [lia|].
    by eapply tab_alloc_lookup.
Qed.

Lemma observe_full :
  find_idx (live_aa aa) (conns h) = None → conns_full (conns h) = true →
  observe_connect_ind a pdu n h = Ok (tt, h, []).
Proof using Hn Hv.
  intros Hi Hf%(conn_alloc_full aa). rewrite observe_unfold. rewrite (find_conn_valid _ _ Hv), Hi. cbn [idx_of].
  rewrite (if_true _ _ (-1 <? 0)) by lia. unfold conn_alloc. rewrite !bind_assoc, bind_get, Hf.
  rewrite bind_ret. rewrite when_false by lia. by rewrite bind_assoc, bind_skip, bind_ret.
Qed.

(** The table after a CONNECT_IND, as a map. *)
Lemma observe_inserts :
  ∃ h', observe_connect_ind a pdu n h = Ok (tt, h', []) ∧ aa_unique (conns h') ∧
    nodes h' = nodes h ∧ peers h' = peers h ∧
    endpoints (conns h') aa =
      (if bool_decide (endpoints (conns h) aa = None) && conns_full (conns h)
       then None else Some (a, b)) ∧
    (∀ aa', aa_valid aa' = true → aa' ≠ aa →
       endpoints (conns h') aa' = endpoints (conns h) aa').
Proof using Hn Hu Hv.
  destruct (find_idx (live_aa aa) (conns h)) as [i|] eqn:Hi.
  - pose proof (find_idx_sat _ _ _ Hi) as (c & Hc & [Hact Haa]%live_aa_true).
    eexists. split; [by apply (observe_known i c)|]. cbn [conns set_conns nodes peers].
    assert (endpoints (conns h) aa ≠ None) as Hne.
    { intros Hno. rewrite endpoints_None in Hno by done. by apply (Hno i c). }
    rewrite (bool_decide_false _ Hne). cbn [andb].
    destruct (endpoints_write (conns h) (alter (conn_entry a b inita adva) i (conns h)) i
      (conn_entry a b inita adva c) aa) as (H1 & H2 & H3); try done.
    + by rewrite list_lookup_alter_eq, Hc.
    + intros j Hj. by apply list_lookup_alter_ne.
    + intros j d Hd Hda Hdaa. apply (Hu j i d c); congruence.
    + intros d Hd _. congruence.
  - assert (∀ j c, conns h !! j = Some c → cn_active c = true → cn_access_addr c ≠ aa) as Hfree.
    { intros j c Hc Hact Haa. rewrite find_idx_None in Hi. specialize (Hi j c Hc).
      rewrite (proj2 (live_aa_true aa c)) in Hi by done. done. }
    assert (endpoints (conns h) aa = None) as Hnone by by apply endpoints_None.
    rewrite (bool_decide_true _ Hnone). cbn [andb]. destruct (conns_full (conns h)) eqn:Hf.
    { exists h. split; [by apply observe_full|]. by split_and!. }
    destruct (tab_alloc (λ c, negb (cn_active c)) MAX_CONNS (new_conn aa) (conns h))
      as [[i l]|] eqn:Hal.
    2: { apply (conn_alloc_full aa) in Hal. congruence. }
    destruct (observe_new i l Hi Hal) as [st Est]. eexists. split; [exact Est|].
    cbn [conns set_conns nodes peers set_stats].
    destruct (endpoints_write (conns h) (alter (conn_entry a b inita adva) i l) i
      (conn_entry a b inita adva (new_conn aa)) aa) as (H1 & H2 & H3); try done.
    + rewrite list_lookup_alter_eq. by rewrite (tab_alloc_lookup _ _ _ _ _ _ Hal).
    + intros j Hj. rewrite list_lookup_alter_ne by done. by eapply tab_alloc_others.
    + intros j c Hc Hact Haa. by destruct (Hfree j c Hc Hact).
    + intros c Hc Hact. apply (tab_alloc_slot _ _ _ _ _ _ Hal) in Hc.
      rewrite Hact in Hc. done.
Qed.
End Observe.

(** C14: snooping a CONNECT_IND is an insertion into the map of connections:
    its Access Address leads from then on to the sender's node and the node
    that owns the advertiser's address, every other Access Address keeps its
    route, no Access Address has two routes; a full table refuses a new one
    and changes nothing. *)
Theorem connect_ind_installs_route (h : hub) (a : Z) (pdu : list Z) (n : Z) :
  18 ≤ n ≤ zlen pdu → aa_unique (conns h) →
  let aa := le_join (slice VBT_CONNIND_AA_OFF 4 pdu) in
  let b := find_node_by_addr (slice VBT_CONNIND_ADVA_OFF 6 pdu) (nodes h) in
  aa_valid aa = true →
  ∃ h', observe_connect_ind a pdu n h = Ok (tt, h', []) ∧ aa_unique (conns h') ∧
    nodes h' = nodes h ∧ peers h' = peers h ∧
    endpoints (conns h') aa =
      (if bool_decide (endpoints (conns h) aa = None) && conns_full (conns h)
       then None else Some (a, b)) ∧
    (∀ aa', aa_valid aa' = true → aa' ≠ aa →
       endpoints (conns h') aa' = endpoints (conns h) aa').
Proof. intros Hn Hu aa b Hv. by apply observe_inserts. Qed.

Definition tab_pdu : list Z := connect_pdu addr1 addr2 0x87654321.

Lemma connect_ind_installs_route_witness :
  ∃ h', observe_connect_ind 0 tab_pdu 36 demo_hub = Ok (tt, h', []) ∧ aa_unique (conns h') ∧
    nodes h' = nodes demo_hub ∧ peers h' = peers demo_hub ∧
    endpoints (conns h') (le_join (slice VBT_CONNIND_AA_OFF 4 tab_pdu)) =
      (if bool_decide (endpoints (conns demo_hub) (le_join (slice VBT_CONNIND_AA_OFF 4 tab_pdu))
         = None) && conns_full (conns demo_hub) then None
       else Some (0, find_node_by_addr (slice VBT_CONNIND_ADVA_OFF 6 tab_pdu) (nodes demo_hub))) ∧
    (∀ aa', aa_valid aa' = true → aa' ≠ le_join (slice VBT_CONNIND_AA_OFF 4 tab_pdu) →
       endpoints (conns h') aa' = endpoints (conns demo_hub) aa').
Proof.
  apply (connect_ind_installs_route demo_hub 0 tab_pdu 36).
  - by vm_compute.
  - intros [|i] [|j] c d Hc Hd; done.
  - reflexivity.
Defined.

(** ** Departing nodes *)

Lemma drop_conn_lookup n l i c :
  map (drop_conn n) l !! i = Some c ∧ cn_active c = true ↔
  l !! i = Some c ∧ cn_active c = true ∧ cn_node_a c ≠ n ∧ cn_node_b c ≠ n.
Proof.
  rewrite list_lookup_fmap. destruct (l !! i) as [d|]; cbn; [|by split; intros [? _]].
  unfold drop_conn, touches. destruct (cn_active d) eqn:Hd; cbn.
  - destruct ((cn_node_a d =? n) || (cn_node_b d =? n)) eqn:E; cbn; split.
    + by intros [[= <-] ?].
    + intros ([= <-] & _ & ? & ?). lia.
    + intros [[= <-] ?]. split_and!; [done|done|lia|lia].
    + by intros ([= <-] & ? & _).
  - split; [by intros [[= <-] ?]; congruence|]. intros ([= <-] & ? & _). congruence.
Qed.

Lemma drop_conn_unique n l : aa_unique l → aa_unique (map (drop_conn n) l).
Proof.
  intros Hu i j c d Hc Hd Hca Hda Heq.
  destruct (proj1 (drop_conn_lookup n l i c) (conj Hc Hca)) as (? & _).
  destruct (proj1 (drop_conn_lookup n l j d) (conj Hd Hda)) as (? & _).
  by apply (Hu i j c d).
Qed.

Definition avoids (n : Z) (e : Z * Z) : bool := negb ((e.1 =? n) || (e.2 =? n)).

Lemma endpoints_drop n l aa :
  aa_unique l → aa_valid aa = true →
  endpoints (map (drop_conn n) l) aa =
    (e ← endpoints l aa; if avoids n e then Some e else None).
Proof.
  intros Hu Hv. apply option_eq. intros [a b].
  rewrite endpoints_Some by (try apply drop_conn_unique; done).
  split.
  - intros (i & c & Hc & Hact & Haa & <- & <-).
    destruct (proj1 (drop_conn_lookup n l i c) (conj Hc Hact)) as (Hl & _ & Ha & Hb).
    rewrite (proj2 (endpoints_Some l aa (cn_node_a c) (cn_node_b c) Hu Hv)) by eauto 10.
    cbn. unfold avoids. cbn. by rewrite (proj2 (Z.eqb_neq _ _) Ha), (proj2 (Z.eqb_neq _ _) Hb).
  - destruct (endpoints l aa) as [[a' b']|] eqn:E; [|done]. cbn.
    destruct (avoids n (a', b')) eqn:Hav; [|done]. intros [= -> ->].
    apply endpoints_Some in E as (i & c & Hc & Hact & Haa & <- & <-); [|done..].
    unfold avoids in Hav. cbn in Hav. exists i, c.
    destruct (proj2 (drop_conn_lookup n l i c)) as [? ?]; [|done].
    split_and!; [done|done|lia|lia].
Qed.

(** [peer_close] of a bound peer drops the connections of its node, and touches
    no other node and no link. *)
Lemma peer_close_conns idx p h :
  hub_ok h → at_idx (peers h) idx = Some p → 0 ≤ p_fd p → 0 ≤ p_node_idx p →
  wp (HubIO.peer_close idx) h (λ _ h' o,
    conns h' = map (drop_conn (p_node_idx p)) (conns h) ∧ o = [EvClose (p_fd p)] ∧
    (∀ j, j ≠ p_node_idx p → at_idx (nodes h') j = at_idx (nodes h) j) ∧
    overrides h' = overrides h ∧ g_path_exponent h' = g_path_exponent h).
Proof.
  intros Hh Hp Hfd Hn. unfold HubIO.peer_close, wp.
  erewrite bind_silent by by apply peer_at_ok. rewrite (if_false _ _ (p_fd p <? 0)) by lia.
  rewrite (when_true _ (0 <=? p_node_idx p)) by lia.
  pose proof (pok_node _ _ (at_idx_Forall _ _ _ _ (hok_peers _ Hh) Hp)) as Hni.
  set (n := p_node_idx p) in *.
  destruct (at_idx_is_Some (nodes h) n) as [nd Hnd]; [unfold num_nodes in Hni; mlia|].
  unfold HubIO.peer_close_node. rewrite !bind_assoc.
  erewrite bind_silent by by apply node_at_ok.
  assert (∃ l, when (nd_peer_idx nd =? idx) (node_upd n (set_nd_peer_idx (-1))) h =
    Ok (tt, set_nodes l h, []) ∧ zlen l = zlen (nodes h) ∧
    ∀ j, j ≠ n → at_idx l j = at_idx (nodes h) j) as (l & El & Hl & Hlj).
  { destruct (_ =? _); cbn [when].
    - eexists. split; [by apply (node_upd_ok n nd)|]. split; [apply zlen_upd_idx|].
      intros j Hj. by apply at_upd_idx_ne.
    - exists (nodes h). by destruct h. }
  rewrite bind_assoc. erewrite bind_silent by exact El.
  unfold conns_drop_node, stat_upd. exec.
  set (h2 := set_stats _ _).
  destruct (at_idx_is_Some (nodes h2) n) as [nd2 Hnd2].
  { change (nodes h2) with l. rewrite Hl. by apply at_idx_lt in Hnd. }
  erewrite bind_silent by by apply node_at_ok.
  assert (∃ l', when (nd_auto_named nd2 && (zlen (nd_addrs nd2) =? 0))
    (node_upd n (set_nd_active false)) h2 = Ok (tt, set_nodes l' h2, []) ∧
    ∀ j, j ≠ n → at_idx l' j = at_idx l j) as (l' & El' & Hl').
  { destruct (_ && _); cbn [when].
    - eexists. split; [by apply (node_upd_ok n nd2)|]. intros j Hj. apply at_upd_idx_ne; [done|by apply not_eq_sym].
    - exists (nodes h2). split; [by destruct h2|done]. }
  erewrite bind_silent by exact El'. rewrite bind_modify, bind_emit.
  rewrite (peer_upd_ok idx p) by done. split_and!; try done.
  intros j Hj. cbn. by rewrite Hl', Hlj.
Qed.

(** C16: closing the peer of a node removes exactly the connections of that
    node from the routing map and closes its descriptor. *)
Theorem peer_close_drops_connections (idx : Z) (p : peer) (h : hub) :
  hub_ok h → aa_unique (conns h) → at_idx (peers h) idx = Some p → 0 ≤ p_fd p →
  0 ≤ p_node_idx p →
  ∃ h', HubIO.peer_close idx h = Ok (tt, h', [EvClose (p_fd p)]) ∧ aa_unique (conns h') ∧
    ∀ aa, aa_valid aa = true →
      endpoints (conns h') aa =
        (e ← endpoints (conns h) aa; if avoids (p_node_idx p) e then Some e else None).
Proof.
  intros Hh Hu Hp Hfd Hn. pose proof (peer_close_conns idx p h Hh Hp Hfd Hn) as Hw.
  unfold wp in Hw. destruct (HubIO.peer_close idx h) as [[[[] h'] o]|]; [|done].
  destruct Hw as (Hc & -> & _). exists h'. split_and!; [done| |].
  - rewrite Hc. by apply drop_conn_unique.
  - intros aa Hv. rewrite Hc. by apply endpoints_drop.
Qed.

Lemma peer_close_drops_connections_witness :
  ∃ h', HubIO.peer_close 0 demo_hub = Ok (tt, h', [EvClose 5]) ∧ aa_unique (conns h') ∧
    ∀ aa, aa_valid aa = true →
      endpoints (conns h') aa =
        (e ← endpoints (conns demo_hub) aa; if avoids 0 e then Some e else None).
Proof.
  apply (peer_close_drops_connections 0 (peer_of 5 0) demo_hub).
  - apply demo_hub_ok.
  - intros [|i] [|j] c d Hc Hd; done.
  - reflexivity.
  - done.
  - done.
Defined.

(** ** Learned addresses *)

Lemma owns_true a nd : owns a nd = true ↔ nd_active nd = true ∧ a ∈ nd_addrs nd.
Proof.
  unfold owns. rewrite andb_true_iff, existsb_exists. split; intros [? H]; (split; [done|]).
  - destruct H as (x & Hx & Heq%bool_decide_eq_true_1). subst. by apply list_elem_of_In.
  - exists a. split; [by apply list_elem_of_In|]. by apply bool_decide_eq_true_2.
Qed.

(** An address belongs to at most one node. *)
Definition addr_unique (l : list node) : Prop :=
  ∀ a i j x y, l !! i = Some x → l !! j = Some y → owns a x = true → owns a y = true → i = j.

Lemma find_by_addr_nat a l i :
  addr_unique l → addr_is_zero a = false →
  find_node_by_addr a l = Z.of_nat i ↔ ∃ nd, l !! i = Some nd ∧ owns a nd = true.
Proof.
  intros Hu Hz. unfold find_node_by_addr. rewrite Hz.
  destruct (find_idx (owns a) l) as [k|] eqn:E; cbn.
  - pose proof (find_idx_sat _ _ _ E) as (x & Hx & Ho). split.
    + intros Hk. assert (k = i) as -> by lia. eauto.
    + intros (nd & Hnd & Hown). f_equal. by apply (Hu a k i x nd).
  - split; [lia|]. intros (nd & Hnd & Hown). rewrite find_idx_None in E.
    by rewrite (E i nd Hnd) in Hown.
Qed.

Lemma find_by_addr_none a l :
  addr_is_zero a = false →
  find_node_by_addr a l = -1 ↔ ∀ i nd, l !! i = Some nd → owns a nd = false.
Proof.
  intros Hz. unfold find_node_by_addr. rewrite Hz, <- find_idx_None.
  destruct (find_idx (owns a) l); cbn; split; (done || lia).
Qed.

(** The removal loop leaves the other addresses, in some order. *)
Lemma remove_addr_elem fuel addr j l x :
  (length l ≤ fuel + j)%nat → (∀ i y, (i < j)%nat → l !! i = Some y → y ≠ addr) →
  x ∈ remove_addr fuel addr j l ↔ x ∈ l ∧ x ≠ addr.
Proof.
  revert j l. induction fuel as [|fuel IH]; intros j l Hf Hpre; cbn [remove_addr].
  { split; [|by intros [? _]]. intros Hx. split; [done|].
    apply list_elem_of_lookup_1 in Hx as [i Hi]. apply (Hpre i x); [|done].
    apply lookup_lt_Some in Hi. lia. }
  destruct (l !! j) as [a|] eqn:Ha.
  2: { apply lookup_ge_None in Ha. split; [|by intros [? _]]. intros Hx. split; [done|].
    apply list_elem_of_lookup_1 in Hx as [i Hi]. apply (Hpre i x); [|done].
    apply lookup_lt_Some in Hi. lia. }
  pose proof (lookup_lt_Some _ _ _ Ha) as Hj. unfold addr_eq. case_bool_decide as Heq.
  2: { rewrite IH; [done|lia|]. intros i y Hi Hy.
    destruct (decide (i = j)) as [->|]; [congruence|]. apply (Hpre i); [lia|done]. }
  subst a. destruct (lookup_lt_is_Some_2 l (length l - 1)) as [b Hb]; [lia|].
  rewrite Hb. cbn [default]. set (l' := take (length l - 1) (<[j:=b]> l)).
  assert (∀ i, l' !! i = if decide (i < length l - 1)%nat then
    (if decide (i = j) then Some b else l !! i) else None) as Hl'.
  { intros i. subst l'. rewrite lookup_take. case_decide; [|done].
    case_decide as Hij; [subst; apply list_lookup_insert_eq; lia|].
    by rewrite list_lookup_insert_ne. }
  rewrite IH.
  - split; intros [Hx Hne]; (split; [|done]).
    + apply list_elem_of_lookup_1 in Hx as [i Hi]. rewrite Hl' in Hi.
      repeat case_decide; [|by eapply list_elem_of_lookup_2|done].
      injection Hi as <-. by eapply list_elem_of_lookup_2.
    + apply list_elem_of_lookup_1 in Hx as [i Hi]. pose proof (lookup_lt_Some _ _ _ Hi) as Hlt.
      destruct (decide (i = length l - 1)%nat) as [->|Hlast].
      * destruct (decide (j = length l - 1)%nat) as [->|]; [congruence|].
        apply list_elem_of_lookup_2 with (i := j). rewrite Hl'.
        rewrite decide_True by lia. rewrite decide_True by done. congruence.
      * apply list_elem_of_lookup_2 with (i := i). rewrite Hl'.
        rewrite decide_True by lia. rewrite decide_False; [done|]. intros ->. congruence.
  - subst l'. rewrite length_take, length_insert. lia.
  - intros i y Hi Hy. rewrite Hl' in Hy. case_decide; [|done].
    rewrite decide_False in Hy by lia. by apply (Hpre i).
Qed.

Lemma forget_addr_owns addr a nd :
  owns a (forget_addr addr nd) = true ↔ owns a nd = true ∧ a ≠ addr.
Proof.
  rewrite !owns_true. unfold forget_addr. destruct (nd_active nd) eqn:Hact.
  - cbn. rewrite Hact, remove_addr_elem; [tauto|lia|lia].
  - rewrite Hact. split; [by intros [? _]|by intros [[? _] _]].
Qed.

(** The nodes after learning, position by position. *)
Definition learned (n : nat) (addr : list Z) (room : bool) (i : nat) (nd : node) : node :=
  if decide (i = n) then
    if room then set_nd_addrs (nd_addrs nd ++ [addr]) nd else nd
  else forget_addr addr nd.

Lemma node_add_addr_run n addr nd h :
  nodes h !! n = Some nd → addr_is_zero addr = false → addr ∉ nd_addrs nd →
  ∃ l, node_add_addr (Z.of_nat n) addr h = Ok (tt, set_nodes l h, []) ∧
    ∀ i, l !! i = learned n addr (zlen (nd_addrs nd) <? MAX_ADDRS_PER_NODE) i <$> nodes h !! i.
Proof.
  intros Hnd Hz Hnew. unfold node_add_addr. rewrite (if_false _ _ _ Hz).
  erewrite bind_silent.
  2: { apply node_at_ok. apply at_idx_Some. rewrite Nat2Z.id. split; [lia|done]. }
  rewrite if_false.
  2: { apply not_true_is_false. intros (x & Hx & Heq%bool_decide_eq_true_1)%existsb_exists.
    subst. by apply Hnew, list_elem_of_In. }
  rewrite bind_modify. set (h1 := set_nodes _ h).
  assert (∀ i, nodes h1 !! i =
    (λ nd, if decide (i = n) then nd else forget_addr addr nd) <$> nodes h !! i) as H1.
  { intros i. subst h1. cbn. rewrite list_lookup_imap. destruct (nodes h !! i); cbn; [|done].
    f_equal. destruct (decide (i = n)) as [->|Hi]; [by rewrite Z.eqb_refl|].
    by rewrite (proj2 (Z.eqb_neq _ _)) by lia. }
  destruct (zlen (nd_addrs nd) <? MAX_ADDRS_PER_NODE); cbn [when].
  - assert (at_idx (nodes h1) (Z.of_nat n) = Some nd) as Hat.
    { apply at_idx_Some. rewrite Nat2Z.id, H1, Hnd. cbn. rewrite decide_True by done.
      split; [lia|done]. }
    exists (upd_idx (Z.of_nat n) (λ nd, set_nd_addrs (nd_addrs nd ++ [addr]) nd) (nodes h1)).
    split; [exact (node_upd_ok _ nd _ h1 Hat)|]. intros i. unfold upd_idx. rewrite Nat2Z.id.
    unfold learned. destruct (decide (i = n)) as [->|Hi].
    + rewrite list_lookup_alter_eq, H1, Hnd. cbn. by rewrite decide_True.
    + rewrite list_lookup_alter_ne, H1 by done. destruct (nodes h !! i); cbn; [|done].
      by rewrite decide_False.
  - exists (nodes h1). split; [reflexivity|]. intros i. rewrite H1.
    destruct (nodes h !! i); [|done]. cbn. unfold learned. by case_decide.
Qed.

Lemma learned_owns n addr room i a nd :
  nd_active nd = true → addr ∉ nd_addrs nd ∨ i ≠ n →
  owns a (learned n addr room i nd) = true ↔
    (owns a nd = true ∧ a ≠ addr) ∨ (a = addr ∧ i = n ∧ room = true).
Proof.
  intros Hact Hnew. unfold learned. destruct (decide (i = n)) as [->|Hi].
  - destruct Hnew as [Hnew|]; [|done]. destruct room; rewrite !owns_true.
    + cbn. rewrite elem_of_app, list_elem_of_singleton. split.
      * intros [_ [Hin| ->]]; [|by right]. left. split; [done|]. by intros ->.
      * intros [[[_ Hin] _]|[-> _]]; split; try done; [by left|by right].
    + split; [|by intros [[? _]|(_ & _ & ?)]]. intros [_ Hin]. left. split; [done|].
      by intros ->.
  - rewrite forget_addr_owns. split; [by left|]. intros [?|(_ & ? & _)]; done.
Qed.

(** An address the sender already has changes nothing. *)
Lemma node_add_addr_known (n : nat) addr nd h :
  nodes h !! n = Some nd → addr_is_zero addr = false → owns addr nd = true →
  node_add_addr (Z.of_nat n) addr h = Ok (tt, h, []).
Proof.
  intros Hnd Hz Hown. unfold node_add_addr. rewrite (if_false _ _ _ Hz). erewrite bind_silent.
  2: { apply node_at_ok. apply at_idx_Some. rewrite Nat2Z.id. split; [lia|done]. }
  rewrite if_true; [done|]. unfold owns in Hown. by apply andb_prop in Hown as [_ ?].
Qed.

(** Two tables in which the same slots own an address give the same node. *)
Lemma find_by_addr_same a l l' :
  addr_is_zero a = false → addr_unique l → addr_unique l' →
  (∀ i, (∃ x, l !! i = Some x ∧ owns a x = true) ↔ (∃ y, l' !! i = Some y ∧ owns a y = true)) →
  find_node_by_addr a l' = find_node_by_addr a l.
Proof.
  intros Ha Hu Hu' Hiff. destruct (find_idx (owns a) l) as [k|] eqn:Ek.
  - pose proof (find_idx_sat _ _ _ Ek) as Hk. transitivity (Z.of_nat k).
    + by apply find_by_addr_nat, Hiff.
    + symmetry. by apply find_by_addr_nat.
  - rewrite find_idx_None in Ek. transitivity (-1); [|symmetry; by apply find_by_addr_none].
    apply find_by_addr_none; [done|]. intros i y Hy. apply not_true_is_false. intros Ho.
    destruct (proj2 (Hiff i)) as (x & Hx & Hox); [by exists y|]. by rewrite (Ek i x Hx) in Hox.
Qed.

(** Learning an address as an update of the map. *)
Lemma node_add_addr_map (n : nat) (addr : list Z) (nd : node) (h : hub) :
  nodes h !! n = Some nd → addr_is_zero addr = false → addr_unique (nodes h) →
  Forall (λ x, nd_active x = true) (nodes h) →
  ∃ h', node_add_addr (Z.of_nat n) addr h = Ok (tt, h', []) ∧ addr_unique (nodes h') ∧
    find_node_by_addr addr (nodes h') =
      (if owns addr nd || (zlen (nd_addrs nd) <? MAX_ADDRS_PER_NODE) then Z.of_nat n else -1) ∧
    (∀ a, addr_is_zero a = false → a ≠ addr →
       find_node_by_addr a (nodes h') = find_node_by_addr a (nodes h)).
Proof.
  intros Hnd Hz Hu Hact. destruct (owns addr nd) eqn:Hown.
  { exists h. split; [by eapply node_add_addr_known|].
    split_and!; [done|by apply find_by_addr_nat; eauto|done]. }
  assert (nd_active nd = true) as Hnact by exact (Forall_lookup_1 _ _ _ _ Hact Hnd).
  assert (addr ∉ nd_addrs nd) as Hnew.
  { intros Hin. rewrite (proj2 (owns_true addr nd)) in Hown by done. done. }
  destruct (node_add_addr_run n addr nd h Hnd Hz Hnew) as (l & Er & Hl).
  set (room := zlen (nd_addrs nd) <? MAX_ADDRS_PER_NODE) in *.
  exists (set_nodes l h). cbn [nodes set_nodes].
  assert (∀ i a y, l !! i = Some y → owns a y = true →
    (∃ x, nodes h !! i = Some x ∧ owns a x = true ∧ a ≠ addr) ∨ (a = addr ∧ i = n ∧ room = true))
    as Hinv.
  { intros i a y Hy Ho. rewrite Hl in Hy. destruct (nodes h !! i) as [x|] eqn:Hx; [|done].
    injection Hy as <-. apply learned_owns in Ho as [[? ?]|?]; [left; by exists x|by right|..].
    - exact (Forall_lookup_1 _ _ _ _ Hact Hx).
    - destruct (decide (i = n)) as [->|]; [|by right]. left. congruence. }
  assert (addr_unique l) as Hu'.
  { intros a i j x y Hx Hy Hox Hoy.
    destruct (Hinv i a x Hx Hox) as [(x' & ? & ? & ?)|(? & -> & _)],
             (Hinv j a y Hy Hoy) as [(y' & ? & ? & ?)|(? & -> & _)]; try done.
    by apply (Hu a i j x' y'). }
  assert (∀ i a x, nodes h !! i = Some x → owns a x = true → a ≠ addr →
    ∃ y, l !! i = Some y ∧ owns a y = true) as Hfwd.
  { intros i a x Hx Ho Hne. rewrite Hl, Hx. eexists. split; [done|].
    apply learned_owns; [exact (Forall_lookup_1 _ _ _ _ Hact Hx)| |by left].
    destruct (decide (i = n)) as [->|]; [left; congruence|by right]. }
  split_and!; [done|done| |].
  - cbn [orb]. destruct room eqn:Hroom.
    + apply find_by_addr_nat; [done..|]. rewrite Hl, Hnd. eexists. split; [done|].
      apply learned_owns; [done|by left|by right].
    + apply find_by_addr_none; [done|]. intros i y Hy. apply not_true_is_false. intros Ho.
      by destruct (Hinv i addr y Hy Ho) as [(x & _ & _ & ?)|(_ & _ & ?)].
  - intros a Ha Hne. apply find_by_addr_same; [done..|]. intros i. split.
    + intros (x & Hx & Ho). by eapply Hfwd.
    + intros (y & Hy & Ho). destruct (Hinv i a y Hy Ho) as [(x & ? & ? & _)|[? _]]; [by exists x|done].
Qed.

(** C15: while every slot of the node table is active, learning an address is an
    update of the map from addresses to nodes: it is taken from whichever node had it and given to the sender, unless
    the sender already has eight, in which case it belongs to no node at all;
    every other address keeps its owner and no address has two. *)
Theorem node_add_addr_learns (n : nat) (addr : list Z) (nd : node) (h : hub) :
  nodes h !! n = Some nd → addr_is_zero addr = false → addr_unique (nodes h) →
  Forall (λ x, nd_active x = true) (nodes h) →
  ∃ h', node_add_addr (Z.of_nat n) addr h = Ok (tt, h', []) ∧ addr_unique (nodes h') ∧
    find_node_by_addr addr (nodes h') =
      (if owns addr nd || (zlen (nd_addrs nd) <? MAX_ADDRS_PER_NODE) then Z.of_nat n else -1) ∧
    (∀ a, addr_is_zero a = false → a ≠ addr →
       find_node_by_addr a (nodes h') = find_node_by_addr a (nodes h)).
Proof. apply node_add_addr_map. Qed.

Lemma node_add_addr_learns_witness :
  ∃ h', node_add_addr 0 [7; 2; 3; 4; 5; 6] demo_hub = Ok (tt, h', []) ∧ addr_unique (nodes h') ∧
    find_node_by_addr [7; 2; 3; 4; 5; 6] (nodes h') = 0 ∧
    (∀ a, addr_is_zero a = false → a ≠ [7; 2; 3; 4; 5; 6] →
       find_node_by_addr a (nodes h') = find_node_by_addr a (nodes demo_hub)).
Proof.
  apply (node_add_addr_learns 0 [7; 2; 3; 4; 5; 6]
    (node_named "a" 0 addr1) demo_hub).
  - reflexivity.
  - reflexivity.
  - intros a [|[|[|i]]] [|[|[|j]]] x y Hx Hy Ho Hp; try done;
      injection Hx as <-; injection Hy as <-;
      apply owns_true in Ho as [_ Ho%list_elem_of_singleton];
      apply owns_true in Hp as [_ Hp%list_elem_of_singleton];
      rewrite Ho in Hp; first [reflexivity|discriminate Hp].
  - by repeat constructor.
Defined.
