(* ===== verification/HubLink.v ===== *)
(** * Connections set up through the hub

    What handling one advertising frame does to the hub's tables: the sender's
    address is learned, a CONNECT_IND installs the route of its Access
    Address, and the fan-out changes nothing but counters and streams. *)

From Stdlib Require Import ZArith Lia Floats.SpecFloat.
From stdpp Require Import base list numbers option.
From S2P Require Import Prelude Wire Framing HubState HubTables HubModel HubIO HubRoute HubInv.
From S2P Require Import HubSpec HubStream HubTabProps.

(** ** The part of the tables that decides about routes *)

(** A node without its counters. *)
Definition standing (nd : node) : node :=
  set_nd_tx_pdus 0 (set_nd_last_channel 0 (set_nd_last_phy 0
    (set_nd_rx_dropped 0 (set_nd_rx_pdus 0 nd)))).

Record same_tables (h h' : hub) : Prop := SameTables {
  stb_nodes : map standing (nodes h') = map standing (nodes h);
  stb_conns : conns h' = conns h;
  stb_overrides : overrides h' = overrides h;
  stb_exponent : g_path_exponent h' = g_path_exponent h
}.
#[export] Instance same_tables_preorder : PreOrder same_tables.
Proof. split; [by split|]. intros ??? [] []. split; congruence. Qed.

(** Steps that leave them alone, as long as the kernel is calm. *)
Definition keeps {A} (m : HUB A) : Prop :=
  ∀ h a h' o, calm h → m h = Ok (a, h', o) → calm h' ∧ same_tables h h'.

Create HintDb keeps.

Lemma keeps_bind {A B} (m : HUB A) (f : A → HUB B) : keeps m → (∀ a, keeps (f a)) → keeps (m ≫= f).
Proof.
  intros Hm Hf h b h' o Hc (a & h1 & o1 & o2 & E1 & E2 & ->)%bind_inv.
  destruct (Hm _ _ _ _ Hc E1) as [Hc1 S1]. destruct (Hf a _ _ _ _ Hc1 E2) as [Hc2 S2].
  split; [done|by transitivity h1].
Qed.
Lemma keeps_ret {A} (a : A) : keeps (mret a : HUB A).
Proof. by intros h b h' o Hc [= <- <- <-]. Qed.
Lemma keeps_skip : keeps skip.
Proof. apply keeps_ret. Qed.
Lemma keeps_fail {A} f : keeps (fail f : HUB A).
Proof. done. Qed.
Lemma keeps_get : keeps get.
Proof. by intros h b h' o Hc [= <- <- <-]. Qed.
Lemma keeps_emit e : keeps (emit e).
Proof. by intros h b h' o Hc [= <- <- <-]. Qed.
Lemma keeps_if {A} (b : bool) (m k : HUB A) : keeps m → keeps k → keeps (if b then m else k).
Proof. by destruct b. Qed.
Lemma keeps_when b m : keeps m → keeps (when b m).
Proof. intros. destruct b; [done|apply keeps_ret]. Qed.
Lemma keeps_each {A} (l : list A) f : (∀ x, keeps (f x)) → keeps (for_each l f).
Proof. intros Hf. induction l; cbn; [apply keeps_ret|by apply keeps_bind]. Qed.
#[export] Hint Resolve keeps_bind keeps_ret keeps_skip keeps_fail keeps_get keeps_emit keeps_if keeps_when
  keeps_each : keeps.

Lemma keeps_rdn (l : list Z) off n : keeps (rdn l off n).
Proof. unfold rdn. case_decide; auto with keeps. Qed.
Lemma keeps_rd (l : list Z) i : keeps (rd l i).
Proof. unfold rd. case_decide; [|auto with keeps]. destruct (_ !! _); auto with keeps. Qed.
Lemma keeps_local_buf n l : keeps (local_buf n l).
Proof. unfold local_buf. case_decide; auto with keeps. Qed.
Lemma keeps_peer_at i : keeps (peer_at i).
Proof. unfold peer_at. apply keeps_bind; [apply keeps_get|]. intros h. destruct (at_idx _ _); auto with keeps. Qed.
Lemma keeps_node_at i : keeps (node_at i).
Proof. unfold node_at. apply keeps_bind; [apply keeps_get|]. intros h. destruct (at_idx _ _); auto with keeps. Qed.

Lemma keeps_modify f :
  (∀ h, henv (f h) = henv h ∧ same_tables h (f h)) → keeps (modify f).
Proof.
  intros Hf h a h' o Hc [= <- <- <-]. destruct (Hf h) as [He Hs]. split; [|done].
  unfold calm. by rewrite He.
Qed.
Lemma keeps_stat_upd f : keeps (stat_upd f).
Proof. by apply keeps_modify. Qed.
Lemma keeps_peer_upd i f : keeps (peer_upd i f).
Proof.
  intros h a h' o Hc. unfold peer_upd. rewrite bind_get.
  destruct (at_idx _ _); [|done]. by intros [= <- <- <-].
Qed.

Lemma standing_upd (l : list node) i f :
  (∀ nd, standing (f nd) = standing nd) → map standing (upd_idx i f l) = map standing l.
Proof.
  intros Hf. unfold upd_idx. apply list_eq. intros k. rewrite !list_lookup_fmap.
  destruct (decide (k = Z.to_nat i)) as [->|?].
  - rewrite list_lookup_alter_eq. destruct (l !! Z.to_nat i) as [nd|]; cbn; [|done]. by rewrite Hf.
  - by rewrite list_lookup_alter_ne.
Qed.
Lemma keeps_node_upd i f : (∀ nd, standing (f nd) = standing nd) → keeps (node_upd i f).
Proof.
  intros Hf h a h' o Hc. unfold node_upd. rewrite bind_get.
  destruct (at_idx _ _); [|done]. intros [= <- <- <-]. split; [done|]. split; [|done..].
  by apply standing_upd.
Qed.
#[export] Hint Resolve keeps_rdn keeps_rd keeps_local_buf keeps_peer_at keeps_node_at keeps_stat_upd
  keeps_peer_upd keeps_node_upd : keeps.

(** ** The fan-out *)

Lemma keeps_peer_buffer idx rem : keeps (peer_buffer idx rem).
Proof.
  unfold peer_buffer. apply keeps_bind; [auto with keeps|]. intros p h a h' o Hc.
  destruct (p_outbuf p) as [b|].
  { rewrite bind_ret. cbn [negb]. revert h a h' o Hc. apply keeps_if; auto with keeps. }
  destruct (c_malloc_calm h Hc) as (e & Em & He). rewrite bind_assoc. erewrite bind_silent by done.
  cbn [when]. rewrite bind_assoc. intros (u & h1 & o1 & o2 & E1 & E2 & _)%bind_inv.
  rewrite bind_ret in E2. cbn [negb] in E2.
  destruct (keeps_peer_upd _ _ _ _ _ _ He E1) as [Hc1 S1].
  enough (calm h' ∧ same_tables h1 h') as [? ?].
  { split; [done|]. transitivity (set_henv e h); [by split|by transitivity h1]. }
  revert Hc1 E2. apply keeps_if; auto with keeps.
Qed.

Lemma keeps_peer_send idx data : keeps (peer_send idx data).
Proof.
  unfold peer_send. apply keeps_bind; [auto with keeps|]. intros p.
  apply keeps_if; [auto with keeps|]. apply keeps_if; [|apply keeps_peer_buffer].
  intros h a h' o Hc. destruct (write_all_ok (p_fd p) data h) as (cs & todo & stop & e & Ew & _ & _ & Hcalm).
  destruct (Hcalm Hc) as [Hce Hhard]. erewrite bind_ok by exact Ew. cbn [fst snd].
  destruct stop; [|clear Hhard|done].
  - by intros [= <- <- <-].
  - destruct (peer_buffer idx todo (set_henv e h)) as [[[b h2] o2]|] eqn:Eb; [|done].
    intros [= <- <- <-]. destruct (keeps_peer_buffer _ _ _ _ _ _ Hce Eb) as [? [] ]. done.
Qed.
#[export] Hint Resolve keeps_peer_send : keeps.

Lemma keeps_deliver dst hdr src n r : keeps (deliver_to_peer dst hdr src n r).
Proof. unfold deliver_to_peer, pdu_bytes. auto 12 with keeps. Qed.
#[export] Hint Resolve keeps_deliver : keeps.

Section Fanout.
Context `{LM : Libm} (src : Z) (hdr : vbt_frame_hdr) (n : Z).

Lemma keeps_c_rand : keeps c_rand.
Proof using.
  intros h a h' o Hc. unfold c_rand. rewrite bind_get. destruct (e_rands _); by intros [= <- <- <-].
Qed.
Lemma keeps_propagate tx rx txp r : keeps (propagate tx rx txp r).
Proof using.
  unfold propagate. destruct tx as [tx|]; [|auto with keeps]. destruct rx as [rx|]; [|auto with keeps].
  apply keeps_if; [auto with keeps|]. apply keeps_bind.
  { unfold find_override. apply keeps_bind; [auto with keeps|]. intros h.
    destruct (find_idx _ _); cbn [negb]; auto with keeps. }
  intros i. apply keeps_bind; [auto with keeps|]. intros h. apply keeps_bind.
  - destruct (at_idx _ _) as [v|]; [|auto with keeps]. apply keeps_bind; [|auto with keeps].
    unfold loss_draw. apply keeps_if; [|auto with keeps]. apply keeps_bind; [apply keeps_c_rand|auto with keeps].
  - intros [r'|]; auto with keeps.
Qed.
Hint Resolve keeps_propagate : keeps.

Lemma keeps_deliver_to_node hd a dst m : keeps (deliver_to_node src hd n a dst m).
Proof using. unfold deliver_to_node, tx_node, drop_model. auto 12 with keeps. Qed.
Hint Resolve keeps_deliver_to_node : keeps.

Lemma keeps_for_peers f : (∀ i, keeps (f i)) → keeps (for_peers f).
Proof using. unfold for_peers. auto with keeps. Qed.
Lemma keeps_tap_one hd i : keeps (tap_one src hd n i).
Proof using. unfold tap_one. auto with keeps. Qed.
Lemma keeps_adv_one hd a i : keeps (adv_one src hd n a i).
Proof using. unfold adv_one. auto 12 with keeps. Qed.

(** What [forward_adv] does to the tables before it fans out. *)
Definition snooped (a : Z) (pdu : list Z) (h h' : hub) : Prop :=
  if Z.land (default 0 (pdu !! 0%nat)) VBT_ADV_PDU_TYPE_MASK =? VBT_CONNECT_IND
  then observe_connect_ind a pdu (zlen pdu) h = Ok (tt, h', [])
  else h' = h.

Lemma forward_adv_snoops a sp h h' o :
  hub_ok h → calm h → hdr_ok hdr → 2 ≤ n ≤ VBT_MAX_PDU_SIZE → idx_ok (num_nodes h) a →
  at_idx (peers h) src = Some sp → forward_adv src hdr n a h = Ok (tt, h', o) →
  ∃ h1, snooped a (slice (4 + VBT_HDR_SIZE) n (p_rxbuf sp)) h h1 ∧ sees h h1 ∧ same_tables h1 h'.
Proof using.
  intros Hok Hc Hhdr Hn Ha Hsp. pose proof (at_idx_Forall _ _ _ _ (hok_peers _ Hok) Hsp) as Hpok.
  pose proof (proj2 (pok_rxbuf _ _ Hpok)) as Hlen. set (pdu := slice _ _ _).
  assert (zlen pdu = n) as Hpl by by eapply pdu_len_n; [split; lia|].
  assert (pdu_bytes src n h = Ok (pdu, h, [])) as Hpdu.
  { unfold pdu_bytes. erewrite bind_silent by by apply peer_at_ok.
    unfold RECV_BUF_SIZE, VBT_RXBUF_SIZE, VBT_HDR_SIZE, VBT_MAX_PDU_SIZE in *.
    apply rdn_ok; unfold VBT_HDR_SIZE; lia. }
  destruct (pdu !! 0%nat) as [b0|] eqn:Hb0; [|apply lookup_ge_None in Hb0; unfold zlen in Hpl; lia].
  unfold forward_adv. rewrite (when_true _ (2 <=? n)) by lia. rewrite bind_assoc, (bind_silent _ _ _ _ _ Hpdu).
  rewrite bind_assoc, (bind_rd _ 0 b0) by done. intros ([] & h1 & o1 & o2 & E1 & E2 & _)%bind_inv.
  assert (snooped a pdu h h1 ∧ sees h h1 ∧ calm h1) as (Hs & Hse & Hc1).
  { unfold snooped. rewrite Hb0, Hpl. cbn [default from_option id]. destruct (_ =? VBT_CONNECT_IND); cbn [when] in E1.
    - pose proof (observe_silent a pdu n h Hok Ha) as Hs. unfold silent, wp in Hs. rewrite E1 in Hs.
      destruct Hs as (-> & _ & He & Hse); [apply Forall_take, Forall_drop, (pok_rxbuf _ _ Hpok)|lia|].
      split_and!; [done..|]. unfold calm. by rewrite He.
    - by injection E1 as <- <-. }
  exists h1. split; [done|]. split; [done|].
  assert (keeps (for_peers (adv_one src hdr n a);;
    stat_upd (λ s, set_stat_adv_forwarded (inc64 (stat_adv_forwarded s)) s))) as Hkp.
  { apply keeps_bind; [apply keeps_for_peers; intros; apply keeps_adv_one|auto with keeps]. }
  by eapply Hkp.
Qed.
End Fanout.

(** An advertising frame, step by step. *)
Lemma forward_adv_steps `{Libm} src hdr n sp h h' o :
  hub_ok h → calm h → hdr_ok hdr → 2 ≤ n ≤ VBT_MAX_PDU_SIZE → at_idx (peers h) src = Some sp →
  p_is_bridge sp = false → ll_type hdr = VBT_LL_ADV → forward_frame src hdr n h = Ok (tt, h', o) →
  ∃ h1 h2 h3, note_tx (p_node_idx sp) (set_ttl 8 hdr) h = Ok (tt, h1, []) ∧ same_tables h1 h2 ∧
    snooped (p_node_idx sp) (slice (4 + VBT_HDR_SIZE) n (p_rxbuf sp)) h2 h3 ∧ sees h2 h3 ∧ same_tables h3 h'.
Proof.
  intros Hok Hc Hhdr Hn Hsp Hbr Hty. unfold forward_frame. erewrite bind_silent by by apply peer_at_ok.
  cbv zeta. rewrite Hbr. cbn [hop]. intros ([] & h1 & o1 & o2 & E1 & E2 & _)%bind_inv.
  pose proof (pok_node _ _ (at_idx_Forall _ _ _ _ (hok_peers _ Hok) Hsp)) as Hsn.
  pose proof (note_tx_silent (p_node_idx sp) (set_ttl 8 hdr) h Hok Hsn) as Hs. unfold wp in Hs.
  rewrite E1 in Hs. destruct Hs as (-> & Hp1 & He1 & _).
  assert (hdr_ok (set_ttl 8 hdr)) as Hhdr' by (apply set_ttl_ok; [done|mlia]).
  assert (hub_ok h1 ∧ evolves h h1) as [Hh1 Hev1].
  { pose proof (note_tx_safe (set_ttl 8 hdr) Hhdr' (p_node_idx sp) h Hok Hsn) as Hs.
    unfold safe, wp in Hs. rewrite E1 in Hs. split; apply Hs. }
  assert (calm h1) as Hc1 by by unfold calm; rewrite He1.
  apply bind_inv in E2 as ([] & h2 & o3 & o4 & Etap & E2 & _).
  destruct (keeps_for_peers _ (keeps_tap_one _ _ _) _ _ _ _ Hc1 Etap) as [Hc2 S12].
  assert (hub_ok h2 ∧ evolves h1 h2) as [Hh2 Hev].
  { pose proof (for_peers_safe (tap_one src (set_ttl 8 hdr) n) h1 Hh1) as Hs. unfold safe, wp in Hs.
    rewrite Etap in Hs. enough (hub_ok h2 ∧ Forall ev_ok o3 ∧ evolves h1 h2) by tauto. apply Hs.
    intros i h'' Hh'' Hev Hi. apply tap_one_safe; try done; [split; lia|].
    rewrite (evo_peers _ _ Hev). unfold num_peers. rewrite Hp1. by eapply at_idx_lt. }
  destruct (evolves_at _ _ src sp Hev Hc1) as (sp2 & Hsp2 & Hk); [by rewrite Hp1|].
  change (ll_type (set_ttl 8 hdr)) with (ll_type hdr) in E2. rewrite Hty in E2. cbn [Z.eqb] in E2.
  rewrite if_true in E2 by done.
  destruct (forward_adv_snoops src _ n (p_node_idx sp) sp2 h2 h' o4 Hh2 Hc2 Hhdr' Hn) as (h3 & Hs3 & Hse & S3); try done.
  { unfold idx_ok in *. rewrite (evo_nodes _ _ Hev), (evo_nodes _ _ Hev1). done. }
  rewrite (kept_rxbuf _ _ Hk) in Hs3. by exists h1, h2, h3.
Qed.


(** ** Addresses *)

(** Every entry is in use and owns its addresses alone; so do Access Addresses. *)
Record addressed (h : hub) : Prop := Addressed {
  ad_active : Forall (λ nd, nd_active nd = true) (nodes h);
  ad_addrs : addr_unique (nodes h);
  ad_aas : aa_unique (conns h)
}.

Lemma standing_lookup l l' i nd :
  map standing l' = map standing l → l !! i = Some nd → ∃ nd', l' !! i = Some nd' ∧ standing nd' = standing nd.
Proof.
  intros E Hi. apply (f_equal (.!! i)) in E. rewrite !list_lookup_fmap, Hi in E.
  destruct (l' !! i) as [nd'|]; [|done]. apply (inj Some) in E. by exists nd'.
Qed.
Lemma owns_standing a nd nd' : standing nd' = standing nd → owns a nd' = owns a nd.
Proof.
  intros E. unfold owns. by rewrite (f_equal nd_active E : nd_active nd' = nd_active nd),
    (f_equal nd_addrs E : nd_addrs nd' = nd_addrs nd).
Qed.

Lemma find_by_addr_tables a h h' :
  same_tables h h' → find_node_by_addr a (nodes h') = find_node_by_addr a (nodes h).
Proof.
  intros [E _ _ _]. unfold find_node_by_addr. destruct (addr_is_zero a); [done|]. f_equal.
  assert (∀ l, find_idx (owns a) l = find_idx (owns a) (map standing l)) as Hs.
  { induction l as [|nd l IH]; [done|]. cbn [find_idx map].
    change (owns a (standing nd)) with (owns a nd). by rewrite IH. }
  by rewrite (Hs (nodes h')), (Hs (nodes h)), E.
Qed.

Lemma addressed_tables h h' : same_tables h h' → addressed h → addressed h'.
Proof.
  intros [En Ec _ _] [Ha Hu Hc]. split.
  - apply Forall_lookup_2. intros i nd Hi.
    destruct (standing_lookup _ _ _ _ (eq_sym En) Hi) as (nd0 & H0 & E0).
    rewrite <- (f_equal nd_active E0 : nd_active nd0 = nd_active nd).
    exact (Forall_lookup_1 _ _ _ _ Ha H0).
  - intros a i j x y Hx Hy Hox Hoy.
    destruct (standing_lookup _ _ _ _ (eq_sym En) Hx) as (x0 & Hx0 & Ex).
    destruct (standing_lookup _ _ _ _ (eq_sym En) Hy) as (y0 & Hy0 & Ey).
    rewrite <- (owns_standing a _ _ Ex) in Hox. rewrite <- (owns_standing a _ _ Ey) in Hoy.
    by apply (Hu a i j x0 y0).
  - by rewrite Ec.
Qed.

Lemma tables_sees h h' : same_tables h h' → sees h h'.
Proof.
  intros [En _ ? ?]. split; [|done..].
  assert (∀ l, map static l = map static (map standing l)) as Hs.
  { induction l as [|nd l IH]; [done|]. cbn. by rewrite IH. }
  by rewrite (Hs (nodes h')), (Hs (nodes h)), En.
Qed.

(** The sender of a frame is learned under the address in its header, if it
    has room for one. *)
Definition has_room (h : hub) (k : nat) (addr : list Z) : Prop :=
  ∃ nd, nodes h !! k = Some nd ∧ (owns addr nd = true ∨ zlen (nd_addrs nd) < MAX_ADDRS_PER_NODE).

Record learns (a : nat) (addr : list Z) (h h' : hub) : Prop := Learns {
  le_addressed : addressed h';
  le_view : view h h';
  le_found : has_room h a addr → find_node_by_addr addr (nodes h') = Z.of_nat a;
  le_others x : addr_is_zero x = false → x ≠ addr →
    find_node_by_addr x (nodes h') = find_node_by_addr x (nodes h)
}.

Lemma note_tx_learns (a : nat) hdr h :
  hub_ok h → addressed h → (a < length (nodes h))%nat → addr_is_zero (tx_addr hdr) = false →
  ∃ h', note_tx (Z.of_nat a) hdr h = Ok (tt, h', []) ∧ learns a (tx_addr hdr) h h'.
Proof.
  intros Hh Had [nd Hnd]%lookup_lt_is_Some_2 Hz. pose proof (lookup_lt_Some _ _ _ Hnd) as Hlt.
  assert (idx_ok (num_nodes h) (Z.of_nat a)) as Hidx by (unfold num_nodes, zlen; mlia).
  pose proof (note_tx_silent (Z.of_nat a) hdr h Hh Hidx) as Hsil. unfold wp in Hsil.
  unfold note_tx in *. rewrite when_true in * by lia.
  assert (at_idx (nodes h) (Z.of_nat a) = Some nd) as Hat.
  { apply at_idx_Some. rewrite Nat2Z.id. split; [lia|done]. }
  erewrite bind_silent in * by by apply (node_upd_ok _ nd).
  set (g := λ nd, set_nd_last_phy _ _) in *. set (h1 := set_nodes _ h) in *.
  assert (same_tables h h1) as S1 by (split; [by apply standing_upd|done..]).
  pose proof (addressed_tables _ _ S1 Had) as [Ha1 Hu1 Hc1].
  assert (nodes h1 !! a = Some (g nd)) as Hnd1.
  { cbn. unfold upd_idx. by rewrite Nat2Z.id, list_lookup_alter_eq, Hnd. }
  destruct (node_add_addr_map a (tx_addr hdr) (g nd) h1 Hnd1 Hz Hu1 Ha1) as (h' & E & Hu' & Hf & Hoth).
  rewrite E in Hsil. destruct Hsil as (_ & _ & _ & Hv). exists h'. split; [done|]. split.
  - split; [|done|by rewrite (vw_conns _ _ Hv); apply Had].
    apply Forall_lookup_2. intros i x Hx. pose proof (see_nodes _ _ (vw_sees _ _ Hv)) as En.
    apply (f_equal (.!! i)) in En. rewrite !list_lookup_fmap, Hx in En.
    destruct (nodes h !! i) as [x0|] eqn:Hx0; [|done]. apply (inj Some) in En.
    rewrite (f_equal nd_active En : nd_active x = nd_active x0).
    exact (Forall_lookup_1 _ _ _ _ (ad_active _ Had) Hx0).
  - done.
  - intros (nd0 & Hnd0 & Hroom). replace nd0 with nd in * by congruence. rewrite Hf.
    change (owns (tx_addr hdr) (g nd)) with (owns (tx_addr hdr) nd).
    change (nd_addrs (g nd)) with (nd_addrs nd).
    destruct Hroom as [->|Hr]; [done|]. rewrite (proj2 (Z.ltb_lt _ _)) by done. by rewrite orb_true_r.
  - intros x Hzx Hne. rewrite Hoth by done. by apply find_by_addr_tables.
Qed.
