(* ===== verification/HubRelay.v ===== *)
(** * An advertising frame through the hub

    One frame read from a station's socket, in whatever pieces: what the
    tables are afterwards, and what a station that hears the sender is to
    receive.  An advertisement teaches the hub the sender's address; a
    CONNECT_IND installs the route of the connection it opens. *)

From Stdlib Require Import ZArith Lia Floats.SpecFloat.
From stdpp Require Import base list numbers option.
From S2P Require Import Prelude Wire Framing LLInv LLLink HubState HubTables HubModel HubIO HubRoute HubInv.
From S2P Require Import HubSpec HubStream HubTabProps HubLink.

(** A hub whose kernel accepts what is written, without random losses. *)
Record medium (h : hub) : Prop := Medium {
  md_ok : hub_ok h;
  md_calm : calm h;
  md_fds : fds_distinct h;
  md_lossless : lossless h
}.

(** Peer [i] is a station, bound to node [k], with nothing half read. *)
Record station (h : hub) (i : Z) (p : peer) (k : nat) : Prop := Station {
  sn_peer : at_idx (peers h) i = Some p;
  sn_bridge : p_is_bridge p = false;
  sn_monitor : p_is_monitor p = false;
  sn_fd : 0 ≤ p_fd p;
  sn_rx : rx_bytes p = [];
  sn_node : p_node_idx p = Z.of_nat k;
  sn_back : ∃ nd, nodes h !! k = Some nd ∧ nd_peer_idx nd = i
}.

(** ** What survives the handling of a frame *)

Lemma rx_eq_tables src h h' : rx_eq src h h' → same_tables h h'.
Proof.
  intros E. split; [f_equal; symmetry; exact (f_equal nodes E)|symmetry; exact (f_equal HubState.conns E)|
    symmetry; exact (f_equal overrides E)|symmetry; exact (f_equal g_path_exponent E)].
Qed.

Lemma learns_before a x h h0 t : same_tables h h0 → learns a x h0 t → learns a x h t.
Proof.
  intros S [Ha [Hs Hc] Hf Ho]. split; [done| | |].
  - split; [transitivity h0; [by apply tables_sees|done]|]. by rewrite Hc, (stb_conns _ _ S).
  - intros (nd & Hnd & Hr). apply Hf. destruct (standing_lookup _ _ _ _ (stb_nodes _ _ S) Hnd) as (nd0 & H0 & E0).
    exists nd0. split; [done|]. rewrite (owns_standing x _ _ E0).
    by rewrite (f_equal nd_addrs E0 : nd_addrs nd0 = nd_addrs nd).
  - intros y Hy Hne. rewrite Ho by done. by apply find_by_addr_tables.
Qed.
Lemma learns_after a x h t t' : same_tables t t' → learns a x h t → learns a x h t'.
Proof.
  intros S [Ha Hv Hf Ho]. split.
  - by eapply addressed_tables.
  - transitivity t; [done|]. split; [by apply tables_sees|apply S].
  - intros Hr. rewrite (find_by_addr_tables _ _ _ S). by apply Hf.
  - intros y Hy Hne. rewrite (find_by_addr_tables _ _ _ S). by apply Ho.
Qed.

(** A peer whose buffers may have changed. *)
Record same_peer (p p' : peer) : Prop := SamePeer {
  sp_fd : p_fd p' = p_fd p;
  sp_bridge : p_is_bridge p' = p_is_bridge p;
  sp_monitor : p_is_monitor p' = p_is_monitor p;
  sp_node : p_node_idx p' = p_node_idx p
}.
#[export] Instance same_peer_preorder : PreOrder same_peer.
Proof. split; [by split|]. intros ??? [] []. split; congruence. Qed.

Lemma scrubbed_same p p' : scrub_peer p = scrub_peer p' → same_peer p p'.
Proof. intros (? & ? & ? & ? & _)%scrub_fields. by split. Qed.
Lemma kept_same p p' : kept p p' → same_peer p p'.
Proof. intros []. by split. Qed.

Lemma scrub_other src h h' i p :
  rx_eq src h h' → 0 ≤ src → i ≠ src → at_idx (peers h) i = Some p → at_idx (peers h') i = Some p.
Proof.
  intros E Hsrc Hi [H0 Hp]%at_idx_Some. apply (f_equal peers) in E. cbn in E.
  apply (f_equal (.!! Z.to_nat i)) in E. unfold upd_idx in E.
  rewrite !list_lookup_alter_ne, Hp in E by lia. apply at_idx_Some. done.
Qed.

(** From [h] over [h0] and [h1] to [h']: a message was read, handled, and
    taken from the buffer. *)
Section Through.
Context (src : Z) (h h0 h1 h' : hub).
Context (E0 : rx_eq src h h0) (Hc : calm h0) (Hev : evolves h0 h1) (E1 : rx_eq src h1 h').

Lemma through_at i p :
  at_idx (peers h) i = Some p → ∃ p', at_idx (peers h') i = Some p' ∧ same_peer p p'.
Proof using All.
  intros Hp. destruct (scrub_at _ _ _ _ _ E0 Hp) as (p0 & Hp0 & S0).
  destruct (evolves_at _ _ _ _ Hev Hc Hp0) as (p1 & Hp1 & K).
  destruct (scrub_at _ _ _ _ _ E1 Hp1) as (p' & Hp' & S1).
  exists p'. split; [done|]. transitivity p0; [by apply scrubbed_same|].
  transitivity p1; [by apply kept_same|by apply scrubbed_same].
Qed.
Lemma through_rx i p p' :
  0 ≤ src → i ≠ src → at_idx (peers h) i = Some p → at_idx (peers h') i = Some p' →
  rx_bytes p' = rx_bytes p.
Proof using All.
  intros Hs Hi Hp Hp'. pose proof (scrub_other _ _ _ _ _ E0 Hs Hi Hp) as Hp0.
  destruct (evolves_at _ _ _ _ Hev Hc Hp0) as (p1 & Hp1 & K).
  rewrite (scrub_other _ _ _ _ _ E1 Hs Hi Hp1) in Hp'. injection Hp' as <-.
  unfold rx_bytes. by rewrite (kept_rxbuf _ _ K), (kept_rxused _ _ K).
Qed.
Lemma through_fds : fds_distinct h → fds_distinct h'.
Proof using All.
  intros Hd. eapply fds_distinct_rx_eq; [done|]. eapply fds_distinct_kept; [apply (evo_kept _ _ Hev Hc)|].
  by eapply fds_distinct_rx_eq.
Qed.
End Through.

Lemma sees_back h h' k i :
  sees h h' → (∃ nd, nodes h !! k = Some nd ∧ nd_peer_idx nd = i) →
  ∃ nd, nodes h' !! k = Some nd ∧ nd_peer_idx nd = i.
Proof.
  intros Hs (nd & Hnd & Hi). pose proof (f_equal (.!! k) (see_nodes _ _ Hs)) as E.
  rewrite !list_lookup_fmap, Hnd in E. destruct (nodes h' !! k) as [nd'|]; [|done]. apply (inj Some) in E.
  exists nd'. split; [done|]. rewrite (f_equal nd_peer_idx E : nd_peer_idx nd' = nd_peer_idx nd). done.
Qed.

(** ** The frame *)

(** What station [dst] is to receive of an advertising frame. *)
Lemma to_peer_adv `{Libm} src sp hdr pdu h dst q r :
  at_idx (peers h) src = Some sp → p_is_bridge sp = false → ll_type hdr = VBT_LL_ADV → dst ≠ src →
  0 ≤ p_fd q → p_is_bridge q = false → p_is_monitor q = false → 0 ≤ p_node_idx q →
  heard h hdr (p_node_idx sp) (p_node_idx q) = Some r →
  to_peer h src hdr pdu dst q = [image (set_ttl 8 hdr) pdu r].
Proof.
  intros Hsp Hbr Hty Hne Hfd Hqb Hqm Hqn Hr. unfold to_peer, hop. rewrite Hsp, Hbr. cbn [set_ttl set_flags ll_type].
  rewrite Hty. cbn [Z.eqb]. unfold tap_frames, adv_frames, heard_frames.
  change (heard h (set_ttl 8 hdr) ?a ?b) with (heard h hdr a b).
  rewrite Hqm, Hqb, Hr, andb_false_r, (proj2 (Z.eqb_neq _ _) Hne).
  rewrite (proj2 (Z.ltb_ge (p_fd q) 0)), (proj2 (Z.ltb_ge (p_node_idx q) 0)) by done. done.
Qed.
Lemma to_peer_self `{Libm} src sp hdr pdu h q :
  at_idx (peers h) src = Some sp → p_is_bridge sp = false → ll_type hdr = VBT_LL_ADV →
  to_peer h src hdr pdu src q = [].
Proof.
  intros Hsp Hbr Hty. unfold to_peer, hop. rewrite Hsp, Hbr. cbn [set_ttl set_flags ll_type]. rewrite Hty.
  cbn [Z.eqb]. unfold tap_frames, adv_frames. by rewrite Z.eqb_refl.
Qed.

(** The header a receiver finds. *)
Record received (hdr hdr' : vbt_frame_hdr) : Prop := Received {
  rv_ok : hdr_ok hdr';
  rv_magic : magic hdr' = magic hdr;
  rv_len : pdu_len hdr' = pdu_len hdr;
  rv_air : same_air hdr hdr'
}.
Lemma image_received hdr pdu r :
  hdr_ok hdr → ∃ hdr', received hdr hdr' ∧ image (set_ttl 8 hdr) pdu r = wire (frame_payload hdr' pdu).
Proof.
  intros Hh. exists (set_rssi (s8 r) (set_ttl 8 hdr)).
  assert (hdr_ok (set_rssi (s8 r) (set_ttl 8 hdr))) as Hok.
  { apply set_rssi_ok; [apply set_ttl_ok; [done|mlia]|apply s8_range]. }
  split; [by split|]. symmetry. by apply wire_frame.
Qed.
Lemma frame_ok_pdu hdr pdu : frame_ok hdr pdu → bytes_ok pdu ∧ 2 ≤ zlen pdu ≤ 255.
Proof.
  intros (_ & _ & _ & _ & b0 & body & -> & Hz & Hb0 & Hb). rewrite zlen_app. change (zlen [b0; zlen body]) with 2.
  pose proof (zlen_nonneg body). split; [|lia]. apply Forall_app_2; [|done]. forall_cons; [done|mlia].
Qed.

Section Relay.
Context `{Libm} (h : hub) (src dst : Z) (sp q : peer) (a b : nat) (hdr : vbt_frame_hdr) (pdu : list Z) (r : Z).
Context (Hm : medium h) (Had : addressed h) (Hsrc : station h src sp a) (Hdst : station h dst q b).
Context (Hne : dst ≠ src) (Hq : backlog q = []) (Hf : frame_ok hdr pdu) (Hty : ll_type hdr = VBT_LL_ADV).
Context (Hz : addr_is_zero (tx_addr hdr) = false) (Hr : heard h hdr (Z.of_nat a) (Z.of_nat b) = Some r).

(** The tables. *)
Lemma relay_tables ns :
  Forall (λ n, 0 < n)%nat ns → (length (frame_bytes hdr pdu) ≤ length ns)%nat →
  ∃ h' o t1 t2 sp' q', recv_all src ns (frame_bytes hdr pdu) h = Ok ([], h', o) ∧
    learns a (tx_addr hdr) h t1 ∧ snooped (Z.of_nat a) pdu t1 t2 ∧ sees t1 t2 ∧ same_tables t2 h' ∧
    hub_ok h' ∧ calm h' ∧ fds_distinct h' ∧
    at_idx (peers h') src = Some sp' ∧ same_peer sp sp' ∧ rx_bytes sp' = [] ∧
    at_idx (peers h') dst = Some q' ∧ same_peer q q' ∧ rx_bytes q' = [].
Proof using All.
  intros Hns Hnl. destruct (frame_ok_pdu _ _ Hf) as [Hb Hl]. destruct Hf as (Hh & Hmg & _ & Hlen & _).
  destruct Hm as [Hok Hc Hfds Hll], Hsrc as [Hsp Hsb _ _ Hsrx Hsn Hback], Hdst as [Hqp _ _ _ Hqrx _ _].
  destruct (recv_frame_run src ns hdr pdu sp h) as (h0 & p0 & h1 & h' & sp' & o & Hrun & Hh' & Hc' & E0 &
    Hh0 & Hc0 & Hp0 & Hpdu & Hmsg & E1 & Hsp' & Hrx'); try done.
  { unfold VBT_MAX_PDU_SIZE. lia. }
  assert (0 ≤ src < num_peers h0) as Hsrc0 by by eapply at_idx_lt.
  assert (msg_len_ok (zlen pdu)) as Hml by (split; unfold VBT_MAX_PDU_SIZE; lia).
  assert (evolves h0 h1) as Hev.
  { pose proof (forward_frame_safe src hdr (zlen pdu) h0 Hh0 Hh Hml Hsrc0) as Hs. unfold safe, wp in Hs.
    rewrite Hmsg in Hs. apply Hs. }
  destruct (scrub_at _ _ _ _ _ E0 Hsp) as (p0' & Hp0' & S0). replace p0' with p0 in * by congruence.
  apply scrubbed_same in S0 as [_ Sb _ Sn].
  destruct (forward_adv_steps src hdr (zlen pdu) p0 h0 h1 o) as (h2 & h3 & h4 & En & S23 & Hsnoop & Hse & S4); try done.
  { unfold VBT_MAX_PDU_SIZE. lia. }
  { by rewrite Sb. }
  rewrite Hpdu, Sn, Hsn in Hsnoop. rewrite Sn, Hsn in En. pose proof (rx_eq_tables _ _ _ E0) as S0.
  destruct Hback as (nd & Hnd & _).
  destruct (note_tx_learns a (set_ttl 8 hdr) h0) as (h2' & En' & Hle); try done.
  { by eapply addressed_tables. }
  { apply lookup_lt_Some in Hnd. pose proof (f_equal length (stb_nodes _ _ S0)) as El.
    rewrite !length_map in El. by rewrite El. }
  rewrite En in En'. injection En' as <-.
  destruct (through_at src h h0 h1 h' E0 Hc0 Hev E1 src sp Hsp) as (sp'' & Hsp'' & Ssp).
  replace sp'' with sp' in * by congruence.
  destruct (through_at src h h0 h1 h' E0 Hc0 Hev E1 dst q Hqp) as (q' & Hq' & Sq).
  exists h', o, h3, h4, sp', q'. split_and!; try done.
  - eapply learns_after; [done|]. by eapply learns_before.
  - etransitivity; [done|]. by eapply rx_eq_tables.
  - by eapply (through_fds src h h0 h1 h').
  - rewrite (through_rx src h h0 h1 h' E0 Hc0 Hev E1 dst q q'); [done|lia|done..].
Qed.

(** The streams. *)
Lemma relay_streams ns h' o sp' q' :
  Forall (λ n, 0 < n)%nat ns → (length (frame_bytes hdr pdu) ≤ length ns)%nat →
  recv_all src ns (frame_bytes hdr pdu) h = Ok ([], h', o) →
  at_idx (peers h') src = Some sp' → at_idx (peers h') dst = Some q' →
  written (p_fd sp) o ++ backlog sp' = backlog sp ∧
  ∃ hdr', received hdr hdr' ∧ written (p_fd q) o ++ backlog q' = wire (frame_payload hdr' pdu).
Proof using All.
  intros Hns Hnl Hrun Hsp' Hq'. destruct (frame_ok_pdu _ _ Hf) as [Hb Hl]. destruct Hf as (Hh & Hmg & _ & Hlen & _).
  destruct Hm as [Hok Hc Hfds Hll], Hsrc as [Hsp Hsb _ Hsfd Hsrx Hsn _], Hdst as [Hqp Hqb Hqm Hqf _ Hqn _].
  destruct (recv_frame_lands src ns hdr pdu sp h) as (h'' & o' & Hrun' & _ & Hto); try done.
  { unfold VBT_MAX_PDU_SIZE. lia. }
  rewrite Hrun in Hrun'. injection Hrun' as <- <-. split.
  - destruct (Hto src sp Hsp Hsfd) as (p & Hp & _ & fs & Hsub & He & _). replace p with sp' in * by congruence.
    rewrite (to_peer_self src sp) in Hsub by done. apply sublist_nil_r in Hsub as ->. by rewrite app_nil_r in He.
  - destruct (Hto dst q Hqp Hqf) as (p & Hp & _ & fs & _ & He & Hall). replace p with q' in * by congruence.
    rewrite (to_peer_adv src sp hdr pdu h dst q r) in Hall; try done; [|lia|by rewrite Hsn, Hqn].
    destruct (image_received hdr pdu r Hh) as (hdr' & Hrv & Himg). exists hdr'. split; [done|].
    rewrite Hq, Himg in *. cbn [concat app] in *. rewrite app_nil_r in Hall. rewrite Hall in He.
    + rewrite He. cbn. by rewrite app_nil_r.
    + rewrite zlen_wire, zlen_frame_payload by apply Hrv. unfold SEND_BUF_SIZE, VBT_HDR_SIZE.
      change (zlen []) with 0. lia.
Qed.

(** Both, for a hub whose tables stay well-formed. *)
Record relayed (h' : hub) (sp' q' : peer) (hdr' : vbt_frame_hdr) (o : list ev) : Prop := Relayed {
  rl_medium : medium h';
  rl_sees : sees h h';
  rl_src : station h' src sp' a;
  rl_src_fd : p_fd sp' = p_fd sp;
  rl_src_stream : written (p_fd sp) o ++ backlog sp' = backlog sp;
  rl_dst : station h' dst q' b;
  rl_dst_fd : p_fd q' = p_fd q;
  rl_hdr : received hdr hdr';
  rl_dst_stream : written (p_fd q) o ++ backlog q' = wire (frame_payload hdr' pdu)
}.

Lemma relay_frame ns :
  Forall (λ n, 0 < n)%nat ns → (length (frame_bytes hdr pdu) ≤ length ns)%nat →
  ∃ h' o t1 t2 sp' q' hdr', recv_all src ns (frame_bytes hdr pdu) h = Ok ([], h', o) ∧
    relayed h' sp' q' hdr' o ∧
    learns a (tx_addr hdr) h t1 ∧ snooped (Z.of_nat a) pdu t1 t2 ∧ same_tables t2 h'.
Proof using All.
  intros Hns Hnl. destruct (relay_tables ns Hns Hnl) as (h' & o & t1 & t2 & sp' & q' & Hrun & Hle & Hsn & Hse &
    S & Hok & Hc & Hfd & Hsp & [E1 E2 E3 E4] & Hrx1 & Hqp & [F1 F2 F3 F4] & Hrx2).
  destruct (relay_streams ns h' o sp' q' Hns Hnl Hrun Hsp Hqp) as [Hs1 (hdr' & Hrv & Hs2)].
  assert (sees h h') as Hsee.
  { transitivity t1; [apply Hle|]. transitivity t2; [done|by apply tables_sees]. }
  exists h', o, t1, t2, sp', q', hdr'. split; [done|]. split_and!; try done. split; try done.
  - split; try done. unfold lossless. rewrite (see_overrides _ _ Hsee). apply Hm.
  - destruct Hsrc. split; try congruence. by eapply sees_back.
  - destruct Hdst. split; try congruence. by eapply sees_back.
Qed.

(** An advertisement. *)
Lemma relay_advert ns :
  (Z.land (default 0 (pdu !! 0%nat)) VBT_ADV_PDU_TYPE_MASK =? VBT_CONNECT_IND) = false →
  Forall (λ n, 0 < n)%nat ns → (length (frame_bytes hdr pdu) ≤ length ns)%nat →
  ∃ h' o sp' q' hdr', recv_all src ns (frame_bytes hdr pdu) h = Ok ([], h', o) ∧
    relayed h' sp' q' hdr' o ∧ learns a (tx_addr hdr) h h'.
Proof using All.
  intros Hb0 Hns Hnl. destruct (relay_frame ns Hns Hnl) as (h' & o & t1 & t2 & sp' & q' & hdr' & Hrun & Hrl &
    Hle & Hsn & S). unfold snooped in Hsn. rewrite Hb0 in Hsn. subst t2.
  exists h', o, sp', q', hdr'. split_and!; [done..|]. by eapply learns_after.
Qed.

(** A connection request: the route leads from the sender to the owner of the
    advertiser's address. *)
Lemma relay_connect ns :
  let aa := le_join (slice VBT_CONNIND_AA_OFF 4 pdu) in
  let adva := slice VBT_CONNIND_ADVA_OFF 6 pdu in
  (Z.land (default 0 (pdu !! 0%nat)) VBT_ADV_PDU_TYPE_MASK =? VBT_CONNECT_IND) = true →
  18 ≤ zlen pdu → aa_valid aa = true → conns_full (conns h) = false →
  addr_is_zero adva = false → adva ≠ tx_addr hdr →
  Forall (λ n, 0 < n)%nat ns → (length (frame_bytes hdr pdu) ≤ length ns)%nat →
  ∃ h' o sp' q' hdr', recv_all src ns (frame_bytes hdr pdu) h = Ok ([], h', o) ∧
    relayed h' sp' q' hdr' o ∧ addressed h' ∧
    endpoints (conns h') aa = Some (Z.of_nat a, find_node_by_addr adva (nodes h)).
Proof using All.
  intros aa adva Hb0 Hl Hv Hroom Hza Hnea Hns Hnl.
  destruct (relay_frame ns Hns Hnl) as (h' & o & t1 & t2 & sp' & q' & hdr' & Hrun & Hrl & Hle & Hsn & S).
  unfold snooped in Hsn. rewrite Hb0 in Hsn. pose proof (vw_conns _ _ (le_view _ _ _ _ Hle)) as Ec.
  destruct (observe_inserts t1 (Z.of_nat a) pdu (zlen pdu)) as (t2' & E & Hu & En & _ & He & _); try done.
  { apply Hle. }
  rewrite Hsn in E. injection E as <-. rewrite Ec, Hroom, andb_false_r in He.
  exists h', o, sp', q', hdr'. split_and!; [done..| |].
  - apply (addressed_tables t2); [done|]. destruct (le_addressed _ _ _ _ Hle) as [H1 H2 _].
    split; [by rewrite En..|done].
  - rewrite (stb_conns _ _ S). fold aa adva in He. rewrite He. do 2 f_equal.
    by apply (le_others _ _ _ _ Hle).
Qed.
End Relay.

#[global] Arguments rl_medium {_ _ _ _ _ _ _ _ _ _ _ _ _ _} _.
#[global] Arguments rl_sees {_ _ _ _ _ _ _ _ _ _ _ _ _ _} _.
#[global] Arguments rl_src {_ _ _ _ _ _ _ _ _ _ _ _ _ _} _.
#[global] Arguments rl_src_fd {_ _ _ _ _ _ _ _ _ _ _ _ _ _} _.
#[global] Arguments rl_src_stream {_ _ _ _ _ _ _ _ _ _ _ _ _ _} _.
#[global] Arguments rl_dst {_ _ _ _ _ _ _ _ _ _ _ _ _ _} _.
#[global] Arguments rl_dst_fd {_ _ _ _ _ _ _ _ _ _ _ _ _ _} _.
#[global] Arguments rl_hdr {_ _ _ _ _ _ _ _ _ _ _ _ _ _} _.
#[global] Arguments rl_dst_stream {_ _ _ _ _ _ _ _ _ _ _ _ _ _} _.
