(* ===== verification/HubFlow.v ===== *)
(** * A flow of data PDUs through the hub

    Data PDUs of a connection leave the route they take as it is, so one can
    follow the other: a read from the sender's socket, of any length, handles
    the PDUs it completes and appends each that fits to the stream of the
    receiver; a flush moves bytes of that stream from the backlog to the
    socket. *)

From Stdlib Require Import ZArith Lia Floats.SpecFloat.
From stdpp Require Import base list numbers option.
From S2P Require Import Prelude Wire Framing LLInv LLLink HubState HubTables HubModel HubIO HubRoute HubIds HubInv.
From S2P Require Import HubSpec HubStream HubTabProps HubLink HubRelay.

(** ** What a data PDU leaves alone *)

(** A connection without its counter. *)
Definition bare (c : conn) : conn := set_cn_pdus 0 c.

Record same_paths (h h' : hub) : Prop := SamePaths {
  pt_sees : sees h h';
  pt_conns : map bare (conns h') = map bare (conns h)
}.
#[export] Instance same_paths_preorder : PreOrder same_paths.
Proof. split; [by split|]. intros h1 h2 h3 [] []. split; [by transitivity h2|congruence]. Qed.

Lemma view_paths h h' : view h h' → same_paths h h'.
Proof. intros [? Hc]. split; [done|by rewrite Hc]. Qed.
Lemma tables_paths h h' : same_tables h h' → same_paths h h'.
Proof. intros S. split; [by apply tables_sees|by rewrite (stb_conns _ _ S)]. Qed.

Lemma at_idx_map {A B} (f : A → B) l i : at_idx (map f l) i = f <$> at_idx l i.
Proof. unfold at_idx. case_decide; [|done]. apply list_lookup_fmap. Qed.

Lemma find_conn_bare aa l : find_conn aa (map bare l) = find_conn aa l.
Proof.
  unfold find_conn. destruct (_ || _); [done|]. f_equal.
  induction l as [|c l IH]; [done|]. cbn [map find_idx]. change (live_aa aa (bare c)) with (live_aa aa c). by rewrite IH.
Qed.

Lemma conn_route_paths hdr h h' a : same_paths h h' → conn_route hdr h' a = conn_route hdr h a.
Proof.
  intros [Hs Hc]. unfold conn_route.
  rewrite <- (find_conn_bare _ (conns h')), <- (find_conn_bare _ (conns h)), Hc.
  set (i := find_conn _ _). pose proof (f_equal (λ l, at_idx l i) Hc) as E. cbn beta in E. rewrite !at_idx_map in E.
  destruct (at_idx (conns h') i) as [c'|], (at_idx (conns h) i) as [c|]; try done. apply (inj Some) in E.
  assert (opposite a c' = opposite a c) as Eo.
  { unfold opposite. by rewrite (f_equal cn_node_a E : cn_node_a c' = cn_node_a c),
      (f_equal cn_node_b E : cn_node_b c' = cn_node_b c). }
  cbn [mbind option_bind]. rewrite Eo.
  pose proof (f_equal (λ l, at_idx l (opposite a c)) (see_nodes _ _ Hs)) as En. cbn beta in En.
  rewrite !at_idx_static in En.
  destruct (at_idx (nodes h') _) as [x|], (at_idx (nodes h) _) as [y|]; try done. apply (inj Some) in En.
  cbn [mbind option_bind]. by rewrite (f_equal nd_active En : nd_active x = nd_active y),
    (f_equal nd_peer_idx En : nd_peer_idx x = nd_peer_idx y).
Qed.

Section Data.
Context `{LM : Libm} (src : Z) (hdr : vbt_frame_hdr) (n : Z).

Lemma keeps_bridge_one i : keeps (bridge_one src hdr n i).
Proof using. unfold bridge_one. auto with keeps. Qed.

Lemma forward_data_paths a h h' o :
  calm h → forward_data src hdr n a h = Ok (tt, h', o) → same_paths h h'.
Proof using.
  intros Hc. unfold forward_data. rewrite bind_get. cbv zeta. destruct (find_conn _ _ <? 0).
  { intros E. by eapply tables_paths, (keeps_for_peers _ keeps_bridge_one). }
  unfold conn_at. rewrite bind_assoc, bind_get. destruct (at_idx (conns h) _) as [c|] eqn:Ec; [|done].
  rewrite bind_ret. erewrite bind_silent by by eapply conn_upd_ok. set (h1 := set_conns _ h).
  assert (same_paths h h1) as H1.
  { split; [done|]. cbn. unfold upd_idx. apply list_eq. intros k. rewrite !list_lookup_fmap.
    destruct (decide (k = Z.to_nat (find_conn (access_addr hdr) (conns h)))) as [->|?].
    - rewrite list_lookup_alter_eq. by destruct (conns h !! _).
    - by rewrite list_lookup_alter_ne. }
  intros E. transitivity h1; [done|]. apply tables_paths. revert E.
  assert (keeps (when (0 <=? other_end a c) (nd ← node_at (other_end a c);
    when (nd_active nd && (0 <=? nd_peer_idx nd)) (deliver_to_node src hdr n a (nd_peer_idx nd) (other_end a c)));;
    for_peers (bridge_one src hdr n);;
    stat_upd (λ s, set_stat_data_forwarded (inc64 (stat_data_forwarded s)) s))) as Hk.
  { apply keeps_bind; [|intros _; apply keeps_bind; [apply (keeps_for_peers _ keeps_bridge_one)|auto with keeps]].
    apply keeps_when, keeps_bind; [auto with keeps|]. intros nd. apply keeps_when, keeps_deliver_to_node. }
  intros E. by eapply Hk.
Qed.

End Data.

Lemma data_frame_paths `{Libm} src hdr n sp h h' o :
  hub_ok h → calm h → at_idx (peers h) src = Some sp → p_is_bridge sp = false → ll_type hdr = VBT_LL_DATA →
  forward_frame src hdr n h = Ok (tt, h', o) → same_paths h h'.
Proof.
  intros Hok Hc Hsp Hbr Hty. unfold forward_frame. erewrite bind_silent by by apply peer_at_ok.
  cbv zeta. rewrite Hbr. cbn [hop]. intros ([] & h1 & o1 & o2 & E1 & E2 & _)%bind_inv.
  pose proof (pok_node _ _ (at_idx_Forall _ _ _ _ (hok_peers _ Hok) Hsp)) as Hsn.
  pose proof (note_tx_silent (p_node_idx sp) (set_ttl 8 hdr) h Hok Hsn) as Hs. unfold wp in Hs.
  rewrite E1 in Hs. destruct Hs as (_ & _ & He1 & Hv).
  assert (calm h1) as Hc1 by by unfold calm; rewrite He1.
  apply bind_inv in E2 as ([] & h2 & o3 & o4 & Etap & E2 & _).
  destruct (keeps_for_peers _ (keeps_tap_one _ _ _) _ _ _ _ Hc1 Etap) as [Hc2 S12].
  change (ll_type (set_ttl 8 hdr)) with (ll_type hdr) in E2. rewrite Hty in E2. cbn [Z.eqb] in E2.
  rewrite if_false, if_true in E2 by done.
  transitivity h1; [by apply view_paths|]. transitivity h2; [by apply tables_paths|].
  by eapply forward_data_paths.
Qed.

(** ** The path of a flow *)

(** What waits for peer [i]. *)
Definition out_of (h : hub) (i : Z) : list Z := default [] (backlog <$> at_idx (peers h) i).

(** Frames with the headers [F] that peer [src], behind node [a], sends are
    routed to peer [dst], behind node [b], on the descriptor [fd]. *)
Record path `{Libm} (F : vbt_frame_hdr → Prop) (src dst a b fd : Z) (h : hub) : Prop := Path {
  pa_medium : medium h;
  pa_src : ∃ sp, at_idx (peers h) src = Some sp ∧ p_is_bridge sp = false ∧ p_node_idx sp = a;
  pa_dst : ∃ q, at_idx (peers h) dst = Some q ∧ p_fd q = fd ∧ p_is_bridge q = false ∧ p_is_monitor q = false;
  pa_fd : 0 ≤ fd;
  pa_route hdr : F hdr → conn_route hdr h a = Some (dst, b);
  pa_heard hdr : F hdr → ∃ r, heard h hdr a b = Some r
}.

Section Path.
Context `{LM : Libm} (F : vbt_frame_hdr → Prop) (src dst a b fd : Z).
Abbreviation on_path := (path F src dst a b fd).

Lemma path_moves h h' :
  on_path h → hub_ok h' → calm h' → fds_distinct h' → same_paths h h' →
  (∀ i p, at_idx (peers h) i = Some p → ∃ p', at_idx (peers h') i = Some p' ∧ same_peer p p') →
  on_path h'.
Proof using.
  intros [[_ _ _ Hl] (sp & Hsp & Hbr & Hn) (q & Hq & Hfd & Hqb & Hqm) H0 Hroute Hheard] Hok Hc Hd Hp Hat. split.
  - split; try done. unfold lossless. by rewrite (see_overrides _ _ (pt_sees _ _ Hp)).
  - destruct (Hat _ _ Hsp) as (sp' & ? & []). exists sp'. split; [done|]. by split; congruence.
  - destruct (Hat _ _ Hq) as (q' & ? & []). exists q'. split; [done|]. by split_and!; congruence.
  - done.
  - intros hdr HF. rewrite (conn_route_paths hdr h h' a Hp). by apply Hroute.
  - intros hdr HF. rewrite (heard_sees hdr h h' a b (pt_sees _ _ Hp)). by apply Hheard.
Qed.

(** The receive buffer of the sender does not matter. *)
Lemma path_rx h h' : on_path h → rx_eq src h h' → hub_ok h' → calm h' → on_path h'.
Proof using.
  intros Hp E Hok Hc. apply (path_moves h); try done.
  - eapply fds_distinct_rx_eq; [done|]. apply Hp.
  - by apply tables_paths, (rx_eq_tables src).
  - intros i p (p' & Hp' & S)%(scrub_at _ _ _ _ _ E). exists p'. split; [done|]. by apply scrubbed_same.
Qed.
Lemma out_of_rx h h' i : rx_eq src h h' → out_of h' i = out_of h i.
Proof using.
  intros E. unfold out_of. destruct (at_idx (peers h) i) as [p|] eqn:Hp.
  - destruct (scrub_at _ _ _ _ _ E Hp) as (p' & -> & (_ & _ & _ & _ & Eo)%scrub_fields). cbn.
    unfold backlog. by rewrite Eo.
  - destruct (at_idx (peers h') i) as [p'|] eqn:Hp'; [|done].
    destruct (scrub_at _ h' h _ _ ltac:(by symmetry) Hp') as (p & ? & _). congruence.
Qed.

End Path.

(** ** Frames and what becomes of them *)

Definition frame : Type := vbt_frame_hdr * list Z.
Definition payload_of (f : frame) : list Z := frame_payload (fst f) (snd f).
Definition on_wire (fs : list frame) : list Z := concat (map wire (map payload_of fs)).

(** [es] are frames of [fs], in their order, as a receiver gets them. *)
Inductive carried : list frame → list frame → Prop :=
| carried_nil : carried [] []
| carried_keep hdr hdr' pdu es fs :
    received hdr hdr' → carried es fs → carried ((hdr', pdu) :: es) ((hdr, pdu) :: fs)
| carried_drop f es fs : carried es fs → carried es (f :: fs).

Lemma carried_app es fs es' fs' : carried es fs → carried es' fs' → carried (es ++ es') (fs ++ fs').
Proof. induction 1; intros; cbn; eauto using carried. Qed.
Lemma carried_pdus es fs : carried es fs → sublist (map snd es) (map snd fs).
Proof. induction 1; cbn; [done|by apply sublist_skip|by apply sublist_cons]. Qed.
Lemma carried_length es fs : carried es fs → (length es ≤ length fs)%nat.
Proof. induction 1; cbn; lia. Qed.

Lemma on_wire_app fs fs' : on_wire (fs ++ fs') = on_wire fs ++ on_wire fs'.
Proof. unfold on_wire. by rewrite !map_app, concat_app. Qed.
Lemma zlen_on_wire_cons hdr pdu fs : hdr_ok hdr → zlen (on_wire ((hdr, pdu) :: fs)) = 48 + zlen pdu + zlen (on_wire fs).
Proof.
  intros Hh. unfold on_wire. cbn [map concat]. rewrite zlen_app, zlen_wire. unfold payload_of at 1. cbn [fst snd].
  rewrite zlen_frame_payload by done. unfold VBT_HDR_SIZE. lia.
Qed.

Section Flow.
Context `{LM : Libm} (F : vbt_frame_hdr → Prop) (src dst a b fd : Z).
Context (HF : ∀ hdr, F hdr → ll_type hdr = VBT_LL_DATA).
Abbreviation on_path := (path F src dst a b fd).

Definition in_flow (f : frame) : Prop := F (fst f) ∧ frame_ok (fst f) (snd f).

(** One frame, where it lies in the receive buffer. *)
Lemma frame_flows hdr pdu h p0 h' o :
  on_path h → F hdr → frame_ok hdr pdu → at_idx (peers h) src = Some p0 →
  slice (4 + VBT_HDR_SIZE) (zlen pdu) (p_rxbuf p0) = pdu → forward_frame src hdr (zlen pdu) h = Ok (tt, h', o) →
  on_path h' ∧ ∃ es, carried es [(hdr, pdu)] ∧ written fd o ++ out_of h' dst = out_of h dst ++ on_wire es ∧
    (zlen (out_of h dst) + zlen (on_wire [(hdr, pdu)]) ≤ SEND_BUF_SIZE → length es = 1%nat).
Proof using HF.
  intros Hp Hh Hf Hp0 Hpdu Hrun. destruct (frame_ok_pdu _ _ Hf) as [Hb Hl]. destruct Hf as (Hhdr & _ & _ & Hlen & _).
  pose proof Hp as [[Hok Hc Hfd Hll] (sp & Hsp & Hbr & Hn) (q & Hq & Hqf & Hqb & Hqm) H0 Hroute Hheard].
  replace sp with p0 in * by congruence. clear sp Hsp. assert (msg_len_ok (zlen pdu)) as Hml by (split; unfold VBT_MAX_PDU_SIZE; lia).
  pose proof (forward_frame_lands src p0 hdr (zlen pdu) h Hok Hc Hfd Hll Hhdr Hml Hp0) as Hland.
  unfold lands, wp in Hland. rewrite Hrun, Hpdu in Hland. destruct Hland as [Hok' Hqs].
  assert (evolves h h') as Hev.
  { pose proof (forward_frame_safe src hdr (zlen pdu) h Hok Hhdr Hml (at_idx_lt _ _ _ Hp0)) as Hs. unfold safe, wp in Hs.
    rewrite Hrun in Hs. apply Hs. }
  destruct (evo_kept _ _ Hev Hc) as [Hc' Hkept]. split.
  { apply (path_moves F src dst a b fd h); try done.
    - by eapply fds_distinct_kept.
    - by eapply data_frame_paths; [..|exact Hrun]; eauto.
    - intros i p Hi. destruct (evolves_at _ _ _ _ Hev Hc Hi) as (p' & ? & ?). exists p'. split; [done|by apply kept_same]. }
  destruct (Hqs dst q Hq) as (q' & Hq' & _ & fs & Hsub & He & Hall); [lia|].
  destruct (Hheard hdr Hh) as [r Hr]. destruct (image_received hdr pdu r Hhdr) as (hdr' & Hrv & Himg).
  pose proof (HF hdr Hh) as Hty. specialize (Hroute hdr Hh). rewrite <- Hn in Hroute.
  rewrite (to_peer_data src p0 hdr pdu h dst b) in Hsub, Hall by done.
  rewrite Z.eqb_refl in Hsub, Hall. unfold heard_frames in Hsub, Hall. rewrite Hn in Hsub, Hall.
  change (heard h (set_ttl 8 hdr) a b) with (heard h hdr a b) in Hsub, Hall. rewrite Hr, Himg in Hsub, Hall.
  unfold out_of. rewrite Hq, Hq'. cbn [fmap option_fmap option_map default from_option id]. rewrite Hqf in He.
  assert (zlen (concat [wire (frame_payload hdr' pdu)]) = zlen (on_wire [(hdr, pdu)])) as Hz.
  { rewrite zlen_on_wire_cons by done. cbn [concat]. rewrite app_nil_r, zlen_wire, zlen_frame_payload by apply Hrv.
    unfold VBT_HDR_SIZE. change (zlen (on_wire [])) with 0. lia. }
  rewrite Hz in Hall. apply sublist_cons_r in Hsub as [Hsub|(l & -> & Hsub)]; apply sublist_nil_r in Hsub as ->.
  - exists []. split_and!; [by repeat constructor|exact He|]. intros Hroom. by specialize (Hall Hroom).
  - exists [(hdr', pdu)]. split_and!; [apply carried_keep; [done|constructor]|exact He|done].
Qed.

(** A sequence of frames, between which only the receive buffer changes. *)
Lemma serves_flow fs h o h' :
  serves src h (map payload_of fs) o h' → on_path h → hub_ok h' → calm h' → Forall in_flow fs →
  on_path h' ∧ ∃ es, carried es fs ∧ written fd o ++ out_of h' dst = out_of h dst ++ on_wire es ∧
    (zlen (out_of h dst) + zlen (on_wire fs) ≤ SEND_BUF_SIZE → length es = length fs).
Proof using HF.
  intros Hs. remember (map payload_of fs) as ps eqn:Eps. revert fs Eps.
  induction Hs as [h h' E|h h0 p0 payload h1 o1 ps o2 h2 E Hh0 Hc0 Hp0 Hsl Hmsg Hs2 IH]; intros fs Eps Hp Hok' Hc' Hfs.
  { destruct fs; [|done]. split; [by eapply path_rx|]. exists []. split_and!; [constructor| |done].
    by rewrite (out_of_rx src h h') by done; rewrite app_nil_r. }
  destruct fs as [|[hdr pdu] fs]; [done|]. injection Eps as -> ->. apply Forall_cons_1 in Hfs as [[HFh Hf] Hfs].
  pose proof Hf as (Hhdr & Hm & _ & Hlen & _). destruct (frame_ok_pdu _ _ Hf) as [Hb Hl]. cbn [fst snd] in *.
  unfold payload_of in Hmsg, Hsl. cbn [fst snd] in Hmsg, Hsl.
  rewrite frame_is_forwarded in Hmsg by (try done; unfold VBT_MAX_PDU_SIZE; lia).
  assert (slice (4 + VBT_HDR_SIZE) (zlen pdu) (p_rxbuf p0) = pdu) as Hpdu.
  { rewrite <- (slice_slice VBT_HDR_SIZE (zlen pdu) 4 (zlen (frame_payload hdr pdu))),
      Hsl by (rewrite ?zlen_frame_payload by done; unfold VBT_HDR_SIZE; lia).
    unfold frame_payload. rewrite <- (length_hdr_bytes _ Hhdr), slice_app_r, Z.sub_diag by done. by apply slice_all. }
  assert (on_path h0) as Hp0' by by eapply path_rx.
  destruct (frame_flows hdr pdu h0 p0 h1 o1 Hp0' HFh Hf Hp0 Hpdu Hmsg) as [Hp1 (es1 & Hc1 & He1 & Hr1)].
  destruct (IH fs eq_refl Hp1 Hok' Hc' Hfs) as [Hp2 (es2 & Hc2 & He2 & Hr2)]. split; [done|].
  rewrite (out_of_rx src h h0) in He1, Hr1 by done.
  exists (es1 ++ es2). split_and!.
  - by apply (carried_app _ [(hdr, pdu)]).
  - by rewrite written_app, on_wire_app, <- app_assoc, He2, app_assoc, He1, <- app_assoc.
  - change ((hdr, pdu) :: fs) with ([(hdr, pdu)] ++ fs). rewrite on_wire_app, zlen_app. pose proof (zlen_nonneg (on_wire fs)). intros Hroom.
    specialize (Hr1 ltac:(lia)). rewrite length_app, Hr1, Hr2; [done|].
    apply (f_equal zlen) in He1. rewrite !zlen_app in He1. pose proof (zlen_nonneg (written fd o1)).
    enough (zlen (on_wire es1) = zlen (on_wire [(hdr, pdu)])) by lia.
    inversion Hc1 as [|? hdr' ? ? ? Hrv Hnil|? ? ? Hnil]; subst; inversion Hnil; subst; [|done].
    rewrite !zlen_on_wire_cons by (done || apply Hrv). done.
Qed.
Lemma in_flow_payloads fs : Forall in_flow fs → Forall payload_ok (map payload_of fs).
Proof using.
  intros Hfs. apply Forall_map. eapply Forall_impl; [|exact Hfs]. intros [hdr pdu] [_ Hf]. cbn [fst snd] in Hf. unfold payload_of. cbn [fst snd].
  destruct (frame_ok_pdu _ _ Hf) as [Hb Hl]. destruct Hf as (Hh & _).
  apply frame_payload_ok; [done|unfold VBT_MAX_PDU_SIZE; lia|done].
Qed.

Lemma in_flow_named fs : Forall in_flow fs → anons (map payload_of fs) = 0.
Proof using.
  induction 1 as [|[hdr pdu] fs [_ Hf] _ IH]; [done|]. destruct Hf as (Hh & Hm & _). cbn [map anons].
  unfold payload_of at 1. rewrite frame_not_anonymous by done. lia.
Qed.

(** The bytes the sender has written and the hub has not handled. *)
Record unhandled (s : list Z) (fs : list frame) (h : hub) : Prop := Unhandled {
  uh_peer : ∃ sp, at_idx (peers h) src = Some sp ∧ incomplete (rx_bytes sp) ∧ rx_bytes sp ++ s = on_wire fs;
  uh_flow : Forall in_flow fs
}.

(** One read of at most [n] bytes. *)
Definition read_some (n : nat) (s : list Z) : HUB (list Z) :=
  match n, s with
  | S _, _ :: _ =>
      p ← peer_at src;
      let k := Nat.min n (Z.to_nat (RECV_BUF_SIZE - p_rxused p)) in
      peer_readable src (RBytes (take k s));; mret (drop k s)
  | _, _ => mret s
  end.

Lemma read_flows n s fs h :
  on_path h → bytes_ok s → unhandled s fs h →
  ∃ s' h' o fs1 fs2 es, read_some n s h = Ok (s', h', o) ∧ on_path h' ∧ bytes_ok s' ∧ unhandled s' fs2 h' ∧
    fs = fs1 ++ fs2 ∧ carried es fs1 ∧ written fd o ++ out_of h' dst = out_of h dst ++ on_wire es ∧
    (zlen (out_of h dst) + zlen (on_wire fs1) ≤ SEND_BUF_SIZE → length es = length fs1) ∧
    (n = O ∨ s = [] ∨ length s' < length s)%nat.
Proof using HF.
  intros Hp Hs [(sp & Hsp & Hi & Hd) Hfs].
  assert (∀ r : res (list Z * hub * list ev), r = Ok (s, h, []) →
    (n = O ∨ s = []) →
    ∃ s' h' o fs1 fs2 es, r = Ok (s', h', o) ∧ on_path h' ∧ bytes_ok s' ∧ unhandled s' fs2 h' ∧
    fs = fs1 ++ fs2 ∧ carried es fs1 ∧ written fd o ++ out_of h' dst = out_of h dst ++ on_wire es ∧
    (zlen (out_of h dst) + zlen (on_wire fs1) ≤ SEND_BUF_SIZE → length es = length fs1) ∧
    (n = O ∨ s = [] ∨ length s' < length s)%nat) as Hidle.
  { intros r -> Hns. exists s, h, [], [], fs, []. split_and!; try done; [|constructor|by rewrite app_nil_r|].
    - split; [by exists sp|done].
    - tauto. }
  destruct n as [|n]; [apply Hidle; auto|]. destruct s as [|x s]; [apply Hidle; auto|]. clear Hidle.
  pose proof (pa_medium _ _ _ _ _ _ _ Hp) as [Hok Hc _ _].
  pose proof (at_idx_Forall _ _ _ _ (hok_peers _ Hok) Hsp) as Hpok.
  pose proof (incomplete_room _ Hi) as Hroom. change VBT_RXBUF_SIZE with RECV_BUF_SIZE in Hroom.
  rewrite (zlen_rx_bytes _ _ Hpok) in Hroom. cbn [read_some].
  set (k := Nat.min (S n) (Z.to_nat (RECV_BUF_SIZE - p_rxused sp))). set (s0 := x :: s) in *.
  destruct (split_wires (map payload_of fs) (rx_bytes sp ++ take k s0) (drop k s0))
    as (ps1 & ps2 & rest & Eps & Hd1 & Hd2 & Hi').
  { by apply in_flow_payloads. }
  { by rewrite <- app_assoc, take_drop. }
  apply map_eq_app in Eps as (fs1 & fs2 & -> & <- & <-).
  apply Forall_app in Hfs as [Hfs1 Hfs2].
  destruct (peer_readable_run src (map payload_of fs1) rest (take k s0) sp h)
    as (h' & sp' & o & Hrun & Hok' & Hc' & Hsv & Hsp' & Hrx' & _); try done.
  { by apply in_flow_payloads. }
  { destruct k eqn:Ek; [lia|done]. }
  { by apply Forall_take. }
  { unfold zlen. rewrite length_take. lia. }
  { rewrite in_flow_named by done. pose proof (hok_auto _ Hok). lia. }
  destruct (serves_flow fs1 h o h' Hsv Hp Hok' Hc' Hfs1) as [Hp' (es & Hcar & He & Hall)].
  exists (drop k s0), h', o, fs1, fs2, es. split_and!; try done.
  - erewrite bind_silent by by apply peer_at_ok. fold k. rewrite (bind_ok _ _ _ _ _ _ Hrun). cbn. by rewrite app_nil_r.
  - by apply Forall_drop.
  - split; [|done]. exists sp'. by rewrite Hrx'.
  - right. right. rewrite length_drop. assert (0 < k)%nat by (unfold k; lia). change (length s0) with (S (length s)). lia.
Qed.

(** A flush. *)
Lemma flush_flows s fs h :
  on_path h → unhandled s fs h →
  ∃ h' o, peer_flush dst h = Ok (tt, h', o) ∧ on_path h' ∧ unhandled s fs h' ∧
    written fd o ++ out_of h' dst = out_of h dst.
Proof using.
  intros Hp [(sp & Hsp & Hi & Hd) Hfs].
  pose proof Hp as [[Hok Hc Hfds _] _ (q & Hq & Hqf & _ & _) H0 _ _].
  destruct (hsafe_run _ _ _ (peer_flush_safe dst h Hok (at_idx_lt _ _ _ Hq))) as ([] & h' & o & Hrun & Hok' & _ & Hev).
  destruct (evo_kept _ _ Hev Hc) as [Hc' Hkept].
  assert (same_paths h h' ∧ written fd o ++ out_of h' dst = out_of h dst) as [Hsp' He].
  { unfold out_of. rewrite Hq. revert Hrun. unfold peer_flush. erewrite bind_silent by by apply peer_at_ok.
    destruct (_ || _).
    { erewrite peer_upd_ok by done. intros [= <- <-]. split; [by split|]. cbn [peers set_peers].
      by rewrite (at_upd_idx_eq _ _ _ q). }
    fold (backlog q). destruct (write_all_ok (p_fd q) (backlog q) h) as (cs & todo & stop & e & Ew & Hdata & _ & Hcalm).
    destruct (Hcalm Hc) as [_ Hhard]. rewrite (bind_ok _ _ _ _ _ _ Ew). cbn [fst snd].
    destruct stop; [..|done]; (erewrite peer_upd_ok by done); intros [= <- <-]; (split; [by split|]);
      cbn [peers set_peers set_henv]; rewrite (at_upd_idx_eq _ _ _ q), app_nil_r by done; cbn;
      rewrite <- Hqf, written_own; by rewrite Hdata. }
  exists h', o. split_and!; [done| | |done].
  - apply (path_moves F src dst a b fd h); try done; [by eapply fds_distinct_kept|].
    intros i p Hpi. destruct (evolves_at _ _ _ _ Hev Hc Hpi) as (p' & ? & ?). exists p'. split; [done|by apply kept_same].
  - split; [|done]. destruct (evolves_at _ _ _ _ Hev Hc Hsp) as (sp' & Hs' & K). exists sp'. split; [done|].
    unfold rx_bytes. by rewrite (kept_rxbuf _ _ K), (kept_rxused _ _ K).
Qed.

(** The kernel's next answers to the hub. *)
Definition answering (ws : list wres) (h : hub) : hub := set_henv (set_e_writes ws (henv h)) h.

Lemma answering_flows ws s fs h :
  on_path h → unhandled s fs h → Forall soft ws → on_path (answering ws h) ∧ unhandled s fs (answering ws h).
Proof using.
  intros Hp [Hu Hfs] Hws. split; [|by split]. pose proof (pa_medium _ _ _ _ _ _ _ Hp) as [Hok [_ Hc] Hfd _].
  apply (path_moves F src dst a b fd h); try done; [by apply hub_ok_set_henv|].
  intros i p Hi. exists p. split; [done|]. by split.
Qed.

Lemma write_all_taken fd' data h :
  data ≠ [] → write_all fd' data (answering [WBytes (zlen data)] h) = Ok (([], WDone), answering [] h, [EvWrite fd' data]).
Proof using.
  intros Hne. unfold write_all. rewrite bind_get. cbn [answering henv set_henv e_writes set_e_writes].
  assert (write_loop [WBytes (zlen data)] data = ([data], [], [], WDone)) as ->; [|done].
  destruct data as [|c l]; [done|]. cbn [write_loop]. rewrite zlen_cons at 1. pose proof (zlen_nonneg l).
  rewrite if_true by lia. by rewrite Z.min_id, drop_ge, take_ge by (unfold zlen; lia).
Qed.

(** A kernel that takes all of it empties the backlog. *)
Lemma flush_empties h h' o :
  on_path h → peer_flush dst (answering [WBytes (zlen (out_of h dst))] h) = Ok (tt, h', o) → out_of h' dst = [].
Proof using.
  intros [_ _ (q & Hq & Hqf & _ & _) H0 _ _]. pose proof (outused_default q) as Eu. fold (backlog q) in Eu.
  unfold peer_flush, out_of. rewrite Hq.
  erewrite bind_silent by by apply peer_at_ok. cbn [fmap option_fmap option_map default from_option id].
  destruct (_ || _) eqn:Ez.
  - erewrite peer_upd_ok by done. intros [= <- <-]. cbn [peers set_peers answering set_henv].
    rewrite (at_upd_idx_eq _ _ _ q) by done. change (backlog q = []). apply orb_true_iff in Ez as [Ez|Ez]; [lia|].
    rewrite Eu in Ez. destruct (backlog q) as [|c l]; [done|]. rewrite zlen_cons in Ez. pose proof (zlen_nonneg l). lia.
  - apply orb_false_iff in Ez as [_ Ez]. fold (backlog q). rewrite Eu in Ez.
    erewrite bind_ok by (apply write_all_taken; intros Hz; by rewrite Hz in Ez). cbn [fst snd].
    erewrite peer_upd_ok by done. intros [= <- <-]. cbn [peers set_peers answering set_henv].
    by rewrite (at_upd_idx_eq _ _ _ q).
Qed.

Lemma written_more s s' fs fs' h :
  unhandled s fs h → Forall in_flow fs' → s' = on_wire fs' → unhandled (s ++ s') (fs ++ fs') h.
Proof using.
  intros [(sp & Hsp & Hi & Hd) Hfs] Hfs' ->. split; [|by apply Forall_app_2]. exists sp. split; [done|]. split; [done|].
  by rewrite app_assoc, Hd, on_wire_app.
Qed.
End Flow.
