(* ===== verification/HubModelProps.v ===== *)
(** * Properties of the propagation model and of the links pinned at run time

    The simulated air is reciprocal, as a radio link is: [propagate] gives the
    same verdict in both directions; and what SET_RSSI and SET_LOSS pin holds
    in both directions too.  The argument for the geometric model is about
    binary64 arithmetic: the difference of two coordinates only changes its
    sign, which squaring hides. *)

From Stdlib Require Import ZArith Lia String Floats.SpecFloat.
From stdpp Require Import base list numbers option.
From S2P Require Import Prelude Wire Text TextInv HubState HubTables HubModel HubIO HubRoute.
From S2P Require Import HubCtl HubInv HubCtlInv HubSpec HubDemo HubTabProps.

(** ** Symmetry of the distance *)

Lemma round_aux_abs s m e l :
  SFabs (binary_round_aux dprec demax s m e l) =
  SFabs (binary_round_aux dprec demax false m e l).
Proof.
  unfold binary_round_aux. destruct (shr_fexp _ _ m e l) as [r e1].
  destruct (shr_fexp _ _ _ e1 loc_Exact) as [r' e2].
  by destruct (shr_m r') as [|p|p]; [..|destruct (e2 <=? _)| ].
Qed.

Lemma round_abs s m e :
  SFabs (binary_round dprec demax s m e) = SFabs (binary_round dprec demax false m e).
Proof. unfold binary_round. destruct (shl_align _ _ _). apply round_aux_abs. Qed.

Lemma normalize_abs z e :
  SFabs (binary_normalize dprec demax (- z) e false) =
  SFabs (binary_normalize dprec demax z e false).
Proof.
  destruct z as [|p|p]; [done|apply (round_abs true p e)|symmetry; apply (round_abs true p e)].
Qed.

Lemma dsub_abs x y : SFabs (dsub x y) = SFabs (dsub y x).
Proof.
  destruct x as [[]|[]| |sx mx ex], y as [[]|[]| |sy my ey]; try done.
  unfold dsub, SFsub. rewrite (Z.min_comm ey ex), <- normalize_abs.
  do 2 f_equal. lia.
Qed.

Lemma dmul_abs x : dmul (SFabs x) (SFabs x) = dmul x x.
Proof. by destruct x as [[]|[]| |[]]. Qed.

Lemma square_sym x y : dmul (dsub x y) (dsub x y) = dmul (dsub y x) (dsub y x).
Proof. by rewrite <- dmul_abs, dsub_abs, dmul_abs. Qed.

Lemma link_distance_sym a b : link_distance a b = link_distance b a.
Proof.
  unfold link_distance. by rewrite (square_sym (nd_pos_x a)), (square_sym (nd_pos_y a)),
    (square_sym (nd_pos_z a)).
Qed.

Lemma link_match_sym a b o : link_match a b o = link_match b a o.
Proof. unfold link_match. by rewrite orb_comm. Qed.

Lemma find_override_sym a b h : find_override a b false h = find_override b a false h.
Proof.
  unfold find_override. rewrite !bind_get.
  by rewrite (find_idx_ext _ (link_match a b)) by (intros; apply link_match_sym).
Qed.

(** Two nodes transmit with the same power, set or not. *)
Definition same_power (a b : node) : Prop :=
  nd_tx_power_set a = nd_tx_power_set b ∧
  (nd_tx_power_set a = true → nd_tx_power_dbm a = nd_tx_power_dbm b).

(** C20: the simulated air is reciprocal.  Between two nodes of equal
    transmission power and sensitivity, the propagation model gives the same
    verdict, the same RSSI and draws the same random numbers in both
    directions, whatever positions, overrides and path-loss exponent are set. *)
Theorem propagation_reciprocal `{Libm} (a b : node) (txp r : Z) (h : hub) :
  same_power a b → nd_rx_sens_dbm a = nd_rx_sens_dbm b →
  propagate (Some a) (Some b) txp r h = propagate (Some b) (Some a) txp r h.
Proof.
  intros [Hset Hpow] Hsens. unfold propagate.
  rewrite (orb_comm (nd_physical b)). destruct (_ || _); [done|].
  apply bind_cong; [apply find_override_sym|]. intros i h1.
  rewrite !bind_get. apply bind_cong; [by rewrite Hsens|]. intros [d|] h2; [done|].
  rewrite (orb_comm (negb (nd_pos_set b))). destruct (_ || _); [done|].
  unfold geometric. rewrite (link_distance_sym b), Hsens, Hset.
  destruct (nd_tx_power_set b) eqn:E; [|done]. by rewrite Hpow by congruence.
Qed.

Definition placed (x y : Z) (nd : node) : node :=
  set_nd_pos_set true (set_nd_pos_y (d_of_Z y) (set_nd_pos_x (d_of_Z x) nd)).

Lemma propagation_reciprocal_witness :
  let a := placed 0 0 (node_named "a" 0 addr1) in
  let b := placed 30 (-40) (node_named "b" 1 addr2) in
  propagate (H := demo_libm) (Some a) (Some b) 0 0 demo_hub =
  propagate (H := demo_libm) (Some b) (Some a) 0 0 demo_hub.
Proof. apply (propagation_reciprocal (H := demo_libm)); [split; reflexivity|reflexivity]. Defined.

(** ** Links pinned at run time *)

(** A reply changes the control clients only. *)
Lemma ctl_out_run i text h :
  hub_ok h → 0 ≤ i < MAX_CTL_CLIENTS → zlen text ≤ 4095 →
  ∃ cs, ctl_out i text h = Ok (tt, set_ctl_clients cs h, []).
Proof.
  intros Hh Hi Ht. pose proof (ctl_out_safe i text h Hh Hi Ht) as Hs.
  unfold csafe, hsafe, safe, wp in Hs. revert Hs.
  unfold ctl_out, ctl_at, ctl_upd. rewrite !bind_assoc, bind_get.
  destruct (at_idx (ctl_clients h) i) as [c|] eqn:Ec; [|done].
  rewrite bind_ret. destruct (_ =? 0); [by exists (ctl_clients h); destruct h|].
  destruct (_ <=? 0); [by exists (ctl_clients h); destruct h|]. cbv zeta.
  unfold rdn. case_decide; [|done]. rewrite bind_ret, bind_get, Ec. eauto.
Qed.

(** What is pinned for a pair of node ids: the first override in use for it. *)
Definition link_setting (l : list link_override) (a b : list Z) : option link_override :=
  head (filter (λ o, link_match a b o = true) l).

Lemma find_idx_head {A} (f : A → bool) l :
  at_idx l (idx_of (find_idx f l)) = head (filter (λ x, f x = true) l).
Proof.
  rewrite at_idx_of. induction l as [|x l IH]; [done|]. cbn [find_idx]. rewrite filter_cons.
  destruct (f x) eqn:E; [by rewrite decide_True|]. rewrite decide_False by congruence.
  rewrite <- IH. by destruct (find_idx f l).
Qed.

Lemma link_setting_sym l a b : link_setting l a b = link_setting l b a.
Proof.
  unfold link_setting. rewrite <- !find_idx_head. do 2 f_equal.
  apply find_idx_ext, link_match_sym.
Qed.

Lemma filter_insert_out {A} (P : A → Prop) `{∀ x, Decision (P x)} (l : list A) i x y :
  l !! i = Some x → ¬ P x → ¬ P y → filter P (<[i:=y]> l) = filter P l.
Proof.
  intros Hx Px Py. rewrite <- (take_drop_middle l i x Hx) at 2.
  rewrite insert_take_drop by by eapply lookup_lt_Some.
  rewrite !list.filter_app, !filter_cons. by rewrite !decide_False.
Qed.

Lemma new_override_match a b c d :
  zlen a ≤ 63 → zlen b ≤ 63 →
  link_match c d (new_override a b) = str_eq a c && str_eq b d || str_eq a d && str_eq b c.
Proof.
  intros Ha Hb. unfold new_override, snprintf_s.
  rewrite !take_ge by (unfold NODE_ID_LEN, zlen in *; lia). done.
Qed.

(** The pair [(c, d)] is another link than [(a, b)]. *)
Definition other_link (a b c d : list Z) : Prop := ¬ (a = c ∧ b = d) ∧ ¬ (a = d ∧ b = c).

Lemma other_link_false a b c d :
  other_link a b c d → str_eq a c && str_eq b d || str_eq a d && str_eq b c = false.
Proof.
  unfold other_link, str_eq. intros [H1 H2].
  by repeat case_bool_decide; naive_solver.
Qed.

Lemma link_match_other a b c d o :
  other_link a b c d → link_match a b o = true → link_match c d o = false.
Proof.
  intros Hd. unfold link_match. destruct (o_used o); [|done]. cbn [andb].
  intros [[Ea%bool_decide_eq_true Eb%bool_decide_eq_true]%andb_true_iff|
          [Ea%bool_decide_eq_true Eb%bool_decide_eq_true]%andb_true_iff]%orb_true_iff;
    rewrite Ea, Eb; [by apply other_link_false|]. rewrite orb_comm, andb_comm, (andb_comm (str_eq b c)).
  by apply other_link_false.
Qed.

(** The slot [find_override] returns, and that no other link is touched. *)
Record pinned_slot (a b : list Z) (l : list link_override) (i : nat) (o : link_override)
    (l' : list link_override) : Prop := PinnedSlot {
  ps_at : l' !! i = Some o;
  ps_match : link_match a b o = true;
  ps_first : ∀ j o', (j < i)%nat → l' !! j = Some o' → link_match a b o' = false;
  ps_loss : Forall (λ o, o_loss_set o = false) l';
  ps_len : zlen l ≤ MAX_OVERRIDES → zlen l' ≤ MAX_OVERRIDES;
  ps_other : ∀ c d, other_link a b c d → link_setting l' c d = link_setting l c d
}.

Lemma find_override_create a b h :
  zlen a ≤ 63 → zlen b ≤ 63 → num_overrides h < MAX_OVERRIDES → lossless h →
  ∃ i o l, find_override a b true h = Ok (Z.of_nat i, set_overrides l h, []) ∧
    pinned_slot a b (overrides h) i o l.
Proof.
  intros Ha Hb Hn Hl. unfold find_override. rewrite bind_get.
  destruct (find_idx (link_match a b) (overrides h)) as [i|] eqn:E.
  { apply find_idx_Some in E as [(o & Ho & Hm) Hlt]. exists i, o, (overrides h).
    split; [by destruct h|]. by split; [..|intros c d Hd]. }
  rewrite find_idx_None in E. cbn [negb].
  destruct (tab_alloc _ _ _ _) as [[i l]|] eqn:Et; cycle 1.
  { apply tab_alloc_None in Et as [Hfull _]. unfold num_overrides in Hn. lia. }
  exists i, (new_override a b), l. split; [done|].
  assert (link_match a b (new_override a b) = true) as Hm.
  { rewrite new_override_match by done. unfold str_eq.
    by rewrite (bool_decide_eq_true_2 (a = a)), (bool_decide_eq_true_2 (b = b)). }
  split; [by eapply tab_alloc_lookup|done|..].
  - intros j o' Hj Ho'. rewrite (tab_alloc_others _ _ _ _ _ _ _ Et) in Ho' by lia. by eapply E.
  - by eapply tab_alloc_Forall.
  - intros. by apply (tab_alloc_zlen _ _ _ _ _ _ Et).
  - intros c d Hd. unfold link_setting. f_equal. pose proof (link_match_other _ _ _ _ _ Hd Hm) as Hf.
    revert Et. unfold tab_alloc. destruct (find_idx _ _) as [k|] eqn:Ek.
    + intros [= <- <-]. apply find_idx_sat in Ek as (x & Hx & Hfree).
      apply (filter_insert_out _ _ _ x); [done| |by rewrite Hf].
      unfold link_match. apply negb_true_iff in Hfree. by rewrite Hfree.
    + case_match; [done|]. intros [= <- <-]. rewrite list.filter_app, filter_cons, Hf. cbn.
      by rewrite app_nil_r.
Qed.

(** A change of the found slot that keeps its link sets that link only. *)
Lemma pinned_set a b l i o l' f :
  pinned_slot a b l i o l' → (∀ x y o, link_match x y (f o) = link_match x y o) →
  link_setting (upd_idx (Z.of_nat i) f l') a b = Some (f o) ∧
  ∀ c d, other_link a b c d → link_setting (upd_idx (Z.of_nat i) f l') c d = link_setting l c d.
Proof.
  intros [Hat Hm Hfirst _ _ Hother] Hf.
  assert (upd_idx (Z.of_nat i) f l' = <[i:=f o]> l') as ->.
  { unfold upd_idx. rewrite Nat2Z.id. apply list_eq. intros j.
    destruct (decide (j = i)) as [->|Hj].
    - rewrite list_lookup_alter_eq, Hat. by rewrite list_lookup_insert_eq by by eapply lookup_lt_Some.
    - by rewrite list_lookup_alter_ne, list_lookup_insert_ne by done. }
  split.
  - unfold link_setting. rewrite <- find_idx_head, at_idx_of.
    assert (find_idx (link_match a b) (<[i:=f o]> l') = Some i) as ->.
    { apply find_idx_Some. split.
      - exists (f o). split; [|by rewrite Hf]. apply list_lookup_insert_eq. by eapply lookup_lt_Some.
      - intros j y Hj. rewrite list_lookup_insert_ne by lia. by apply Hfirst. }
    apply list_lookup_insert_eq. by eapply lookup_lt_Some.
  - intros c d Hd. rewrite <- Hother by done. unfold link_setting. f_equal.
    pose proof (link_match_other _ _ _ _ _ Hd Hm) as Ho.
    apply (filter_insert_out _ _ _ o); [done|by rewrite Ho|by rewrite Hf, Ho].
Qed.

(** SET_RSSI and SET_LOSS on two known nodes. *)
Lemma ctl_set_link_run cidx ident ib f text na nb a b h :
  hub_ok h → 0 ≤ cidx < MAX_CTL_CLIENTS → lossless h → num_overrides h < MAX_OVERRIDES →
  (∀ a b, zlen a ≤ 63 → zlen b ≤ 63 → zlen (text a b) ≤ 4095) →
  resolve_node ident h = Ok (na, h, []) → resolve_node ib h = Ok (nb, h, []) →
  at_idx (nodes h) na = Some a → at_idx (nodes h) nb = Some b →
  ∃ i o l cs, pinned_slot (nd_node_id a) (nd_node_id b) (overrides h) i o l ∧
    ctl_set_link cidx ident ib f text h =
      Ok (tt, set_ctl_clients cs (set_overrides (upd_idx (Z.of_nat i) f l) h), []).
Proof.
  intros Hh Hc Hl Hn Ht Ha Hb Hna Hnb. unfold ctl_set_link.
  erewrite bind_silent by done. erewrite bind_silent by done.
  assert (∀ i nd, at_idx (nodes h) i = Some nd → zlen (nd_node_id nd) ≤ 63) as Hlen.
  { intros i nd Hi. eapply node_name_len. by eapply at_idx_Forall; [apply Hh|]. }
  rewrite if_false by (apply at_idx_lt in Hna, Hnb; apply orb_false_iff; rewrite !Z.ltb_ge; lia).
  erewrite bind_silent by by apply node_at_ok. erewrite bind_silent by by apply node_at_ok.
  destruct (find_override_create (nd_node_id a) (nd_node_id b) h) as (i & o & l & Hf & Hp);
    [eauto..|].
  erewrite bind_silent by done. rewrite nat_neg.
  pose proof (ps_at _ _ _ _ _ _ Hp) as Hat.
  assert (override_upd (Z.of_nat i) f (set_overrides l h) =
          Ok (tt, set_overrides (upd_idx (Z.of_nat i) f l) h, [])) as Hu.
  { unfold override_upd. rewrite bind_get. change (overrides (set_overrides l h)) with l.
    change (at_idx l (Z.of_nat i)) with (at_idx l (idx_of (Some i))).
    rewrite at_idx_of. cbn [mbind option_bind]. by rewrite Hat. }
  erewrite bind_silent by exact Hu.
  destruct (ctl_out_run cidx (text (nd_node_id a) (nd_node_id b))
    (set_overrides (upd_idx (Z.of_nat i) f l) h)) as [cs Hcs]; [|done|by eauto|by eauto 6].
  apply hub_ok_set_overrides; [done|]. rewrite zlen_upd_idx. eapply ps_len, Hh. exact Hp.
Qed.

(** The propagation model reads the override table through [link_setting]. *)
Definition verdict `{Libm} (h : hub) (a b : node) (txp r : Z) (s : option link_override) :
    bool * Z :=
  let dflt := if r =? 0 then VBT_DEFAULT_RSSI else r in
  if nd_physical a || nd_physical b then (true, r)
  else match s with
       | Some (Override _ _ true v _ _ _) => (d_toint (nd_rx_sens_dbm b) <=? v, v)
       | _ => if negb (nd_pos_set a) || negb (nd_pos_set b) then (true, dflt)
              else geometric (g_path_exponent h) a b txp
       end.

Lemma propagate_verdict `{Libm} h a b txp r :
  lossless h →
  propagate (Some a) (Some b) txp r h =
  Ok (verdict h a b txp r (link_setting (overrides h) (nd_node_id a) (nd_node_id b)), h, []).
Proof.
  intros Hl. rewrite propagate_ok by done. do 3 f_equal. unfold prop_spec, verdict, link_setting.
  rewrite <- find_idx_head. destruct (_ || _); [done|].
  destruct (at_idx _ _) as [[? ? [] v ? ? ?]|]; [|done..]. f_equal. by rewrite Z.leb_antisym.
Qed.

(** C21: SET_RSSI pins a link.  From then on both directions of the link have
    the given RSSI, and are audible exactly if it reaches the receiver's
    sensitivity, whatever the frame claims; every other link and every node
    is as before. *)
Theorem set_rssi_pins `{Libm} (cidx : Z) (args ident ib : list Z) (v na nb : Z) (a b : node)
    (h : hub) :
  hub_ok h → 0 ≤ cidx < MAX_CTL_CLIENTS → lossless h → num_overrides h < MAX_OVERRIDES →
  scan_link scan_d args = Some (ident, ib, v) →
  resolve_node ident h = Ok (na, h, []) → resolve_node ib h = Ok (nb, h, []) →
  at_idx (nodes h) na = Some a → at_idx (nodes h) nb = Some b →
  nd_physical a = false → nd_physical b = false →
  ∃ h', ctl_dispatch cidx (str "SET_RSSI " ++ args) h = Ok (tt, h', []) ∧
    nodes h' = nodes h ∧
    ∀ x y txp r,
      propagate (Some a) (Some b) txp r h' =
        Ok ((d_toint (nd_rx_sens_dbm b) <=? v, v), h', []) ∧
      propagate (Some b) (Some a) txp r h' =
        Ok ((d_toint (nd_rx_sens_dbm a) <=? v, v), h', []) ∧
      (other_link (nd_node_id a) (nd_node_id b) (nd_node_id x) (nd_node_id y) →
       ∃ w, propagate (Some x) (Some y) txp r h = Ok (w, h, []) ∧
            propagate (Some x) (Some y) txp r h' = Ok (w, h', [])).
Proof.
  intros Hh Hc Hl Hn Hs Ha Hb Hna Hnb Pa Pb.
  change (ctl_dispatch cidx (str "SET_RSSI " ++ args)) with (ctl_set_rssi cidx args).
  unfold ctl_set_rssi. rewrite Hs. set (f := λ o, set_o_rssi_dbm v _).
  destruct (ctl_set_link_run cidx ident ib f (λ a b, str "OK rssi " ++ a ++ str "<->" ++ b ++
    str " " ++ dec_str v ++ str " dBm" ++ nl) na nb a b h) as (i & o & l & cs & Hp & ->); try done.
  { apply scan_link_inv in Hs as (k & r & E%scan_d_range).
    pose proof (dec_str_len v ltac:(lia)). intros. text_lia. }
  destruct (pinned_set _ _ _ _ _ _ f Hp) as [Hset Hother]; [done|].
  eexists. split; [done|]. split; [done|]. intros x y txp r.
  assert (lossless (set_ctl_clients cs (set_overrides (upd_idx (Z.of_nat i) f l) h))) as Hl'.
  { apply Forall_upd_idx; [apply (ps_loss _ _ _ _ _ _ Hp)|done]. }
  rewrite !propagate_verdict by done. cbn [overrides set_ctl_clients set_overrides].
  split_and!.
  - rewrite Hset. unfold verdict. by rewrite Pa, Pb.
  - rewrite link_setting_sym, Hset. unfold verdict. by rewrite Pa, Pb.
  - intros Hd. rewrite Hother by done. eauto.
Qed.

Lemma set_rssi_pins_witness :
  ∃ h', ctl_dispatch 0 (str "SET_RSSI a b -77") demo_hub = Ok (tt, h', []) ∧
    propagate (H := demo_libm) (Some (node_named "b" 1 addr2)) (Some (node_named "a" 0 addr1))
      0 (-40) h' = Ok ((true, -77), h', []).
Proof.
  destruct (set_rssi_pins (H := demo_libm) 0 (str "a b -77") (str "a") (str "b") (-77) 0 1
    (node_named "a" 0 addr1) (node_named "b" 1 addr2) demo_hub) as (h' & Hrun & _ & Hp);
    [apply demo_hub_ok|done|constructor|done|reflexivity..|].
  exists h'. split; [exact Hrun|].
  apply (Hp (node_named "a" 0 addr1) (node_named "a" 0 addr1) 0 (-40)).
Defined.
