(* ===== verification/HubNameProps.v ===== *)
(** * Names: hello, bindings and the node table

    A hello binds the peer to the node it names, so that at most one peer
    acts for a node.  Names are cut to the 63 characters a node id can hold,
    which [find_node] and [maybe_hello] do not survive unharmed. *)

From Stdlib Require Import ZArith Lia String Floats.SpecFloat.
From stdpp Require Import base list numbers option.
From S2P Require Import Prelude Wire Text HubState HubTables HubModel HubIO HubRoute.
From S2P Require Import HubIds HubInv HubSpec HubDemo HubTabProps.

(** ** The table of nodes *)

(** The node [find_node] returns for a name that fits. *)
Record found_node (nid : list Z) (l : list node) (n : nat) (nd : node) (l' : list node) : Prop :=
  FoundNode {
  fn_at : l' !! n = Some nd;
  fn_active : nd_active nd = true;
  fn_name : nd_node_id nd = nid;
  fn_same : l !! n = Some nd ∨
    nd_peer_idx nd = -1 ∧ ∀ x, l !! n = Some x → nd_active x = false;
  fn_other : ∀ j, j ≠ n → l' !! j = l !! j
}.

Lemma find_node_create nid h :
  zlen nid < NODE_ID_LEN → num_nodes h < MAX_NODES →
  ∃ n nd l, find_node nid true h = Ok (Z.of_nat n, set_nodes l h, []) ∧
    found_node nid (nodes h) n nd l.
Proof.
  intros Hlen Hroom. unfold find_node. rewrite bind_get.
  destruct (find_idx (named nid) (nodes h)) as [n|] eqn:E.
  { apply find_idx_sat in E as (nd & Hnd & [Ha Hn]%andb_true_iff).
    exists n, nd, (nodes h). split; [by destruct h|].
    split; [done|done|by apply bool_decide_eq_true in Hn|by left|done]. }
  cbn [negb]. destruct (tab_alloc _ _ _ _) as [[n l]|] eqn:Et; cycle 1.
  { apply tab_alloc_None in Et as [Hfull _]. unfold num_nodes in Hroom. lia. }
  exists n, (new_node nid), l. split; [done|]. split.
  - by eapply tab_alloc_lookup.
  - done.
  - cbn. unfold snprintf_s. apply take_ge. change NODE_ID_LEN with 64 in *. unfold zlen in *. lia.
  - right. split; [done|]. intros x Hx. apply (tab_alloc_slot _ _ _ _ _ _ Et) in Hx. by apply negb_true_iff in Hx.
  - intros j Hj. by apply (tab_alloc_others _ _ _ _ _ _ _ Et).
Qed.

(** A name of 64 characters or more never names a node.  [find_node] stores
    its first 63 characters and compares all of them, so looking for it never
    succeeds, and each control command that uses it (an identifier there has
    up to 79 characters) takes a new entry of the table. *)
Theorem long_name_never_found (nid : list Z) (h : hub) :
  hub_ok h → NODE_ID_LEN ≤ zlen nid →
  find_node nid false h = Ok (-1, h, []) ∧
  (num_nodes h < MAX_NODES → Forall (λ nd, nd_active nd = true) (nodes h) →
   find_node nid true h =
     Ok (num_nodes h, set_nodes (nodes h ++ [new_node nid]) h, [])).
Proof.
  intros Hh Hlong. unfold find_node. rewrite !bind_get.
  assert (find_idx (named nid) (nodes h) = None) as ->.
  { apply find_idx_None. intros i nd Hnd. apply andb_false_iff. right.
    apply bool_decide_eq_false. intros E.
    pose proof (nok_id _ _ (Forall_lookup_1 _ _ _ _ (hok_nodes _ Hh) Hnd)) as Hid.
    rewrite E in Hid. lia. }
  split; [done|]. intros Hroom Hact. cbn [negb]. unfold tab_alloc.
  assert (find_idx (λ nd, negb (nd_active nd)) (nodes h) = None) as ->.
  { apply find_idx_None. intros i nd Hnd. by rewrite (Forall_lookup_1 _ _ _ _ Hact Hnd). }
  rewrite if_false by (unfold num_nodes in Hroom; lia). done.
Qed.

Lemma long_name_never_found_witness :
  let nid := replicate 64 65 in
  find_node nid false demo_hub = Ok (-1, demo_hub, []) ∧
  (num_nodes demo_hub < MAX_NODES → Forall (λ nd, nd_active nd = true) (nodes demo_hub) →
   find_node nid true demo_hub =
     Ok (num_nodes demo_hub, set_nodes (nodes demo_hub ++ [new_node nid]) demo_hub, [])).
Proof. apply (long_name_never_found (replicate 64 65) demo_hub); [apply demo_hub_ok|done]. Defined.

(** ** Bindings *)

(** Every peer that acts for a node is the one the node points to; so no two
    peers act for the same node. *)
Definition bound (h : hub) : Prop :=
  ∀ j q, at_idx (peers h) j = Some q → 0 ≤ p_node_idx q →
    ∃ nd, at_idx (nodes h) (p_node_idx q) = Some nd ∧ nd_active nd = true ∧ nd_peer_idx nd = j.

(** The peers after the node [nd] (number [n]) has moved to peer [pidx]. *)
Definition rebind (pidx n : Z) (nid : list Z) (physical : bool) (nd : node) (ps : list peer) :
    list peer :=
  upd_idx pidx (λ p, set_p_label (snprintf_s 80 nid)
      (set_p_is_physical physical (set_p_node_idx n p)))
    (if (0 <=? nd_peer_idx nd) && negb (nd_peer_idx nd =? pidx)
     then upd_idx (nd_peer_idx nd) (set_p_node_idx (-1)) ps else ps).

Lemma bind_peer_node_run pidx nid physical n nd l p h :
  hub_ok h → at_idx (peers h) pidx = Some p →
  find_node nid true h = Ok (Z.of_nat n, set_nodes l h, []) → found_node nid (nodes h) n nd l →
  bind_peer_node pidx nid physical h =
    Ok (tt, set_peers (rebind pidx (Z.of_nat n) nid physical nd (peers h))
      (set_nodes (upd_idx (Z.of_nat n) (λ nd, set_nd_physical physical (set_nd_peer_idx pidx nd)) l)
        h), []).
Proof.
  intros Hh Hp Hf Hfn. unfold bind_peer_node. erewrite bind_silent by done. rewrite nat_neg.
  assert (at_idx l (Z.of_nat n) = Some nd) as Hnd.
  { apply at_idx_Some. rewrite Nat2Z.id. split; [lia|apply Hfn]. }
  erewrite bind_silent by by apply node_at_ok.
  assert (nd_peer_idx nd < num_peers h) as Hold.
  { pose proof (at_idx_lt _ _ _ Hp). destruct (fn_same _ _ _ _ _ Hfn) as [Hn|[-> _]];
      [|unfold num_peers; lia].
    pose proof (nok_peer _ _ (Forall_lookup_1 _ _ _ _ (hok_nodes _ Hh) Hn)). mlia. }
  set (ps := if (0 <=? nd_peer_idx nd) && negb (nd_peer_idx nd =? pidx)
             then upd_idx (nd_peer_idx nd) (set_p_node_idx (-1)) (peers h) else peers h).
  assert (when ((0 <=? nd_peer_idx nd) && negb (nd_peer_idx nd =? pidx))
    (peer_upd (nd_peer_idx nd) (set_p_node_idx (-1))) (set_nodes l h) =
    Ok (tt, set_peers ps (set_nodes l h), [])) as Hw.
  { subst ps. destruct (0 <=? nd_peer_idx nd) eqn:E; [|by destruct h]. cbn [andb].
    destruct (negb _); [|by destruct h]. cbn [when].
    destruct (at_idx_is_Some (peers h) (nd_peer_idx nd)) as [q Hq]; [unfold num_peers in Hold; lia|].
    by apply (peer_upd_ok _ q _ (set_nodes l h)). }
  erewrite bind_silent by exact Hw.
  erewrite bind_silent by by apply (node_upd_ok _ nd).
  destruct (at_idx_is_Some ps pidx) as [q Hq].
  { pose proof (at_idx_lt _ _ _ Hp). subst ps. by destruct (_ && _); rewrite ?zlen_upd_idx. }
  by erewrite (peer_upd_ok _ q).
Qed.

Lemma rebind_at pidx n nid physical nd ps j q' :
  0 ≤ pidx → at_idx (rebind pidx n nid physical nd ps) j = Some q' → j ≠ pidx →
  0 ≤ p_node_idx q' → at_idx ps j = Some q' ∧ nd_peer_idx nd ≠ j.
Proof.
  unfold rebind. intros Hp Hq Hj Hn. rewrite at_upd_idx_ne in Hq by done.
  assert (0 ≤ j) as Hj0 by (apply at_idx_lt in Hq; lia).
  destruct (0 <=? nd_peer_idx nd) eqn:E; cbn [andb] in Hq; [|split; [done|lia]].
  destruct (negb (nd_peer_idx nd =? pidx)) eqn:E2; [|split; [done|lia]].
  destruct (decide (nd_peer_idx nd = j)) as [Ej|Ej]; [|by rewrite at_upd_idx_ne in Hq by lia].
  destruct (at_idx ps j) as [q|] eqn:Hq0.
  - rewrite <- Ej in *. rewrite (at_upd_idx_eq _ _ _ _ Hq0) in Hq. injection Hq as <-. done.
  - exfalso. apply at_idx_lt in Hq. rewrite zlen_upd_idx in Hq.
    destruct (at_idx_is_Some ps j Hq) as [? ?]. congruence.
Qed.

Lemma rebind_self pidx n nid physical nd ps p :
  at_idx ps pidx = Some p →
  at_idx (rebind pidx n nid physical nd ps) pidx =
    Some (set_p_label (snprintf_s 80 nid) (set_p_is_physical physical (set_p_node_idx n p))).
Proof.
  intros Hp. unfold rebind.
  apply (at_upd_idx_eq pidx (λ p, set_p_label (snprintf_s 80 nid)
    (set_p_is_physical physical (set_p_node_idx n p)))).
  destruct (0 <=? nd_peer_idx nd) eqn:E; [|done].
  destruct (nd_peer_idx nd =? pidx) eqn:E2; [done|]. cbn [andb negb].
  by rewrite at_upd_idx_ne by lia.
Qed.

(** Saying hello keeps the bindings consistent. *)
Lemma bound_rebind pidx nid physical n nd l h :
  0 ≤ pidx → found_node nid (nodes h) n nd l → bound h →
  bound (set_peers (rebind pidx (Z.of_nat n) nid physical nd (peers h))
    (set_nodes (upd_idx (Z.of_nat n) (λ nd, set_nd_physical physical (set_nd_peer_idx pidx nd)) l)
      h)).
Proof.
  intros Hp [Hat Hact Hname Hsame Hother] Hb j q Hq Hn.
  set (f := λ nd, set_nd_physical physical (set_nd_peer_idx pidx nd)).
  change (at_idx (rebind pidx (Z.of_nat n) nid physical nd (peers h)) j = Some q) in Hq.
  change (nodes _) with (upd_idx (Z.of_nat n) f l).
  destruct (decide (j = pidx)) as [->|Hj].
  - assert (p_node_idx q = Z.of_nat n) as ->.
    { unfold rebind in Hq. apply at_idx_lt in Hq as Hi. rewrite zlen_upd_idx in Hi.
      destruct (at_idx_is_Some _ _ Hi) as [x Hx]. rewrite (at_upd_idx_eq _ _ _ _ Hx) in Hq.
      by injection Hq as <-. }
    exists (f nd). split; [|done]. apply at_upd_idx_eq, at_idx_Some. split; [lia|by rewrite Nat2Z.id].
  - destruct (rebind_at _ _ _ _ _ _ _ _ Hp Hq Hj Hn) as [Hq0 Hne].
    destruct (Hb j q Hq0 Hn) as (nd0 & Hnd0 & Ha0 & Hpi). exists nd0. split; [|done].
    apply at_idx_Some in Hnd0 as [_ Hnd0].
    destruct (decide (p_node_idx q = Z.of_nat n)) as [E|E].
    { rewrite E, Nat2Z.id in Hnd0. destruct Hsame as [Hs|[_ Hs]]; [|by rewrite Hs in Ha0].
      congruence. }
    rewrite at_upd_idx_ne by lia. apply at_idx_Some. split; [done|]. rewrite Hother; [done|lia].
Qed.

(** ** Hello *)

Lemma hello_id_short room nid rest :
  Forall (λ c, c ≠ 0) nid → (length nid ≤ room)%nat →
  hello_id room (nid ++ 0 :: rest) = (nid, 0 :: rest).
Proof.
  revert room. induction nid as [|c nid IH]; intros room Hnz Hl; [by destruct room|].
  apply Forall_cons_1 in Hnz as [Hc Hnz]. destruct room as [|room]; [cbn in Hl; lia|].
  cbn [app hello_id]. rewrite if_false by by apply Z.eqb_neq.
  rewrite IH; [done..|cbn in Hl; lia].
Qed.

Lemma hello_id_long room nid rest :
  Forall (λ c, c ≠ 0) nid → (room ≤ length nid)%nat →
  hello_id room (nid ++ rest) = (take room nid, drop room nid ++ rest).
Proof.
  revert room. induction nid as [|c nid IH]; intros room Hnz Hl.
  { destruct room; [done|cbn in Hl; lia]. }
  apply Forall_cons_1 in Hnz as [Hc Hnz]. destruct room as [|room]; [done|].
  cbn [app hello_id]. rewrite if_false by by apply Z.eqb_neq.
  rewrite IH; [done..|cbn in Hl; lia].
Qed.

(** The payload of a hello that names [nid], with [tl] behind the terminator;
    the transports send none, bridges and taps a byte of flags. *)
Definition hello_named (nid tl : list Z) : list Z := le_split 4 VBT_HELLO_MAGIC ++ nid ++ 0 :: tl.
Definition hello_payload (nid : list Z) (fl : Z) : list Z := hello_named nid [fl].

(** A hello with a name is not anonymous. *)
Lemma named_not_anonymous nid tl : nid ≠ [] → Forall (λ c, c ≠ 0) nid → anon (hello_named nid tl) = 0.
Proof.
  intros Hne Hnz. unfold anon, anonymous. change (drop 4 (hello_named nid tl)) with (nid ++ 0 :: tl).
  destruct nid as [|c nid]; [done|]. cbn [app head default].
  apply Forall_cons_1 in Hnz as [Hc%Z.eqb_neq _]. cbn. by rewrite Hc, andb_false_r.
Qed.

(** What [maybe_hello] does with a hello. *)
Lemma maybe_hello_run pidx nid tl id rest h :
  hello_id 63 (nid ++ 0 :: tl) = (id, rest) → id ≠ [] →
  maybe_hello pidx (hello_named nid tl) h =
    (if negb (Z.land (hello_flags rest) VBT_HELLO_FLAG_MONITOR =? 0) then
       peer_upd pidx (λ p, set_p_label (snprintf_s 80 id) (set_p_is_monitor true p));;
       mret (zlen (hello_named nid tl))
     else
       bind_peer_node pidx id (negb (Z.land (hello_flags rest) VBT_HELLO_FLAG_PHYSICAL =? 0));;
       mret (zlen (hello_named nid tl))) h.
Proof.
  intros Hid Hne. unfold maybe_hello. cbv zeta.
  assert (zlen (hello_named nid tl) = 5 + zlen nid + zlen tl) as Hl.
  { unfold hello_named. rewrite !zlen_app, zlen_cons. change (zlen (le_split 4 _)) with 4. lia. }
  pose proof (zlen_nonneg nid). pose proof (zlen_nonneg tl). rewrite if_false by lia.
  change (slice 0 4 (hello_named nid tl)) with (le_split 4 VBT_HELLO_MAGIC).
  change (drop 4 (hello_named nid tl)) with (nid ++ 0 :: tl).
  change (Z.to_nat (NODE_ID_LEN - 1)) with 63%nat.
  rewrite if_false by done. rewrite Hid, bind_get.
  destruct id as [|c id]; [done|]. by rewrite bind_ret.
Qed.

Lemma hello_named_binds pidx p nid tl h :
  hub_ok h → bound h → at_idx (peers h) pidx = Some p →
  nid ≠ [] → zlen nid < NODE_ID_LEN → Forall (λ c, c ≠ 0) nid →
  Z.land (default 0 (head tl)) VBT_HELLO_FLAG_MONITOR = 0 → num_nodes h < MAX_NODES →
  ∃ h' n nd p', maybe_hello pidx (hello_named nid tl) h =
      Ok (zlen (hello_named nid tl), h', []) ∧ bound h' ∧
    at_idx (nodes h') n = Some nd ∧ nd_node_id nd = nid ∧ nd_active nd = true ∧
    nd_peer_idx nd = pidx ∧
    nd_physical nd = negb (Z.land (default 0 (head tl)) VBT_HELLO_FLAG_PHYSICAL =? 0) ∧
    at_idx (peers h') pidx = Some p' ∧ p_node_idx p' = n ∧ p_fd p' = p_fd p.
Proof.
  intros Hh Hb Hp Hne Hlen Hnz Hmon Hroom.
  destruct (find_node_create nid h Hlen Hroom) as (n & nd & l & Hf & Hfn).
  erewrite maybe_hello_run; [| |done].
  2: { apply hello_id_short; [done|]. change NODE_ID_LEN with 64 in Hlen. unfold zlen in Hlen. lia. }
  change (hello_flags (0 :: tl)) with (default 0 (head tl)). rewrite Hmon. rewrite if_false by done.
  erewrite bind_silent by by eapply bind_peer_node_run.
  pose proof (at_idx_lt _ _ _ Hp) as Hi.
  eexists _, (Z.of_nat n), _, _. split; [done|]. split; [apply bound_rebind; [lia|done..]|].
  split; [apply at_upd_idx_eq, at_idx_Some; rewrite Nat2Z.id; split; [lia|apply Hfn]|].
  do 4 (split; [apply Hfn || done|]).
  split; [by apply rebind_self|done].
Qed.

(** C19: a hello binds its peer to the node it names, existing or new: from then
    on the node points to the peer and the peer to the node, the node is a
    physical radio exactly if the flag says so, and at most one peer acts for
    every node, as before. *)
Theorem hello_binds (pidx : Z) (p : peer) (nid : list Z) (fl : Z) (h : hub) :
  hub_ok h → bound h → at_idx (peers h) pidx = Some p →
  nid ≠ [] → zlen nid < NODE_ID_LEN → Forall (λ c, c ≠ 0) nid →
  Z.land fl VBT_HELLO_FLAG_MONITOR = 0 → num_nodes h < MAX_NODES →
  ∃ h' n nd p', maybe_hello pidx (hello_payload nid fl) h =
      Ok (zlen (hello_payload nid fl), h', []) ∧ bound h' ∧
    at_idx (nodes h') n = Some nd ∧ nd_node_id nd = nid ∧ nd_active nd = true ∧
    nd_peer_idx nd = pidx ∧
    nd_physical nd = negb (Z.land fl VBT_HELLO_FLAG_PHYSICAL =? 0) ∧
    at_idx (peers h') pidx = Some p' ∧ p_node_idx p' = n ∧ p_fd p' = p_fd p.
Proof. exact (hello_named_binds pidx p nid [fl] h). Qed.

Lemma bound_demo : bound demo_hub.
Proof.
  intros j q Hq _. apply at_idx_lt in Hq as Hj. change (zlen (peers demo_hub)) with 3 in Hj.
  assert (j = 0 ∨ j = 1 ∨ j = 2) as [->|[->| ->]] by lia; injection Hq as <-;
    (eexists; split; [reflexivity|done]).
Qed.

Lemma hello_binds_witness :
  ∃ h' n nd p', maybe_hello 2 (hello_payload (str "d") 1) demo_hub =
      Ok (zlen (hello_payload (str "d") 1), h', []) ∧ bound h' ∧
    at_idx (nodes h') n = Some nd ∧ nd_node_id nd = str "d" ∧ nd_active nd = true ∧
    nd_peer_idx nd = 2 ∧
    nd_physical nd = negb (Z.land 1 VBT_HELLO_FLAG_PHYSICAL =? 0) ∧
    at_idx (peers h') 2 = Some p' ∧ p_node_idx p' = n ∧ p_fd p' = p_fd (peer_of 7 2).
Proof.
  apply (hello_binds 2 (peer_of 7 2) (str "d") 1 demo_hub); try done.
  - apply demo_hub_ok.
  - apply bound_demo.
  - apply Forall_cons_2; [done|apply Forall_nil_2].
Defined.

(** A hello with a node id of 64 characters or more is misread: the 64th
    character is taken for the flags.  With bit 1 set in it, as in 'b', the
    node is registered as a promiscuous tap instead of a node, whatever flags
    the hello really carries. *)
Theorem long_hello_misread (pidx : Z) (p : peer) (nid : list Z) (c fl : Z) (h : hub) :
  at_idx (peers h) pidx = Some p → Forall (λ c, c ≠ 0) nid → nid !! 63%nat = Some c →
  Z.land c VBT_HELLO_FLAG_MONITOR ≠ 0 →
  ∃ h' p', maybe_hello pidx (hello_payload nid fl) h =
      Ok (zlen (hello_payload nid fl), h', []) ∧ nodes h' = nodes h ∧
    at_idx (peers h') pidx = Some p' ∧ p_is_monitor p' = true ∧ p_node_idx p' = p_node_idx p.
Proof.
  intros Hp Hnz Hc Hmon. pose proof (lookup_lt_Some _ _ _ Hc) as Hlen.
  assert (hello_flags (drop 63 nid ++ [0; fl]) = c) as Hfl.
  { rewrite (drop_S _ _ _ Hc). cbn [app]. unfold hello_flags.
    pose proof (Forall_lookup_1 _ _ _ _ Hnz Hc) as Hc0. cbn in Hc0. apply Z.eqb_neq in Hc0.
    by rewrite Hc0. }
  unfold hello_payload. erewrite maybe_hello_run; [|apply hello_id_long; [done|lia]|].
  2: { destruct nid; [cbn in Hlen; lia|done]. }
  rewrite Hfl. rewrite if_true by by apply negb_true_iff, Z.eqb_neq.
  erewrite bind_silent by by apply (peer_upd_ok _ p).
  eexists _, _. split; [done|]. split; [done|]. split; [by apply at_upd_idx_eq|done].
Qed.

Lemma long_hello_misread_witness :
  let nid := replicate 63 97 ++ [98] in
  ∃ h' p', maybe_hello 0 (hello_payload nid 0) demo_hub =
      Ok (zlen (hello_payload nid 0), h', []) ∧ nodes h' = nodes demo_hub ∧
    at_idx (peers h') 0 = Some p' ∧ p_is_monitor p' = true ∧
    p_node_idx p' = p_node_idx (peer_of 5 0).
Proof.
  apply (long_hello_misread 0 (peer_of 5 0) (replicate 63 97 ++ [98]) 98 0 demo_hub);
    [reflexivity| |reflexivity|done].
  apply (bool_decide_eq_true_1 _). vm_compute. reflexivity.
Defined.
