(* ===== verification/HubConfig.v ===== *)
(** * Saving and loading the configuration

    What SAVE_CONFIG writes, read by the option [-C] of a hub that starts:
    which of the settings come back, and how precisely. *)

From Stdlib Require Import ZArith Lia Floats.SpecFloat String.
From stdpp Require Import base list numbers option.
From S2P Require Import Prelude Wire Text TextInv NumText HubState HubTables HubModel HubIO HubRoute.
From S2P Require Import HubCtl HubLoop HubInv HubCtlInv HubLoopInv HubSpec HubDemo.

(** ** The lines of the file *)

Definition pos_line (nd : node) : list Z :=
  str "SET_POS " ++ nd_node_id nd ++ str " " ++ fix_str 4 (nd_pos_x nd) ++ str " " ++
  fix_str 4 (nd_pos_y nd) ++ str " " ++ fix_str 4 (nd_pos_z nd).
Definition power_line (nd : node) : list Z :=
  str "SET_TXPOWER " ++ nd_node_id nd ++ str " " ++ fix_str 4 (nd_tx_power_dbm nd).
Definition node_lines (nd : node) : list (list Z) :=
  if nd_active nd then
    (if nd_pos_set nd then [pos_line nd] else []) ++ (if nd_tx_power_set nd then [power_line nd] else [])
  else [].
Definition pathloss_line (x : spec_float) : list Z := str "SET_PATHLOSS " ++ fix_str 4 x.
Definition config_lines (h : hub) : list (list Z) :=
  str "# vbt-medium config snapshot" :: pathloss_line (g_path_exponent h) :: concat (map node_lines (nodes h)).

Definition with_nl (ls : list (list Z)) : list Z := concat (map (λ l, l ++ nl) ls).

Lemma with_nl_app k l : with_nl (k ++ l) = with_nl k ++ with_nl l.
Proof. unfold with_nl. by rewrite map_app, concat_app. Qed.

Lemma config_text_lines h : config_text h = with_nl (config_lines h).
Proof.
  unfold config_text, config_lines. change (?a :: ?b :: ?l) with ([a] ++ [b] ++ l). rewrite !with_nl_app.
  assert (concat (map config_node (nodes h)) = with_nl (concat (map node_lines (nodes h)))) as ->.
  { induction (nodes h) as [|nd l IH]; [done|]. cbn [map concat]. rewrite with_nl_app, <- IH. f_equal.
    unfold config_node, node_lines. destruct (nd_active nd); [|done]. rewrite with_nl_app.
    f_equal; [destruct (nd_pos_set nd)|destruct (nd_tx_power_set nd)]; try done; unfold with_nl; cbn [map concat];
      unfold pos_line, power_line; rewrite <- ?app_assoc, ?app_nil_r; done. }
  assert (∀ l, with_nl [l] = l ++ nl) as H1 by (intros l; apply app_nil_r). rewrite !H1.
  unfold pathloss_line. by rewrite <- !app_assoc.
Qed.

(** Characters that neither end a line nor a string. *)
Abbreviation plain := (Forall (λ c, c ≠ 0 ∧ c ≠ 10)).

(** A line [fgets] reads in one piece. *)
Definition line_ok (l : list Z) : Prop := plain l ∧ zlen l ≤ 510.

Lemma fgets_line_one l room rest :
  plain l → (length l < room)%nat → fgets_line room (l ++ nl ++ rest) = (l ++ nl, rest).
Proof.
  intros Hl. revert room. induction Hl as [|c l [_ Hc] _ IH]; intros room Hr; cbn in Hr; (destruct room as [|room]; [lia|]).
  - done.
  - cbn [app fgets_line]. rewrite (proj2 (Z.eqb_neq _ _) Hc), IH by lia. done.
Qed.

Lemma fgets_lines_all ls fuel :
  Forall line_ok ls → (length (with_nl ls) ≤ fuel)%nat → fgets_lines fuel (with_nl ls) = map (λ l, l ++ nl) ls.
Proof.
  intros Hl. revert fuel. induction Hl as [|l ls [Hc Hlen] _ IH]; intros fuel Hf; [by destruct fuel|].
  change (with_nl (l :: ls)) with ((l ++ nl) ++ with_nl ls) in *. rewrite <- app_assoc.
  rewrite !length_app in Hf. cbn [length nl] in Hf. destruct fuel as [|fuel]; [lia|].
  assert (∃ c r, l ++ nl ++ with_nl ls = c :: r) as (c & r & E) by (destruct l; by eexists _, _).
  cbn [fgets_lines]. rewrite E, <- E, fgets_line_one; [|done|unfold zlen in Hlen; lia].
  cbn [map]. f_equal. apply IH. lia.
Qed.

Lemma c_str_line l k : plain l → c_str (l ++ nl ++ k) = l ++ c_str (nl ++ k).
Proof. induction 1 as [|c l [Hc _] _ IH]; [done|]. cbn [app c_str]. by rewrite (proj2 (Z.eqb_neq _ _) Hc), IH. Qed.
Lemma cut_line l k : plain l → cut_at 10 (l ++ nl ++ k) = l.
Proof. induction 1 as [|c l [_ Hc] _ IH]; [done|]. cbn [app cut_at]. by rewrite (proj2 (Z.eqb_neq _ _) Hc), IH. Qed.

Lemma load_line_run c l :
  line_ok (c :: l) → c ≠ 35 → load_line ((c :: l) ++ nl) = (ctl_dispatch 0 (c :: l);; ctl_upd 0 (set_ct_outbuf [])).
Proof.
  intros [Hl _] Hc. assert (cut_at 10 (c_str ((c :: l) ++ nl)) = c :: l) as E.
  { rewrite <- (app_nil_r nl), c_str_line by done. exact (cut_line _ [] Hl). }
  unfold load_line. rewrite E. by rewrite (proj2 (Z.eqb_neq _ _) Hc).
Qed.

(** ** Numbers and names *)

Lemma digit_chars ds : all_digits ds → plain ds.
Proof. intros H. eapply Forall_impl; [|exact H]. intros c ?%digit_cases. lia. Qed.

Lemma fix_str_chars x : plain (fix_str 4 x).
Proof.
  assert (∀ v, 0 ≤ v → plain
    (nat_str 10 (v / 10 ^ 4) ++ 46 :: pad_left 48 4 (nat_str 10 (v mod 10 ^ 4)))) as Hput.
  { intros v Hv. apply Forall_app_2; [apply digit_chars, nat_str_spec, Z.div_pos; lia|].
    apply Forall_cons_2; [done|]. apply digit_chars, decimals_spec; [done|]. apply Z.mod_pos_bound. done. }
  assert (∀ (s : bool) t, plain t →
    plain (if s then 45 :: t else t)) as Hneg by (intros [] t Ht; [by apply Forall_cons_2|done]).
  destruct x as [s|s| |s m e]; unfold fix_str; [apply Hneg, (Hput 0); lia|apply Hneg| |].
  - by apply (bool_decide_eq_true_1 _).
  - by apply (bool_decide_eq_true_1 _).
  - apply Hneg, (Hput (fix_value 4 m e)). apply fix_value_nonneg. lia.
Qed.

(** A name that a command can hold: not empty, without white space. *)
Definition name_ok (nid : list Z) : Prop :=
  nid ≠ [] ∧ zlen nid < NODE_ID_LEN ∧ Forall (λ c, is_space c = false ∧ c ≠ 0) nid.

Lemma name_chars nid : name_ok nid → plain nid.
Proof. intros (_ & _ & H). eapply Forall_impl; [|exact H]. intros c [Hs ?]. split; [done|]. by intros ->. Qed.

Lemma scan_s_name n nid rest :
  nid ≠ [] → Forall (λ c, is_space c = false ∧ c ≠ 0) nid → (length nid ≤ n)%nat →
  match rest with [] => True | c :: _ => is_space c = true end → scan_s n (nid ++ rest) = Some (nid, rest).
Proof.
  intros Hne Hc Hl Hr. unfold scan_s. destruct nid as [|c nid]; [done|].
  assert (skip_ws ((c :: nid) ++ rest) = (c :: nid) ++ rest) as ->.
  { apply Forall_cons_1 in Hc as [[Hs _] _]. cbn. by rewrite Hs. }
  rewrite take_while_all; [done|done| |destruct rest; [done|by apply negb_false_iff]].
  eapply Forall_impl; [|exact Hc]. intros d [-> _]. done.
Qed.

Lemma scan_name nid rest : name_ok nid → scan_s 79 (nid ++ str " " ++ rest) = Some (nid, str " " ++ rest).
Proof.
  intros (Hne & Hl & Hc). apply scan_s_name; [done..| |done]. change NODE_ID_LEN with 64 in Hl. unfold zlen in Hl. lia.
Qed.

(** The argument behind a blank. *)
Lemma scan_number x rest : ends_number rest → scan_lf (str " " ++ fix_str 4 x ++ rest) = Some (to_decimals 4 x, rest).
Proof. intros. change (scan_lf (fix_str 4 x ++ rest) = Some (to_decimals 4 x, rest)). by apply scan_lf_fix. Qed.
Lemma scan_last x : scan_lf (str " " ++ fix_str 4 x) = Some (to_decimals 4 x, []).
Proof. pose proof (scan_number x [] I) as H. by rewrite app_nil_r in H. Qed.

(** ** What a line does to the tables *)

(** The settings the file is about. *)
Record model : Type := Model { md_nodes : list node; md_exponent : spec_float; md_overrides : list link_override }.
Definition model_of (h : hub) : model := Model (nodes h) (g_path_exponent h) (overrides h).

(** A command that leaves them alone and calls nothing. *)
Definition unmoving {A} (m : HUB A) : Prop :=
  ∀ h a h' o, m h = Ok (a, h', o) → model_of h' = model_of h ∧ o = [].

Lemma unmoving_bind {A B} (m : HUB A) (f : A → HUB B) : unmoving m → (∀ a, unmoving (f a)) → unmoving (m ≫= f).
Proof.
  intros Hm Hf h b h' o (a & h1 & o1 & o2 & E1 & E2 & ->)%bind_inv.
  destruct (Hm _ _ _ _ E1) as [<- ->]. by apply (Hf a _ _ _ _ E2).
Qed.
Lemma unmoving_id {A} (m : HUB A) : (∀ h, (∃ a, m h = Ok (a, h, [])) ∨ ∃ f, m h = Fault f) → unmoving m.
Proof. intros Hm h a h' o E. destruct (Hm h) as [[b E']|[f E']]; rewrite E in E'; [by injection E' as _ <- <-|done]. Qed.
Lemma unmoving_ctl_at i : unmoving (ctl_at i).
Proof. apply unmoving_id. intros h. unfold ctl_at. rewrite bind_get. destruct (at_idx _ _); [left|right]; by eexists. Qed.
Lemma unmoving_rdn l off n : unmoving (rdn l off n).
Proof. apply unmoving_id. intros h. unfold rdn. case_decide; [left|right]; by eexists. Qed.
Lemma unmoving_skip : unmoving skip.
Proof. by intros h a h' o [= _ <- <-]. Qed.
Lemma unmoving_ctl_upd i f : unmoving (ctl_upd i f).
Proof. intros h a h' o. unfold ctl_upd. rewrite bind_get. destruct (at_idx _ _); [|done]. by intros [= _ <- <-]. Qed.
Lemma unmoving_ctl_out i text : unmoving (ctl_out i text).
Proof.
  unfold ctl_out. apply unmoving_bind; [apply unmoving_ctl_at|]. intros c. repeat case_match; try apply unmoving_skip.
  all: apply unmoving_bind; [apply unmoving_rdn|intros; apply unmoving_ctl_upd].
Qed.

(** Nodes of a hub nobody has joined yet. *)
Definition unused (nd : node) : Prop := nd_active nd = true ∧ nd_addrs nd = [].

(** The node of that name, new if there is none, with its settings changed. *)
Definition place (nid : list Z) (f : node → node) (l : list node) : list node :=
  match find_idx (named nid) l with Some i => alter f i l | None => l ++ [f (new_node nid)] end.

Lemma alter_last {A} (f : A → A) (l : list A) x : alter f (length l) (l ++ [x]) = l ++ [f x].
Proof. rewrite <- (Nat.add_0_r (length l)) at 1. by rewrite alter_app_r. Qed.

Section Place.
Context (nid : list Z) (h : hub).
Context (Hun : Forall unused (nodes h)).

Lemma unused_owns a : find_idx (owns a) (nodes h) = None.
Proof using Hun.
  apply find_idx_None. intros i nd Hnd. destruct (Forall_lookup_1 _ _ _ _ Hun Hnd) as [_ E].
  unfold owns. rewrite E. apply andb_false_r.
Qed.

Lemma resolve_unused :
  resolve_node nid h = Ok (match find_idx (named nid) (nodes h) with Some i => Z.of_nat i | None => -1 end, h, []).
Proof using Hun.
  unfold resolve_node, find_node. destruct (find_idx (named nid) (nodes h)) as [i|] eqn:E.
  - erewrite bind_silent by (rewrite bind_get, E; reflexivity).
    by destruct (Z.leb_spec 0 (Z.of_nat i)); [|lia].
  - erewrite bind_silent by (rewrite bind_get, E; reflexivity). cbn [Z.leb Z.compare].
    destruct (parse_addr nid) as [a|]; [|done]. rewrite bind_get. unfold find_node_by_addr.
    rewrite unused_owns. by destruct (addr_is_zero a).
Qed.

Lemma create_unused :
  find_idx (named nid) (nodes h) = None → num_nodes h < MAX_NODES →
  find_node nid true h = Ok (Z.of_nat (length (nodes h)), set_nodes (nodes h ++ [new_node nid]) h, []).
Proof using Hun.
  intros E Hroom. unfold find_node. rewrite bind_get, E. cbn [negb]. unfold tab_alloc.
  assert (find_idx (λ nd, negb (nd_active nd)) (nodes h) = None) as ->.
  { apply find_idx_None. intros i nd Hnd. by destruct (Forall_lookup_1 _ _ _ _ Hun Hnd) as [-> _]. }
  by rewrite if_false by (unfold num_nodes in Hroom; lia).
Qed.

(** The shape of the commands that set a field of a node. *)
Lemma set_node_places f (text : node → list Z) a h' o :
  (find_idx (named nid) (nodes h) = None → num_nodes h < MAX_NODES) →
  (n ← resolve_or_create nid;
   if n <? 0 then table_full 0 else node_upd n f;; nd ← node_at n; ctl_out 0 (text nd)) h = Ok (a, h', o) →
  model_of h' = Model (place nid f (nodes h)) (g_path_exponent h) (overrides h).
Proof using Hun.
  intros Hroom. unfold resolve_or_create, place.
  assert (∀ n h1, (node_upd n f;; nd ← node_at n; ctl_out 0 (text nd)) h1 = Ok (a, h', o) →
    model_of h' = Model (upd_idx n f (nodes h1)) (g_path_exponent h1) (overrides h1)) as Hset.
  { intros n h1 (? & h2 & ? & ? & E1 & (nd & h3 & ? & ? & E2 & E3 & _)%bind_inv & _)%bind_inv.
    unfold node_upd in E1. rewrite bind_get in E1. destruct (at_idx (nodes h1) n); [|done]. injection E1 as _ <- _.
    unfold node_at in E2. rewrite bind_get in E2. destruct (at_idx _ n); [|done]. injection E2 as _ <- _.
    by apply unmoving_ctl_out in E3 as [-> _]. }
  destruct (find_idx (named nid) (nodes h)) as [i|] eqn:E; intros Hrun.
  - erewrite bind_silent in Hrun by (erewrite bind_silent by (rewrite resolve_unused, E; reflexivity);
      by destruct (Z.ltb_spec (Z.of_nat i) 0); [lia|]).
    rewrite if_false in Hrun by (apply Z.ltb_ge, Nat2Z.is_nonneg). rewrite (Hset _ _ Hrun). unfold upd_idx.
    by rewrite Nat2Z.id.
  - erewrite bind_silent in Hrun by (erewrite bind_silent by (rewrite resolve_unused, E; reflexivity);
      by apply create_unused; [|apply Hroom]).
    rewrite if_false in Hrun by (apply Z.ltb_ge, Nat2Z.is_nonneg). rewrite (Hset _ _ Hrun). cbn [nodes set_nodes g_path_exponent overrides].
    unfold upd_idx. by rewrite Nat2Z.id, alter_last.
Qed.
End Place.

(** ** The commands *)

(** Two words differ at some position both have. *)
Definition clash (a b : list Z) : bool := existsb (λ p, negb (tolower p.1 =? tolower p.2)) (zip a b).

Lemma keyword_clash kw p rest : clash (str kw) (str p) = true → keyword kw (str p ++ rest) = false.
Proof.
  intros Hc. apply bool_decide_eq_false_2. revert Hc. generalize (str kw) (str p). intros a.
  induction a as [|x a IH]; intros [|y b] Hc; [done..|]. cbn. intros [= E1 E2].
  unfold clash in Hc. cbn in Hc. rewrite E1, Z.eqb_refl in Hc. exact (IH b Hc E2).
Qed.
Lemma keyword_self kw rest : keyword kw (str kw ++ rest) = true.
Proof. apply bool_decide_eq_true_2. by rewrite take_app_length. Qed.
Lemma after_self kw rest : after kw (str kw ++ rest) = rest.
Proof. apply drop_app_length. Qed.

Ltac dispatch :=
  unfold ctl_dispatch; repeat rewrite keyword_clash by reflexivity; rewrite keyword_self, after_self; reflexivity.
Lemma dispatch_pos i r : ctl_dispatch i (str "SET_POS " ++ r) = ctl_set_pos i r.
Proof. dispatch. Qed.
Lemma dispatch_txpower i r : ctl_dispatch i (str "SET_TXPOWER " ++ r) = ctl_set_txpower i r.
Proof. dispatch. Qed.
Lemma dispatch_pathloss i r : ctl_dispatch i (str "SET_PATHLOSS " ++ r) = ctl_set_pathloss i r.
Proof. dispatch. Qed.
Lemma dispatch_save i r : ctl_dispatch i (str "SAVE_CONFIG " ++ r) = ctl_save_config i r.
Proof. dispatch. Qed.

(** What the lines of a node set. *)
Definition set_pos (nd x : node) : node :=
  set_nd_pos_set true (set_nd_pos_z (to_decimals 4 (nd_pos_z nd))
    (set_nd_pos_y (to_decimals 4 (nd_pos_y nd)) (set_nd_pos_x (to_decimals 4 (nd_pos_x nd)) x))).
Definition set_power (nd x : node) : node :=
  set_nd_tx_power_set true (set_nd_tx_power_dbm (to_decimals 4 (nd_tx_power_dbm nd)) x).

Lemma chars_app a b :
  plain a → plain b → plain (a ++ b).
Proof. apply Forall_app_2. Qed.
Lemma chars_str (s : string) : forallb (λ c, negb (c =? 0) && negb (c =? 10)) (str s) = true →
  plain (str s).
Proof. intros H%Is_true_true%forallb_True. eapply Forall_impl; [|exact H]. intros c Hc%Is_true_true. lia. Qed.
Ltac chars :=
  repeat (apply chars_app; [|]);
  first [by apply chars_str|by apply name_chars|apply fix_str_chars].

Lemma pos_line_ok nd : name_ok (nd_node_id nd) → zlen (pos_line nd) ≤ 510 → line_ok (pos_line nd).
Proof. intros Hn Hl. split; [|done]. unfold pos_line. chars. Qed.
Lemma power_line_ok nd : name_ok (nd_node_id nd) → zlen (power_line nd) ≤ 510 → line_ok (power_line nd).
Proof. intros Hn Hl. split; [|done]. unfold power_line. chars. Qed.
Lemma pathloss_line_ok x : zlen (pathloss_line x) ≤ 510 → line_ok (pathloss_line x).
Proof. intros Hl. split; [|done]. unfold pathloss_line. chars. Qed.

(** A line whose command is known. *)
Lemma load_command l m h a h' o :
  line_ok l → match l with c :: _ => c ≠ 35 | [] => False end → ctl_dispatch 0 l = m →
  load_line (l ++ nl) h = Ok (a, h', o) →
  ∃ b h1 o1, m h = Ok (b, h1, o1) ∧ model_of h' = model_of h1.
Proof.
  intros Hl Hc <-. destruct l as [|c l]; [done|]. rewrite load_line_run by done.
  intros (b & h1 & o1 & o2 & E1 & E2 & _)%bind_inv. exists b, h1, o1. split; [done|]. by apply unmoving_ctl_upd in E2 as [-> _].
Qed.

Section Lines.
Context (nd : node) (h : hub).
Context (Hname : name_ok (nd_node_id nd)) (Hun : Forall unused (nodes h)).
Context (Hroom : find_idx (named (nd_node_id nd)) (nodes h) = None → num_nodes h < MAX_NODES).

Lemma load_pos a h' o :
  zlen (pos_line nd) ≤ 510 → load_line (pos_line nd ++ nl) h = Ok (a, h', o) →
  model_of h' = Model (place (nd_node_id nd) (set_pos nd) (nodes h)) (g_path_exponent h) (overrides h).
Proof using Hname Hun Hroom.
  intros Hl Hrun. eapply load_command in Hrun as (b & h1 & o1 & E & ->); [|by apply pos_line_ok|done|apply dispatch_pos].
  unfold ctl_set_pos, scan_pos in E. rewrite scan_name in E by done. cbn [mbind option_bind] in E.
  do 2 (rewrite scan_number in E by done; cbn [mbind option_bind] in E). rewrite scan_last in E. cbn [fmap option_fmap option_map fst default] in E.
  by eapply (set_node_places _ _ Hun) in E.
Qed.

Lemma load_power a h' o :
  zlen (power_line nd) ≤ 510 → load_line (power_line nd ++ nl) h = Ok (a, h', o) →
  model_of h' = Model (place (nd_node_id nd) (set_power nd) (nodes h)) (g_path_exponent h) (overrides h).
Proof using Hname Hun Hroom.
  intros Hl Hrun. eapply load_command in Hrun as (b & h1 & o1 & E & ->); [|by apply power_line_ok|done|apply dispatch_txpower].
  unfold ctl_set_txpower, scan_2 in E. rewrite scan_name in E by done. cbn [mbind option_bind] in E.
  rewrite scan_last in E. cbn [mbind option_bind] in E. by eapply (set_node_places _ _ Hun) in E.
Qed.
End Lines.

Lemma load_pathloss x h a h' o :
  zlen (pathloss_line x) ≤ 510 → load_line (pathloss_line x ++ nl) h = Ok (a, h', o) →
  model_of h' = Model (nodes h) (to_decimals 4 x) (overrides h).
Proof.
  intros Hl Hrun. eapply load_command in Hrun as (b & h1 & o1 & E & ->); [|by apply pathloss_line_ok|done|apply dispatch_pathloss].
  unfold ctl_set_pathloss in E. rewrite <- (app_nil_r (fix_str 4 x)), scan_lf_fix in E by done.
  rewrite bind_modify in E. by apply unmoving_ctl_out in E as [-> _].
Qed.

(** ** All nodes *)

Definition saved (nd : node) : bool := nd_active nd && (nd_pos_set nd || nd_tx_power_set nd).
Definition saved_nodes (l : list node) : list node := filter (λ nd, saved nd = true) l.

(** A saved node as the file brings it back. *)
Definition restored (nd : node) : node :=
  (if nd_tx_power_set nd then set_power nd else id)
    ((if nd_pos_set nd then set_pos nd else id) (new_node (nd_node_id nd))).

(** What a node needs for that. *)
Record savable (nd : node) : Prop := Savable {
  sv_name : name_ok (nd_node_id nd);
  sv_pos : nd_pos_set nd = true → zlen (pos_line nd) ≤ 510;
  sv_power : nd_tx_power_set nd = true → zlen (power_line nd) ≤ 510
}.

Lemma new_node_name nid : zlen nid < NODE_ID_LEN → nd_node_id (new_node nid) = nid.
Proof. intros Hl. cbn. unfold snprintf_s. apply take_ge. change NODE_ID_LEN with 64 in *. unfold zlen in Hl. lia. Qed.

Lemma restored_name nd : savable nd → nd_node_id (restored nd) = nd_node_id nd.
Proof.
  intros [(_ & Hl & _) _ _]. rewrite <- (new_node_name _ Hl). unfold restored.
  by destruct (nd_tx_power_set nd), (nd_pos_set nd).
Qed.
Lemma restored_unused nd : unused (restored nd).
Proof. unfold restored. by destruct (nd_tx_power_set nd), (nd_pos_set nd). Qed.

Lemma named_none nid l : Forall (λ x, nd_node_id x ≠ nid) l → find_idx (named nid) l = None.
Proof.
  intros Hl. apply find_idx_None. intros i x Hx. apply andb_false_iff. right. apply bool_decide_eq_false_2.
  by apply (Forall_lookup_1 _ _ _ _ Hl Hx).
Qed.
Lemma place_new nid f l : Forall (λ x, nd_node_id x ≠ nid) l → place nid f l = l ++ [f (new_node nid)].
Proof. intros Hl. unfold place. by rewrite named_none. Qed.
Lemma find_last nid l x :
  Forall (λ x, nd_node_id x ≠ nid) l → named nid x = true → find_idx (named nid) (l ++ [x]) = Some (length l).
Proof.
  intros Hl Hx. apply find_idx_Some. split.
  - exists x. split; [|done]. rewrite lookup_app_r, Nat.sub_diag by done. done.
  - intros j y Hj Hy. rewrite lookup_app_l in Hy by done.
    apply (proj1 (find_idx_None _ l) (named_none _ _ Hl) j y Hy).
Qed.
Lemma place_last nid f l x :
  Forall (λ x, nd_node_id x ≠ nid) l → named nid x = true → place nid f (l ++ [x]) = l ++ [f x].
Proof. intros Hl Hx. unfold place. rewrite find_last by done. apply alter_last. Qed.

(** The lines of one node. *)
Lemma load_node nd h a h' o :
  savable nd → Forall unused (nodes h) → Forall (λ x, nd_node_id x ≠ nd_node_id nd) (nodes h) →
  (saved nd = true → num_nodes h < MAX_NODES) →
  for_each (map (λ l, l ++ nl) (node_lines nd)) load_line h = Ok (a, h', o) →
  model_of h' = Model (nodes h ++ map restored (saved_nodes [nd])) (g_path_exponent h) (overrides h).
Proof.
  intros [Hn Hp Hw] Hun Hnew Hroom. unfold node_lines, saved_nodes. rewrite filter_cons, filter_nil.
  assert (restored nd = (if nd_tx_power_set nd then set_power nd else id)
    ((if nd_pos_set nd then set_pos nd else id) (new_node (nd_node_id nd)))) as Hr by done. revert Hr.
  unfold saved in *. destruct (nd_active nd); cbn [andb]; cycle 1.
  { intros _ [= _ <- _]. by rewrite app_nil_r. }
  destruct (nd_pos_set nd), (nd_tx_power_set nd); cbn [orb app map for_each] in *; intros Hr;
    rewrite ?decide_True by done; rewrite ?decide_False by done; cbn [map]; rewrite ?Hr.
  - intros (? & h1 & ? & ? & E1 & (? & h2 & ? & ? & E2 & E3 & _)%bind_inv & _)%bind_inv.
    injection E3 as _ <- _. apply load_pos in E1; auto. rewrite place_new in E1 by done.
    injection E1 as En Ee Eo. assert (named (nd_node_id nd) (set_pos nd (new_node (nd_node_id nd))) = true) as Hnm.
    { apply andb_true_iff. split; [done|]. apply bool_decide_eq_true_2. apply new_node_name, Hn. }
    apply load_power in E2; [| done | | |by apply Hw].
    + rewrite En, place_last in E2 by done. by rewrite E2, Ee, Eo.
    + rewrite En. apply Forall_app_2; [done|]. by apply Forall_cons_2.
    + rewrite En, find_last; done.
  - intros (? & h1 & ? & ? & E1 & E3 & _)%bind_inv. injection E3 as _ <- _.
    apply load_pos in E1; auto. by rewrite place_new in E1 by done.
  - intros (? & h1 & ? & ? & E1 & E3 & _)%bind_inv. injection E3 as _ <- _.
    apply load_power in E1; auto. by rewrite place_new in E1 by done.
  - intros [= _ <- _]. by rewrite app_nil_r.
Qed.

Lemma saved_nodes_cons nd ns : saved_nodes (nd :: ns) = saved_nodes [nd] ++ saved_nodes ns.
Proof. change (nd :: ns) with ([nd] ++ ns). apply list.filter_app. Qed.
Lemma saved_one nd : saved_nodes [nd] = if saved nd then [nd] else [].
Proof. unfold saved_nodes. rewrite filter_cons, filter_nil. by destruct (saved nd). Qed.
Lemma unsaved_lines nd : saved nd = false → node_lines nd = [].
Proof. unfold saved, node_lines. by destruct (nd_active nd), (nd_pos_set nd), (nd_tx_power_set nd). Qed.

Definition names (l : list node) : list (list Z) := map nd_node_id l.

Lemma load_nodes ns h a h' o :
  Forall savable (saved_nodes ns) → NoDup (names (saved_nodes ns)) →
  Forall unused (nodes h) → Forall (λ x, nd_node_id x ∉ names (saved_nodes ns)) (nodes h) →
  num_nodes h + zlen (saved_nodes ns) ≤ MAX_NODES →
  for_each (map (λ l, l ++ nl) (concat (map node_lines ns))) load_line h = Ok (a, h', o) →
  model_of h' = Model (nodes h ++ map restored (saved_nodes ns)) (g_path_exponent h) (overrides h).
Proof.
  revert h o. induction ns as [|nd ns IH]; intros h o Hsv Hnd Hun Hnew Hroom.
  { intros [= _ <- _]. by rewrite app_nil_r. }
  rewrite saved_nodes_cons in *. cbn [map concat]. rewrite map_app, for_each_app.
  rewrite saved_one in *. destruct (saved nd) eqn:Es; cycle 1.
  { rewrite (unsaved_lines nd Es). cbn [app map for_each] in *. rewrite bind_skip. by apply IH. }
  intros (? & h1 & o1 & o2 & E1 & E2 & _)%bind_inv. cbn [app] in *.
  apply Forall_cons_1 in Hsv as [Hsv1 Hsv]. cbn [names map] in Hnd, Hnew. apply list.NoDup_cons in Hnd as [Hni Hnd].
  rewrite zlen_cons in Hroom. apply load_node in E1; [|done|done| |pose proof (zlen_nonneg (saved_nodes ns)); lia].
  2: { eapply Forall_impl; [|exact Hnew]. intros y Hy E. apply Hy. rewrite E. apply list_elem_of_here. }
  rewrite saved_one, Es in E1. cbn [map] in E1. injection E1 as En Ee Eo.
  apply IH in E2; [|done|done|..].
  - rewrite E2, En, Ee, Eo, <- app_assoc. done.
  - rewrite En. apply Forall_app_2; [done|]. apply Forall_cons_2; [apply restored_unused|done].
  - rewrite En. apply Forall_app_2.
    + eapply Forall_impl; [|exact Hnew]. intros y Hy Hin. by apply Hy, list_elem_of_further.
    + apply Forall_cons_2; [|done]. by rewrite restored_name.
  - unfold num_nodes in *. rewrite En, zlen_app. change (zlen [_]) with 1. lia.
Qed.

(** ** The round trip *)

(** What the user set: position and transmission power. *)
Definition setup (nd : node) : option (spec_float * spec_float * spec_float) * option spec_float :=
  (if nd_pos_set nd then Some (nd_pos_x nd, nd_pos_y nd, nd_pos_z nd) else None,
   if nd_tx_power_set nd then Some (nd_tx_power_dbm nd) else None).
Definition rounded_setup (nd : node) : option (spec_float * spec_float * spec_float) * option spec_float :=
  (if nd_pos_set nd then Some (to_decimals 4 (nd_pos_x nd), to_decimals 4 (nd_pos_y nd), to_decimals 4 (nd_pos_z nd))
   else None,
   if nd_tx_power_set nd then Some (to_decimals 4 (nd_tx_power_dbm nd)) else None).
(** Numbers the four decimals are enough for. *)
Definition short_numbers (nd : node) : bool :=
  has_decimals 4 (nd_pos_x nd) && has_decimals 4 (nd_pos_y nd) && has_decimals 4 (nd_pos_z nd) &&
  has_decimals 4 (nd_tx_power_dbm nd).

Lemma restored_setup nd : setup (restored nd) = rounded_setup nd.
Proof. unfold setup, rounded_setup, restored. by destruct (nd_tx_power_set nd), (nd_pos_set nd). Qed.
Lemma rounded_exact nd : short_numbers nd = true → rounded_setup nd = setup nd.
Proof. intros [[[? ?]%andb_true_iff ?]%andb_true_iff ?]%andb_true_iff. unfold rounded_setup. by rewrite !to_decimals_exact. Qed.

(** A hub whose settings a file can hold. *)
Record config_ok (h : hub) : Prop := ConfigOk {
  cf_exponent : zlen (pathloss_line (g_path_exponent h)) ≤ 510;
  cf_nodes : Forall savable (saved_nodes (nodes h));
  cf_names : NoDup (names (saved_nodes (nodes h)));
  cf_room : num_nodes h ≤ MAX_NODES
}.

Lemma config_lines_ok h : config_ok h → Forall line_ok (config_lines h).
Proof.
  intros [He Hs _ _]. unfold config_lines. apply Forall_cons_2; [split; [by apply chars_str|by vm_compute]|].
  apply Forall_cons_2; [by apply pathloss_line_ok|]. apply Forall_concat, Forall_map.
  revert Hs. induction (nodes h) as [|nd l IH]; intros Hs; [done|].
  rewrite saved_nodes_cons, saved_one in Hs. destruct (saved nd) eqn:Es.
  - apply Forall_cons_1 in Hs as [[Hn Hp Hw] Hs]. apply Forall_cons_2; [|by apply IH]. unfold node_lines.
    destruct (nd_active nd); [|done]. apply Forall_app_2; [destruct (nd_pos_set nd)|destruct (nd_tx_power_set nd)];
      try done; (apply Forall_cons_2; [|done]); [by apply pos_line_ok; auto|by apply power_line_ok; auto].
  - apply Forall_cons_2; [by rewrite unsaved_lines|by apply IH].
Qed.

Lemma load_config_model h h0 a h' o :
  config_ok h → nodes h0 = [] → load_config_file (Some (config_text h)) h0 = Ok (a, h', o) →
  model_of h' = Model (map restored (saved_nodes (nodes h))) (to_decimals 4 (g_path_exponent h)) (overrides h0).
Proof.
  intros Hc Hn. unfold load_config_file. rewrite config_text_lines, fgets_lines_all; [|by apply config_lines_ok|done].
  intros (? & h1 & ? & ? & E1 & (? & h2 & ? & ? & E2 & E3 & _)%bind_inv & _)%bind_inv.
  apply unmoving_ctl_upd in E1 as [E1 _]. apply unmoving_ctl_upd in E3 as [-> _]. injection E1 as En1 Ee1 Eo1.
  unfold config_lines in E2. cbn [map for_each] in E2.
  change (load_line (str "# vbt-medium config snapshot" ++ nl)) with (skip : HUB unit) in E2. rewrite bind_skip in E2.
  apply bind_inv in E2 as (? & h3 & ? & ? & E2 & E4 & _). apply load_pathloss in E2; [|apply Hc].
  injection E2 as En2 Ee2 Eo2. destruct Hc as [_ Hs Hd Hr]. apply load_nodes in E4; [|done|done|..].
  - by rewrite E4, En2, Ee2, Eo2, En1, Eo1, Hn.
  - by rewrite En2, En1, Hn.
  - by rewrite En2, En1, Hn.
  - unfold num_nodes in *. rewrite En2, En1, Hn. change (zlen []) with 0. unfold saved_nodes.
    pose proof (length_filter (λ nd, saved nd = true) (nodes h)). unfold zlen in *. lia.
Qed.

(** [fopen] succeeds. *)
Definition opens (h : hub) : Prop := match e_fopens (henv h) with Some _ :: _ => False | _ => True end.
(** A path a command can hold. *)
Definition path_ok (path : list Z) : Prop :=
  path ≠ [] ∧ zlen path ≤ 255 ∧ Forall (λ c, is_space c = false ∧ c ≠ 0) path.

Lemma save_run cidx path h :
  hub_ok h → calm h → 0 ≤ cidx < MAX_CTL_CLIENTS → opens h → path_ok path →
  ∃ h1, ctl_dispatch cidx (str "SAVE_CONFIG " ++ path) h = Ok (tt, h1, [EvFile path (config_text h)]) ∧
    model_of h1 = model_of h.
Proof.
  intros Hh Hc Hi Ho (Hne & Hl & Hp).
  destruct (hsafe_run _ _ _ (ctl_dispatch_safe cidx Hi (str "SAVE_CONFIG " ++ path) h Hh Hc)) as ([] & h1 & o & E & _).
  exists h1. rewrite E. revert E. rewrite dispatch_save. unfold ctl_save_config.
  assert (scan_s 255 path = Some (path, [])) as ->.
  { rewrite <- (app_nil_r path) at 1. apply scan_s_name; [done..| |done]. unfold zlen in Hl. lia. }
  unfold save_config. assert (∃ h0, c_fopen h = Ok (None, h0, []) ∧ model_of h0 = model_of h) as (h0 & E0 & Hm).
  { unfold c_fopen, opens in *. rewrite bind_get. destruct (e_fopens (henv h)) as [|[m|] l]; [|done|].
    - by exists h.
    - rewrite bind_modify. by eexists. }
  rewrite (bind_silent _ _ _ _ _ E0), bind_get.
  intros (? & h2 & o1 & o2 & [= _ <- <-] & E2 & ->)%bind_inv. apply unmoving_ctl_out in E2 as [E2 ->].
  assert (config_text h0 = config_text h) as ->; [|by rewrite E2].
  injection Hm as En Ee _. unfold config_text. by rewrite En, Ee.
Qed.

(** C22: a saved configuration comes back.  What SAVE_CONFIG writes, given to a
    hub that starts with [-C], restores the path loss exponent and, for every
    node with a position or a transmission power, a node of that name with
    both: rounded to four decimals, so exactly if they have no more than four.
    Nothing else comes back: there are no other nodes and no pinned links, and
    every sensitivity is the default, though HELP promises the overrides.  This
    needs names a command can hold (not empty, no white space, no two alike)
    and lines no longer than the 510 characters of [fgets]'s buffer. *)
Theorem config_roundtrip (h : hub) (cidx : Z) (path : list Z) (ups : list (list Z * list Z)) (start : Z) (e : env) :
  hub_ok h → calm h → 0 ≤ cidx < MAX_CTL_CLIENTS → opens h → path_ok path → config_ok h →
  calm (init_hub ups start e) →
  ∃ h1 text h2 o2, ctl_dispatch cidx (str "SAVE_CONFIG " ++ path) h = Ok (tt, h1, [EvFile path text]) ∧
    load_config_file (Some text) (init_hub ups start e) = Ok (tt, h2, o2) ∧
    g_path_exponent h2 = to_decimals 4 (g_path_exponent h) ∧
    names (nodes h2) = names (saved_nodes (nodes h)) ∧
    map setup (nodes h2) = map rounded_setup (saved_nodes (nodes h)) ∧
    (∀ nd, nd ∈ saved_nodes (nodes h) → short_numbers nd = true →
       ∃ nd', nd' ∈ nodes h2 ∧ nd_node_id nd' = nd_node_id nd ∧ setup nd' = setup nd) ∧
    overrides h2 = [] ∧ Forall (λ nd, nd_rx_sens_dbm nd = d_of_Z VBT_DEFAULT_RX_SENS) (nodes h2).
Proof.
  intros Hh Hc Hi Ho Hp Hcf Hc0. destruct (save_run cidx path h Hh Hc Hi Ho Hp) as (h1 & E1 & _).
  destruct (hsafe_run _ _ _ (load_config_safe (Some (config_text h)) _ (init_hub_ok ups start e) Hc0))
    as ([] & h2 & o2 & E2 & _).
  pose proof (load_config_model h (init_hub ups start e) _ _ _ Hcf eq_refl E2) as [= En Ee Eo].
  exists h1, (config_text h), h2, o2. rewrite En. split_and!; try done.
  - unfold names. rewrite map_map. apply map_ext_in. intros nd Hnd. apply restored_name.
    apply (proj1 (list.Forall_forall _ _) (cf_nodes _ Hcf)). by apply list_elem_of_In.
  - rewrite map_map. apply map_ext. apply restored_setup.
  - intros nd Hnd Hsh. exists (restored nd). split_and!; [by apply list_elem_of_fmap_2| |].
    + apply restored_name. by apply (proj1 (list.Forall_forall _ _) (cf_nodes _ Hcf)).
    + by rewrite restored_setup, rounded_exact.
  - apply Forall_map, list.Forall_forall. intros nd _. unfold restored. by destruct (nd_tx_power_set nd), (nd_pos_set nd).
Qed.

(** The hub of [demo_hub] with a node placed at (1.5, -2, 0) and one with a
    power of 4 dBm. *)
Definition config_hub : hub :=
  set_nodes [set_pos (set_nd_pos_y (d_of_Z (-2)) (set_nd_pos_x (d_of_ratio false 3 2) zero_node)) (node_named "a" 0 addr1);
             node_named "b" 1 addr2;
             set_power (set_nd_tx_power_dbm (d_of_Z 4) zero_node) (node_named "c" 2 [9; 9; 9; 9; 9; 9])] demo_hub.

Lemma config_hub_ok : hub_ok config_hub.
Proof.
  pose proof demo_hub_ok as Hh. pose proof (hok_nodes _ Hh) as Hn.
  assert (∀ p nd x, node_ok p nd → d_ok (nd_pos_x x) → d_ok (nd_pos_y x) → d_ok (nd_pos_z x) → d_ok (nd_tx_power_dbm x) →
    node_ok p (set_pos x nd) ∧ node_ok p (set_power x nd)) as Hset.
  { assert (∀ x, d_ok x → d_ok (to_decimals 4 x)) as Ht by (intros [] ?; [done..|apply d_scaled_ok]).
    intros p nd x [? ? ? ? (? & ? & ? & ?)] Hx Hy Hz Hw. split; (split; [done..| |done|done]); split_and!; try apply Ht; done. }
  destruct Hh. split; try done. change (num_peers config_hub) with (num_peers demo_hub). cbn [nodes set_nodes config_hub].
  repeat (apply Forall_cons_1 in Hn as [? Hn]). forall_cons; [by apply Hset|done|by apply Hset].
Qed.

Definition savable_b (nd : node) : bool :=
  bool_decide (name_ok (nd_node_id nd)) && (zlen (pos_line nd) <=? 510) && (zlen (power_line nd) <=? 510).
Lemma savable_dec l : forallb savable_b l = true → Forall savable l.
Proof.
  intros H%Is_true_true%forallb_True. eapply Forall_impl; [|exact H].
  intros nd [[Hn%bool_decide_eq_true Hp]%andb_true_iff Hw]%Is_true_true%andb_true_iff. split; [done|lia|lia].
Qed.

Lemma config_hub_saves : config_ok config_hub.
Proof.
  split.
  - apply Z.leb_le. vm_compute. reflexivity.
  - apply savable_dec. vm_compute. reflexivity.
  - apply (bool_decide_eq_true_1 _). vm_compute. reflexivity.
  - apply Z.leb_le. vm_compute. reflexivity.
Qed.

Lemma config_roundtrip_witness :
  ∃ h1 text h2 o2, ctl_dispatch 3 (str "SAVE_CONFIG " ++ str "/etc/vbt") config_hub = Ok (tt, h1, [EvFile (str "/etc/vbt") text]) ∧
    load_config_file (Some text) (init_hub [] 0 env0) = Ok (tt, h2, o2) ∧
    g_path_exponent h2 = to_decimals 4 (g_path_exponent config_hub) ∧
    names (nodes h2) = names (saved_nodes (nodes config_hub)) ∧
    map setup (nodes h2) = map rounded_setup (saved_nodes (nodes config_hub)) ∧
    (∀ nd, nd ∈ saved_nodes (nodes config_hub) → short_numbers nd = true →
       ∃ nd', nd' ∈ nodes h2 ∧ nd_node_id nd' = nd_node_id nd ∧ setup nd' = setup nd) ∧
    overrides h2 = [] ∧ Forall (λ nd, nd_rx_sens_dbm nd = d_of_Z VBT_DEFAULT_RX_SENS) (nodes h2).
Proof.
  apply (config_roundtrip config_hub 3 (str "/etc/vbt") [] 0 env0).
  - apply config_hub_ok.
  - apply demo_hub_calm.
  - done.
  - done.
  - split_and!; [done|done|by apply (bool_decide_eq_true_1 _)].
  - apply config_hub_saves.
  - by split_and!.
Defined.
