(* ===== verification/HubProps.v ===== *)
(** * Properties of the hub

    Safety from start-up to shutdown, and what reaches whom of a frame. *)

From Stdlib Require Import ZArith Lia Floats.SpecFloat String.
From stdpp Require Import base list numbers option.
From S2P Require Import Prelude Wire Framing Text TextInv HubState HubTables HubModel HubIO HubRoute.
From S2P Require Import HubCtl HubLoop HubIds HubInv HubCtlInv HubLoopInv HubSpec HubStream HubDemo HubTabProps.

(** ** The main loop *)

(** The main loop, from the initial state. *)
Lemma main_loop_safe `{Libm} (ups : list (list Z * list Z)) (start : Z) (e : env)
    (xs : list poll_in) :
  Forall poll_ok xs → names_left xs (init_hub ups start e) = true →
  ∃ h o, main_loop xs (init_hub ups start e) = Ok (tt, h, o) ∧ hub_ok h ∧ rooms h ∧
    Forall ev_ok o.
Proof.
  intros Hxs Hn.
  destruct (hsafe_run _ _ _ (main_loop_good xs (init_hub ups start e) (init_hub_ok _ _ _)
    (Forall_nil_2 _) Hxs Hn)) as ([] & h & o & ? & ? & ? & ?). eauto 6.
Qed.

(** The counter of automatic names has room throughout a run that starts with
    the configuration [config]. *)
Definition serve_names `{Libm} (ups : list (list Z * list Z)) (config : option (option (list Z)))
    (start : Z) (e : env) (xs : list poll_in) : bool :=
  match (match config with Some file => load_config_file file | None => skip end)
          (init_hub ups start e) with
  | Ok (_, h, _) => names_left xs h
  | Fault _ => true
  end.

(** The state the main loop starts from. *)
Lemma loaded_safe (ups : list (list Z * list Z)) (config : option (option (list Z))) (start : Z) (e : env) :
  calm (init_hub [] start e) →
  hsafe (match config with Some file => load_config_file file | None => skip end)
    (init_hub ups start e) (λ _ h, peers h = [] ∧ next_auto_id h = 0).
Proof.
  intros Hc. apply (hsafe_stays _ (init_hub ups start e) (λ _ h, peers h = [])).
  - destruct config as [file|]; [apply load_config_safe; [apply init_hub_ok|done]|].
    apply safe_skip; [apply init_hub_ok|done].
  - destruct config as [file|]; [apply stays_load_config_file|stay].
Qed.

(** It has for every run of at most a hundred thousand iterations, and for longer
    ones as long as fewer than 2^31 clients have joined without a name. *)
Lemma serve_names_first `{Libm} ups config start e xs :
  calm (init_hub [] start e) → Forall poll_ok xs →
  NAMES_PER_ITER * (1 + zlen xs) ≤ INT_MAX → serve_names ups config start e xs = true.
Proof.
  intros Hc Hxs Hl. pose proof (loaded_safe ups config start e Hc) as Hs. unfold serve_names.
  unfold hsafe, safe, wp in Hs.
  destruct ((match config with Some file => load_config_file file | None => skip end)
    (init_hub ups start e)) as [[[[] h] o]|]; [|done].
  destruct Hs as (Hh & _ & Hp & Hz). apply names_left_first; [done| |done|lia].
  unfold rooms. by rewrite Hp.
Qed.

(** From the configuration file to the last [peer_close]. *)
Lemma serve_main_safe `{Libm} (ups : list (list Z * list Z)) (config : option (option (list Z)))
    (start : Z) (e : env) (xs : list poll_in) :
  calm (init_hub [] start e) → Forall poll_ok xs → serve_names ups config start e xs = true →
  ∃ h o, serve_main ups config start e xs = Ok (tt, h, o) ∧ hub_ok h ∧ Forall ev_ok o ∧
    Forall (λ p, p_fd p < 0) (peers h).
Proof.
  intros Hc Hxs Hn. set (h0 := init_hub ups start e).
  enough (hsafe (match config with Some file => load_config_file file | None => skip end;;
                 main_loop xs;; shutdown) h0 (λ _ h, Forall (λ p, p_fd p < 0) (peers h))) as Hs.
  { destruct (hsafe_run _ _ _ Hs) as ([] & h & o & ? & ? & ? & ?). eauto 6. }
  safe_step. eapply (safe_mono _ _ _ _ (λ _ h, (peers h = [] ∧ next_auto_id h = 0) ∧ names_left xs h = true)).
  { apply (hsafe_also _ h0 (λ _ h, peers h = [] ∧ next_auto_id h = 0) (λ _ h, names_left xs h = true));
      [by apply loaded_safe|].
    intros [] h o E. unfold serve_names in Hn. fold h0 in Hn. by rewrite E in Hn. }
  intros [] h1 Hh1 [[Hp _] Hn1]. safe_step. eapply safe_mono.
  { apply main_loop_good; [done| |done..]. unfold rooms. by rewrite Hp. }
  intros [] h2 Hh2 _. by apply shutdown_safe.
Qed.

(** Whatever its command line and its configuration file hold, whatever
    clients and control clients send and however the kernel splits reads and
    writes, as long as no write fails for good, no allocation fails and the
    counter of automatic names does not overflow, the hub runs from start-up to
    shutdown without an access outside any of its objects and with well-formed
    tables; the upstreams fit their array, and every peer is closed at the
    end. *)
Theorem hub_main_safe `{Libm} (us : list (list Z)) (config : option (option (list Z)))
    (start : Z) (e : env) (xs : list poll_in) :
  calm (init_hub [] start e) → Forall poll_ok xs →
  serve_names (foldl add_upstream [] us) config start e xs = true →
  zlen (foldl add_upstream [] us) ≤ MAX_UPSTREAMS ∧
  ∃ h o, hub_main us config start e xs = Ok (tt, h, o) ∧ hub_ok h ∧ Forall ev_ok o ∧
    Forall (λ p, p_fd p < 0) (peers h).
Proof.
  intros Hc Hxs Hn. split; [by apply (add_upstreams_fit us [])|]. by apply serve_main_safe.
Qed.

Definition demo_run : list poll_in :=
  [it_accept 5; it_accept 6;
   it_read env0 0 (hello_bytes (str "a") ++ mk_frame VBT_LL_ADV 0 addr1 (adv_pdu addr1))].

Lemma demo_run_ok : Forall poll_ok demo_run.
Proof.
  repeat (apply Forall_cons_2; [|]); [..|apply Forall_nil_2]; split; cbn; try done;
    repeat (apply Forall_cons_2; [|]); try done; try apply Forall_nil_2.
Qed.

Lemma hub_main_safe_witness :
  zlen (foldl add_upstream [] [str "example.org:7000"]) ≤ MAX_UPSTREAMS ∧
  ∃ h o, hub_main (H:=demo_libm) [str "example.org:7000"] (Some (Some (str "SET_POS a 1.5 -2" ++ nl)))
           0 env0 demo_run = Ok (tt, h, o) ∧ hub_ok h ∧ Forall ev_ok o ∧
    Forall (λ p, p_fd p < 0) (peers h).
Proof.
  apply (hub_main_safe (H:=demo_libm) [str "example.org:7000"] (Some (Some (str "SET_POS a 1.5 -2" ++ nl)))).
  - by split_and!.
  - apply demo_run_ok.
  - apply (serve_names_first (H:=demo_libm)); [by split_and!|apply demo_run_ok|done].
Defined.

(** ** Routing *)

(** C7: with a calm kernel and no loss pinned to a link, forwarding a frame extends the stream of every open peer by exactly
    the frames the routing function [to_peer] assigns to it: a copy for each
    tap, advertising to every bridge and every node that hears it, data to the
    other endpoint of its connection and to the bridges.  Frames are appended
    whole or, if the peer's backlog has no room, not at all. *)
Theorem forward_frame_routes `{Libm} (src : Z) (sp : peer) (hdr : vbt_frame_hdr) (n : Z)
    (h : hub) :
  hub_ok h → calm h → fds_distinct h → lossless h → hdr_ok hdr → 0 ≤ n ≤ VBT_MAX_PDU_SIZE →
  at_idx (peers h) src = Some sp →
  ∃ h' o, forward_frame src hdr n h = Ok (tt, h', o) ∧ hub_ok h' ∧
    queues h o h' (to_peer h src hdr (slice (4 + VBT_HDR_SIZE) n (p_rxbuf sp))).
Proof.
  intros Hok Hc Hfd Hl Hhdr Hn Hsp.
  pose proof (forward_frame_lands src sp hdr n h Hok Hc Hfd Hl Hhdr Hn Hsp) as Hw.
  unfold lands, wp in Hw. destruct (forward_frame src hdr n h) as [[[[] h'] o]|]; [|done].
  by exists h', o.
Qed.

Lemma forward_frame_routes_witness :
  ∃ h' o, forward_frame (H:=demo_libm) 0 demo_data 2 demo_hub = Ok (tt, h', o) ∧ hub_ok h' ∧
    queues demo_hub o h'
      (to_peer (H:=demo_libm) demo_hub 0 demo_data
        (slice (4 + VBT_HDR_SIZE) 2 (p_rxbuf (peer_of 5 0)))).
Proof.
  apply (forward_frame_routes (H:=demo_libm) 0 (peer_of 5 0) demo_data 2 demo_hub).
  - apply demo_hub_ok.
  - apply demo_hub_calm.
  - apply demo_hub_fds.
  - apply Forall_nil_2.
  - apply demo_data_ok.
  - done.
  - reflexivity.
Defined.

(** What the routing theorem says about one peer. *)
Lemma queued_nothing p p' o : queued p p' o [] → written (p_fd p) o ++ backlog p' = backlog p.
Proof.
  intros [_ (fs & Hs & He & _)]. apply sublist_nil_r in Hs as ->. by rewrite He, app_nil_r.
Qed.

Lemma queued_one p p' o f :
  queued p p' o [f] → zlen (backlog p) + zlen f ≤ SEND_BUF_SIZE →
  written (p_fd p) o ++ backlog p' = backlog p ++ f.
Proof.
  intros [_ (fs & _ & He & Hr)] Hroom. rewrite Hr in He.
  - by rewrite He; cbn; rewrite app_nil_r.
  - cbn. by rewrite app_nil_r.
Qed.

Lemma image_len hdr pdu r : hdr_ok hdr → zlen (image hdr pdu r) = 48 + zlen pdu.
Proof.
  intros. unfold image, frame_bytes. apply frame_wire_len; [|done].
  apply set_rssi_ok; [done|apply s8_range].
Qed.

(** The opposite of one endpoint of a connection is the other. *)
Lemma opposite_live a b c :
  (cn_node_a c = a ∧ cn_node_b c = b) ∨ (cn_node_b c = a ∧ cn_node_a c = b) → opposite a c = b.
Proof. intros Hends. unfold opposite. destruct (Z.eqb_spec (cn_node_a c) a); lia. Qed.

(** The route of a frame on a live connection with the node at the other end
    bound to an open peer. *)
Lemma conn_route_live hdr h c k nd a rxn dst :
  aa_unique (conns h) → aa_valid (access_addr hdr) = true →
  conns h !! k = Some c → cn_active c = true → cn_access_addr c = access_addr hdr →
  (cn_node_a c = a ∧ cn_node_b c = rxn) ∨ (cn_node_b c = a ∧ cn_node_a c = rxn) →
  at_idx (nodes h) rxn = Some nd → nd_active nd = true → nd_peer_idx nd = dst → 0 ≤ dst →
  conn_route hdr h a = Some (dst, rxn).
Proof.
  intros Hu Hv Hk Ha Haa Hends Hnd Hact Hdst Hd. unfold conn_route.
  rewrite (find_conn_live _ _ k c) by done.
  cbn [mbind option_bind]. rewrite (opposite_live a rxn c Hends).
  rewrite Hnd. cbn [mbind option_bind]. rewrite Hact, Hdst. by rewrite (proj2 (Z.leb_le 0 dst)).
Qed.

(** C12: a data PDU is point to point.  Let a live connection own the Access
    Address of the frame, the sender's node be one of its two endpoints and
    [rxn] the other, bound to the peer [dst].  Then the peer [dst] receives the
    frame, once, with the RSSI of the propagation model, if that model lets its
    node hear it and the peer's backlog has room for it; every other peer that
    is neither a bridge nor a tap receives nothing, whatever it is bound to. *)
Theorem data_point_to_point `{Libm} (src : Z) (sp : peer) (hdr : vbt_frame_hdr) (n : Z)
    (h : hub) (k : nat) (c : conn) (nd : node) (dst rxn : Z) :
  hub_ok h → calm h → fds_distinct h → lossless h → hdr_ok hdr → 0 ≤ n ≤ VBT_MAX_PDU_SIZE →
  at_idx (peers h) src = Some sp → p_is_bridge sp = false → ll_type hdr = VBT_LL_DATA →
  aa_unique (conns h) → aa_valid (access_addr hdr) = true →
  conns h !! k = Some c → cn_active c = true → cn_access_addr c = access_addr hdr →
  (cn_node_a c = p_node_idx sp ∧ cn_node_b c = rxn) ∨
  (cn_node_b c = p_node_idx sp ∧ cn_node_a c = rxn) →
  at_idx (nodes h) rxn = Some nd → nd_active nd = true → nd_peer_idx nd = dst → 0 ≤ dst →
  let pdu := slice (4 + VBT_HDR_SIZE) n (p_rxbuf sp) in
  ∃ h' o, forward_frame src hdr n h = Ok (tt, h', o) ∧
    (∀ i p, at_idx (peers h) i = Some p → 0 ≤ p_fd p → i ≠ dst →
       p_is_bridge p = false → p_is_monitor p = false →
       ∃ p', at_idx (peers h') i = Some p' ∧ written (p_fd p) o ++ backlog p' = backlog p) ∧
    (∀ q r, at_idx (peers h) dst = Some q → 0 ≤ p_fd q →
       p_is_bridge q = false → p_is_monitor q = false →
       heard h hdr (p_node_idx sp) rxn = Some r → zlen (backlog q) + (48 + n) ≤ SEND_BUF_SIZE →
       ∃ q', at_idx (peers h') dst = Some q' ∧
         written (p_fd q) o ++ backlog q' = backlog q ++ image (set_ttl 8 hdr) pdu r).
Proof.
  intros Hok Hc Hfd Hl Hhdr Hn Hsp Hbr Hty Hu Hv Hk Hact Haa Hends Hnd Hna Hdst Hd pdu.
  pose proof (conn_route_live hdr h c k nd _ rxn dst Hu Hv Hk Hact Haa Hends Hnd Hna Hdst Hd) as Hroute.
  pose proof (forward_frame_lands src sp hdr n h Hok Hc Hfd Hl Hhdr Hn Hsp) as Hw.
  unfold lands, wp in Hw. destruct (forward_frame src hdr n h) as [[[[] h'] o]|]; [|done].
  destruct Hw as [_ Hq]. exists h', o. split; [done|].
  assert (∀ i p, p_is_bridge p = false → p_is_monitor p = false →
    to_peer h src hdr pdu i p =
    if i =? dst then heard_frames (set_ttl 8 hdr) pdu h (p_node_idx sp) rxn else []) as Hto.
  { intros i p Hpb Hpm. by apply to_peer_data. }
  split.
  - intros i p Hp Hpfd Hne Hpb Hpm. destruct (Hq i p Hp Hpfd) as (p' & Hp' & Hqd).
    exists p'. split; [done|]. rewrite Hto in Hqd by done.
    rewrite (proj2 (Z.eqb_neq _ _) Hne) in Hqd. by apply queued_nothing.
  - intros q r Hqa Hqfd Hqb Hqm Hr Hroom. destruct (Hq dst q Hqa Hqfd) as (q' & Hq' & Hqd).
    exists q'. split; [done|]. rewrite Hto, Z.eqb_refl in Hqd by done.
    unfold heard_frames in Hqd. change (heard h (set_ttl 8 hdr) (p_node_idx sp) rxn)
      with (heard h hdr (p_node_idx sp) rxn) in Hqd. rewrite Hr in Hqd.
    apply queued_one; [done|]. rewrite image_len by (apply set_ttl_ok; [done|mlia]).
    assert (zlen pdu = n) as ->; [|done]. apply pdu_len_n; [done|].
    apply (pok_rxbuf _ _ (at_idx_Forall _ _ _ _ (hok_peers _ Hok) Hsp)).
Qed.

Lemma data_point_to_point_witness :
  let pdu := slice (4 + VBT_HDR_SIZE) 2 (p_rxbuf (peer_of 5 0)) in
  ∃ h' o, forward_frame (H:=demo_libm) 0 demo_data 2 demo_hub = Ok (tt, h', o) ∧
    (∀ i p, at_idx (peers demo_hub) i = Some p → 0 ≤ p_fd p → i ≠ 1 →
       p_is_bridge p = false → p_is_monitor p = false →
       ∃ p', at_idx (peers h') i = Some p' ∧ written (p_fd p) o ++ backlog p' = backlog p) ∧
    (∀ q r, at_idx (peers demo_hub) 1 = Some q → 0 ≤ p_fd q →
       p_is_bridge q = false → p_is_monitor q = false →
       heard (LM:=demo_libm) demo_hub demo_data 0 1 = Some r →
       zlen (backlog q) + (48 + 2) ≤ SEND_BUF_SIZE →
       ∃ q', at_idx (peers h') 1 = Some q' ∧
         written (p_fd q) o ++ backlog q' = backlog q ++ image (set_ttl 8 demo_data) pdu r).
Proof.
  apply (data_point_to_point (H:=demo_libm) 0 (peer_of 5 0) demo_data 2 demo_hub 0
    (set_cn_node_b 1 (set_cn_node_a 0 (new_conn 0x12345678))) (node_named "b" 1 addr2) 1 1);
    try reflexivity.
  - apply demo_hub_ok.
  - apply demo_hub_calm.
  - apply demo_hub_fds.
  - apply Forall_nil_2.
  - apply demo_data_ok.
  - done.
  - intros [|i] [|j] c d Hc Hd; done.
  - by left.
  - lia.
Defined.

(** C18: without positions or pinned links, an advertising PDU of a node reaches
    every other connected node exactly once, with the sender's RSSI (or -40
    dBm if it gave none) and the hop count of a fresh frame; it does not come
    back to its sender. *)
Theorem adv_reaches_everyone `{Libm} (src : Z) (sp : peer) (hdr : vbt_frame_hdr) (n : Z)
    (h : hub) :
  hub_ok h → calm h → fds_distinct h → overrides h = [] → hdr_ok hdr →
  0 ≤ n ≤ VBT_MAX_PDU_SIZE → at_idx (peers h) src = Some sp → p_is_bridge sp = false →
  ll_type hdr = VBT_LL_ADV →
  Forall (λ nd, nd_pos_set nd = false ∧ nd_physical nd = false) (nodes h) →
  let pdu := slice (4 + VBT_HDR_SIZE) n (p_rxbuf sp) in
  let r := if rssi hdr =? 0 then VBT_DEFAULT_RSSI else rssi hdr in
  ∃ h' o, forward_frame src hdr n h = Ok (tt, h', o) ∧
    ∀ i p, at_idx (peers h) i = Some p → 0 ≤ p_fd p → 0 ≤ p_node_idx p →
      p_is_bridge p = false → p_is_monitor p = false →
      zlen (backlog p) + (48 + n) ≤ SEND_BUF_SIZE →
      ∃ p', at_idx (peers h') i = Some p' ∧
        written (p_fd p) o ++ backlog p' =
          backlog p ++ (if i =? src then [] else image (set_ttl 8 hdr) pdu r).
Proof.
  intros Hok Hc Hfd Hov Hhdr Hn Hsp Hbr Hty Hnodes pdu r.
  assert (lossless h) as Hl by (unfold lossless; rewrite Hov; constructor).
  pose proof (forward_frame_lands src sp hdr n h Hok Hc Hfd Hl Hhdr Hn Hsp) as Hw.
  unfold lands, wp in Hw. destruct (forward_frame src hdr n h) as [[[[] h'] o]|]; [|done].
  destruct Hw as [_ Hq]. exists h', o. split; [done|].
  intros i p Hp Hpfd Hni Hpb Hpm Hroom. destruct (Hq i p Hp Hpfd) as (p' & Hp' & Hqd).
  exists p'. split; [done|]. unfold to_peer, hop in Hqd. rewrite Hsp, Hbr in Hqd.
  cbn [set_ttl set_flags ll_type] in Hqd. rewrite Hty in Hqd. cbn [Z.eqb] in Hqd.
  unfold tap_frames, adv_frames in Hqd. rewrite Hpm, Hpb, andb_false_r in Hqd. cbn [app] in Hqd.
  rewrite (proj2 (Z.ltb_ge (p_fd p) 0)), orb_false_r in Hqd by lia.
  destruct (i =? src); [rewrite app_nil_r; by apply queued_nothing|].
  rewrite (proj2 (Z.ltb_ge (p_node_idx p) 0)) in Hqd by lia.
  pose proof (pok_node _ _ (at_idx_Forall _ _ _ _ (hok_peers _ Hok) Hp)) as Hi2.
  destruct (at_idx_is_Some (nodes h) (p_node_idx p)) as [rx Hrx]; [unfold num_nodes in Hi2; mlia|].
  assert (heard h (set_ttl 8 hdr) (p_node_idx sp) (p_node_idx p) = Some r) as Hr.
  { unfold heard. rewrite Hrx. cbn [mbind option_bind]. unfold prop_spec.
    destruct (at_idx_Forall _ _ _ _ Hnodes Hrx) as [Hrp Hrph].
    destruct (at_idx (nodes h) (p_node_idx sp)) as [tx|] eqn:Htx; [|done].
    destruct (at_idx_Forall _ _ _ _ Hnodes Htx) as [Htp Htph].
    rewrite Hrp, Hrph, Htp, Htph, Hov. done. }
  unfold heard_frames in Hqd. rewrite Hr in Hqd. apply queued_one; [done|].
  rewrite image_len by (apply set_ttl_ok; [done|mlia]).
  assert (zlen pdu = n) as ->; [|done]. apply pdu_len_n; [done|].
  apply (pok_rxbuf _ _ (at_idx_Forall _ _ _ _ (hok_peers _ Hok) Hsp)).
Qed.

Definition demo_adv : vbt_frame_hdr := mk_hdr VBT_LL_ADV VBT_ADV_ACCESS_ADDR 8 addr1.

Lemma adv_reaches_everyone_witness :
  ∃ h' o, forward_frame (H:=demo_libm) 0 demo_adv 8 demo_hub = Ok (tt, h', o) ∧
    ∀ i p, at_idx (peers demo_hub) i = Some p → 0 ≤ p_fd p → 0 ≤ p_node_idx p →
      p_is_bridge p = false → p_is_monitor p = false →
      zlen (backlog p) + (48 + 8) ≤ SEND_BUF_SIZE →
      ∃ p', at_idx (peers h') i = Some p' ∧
        written (p_fd p) o ++ backlog p' =
          backlog p ++ (if i =? 0 then []
            else image (set_ttl 8 demo_adv)
                   (slice (4 + VBT_HDR_SIZE) 8 (p_rxbuf (peer_of 5 0))) (-40)).
Proof.
  apply (adv_reaches_everyone (H:=demo_libm) 0 (peer_of 5 0) demo_adv 8 demo_hub).
  - apply demo_hub_ok.
  - apply demo_hub_calm.
  - apply demo_hub_fds.
  - reflexivity.
  - split; try (cbn; mlia); (split; [|done]); apply (bool_decide_eq_true_1 _); reflexivity.
  - done.
  - reflexivity.
  - reflexivity.
  - reflexivity.
  - by repeat constructor.
Defined.

(** ** Reassembly *)

(** C11: the hub reassembles the byte stream of a peer.  Whatever way the kernel
    splits the stream of length-prefixed payloads into reads, each payload is
    handled exactly once, whole and in order, and nothing is left in the
    receive buffer at the end; the counter of automatic names must have room for
    the payloads that are hellos without a name ([anons]). *)
Theorem stream_reassembled `{Libm} (idx : Z) (ns : list nat) (s : list Z) (ps : list (list Z))
    (p : peer) (h : hub) :
  hub_ok h → calm h → at_idx (peers h) idx = Some p → Forall payload_ok ps → bytes_ok s →
  incomplete (rx_bytes p) → Forall (λ n, 0 < n)%nat ns → (length s ≤ length ns)%nat →
  rx_bytes p ++ s = concat (map wire ps) → next_auto_id h + anons ps ≤ INT_MAX →
  ∃ h' p' o, recv_all idx ns s h = Ok ([], h', o) ∧ hub_ok h' ∧ serves idx h ps o h' ∧
    at_idx (peers h') idx = Some p' ∧ rx_bytes p' = [].
Proof.
  intros Hh Hc Hp Hps Hb Hi Hns Hl Hd Hid.
  destruct (recv_all_run idx ns s ps p h) as (h' & p' & o & ? & ? & _ & ? & ? & ? & _); [done..|].
  by exists h', p', o.
Qed.

Lemma stream_reassembled_witness :
  let s := wire (str "x") ++ wire (frame_payload demo_data [1; 0]) in
  ∃ h' p' o, recv_all (H:=demo_libm) 0 (replicate 60 1%nat) s demo_hub = Ok ([], h', o) ∧
    hub_ok h' ∧ serves (H:=demo_libm) 0 demo_hub [str "x"; frame_payload demo_data [1; 0]] o h' ∧
    at_idx (peers h') 0 = Some p' ∧ rx_bytes p' = [].
Proof.
  apply (stream_reassembled (H:=demo_libm) 0 (replicate 60 1%nat) _
    [str "x"; frame_payload demo_data [1; 0]] (peer_of 5 0) demo_hub).
  - apply demo_hub_ok.
  - apply demo_hub_calm.
  - reflexivity.
  - repeat apply Forall_cons_2; try apply Forall_nil_2;
      (split; [apply (bool_decide_eq_true_1 _); vm_compute; reflexivity|done]).
  - apply (bool_decide_eq_true_1 _). vm_compute. reflexivity.
  - left. done.
  - apply Forall_replicate. lia.
  - vm_compute. lia.
  - reflexivity.
  - by vm_compute.
Defined.

(** C8: from wire to wire.  With a calm kernel and no loss pinned to a link, a frame a peer sends, read in whatever pieces,
    reaches every open peer exactly as the routing function assigns it,
    whole or, for want of room in the backlog, not at all. *)
Theorem frame_wire_to_wire `{Libm} (src : Z) (ns : list nat) (hdr : vbt_frame_hdr)
    (pdu : list Z) (sp : peer) (h : hub) :
  hub_ok h → calm h → fds_distinct h → lossless h → hdr_ok hdr → magic hdr = VBT_MAGIC →
  pdu_len hdr = zlen pdu → bytes_ok pdu → zlen pdu ≤ VBT_MAX_PDU_SIZE →
  at_idx (peers h) src = Some sp → rx_bytes sp = [] →
  Forall (λ n, 0 < n)%nat ns → (length (frame_bytes hdr pdu) ≤ length ns)%nat →
  ∃ h' o, recv_all src ns (frame_bytes hdr pdu) h = Ok ([], h', o) ∧ hub_ok h' ∧
    ∀ i p, at_idx (peers h) i = Some p → 0 ≤ p_fd p →
      ∃ p', at_idx (peers h') i = Some p' ∧ p_fd p' = p_fd p ∧
        extended p p' o (to_peer h src hdr pdu i p).
Proof. apply recv_frame_lands. Qed.

Lemma frame_wire_to_wire_witness :
  ∃ h' o, recv_all (H:=demo_libm) 0 (replicate 60 7%nat) (frame_bytes demo_data [1; 0]) demo_hub =
      Ok ([], h', o) ∧ hub_ok h' ∧
    ∀ i p, at_idx (peers demo_hub) i = Some p → 0 ≤ p_fd p →
      ∃ p', at_idx (peers h') i = Some p' ∧ p_fd p' = p_fd p ∧
        extended p p' o (to_peer (H:=demo_libm) demo_hub 0 demo_data [1; 0] i p).
Proof.
  apply (frame_wire_to_wire (H:=demo_libm) 0 (replicate 60 7%nat) demo_data [1; 0] (peer_of 5 0)
    demo_hub); try reflexivity.
  - apply demo_hub_ok.
  - apply demo_hub_calm.
  - apply demo_hub_fds.
  - apply Forall_nil_2.
  - apply demo_data_ok.
  - apply (bool_decide_eq_true_1 _). vm_compute. reflexivity.
  - done.
  - apply Forall_replicate. lia.
  - vm_compute. lia.
Defined.
