(* ===== verification/HubDefects.v ===== *)
(** * Where the hub departs from its intent

    Two defects of the routing tables, each shown for every hub in which the
    conditions hold: a connection of a node to itself that turns a failing
    write into an access outside the receive buffer, and a node that stays
    bound to the slot of a peer that has renamed itself and left. *)

From Stdlib Require Import ZArith Lia Floats.SpecFloat String.
From stdpp Require Import base list numbers option.
From S2P Require Import Prelude Wire Framing Text HubState HubTables HubModel HubIO HubRoute.
From S2P Require Import HubLoop HubIds HubInv HubSpec HubStream HubDemo HubTabProps HubNameProps HubProps.

(** ** A connection of a node to itself *)

Lemma for_peers_idle f h :
  (∀ i, 0 ≤ i < num_peers h → f i h = Ok (tt, h, [])) → for_peers f h = Ok (tt, h, []).
Proof.
  intros Hf. unfold for_peers. rewrite bind_get.
  assert (∀ l, Forall (λ i, 0 ≤ i < num_peers h) l → for_each l f h = Ok (tt, h, [])) as Hl.
  { induction 1 as [|i l Hi _ IH]; [done|]. cbn [for_each].
    by erewrite bind_silent by by apply Hf. }
  apply Hl, list.Forall_forall. intros i Hi%elem_of_seqZ. lia.
Qed.

(** No other open peer is a tap or a bridge. *)
Definition alone (idx : Z) (h : hub) : Prop :=
  ∀ i p, at_idx (peers h) i = Some p → i ≠ idx → 0 ≤ p_fd p →
    p_is_monitor p = false ∧ p_is_bridge p = false.

Section SelfRoute.
Context `{LM : Libm}.
Context (idx : Z) (hdr : vbt_frame_hdr) (n : Z) (Hhdr : hdr_ok hdr) (Hn : msg_len_ok n).

Lemma taps_idle h : alone idx h → for_peers (tap_one idx hdr n) h = Ok (tt, h, []).
Proof using.
  intros Ha. apply for_peers_idle. intros i Hi. unfold tap_one.
  destruct (at_idx_is_Some (peers h) i Hi) as [p Hp]. erewrite bind_silent by by apply peer_at_ok.
  destruct (Z.eqb_spec i idx) as [|Hne]; [done|]. destruct (Z.leb_spec 0 (p_fd p)) as [Hfd|]; [|done].
  by destruct (Ha i p Hp Hne Hfd) as [-> _].
Qed.

Lemma bridges_idle h : alone idx h → for_peers (bridge_one idx hdr n) h = Ok (tt, h, []).
Proof using.
  intros Ha. apply for_peers_idle. intros i Hi. unfold bridge_one.
  destruct (at_idx_is_Some (peers h) i Hi) as [p Hp]. erewrite bind_silent by by apply peer_at_ok.
  destruct (Z.eqb_spec i idx) as [|Hne]; [done|]. destruct (Z.leb_spec 0 (p_fd p)) as [Hfd|]; [|done].
  by destruct (Ha i p Hp Hne Hfd) as [_ ->].
Qed.

(** The peer is closed, and nothing else changes in the table of peers. *)
Record gone (h h' : hub) : Prop := Gone {
  gn_ok : hub_ok h';
  gn_slot : at_idx (peers h') idx = Some closed_peer;
  gn_others : ∀ j, j ≠ idx → at_idx (peers h') j = at_idx (peers h) j
}.

(** A hard error on the first write of a frame closes the peer. *)
Lemma send_fails p data ws h :
  hub_ok h → at_idx (peers h) idx = Some p → 0 ≤ p_fd p → p_outused p = 0 → data ≠ [] →
  e_writes (henv h) = WError :: ws →
  ∃ h' o, peer_send idx data h = Ok (false, h', o) ∧ gone h h'.
Proof using.
  intros Hh Hp Hfd Hout Hd Hw. unfold peer_send. erewrite bind_silent by by apply peer_at_ok.
  rewrite if_false by lia. rewrite if_true by lia. unfold write_all. rewrite bind_assoc, bind_get, Hw.
  assert (write_loop (WError :: ws) data = ([], data, ws, WHard)) as -> by by destruct data.
  exec. cbn [for_each]. exec.
  set (h1 := set_henv _ h). assert (hub_ok h1) as Hh1 by (subst h1; auto with vbt).
  destruct (hsafe_run _ _ _ (peer_close_safe idx h1 Hh1 (at_idx_lt _ _ _ Hp)))
    as ([] & h2 & o & Hrun & Hh2 & _ & Hcl).
  exists h2, (o ++ []). split; [cbn [snd]; unfold mbind, cmd_bind; by rewrite Hrun|].
  destruct (at_idx_is_Some (peers h2) idx) as [q Hq].
  { pose proof (at_idx_lt _ _ _ Hp). destruct (cls_sized _ _ _ Hcl). unfold num_peers in *. cbn in *. lia. }
  split; [done| |apply (cls_others _ _ _ Hcl)].
  destruct (cls_slot _ _ _ Hcl _ Hq) as [Hq0 [->|E]]; [done|]. subst h2. change (peers h1) with (peers h) in Hq.
  rewrite Hp in Hq. injection Hq as <-. lia.
Qed.

(** The frame a node sends to itself closes its peer. *)
Lemma deliver_fails p ws r h :
  hub_ok h → at_idx (peers h) idx = Some p → 0 ≤ p_fd p → p_outused p = 0 →
  e_writes (henv h) = WError :: ws →
  ∃ h' o, deliver_to_peer idx hdr idx n r h = Ok (tt, h', o) ∧ gone h h'.
Proof using Hhdr Hn.
  intros Hh Hp Hfd Hout Hw. pose proof (pok_rxbuf _ _ (at_idx_Forall _ _ _ _ (hok_peers _ Hh) Hp)) as [_ Hl].
  unfold deliver_to_peer, pdu_bytes. cbv zeta. rewrite bind_assoc. erewrite bind_silent by by apply peer_at_ok.
  destruct Hn. unfold RECV_BUF_SIZE, VBT_RXBUF_SIZE, VBT_HDR_SIZE, VBT_MAX_PDU_SIZE in *.
  rewrite bind_rdn by (unfold VBT_HDR_SIZE; lia).
  assert (zlen (slice (4 + VBT_HDR_SIZE) n (p_rxbuf p)) = n) as Hpl.
  { apply zlen_slice; unfold VBT_HDR_SIZE; lia. }
  pose proof (frame_wire_len (set_rssi (s8 r) hdr) n _ (set_rssi_ok _ _ Hhdr (s8_range r)) Hpl) as Hwl.
  set (data := be32 _ ++ _) in *.
  rewrite bind_local_buf by (unfold VBT_MAX_MSG_SIZE, VBT_HDR_SIZE, VBT_MAX_PDU_SIZE in *; lia).
  destruct (send_fails p data ws h Hh Hp Hfd Hout) as (h' & o & Hrun & Hg); [by intros E|done|].
  exists h', (o ++ []). split; [|done]. unfold mbind, cmd_bind. by rewrite Hrun.
Qed.

(** Peer [p], at [idx], speaks for its node and hears itself; its next write
    fails. *)
Record talks (p : peer) (ws : list wres) (r : Z) (h : hub) : Prop := Talks {
  tk_ok : hub_ok h;
  tk_lossless : lossless h;
  tk_alone : alone idx h;
  tk_peer : at_idx (peers h) idx = Some p;
  tk_open : 0 ≤ p_fd p;
  tk_backlog : p_outused p = 0;
  tk_writes : e_writes (henv h) = WError :: ws;
  tk_node : ∃ nd, at_idx (nodes h) (p_node_idx p) = Some nd ∧ nd_active nd = true ∧ nd_peer_idx nd = idx;
  tk_heard : heard h hdr (p_node_idx p) (p_node_idx p) = Some r
}.

(** A live connection with node [a] at both ends. *)
Record loops_on (a : Z) (l : list conn) : Prop := LoopsOn {
  lp_unique : aa_unique l;
  lp_valid : aa_valid (access_addr hdr) = true;
  lp_conn : ∃ c, c ∈ l ∧ cn_active c = true ∧ cn_access_addr c = access_addr hdr ∧ cn_node_a c = a ∧ cn_node_b c = a
}.

Lemma talks_same p ws r h h' :
  talks p ws r h → hub_ok h' → peers h' = peers h → henv h' = henv h → sees h h' → talks p ws r h'.
Proof using.
  intros [? Hl Ha ? ? ? ? (nd & Hnd & Hact & Hnp) Hr] Hh' Hp He Hs.
  split; rewrite ?Hp, ?He; try done.
  - unfold lossless. by rewrite (see_overrides _ _ Hs).
  - unfold alone. by rewrite Hp.
  - pose proof (f_equal (λ l, at_idx l (p_node_idx p)) (see_nodes _ _ Hs)) as E. cbn beta in E.
    rewrite !at_idx_static, Hnd in E. destruct (at_idx (nodes h') _) as [nd'|]; [|done].
    cbn in E. apply (inj Some) in E. exists nd'. split; [done|].
    by rewrite <- Hact, <- Hnp; split; [apply (f_equal nd_active E)|apply (f_equal nd_peer_idx E)].
  - by rewrite (heard_sees _ h h').
Qed.

Lemma self_delivery p ws r h :
  talks p ws r h →
  ∃ h' o, deliver_to_node idx hdr n (p_node_idx p) idx (p_node_idx p) h = Ok (tt, h', o) ∧ gone h h'.
Proof using Hhdr Hn.
  intros [Hh Hl _ Hp Hfd Hout Hw (nd & Hnd & _) Hr]. unfold deliver_to_node.
  pose proof (at_idx_lt _ _ _ Hnd) as Hi.
  erewrite bind_silent by (apply tx_node_ok; unfold num_nodes; mlia).
  erewrite bind_silent by by apply node_at_ok. erewrite bind_silent by by apply propagate_ok.
  unfold heard in Hr. rewrite Hnd in *. cbn [mbind option_bind] in Hr.
  destruct (prop_spec _ _ _ _ _) as [[] r']; [|done]. cbn [fst snd negb] in *.
  by apply (deliver_fails p ws).
Qed.

(** The routing of a data PDU on such a connection. *)
Lemma forward_data_self p ws r h :
  talks p ws r h → loops_on (p_node_idx p) (conns h) →
  ∃ h' o, forward_data idx hdr n (p_node_idx p) h = Ok (tt, h', o) ∧ at_idx (peers h') idx = Some closed_peer.
Proof using Hhdr Hn.
  intros Htk [Hu Hv (c & Hc & Hact & Haa & Hself)]. destruct (tk_node _ _ _ _ Htk) as (nd & Hnd & Hna & Hnp).
  pose proof (at_idx_lt _ _ _ (tk_peer _ _ _ _ Htk)) as Hpi. apply list_elem_of_lookup in Hc as [k Hk].
  pose proof (find_conn_live _ _ _ _ Hu Hv Hk Hact Haa) as Hci.
  unfold forward_data. rewrite bind_get. cbv zeta. set (ci := find_conn _ _) in *.
  pose proof (at_idx_lt _ _ _ Hci) as Hcl.
  rewrite if_false by lia. erewrite bind_silent by by apply conn_at_ok.
  destruct (hsafe_run _ _ _ (conn_upd_safe h (tk_ok _ _ _ _ Htk) ci
    (λ c, set_cn_pdus (inc64 (cn_pdus c)) c) (λ _ _, True) Hcl (λ c, conn_ok_pdus _ c) (λ _, I))) as ([] & h1 & o1 & Eu & Hh1 & _ & _).
  rewrite (conn_upd_ok ci c) in Eu by done. injection Eu as <- <-.
  erewrite bind_silent by by apply (conn_upd_ok ci c).
  apply (talks_same _ _ _ h (set_conns (upd_idx ci (λ c, set_cn_pdus (inc64 (cn_pdus c)) c) (conns h)) h)) in Htk;
    [|done..]. set (h1 := set_conns _ h) in *.
  rewrite other_end_opposite, (opposite_live (p_node_idx p) (p_node_idx p) c) by by left.
  rewrite when_true by (apply at_idx_lt in Hnd; lia). rewrite bind_assoc.
  erewrite bind_silent by by apply node_at_ok.
  rewrite Hna, Hnp, when_true by (cbn; lia).
  destruct (self_delivery _ _ _ _ Htk) as (h2 & o2 & Hrun & [Hh2 Hslot Hoth]).
  assert (alone idx h2) as Ha2.
  { intros i q Hq Hi. rewrite Hoth in Hq by done. exact (tk_alone _ _ _ _ Htk i q Hq Hi). }
  eexists _, _. split; [|].
  { unfold mbind at 1, cmd_bind at 1. rewrite Hrun.
    rewrite (bind_silent _ _ _ _ _ (bridges_idle _ Ha2)). reflexivity. }
  exact Hslot.
Qed.

End SelfRoute.

(** Forwarding the frame closes the peer it came from. *)
Lemma forward_self `{Libm} idx hdr n p ws r h :
  hdr_ok hdr → msg_len_ok n → talks idx hdr p ws r h → loops_on hdr (p_node_idx p) (conns h) →
  p_is_bridge p = false → ll_type hdr = VBT_LL_DATA →
  ∃ h' o, forward_frame idx hdr n h = Ok (tt, h', o) ∧ at_idx (peers h') idx = Some closed_peer.
Proof.
  intros Hhdr Hn Htk Hlp Hbr Hty. pose proof (tk_ok _ _ _ _ _ _ Htk) as Hh.
  pose proof (tk_peer _ _ _ _ _ _ Htk) as Hp. set (hdr' := set_ttl 8 hdr).
  assert (hdr_ok hdr') as Hhdr' by (apply set_ttl_ok; [done|mlia]).
  pose proof (pok_node _ _ (at_idx_Forall _ _ _ _ (hok_peers _ Hh) Hp)) as Hsn.
  unfold forward_frame. erewrite bind_silent by by apply peer_at_ok. cbv zeta. rewrite Hbr. unfold hop. fold hdr'.
  destruct (hsafe_run _ _ _ (note_tx_safe hdr' Hhdr' (p_node_idx p) h Hh Hsn)) as ([] & h1 & o1 & En & Hh1 & _ & _).
  pose proof (note_tx_silent (p_node_idx p) hdr' h Hh Hsn) as Hw. unfold wp in Hw. rewrite En in Hw.
  destruct Hw as (-> & Hp1 & He1 & Hv1). erewrite bind_silent by exact En.
  assert (talks idx hdr p ws r h1) as Htk1 by by apply (talks_same _ _ _ _ _ h); [..|apply Hv1].
  assert (talks idx hdr' p ws r h1) as Htk' by (destruct Htk1; by split).
  erewrite bind_silent by by apply taps_idle, (tk_alone _ _ _ _ _ _ Htk').
  change (ll_type hdr') with (ll_type hdr). rewrite Hty. cbn [Z.eqb].
  change (?a =? ?b) with false at 1.
  apply (forward_data_self idx hdr' n Hhdr' Hn p ws r h1 Htk').
  rewrite (vw_conns _ _ Hv1). destruct Hlp. by split.
Qed.

(** Receive buffers do not matter. *)
Lemma talks_rx `{Libm} idx hdr p p' ws r h h' :
  talks idx hdr p ws r h → rx_eq idx h h' → hub_ok h' → at_idx (peers h') idx = Some p' →
  talks idx hdr p' ws r h'.
Proof.
  intros [_ Hl Ha Hp Hfd Hout Hw Hnd Hr] E Hh' Hp'.
  destruct (scrub_at _ _ _ _ _ E Hp) as (q & Hq & Es). rewrite Hp' in Hq. apply (inj Some) in Hq as <-.
  destruct (scrub_fields _ _ Es) as (Efd & _ & _ & Eno & Eout).
  pose proof (f_equal nodes E : nodes h = nodes h') as En.
  pose proof (f_equal overrides E : overrides h = overrides h') as Eo.
  pose proof (f_equal g_path_exponent E : g_path_exponent h = g_path_exponent h') as Ex.
  split; try done.
  - unfold lossless. by rewrite <- Eo.
  - intros i u Hu Hi Hud. destruct (scrub_at _ h' h i u ltac:(by symmetry) Hu) as (v & Hv & Ev).
    destruct (scrub_fields _ _ Ev) as (Evf & <- & <- & _). apply (Ha i v Hv Hi). by rewrite Evf.
  - by rewrite Efd.
  - unfold p_outused in *. by rewrite Eout.
  - by rewrite (rx_eq_env _ _ _ E).
  - by rewrite Eno, <- En.
  - rewrite Eno. rewrite (heard_sees hdr h h'); [done|]. split; [by rewrite En|done..].
Qed.

(** The rest of the message is taken out of a buffer that is gone. *)
Lemma consume_closed idx total h :
  at_idx (peers h) idx = Some closed_peer → 0 < total ≤ 4 + VBT_MAX_MSG_SIZE →
  rx_consume idx total h = Fault OobRead.
Proof.
  intros Hp Ht. unfold rx_consume. erewrite bind_silent by by apply peer_at_ok. cbv zeta.
  unfold VBT_MAX_MSG_SIZE, VBT_HDR_SIZE, VBT_MAX_PDU_SIZE in Ht.
  assert (u32 (p_rxused closed_peer - total) = 2 ^ 32 - total) as E.
  { change (p_rxused closed_peer) with 0. unfold u32.
    rewrite <- (Z.mod_unique _ (2 ^ 32) (-1) (2 ^ 32 - total)); lia. }
  rewrite E, if_true by lia. apply bind_rdn_fault.
  change (zlen (p_rxbuf closed_peer)) with 560. lia.
Qed.

(** C24: a connection a node makes to itself turns a failing write into an
    access far outside the receive buffer.  Let a peer that speaks for node [a]
    send a data PDU on a live connection with [a] at both ends (as a
    CONNECT_IND to the node's own address sets up), let it hear itself, and let
    the write of the frame back to it fail for good, with no backlog, tap or
    bridge in between.  Then [peer_close] clears the peer while [peer_readable]
    still works on it: [rxused -= total] wraps around and the [memmove] that
    follows runs off the buffer. *)
Theorem self_route_overrun `{Libm} (idx : Z) (p : peer) (hdr : vbt_frame_hdr) (pdu rest c : list Z)
    (ws : list wres) (r : Z) (h : hub) :
  forwardable hdr pdu → ll_type hdr = VBT_LL_DATA →
  talks idx hdr p ws r h → p_is_bridge p = false → loops_on hdr (p_node_idx p) (conns h) →
  c ≠ [] → bytes_ok c → zlen c ≤ RECV_BUF_SIZE - p_rxused p →
  rx_bytes p ++ c = frame_bytes hdr pdu ++ rest →
  peer_readable idx (RBytes c) h = Fault OobRead.
Proof.
  intros Hpr Hty Htk Hbr Hlp Hne Hb Hroom Hd. pose proof Hpr as [Hhdr Hm Hlen Hpb Hmax].
  pose proof (tk_ok _ _ _ _ _ _ Htk) as Hh. pose proof (tk_peer _ _ _ _ _ _ Htk) as Hp.
  pose proof (frame_payload_ok hdr pdu Hhdr Hmax Hpb) as Hpok.
  destruct (peer_fill idx c p h Hh Hp Hne Hb Hroom) as (h0 & p0 & -> & E0 & Hh0 & Hp0 & Hd0 & _).
  rewrite Hd, <- wire_frame in Hd0 by done. change rx_fuel with (S 140).
  rewrite (rx_loop_head 140 idx p0 _ rest h0 Hh0 Hp0 Hpok Hd0). apply bind_fault.
  destruct (rx_one_head idx p0 _ rest h0 Hh0 Hp0 Hd0) as (h1 & p1 & -> & E1 & Hh1 & Hp1 & _).
  assert (rx_eq idx h h1) as E by by transitivity h0.
  destruct (scrub_at _ _ _ _ _ E Hp) as (q & Hq & Es). rewrite Hp1 in Hq. apply (inj Some) in Hq as <-.
  destruct (scrub_fields _ _ Es) as (_ & Ebr & _ & Eno & _).
  destruct (forward_self idx hdr (zlen pdu) p1 ws r h1) as (h2 & o2 & Hrun & Hq2); try done.
  { split; [apply zlen_nonneg|done]. }
  { by apply (talks_rx idx hdr p p1 ws r h h1). }
  { by rewrite Eno, <- (f_equal conns E : conns h = conns h1). }
  { by rewrite Ebr. }
  pose proof (zlen_nonneg pdu). rewrite <- (frame_is_forwarded hdr pdu) in Hrun by done.
  unfold mbind, cmd_bind. rewrite Hrun, consume_closed; [done|done|].
  rewrite zlen_frame_payload by done. unfold VBT_MAX_MSG_SIZE, VBT_HDR_SIZE in *. lia.
Qed.

(** A hub whose first node is connected to itself. *)
Definition self_hub : hub :=
  set_henv (Env [WError] [] [] [] [] 0)
    (set_conns [set_cn_node_b 0 (set_cn_node_a 0 (new_conn 0x12345678))] demo_hub).

Lemma self_hub_talks : talks 0 demo_data (peer_of 5 0) [] (-40) self_hub (LM:=demo_libm).
Proof.
  split; try done.
  - unfold self_hub. assert (hub_ok (set_conns [set_cn_node_b 0 (set_cn_node_a 0 (new_conn 0x12345678))] demo_hub)).
    { apply hub_ok_set_conns; [apply demo_hub_ok|done|]. apply Forall_cons_2; [|apply Forall_nil_2].
      destruct (new_conn_ok 3 0x12345678 ltac:(lia) ltac:(mlia)). by split. }
    auto with vbt.
  - apply Forall_nil_2.
  - intros i p Hp _ _. destruct (at_idx_lt _ _ _ Hp) as [? Hi]. change (zlen _) with 3 in Hi.
    assert (i = 0 ∨ i = 1 ∨ i = 2) as [->|[->| ->]] by lia; by injection Hp as <-.
  - by eexists.
Qed.

Lemma self_route_overrun_witness :
  peer_readable (H:=demo_libm) 0 (RBytes (frame_bytes demo_data [1; 0])) self_hub = Fault OobRead.
Proof.
  apply (self_route_overrun (H:=demo_libm) 0 (peer_of 5 0) demo_data [1; 0] [] (frame_bytes demo_data [1; 0]) []
    (-40) self_hub).
  - split; try done; [apply demo_data_ok|apply (bool_decide_eq_true_1 _); reflexivity].
  - reflexivity.
  - apply self_hub_talks.
  - reflexivity.
  - split; [intros [|i] [|j] c d Hc Hd; done|reflexivity|eexists; by split; [apply list_elem_of_here|]].
  - done.
  - apply (bool_decide_eq_true_1 _). vm_compute. reflexivity.
  - by vm_compute.
  - reflexivity.
Defined.

(** Such a hub is reached: a client advertises an address and sends a
    CONNECT_IND from that address to itself. *)
Example self_route_reached `{Libm} :
  main_loop
    [it_accept 5;
     it_read (Env [WError] [] [] [] [] 0) 0
       (hello_bytes (str "a") ++
        mk_frame VBT_LL_ADV 0 addr1 (adv_pdu addr1) ++
        mk_frame VBT_LL_ADV 0 addr1 (connect_pdu addr1 addr1 0x12345678) ++
        mk_frame VBT_LL_DATA 0x12345678 addr1 [1; 0])]
    (init_hub [] 0 env0) = Fault OobRead.
Proof. vm_compute. reflexivity. Qed.

(** ** A node bound to a slot it has left *)

(** A hello under a new name moves the peer to a new node, and leaves the node
    it spoke for before as it was. *)
Lemma rename_run pidx p nid tl h :
  hub_ok h → at_idx (peers h) pidx = Some p →
  nid ≠ [] → zlen nid < NODE_ID_LEN → Forall (λ c, c ≠ 0) nid → find_idx (named nid) (nodes h) = None →
  Z.land (default 0 (head tl)) VBT_HELLO_FLAG_MONITOR = 0 → num_nodes h < MAX_NODES →
  ∃ h1 n p1, maybe_hello pidx (hello_named nid tl) h = Ok (zlen (hello_named nid tl), h1, []) ∧ hub_ok h1 ∧
    0 ≤ n ∧ (∀ x, at_idx (nodes h) n = Some x → nd_active x = false) ∧
    (∀ j, j ≠ n → at_idx (nodes h1) j = at_idx (nodes h) j) ∧
    at_idx (peers h1) pidx = Some p1 ∧ p_node_idx p1 = n ∧ p_fd p1 = p_fd p ∧
    (∀ j, j ≠ pidx → at_idx (peers h1) j = at_idx (peers h) j) ∧
    conns h1 = conns h ∧ overrides h1 = overrides h ∧ g_path_exponent h1 = g_path_exponent h ∧
    henv h1 = henv h.
Proof.
  intros Hh Hp Hne Hlen Hnz Hnew Hmon Hroom. pose proof (at_idx_lt _ _ _ Hp) as Hi.
  destruct (find_node_create nid h Hlen Hroom) as (n & nd & l & Hf & Hfn).
  destruct (fn_same _ _ _ _ _ Hfn) as [Hsame|[Hpi Hfree]].
  { pose proof (proj1 (find_idx_None _ _) Hnew n nd Hsame) as E. unfold named, str_eq in E.
    rewrite (fn_active _ _ _ _ _ Hfn), (fn_name _ _ _ _ _ Hfn), bool_decide_true in E by done. done. }
  assert (next_auto_id h + anon (hello_named nid tl) ≤ INT_MAX) as Hid.
  { rewrite named_not_anonymous by done. pose proof (hok_auto _ Hh). lia. }
  destruct (hsafe_run _ _ _ (maybe_hello_safe pidx (hello_named nid tl) h Hh Hi Hid)) as (k & h1 & o & E & Hh1 & _).
  set (ph := negb (Z.land (default 0 (head tl)) VBT_HELLO_FLAG_PHYSICAL =? 0)).
  pose proof (bind_peer_node_run pidx nid ph n nd l p h Hh Hp Hf Hfn) as Eb.
  assert (maybe_hello pidx (hello_named nid tl) h = Ok (zlen (hello_named nid tl),
    set_peers (rebind pidx (Z.of_nat n) nid ph nd (peers h))
      (set_nodes (upd_idx (Z.of_nat n) (λ nd, set_nd_physical ph (set_nd_peer_idx pidx nd)) l) h), [])) as Em.
  { erewrite maybe_hello_run; [| |done].
    2: { apply hello_id_short; [done|]. change NODE_ID_LEN with 64 in Hlen. unfold zlen in Hlen. lia. }
    change (hello_flags (0 :: tl)) with (default 0 (head tl)). rewrite Hmon, if_false by done.
    by rewrite (bind_silent _ _ _ _ _ Eb). }
  rewrite Em in E. injection E as <- <- <-. eexists _, (Z.of_nat n), _. split; [exact Em|].
  split; [exact Hh1|]. split; [lia|]. split.
  { intros x [_ Hx]%at_idx_Some. apply Hfree. by rewrite Nat2Z.id in Hx. }
  split.
  { intros j Hj. cbn. rewrite at_upd_idx_ne by lia. unfold at_idx. case_decide; [|done].
    apply (fn_other _ _ _ _ _ Hfn). lia. }
  split; [by apply rebind_self|]. split; [done|]. split; [done|]. split; [|done].
  intros j Hj. cbn. unfold rebind. rewrite at_upd_idx_ne by lia. by rewrite Hpi.
Qed.

(** The first free slot of the table of peers is taken. *)
Lemma alloc_slot fd label idx h :
  0 ≤ idx < num_peers h → (∀ p, at_idx (peers h) idx = Some p → p_fd p < 0) →
  (∀ j p, at_idx (peers h) j = Some p → j < idx → 0 ≤ p_fd p) →
  peer_alloc fd false label h =
    Ok (idx, set_peers (upd_idx idx (λ _, new_peer fd false label) (peers h)) h, []).
Proof.
  intros Hi Hfree Hbusy. destruct (at_idx_is_Some (peers h) idx Hi) as [p Hp].
  pose proof Hp as [_ Hl]%at_idx_Some. unfold peer_alloc. rewrite bind_get. unfold tab_alloc.
  assert (find_idx (λ p, p_fd p <? 0) (peers h) = Some (Z.to_nat idx)) as ->.
  { apply find_idx_Some. split; [exists p; split; [done|by apply Z.ltb_lt, Hfree]|].
    intros j q Hj Hq. apply Z.ltb_ge. apply (Hbusy (Z.of_nat j) q); [|lia].
    apply at_idx_Some. rewrite Nat2Z.id. split; [lia|done]. }
  rewrite bind_modify, Z2Nat.id by lia.
  assert (<[Z.to_nat idx := new_peer fd false label]> (peers h) =
    upd_idx idx (λ _, new_peer fd false label) (peers h)) as ->; [|done].
  unfold upd_idx. apply list_eq. intros k. destruct (decide (k = Z.to_nat idx)) as [->|Hk].
  - rewrite list_lookup_alter_eq, Hl. apply list_lookup_insert_eq. by eapply lookup_lt_Some.
  - by rewrite list_lookup_alter_ne, list_lookup_insert_ne by done.
Qed.

(** A client has left and another one has its slot: of the tables, only the
    slot and what involves the nodes that were not in use can differ. *)
Record taken_over (pidx fd : Z) (label : list Z) (h h3 : hub) : Prop := TakenOver {
  to_ok : hub_ok h3;
  to_slot : at_idx (peers h3) pidx = Some (new_peer fd false label);
  to_others : ∀ j, j ≠ pidx → at_idx (peers h3) j = at_idx (peers h) j;
  to_env : henv h3 = henv h;
  to_links : overrides h3 = overrides h ∧ g_path_exponent h3 = g_path_exponent h;
  to_nodes : ∀ j x, at_idx (nodes h) j = Some x → nd_active x = true → at_idx (nodes h3) j = Some x;
  to_unique : aa_unique (conns h) → aa_unique (conns h3);
  to_conns : ∀ k c x y, conns h !! k = Some c → cn_active c = true →
    at_idx (nodes h) (cn_node_a c) = Some x → nd_active x = true →
    at_idx (nodes h) (cn_node_b c) = Some y → nd_active y = true → conns h3 !! k = Some c
}.

(** A client renames itself and hangs up, and the next one gets its slot. *)
Lemma slot_reused pidx p nid tl fd label h :
  hub_ok h → at_idx (peers h) pidx = Some p → 0 ≤ p_fd p →
  (∀ j q, at_idx (peers h) j = Some q → j < pidx → 0 ≤ p_fd q) →
  nid ≠ [] → zlen nid < NODE_ID_LEN → Forall (λ c, c ≠ 0) nid → find_idx (named nid) (nodes h) = None →
  Z.land (default 0 (head tl)) VBT_HELLO_FLAG_MONITOR = 0 → num_nodes h < MAX_NODES →
  ∃ h1 h2 h3, maybe_hello pidx (hello_named nid tl) h = Ok (zlen (hello_named nid tl), h1, []) ∧
    peer_close pidx h1 = Ok (tt, h2, [EvClose (p_fd p)]) ∧
    peer_alloc fd false label h2 = Ok (pidx, h3, []) ∧ taken_over pidx fd label h h3.
Proof.
  intros Hh Hp Hfd Hbusy Hne Hlen Hnz Hnew Hmon Hroom. pose proof (at_idx_lt _ _ _ Hp) as Hi.
  destruct (rename_run pidx p nid tl h Hh Hp Hne Hlen Hnz Hnew Hmon Hroom)
    as (h1 & n & p1 & E1 & Hh1 & Hn0 & Hfree & Hnodes1 & Hp1 & Hpn & Hpf & Hps1 & Hc1 & Ho1 & Hx1 & He1).
  pose proof (peer_close_conns pidx p1 h1 Hh1 Hp1 ltac:(lia) ltac:(lia)) as Hw.
  destruct (hsafe_run _ _ _ (peer_close_safe pidx h1 Hh1 (at_idx_lt _ _ _ Hp1)))
    as ([] & h2 & o2 & E2 & Hh2 & _ & [Hsz He2 Hslot2 Hps2]).
  unfold wp in Hw. rewrite E2 in Hw. destruct Hw as (Hc2 & -> & Hnodes2 & Ho2 & Hx2). rewrite Hpn in *.
  assert (0 ≤ pidx < num_peers h2) as Hi2.
  { pose proof (at_idx_lt _ _ _ Hp1). destruct Hsz. unfold num_peers in *. lia. }
  assert (peer_alloc fd false label h2 =
    Ok (pidx, set_peers (upd_idx pidx (λ _, new_peer fd false label) (peers h2)) h2, [])) as E3.
  { apply alloc_slot; [done|by intros q [? _]%Hslot2|]. intros j q Hq Hj.
    rewrite Hps2, Hps1 in Hq by lia. by apply (Hbusy j q). }
  destruct (hsafe_run _ _ _ (peer_alloc_safe fd false label h2 Hh2)) as (i & h3 & o3 & E3' & Hh3 & _).
  rewrite E3 in E3'. injection E3' as <- <- <-.
  eexists h1, h2, _. split; [exact E1|]. split; [by rewrite E2, Hpf|]. split; [exact E3|].
  destruct (at_idx_is_Some (peers h2) pidx Hi2) as [q2 Hq2].
  split; try done.
  - by apply (at_upd_idx_eq pidx (λ _, new_peer fd false label) _ q2).
  - intros j Hj. cbn. rewrite at_upd_idx_ne by lia. by rewrite Hps2, Hps1.
  - cbn. congruence.
  - cbn. split; congruence.
  - intros j x Hx Hact. assert (j ≠ n) as Hjn by (intros ->; specialize (Hfree _ Hx); congruence).
    cbn. by rewrite Hnodes2, Hnodes1.
  - intros Hu. cbn. rewrite Hc2, Hc1. by apply drop_conn_unique.
  - intros k c x y Hk Hact Hx Hxa Hy Hya. cbn. rewrite Hc2, Hc1. apply drop_conn_lookup. split_and!; try done.
    + intros E. rewrite E in Hx. specialize (Hfree _ Hx). congruence.
    + intros E. rewrite E in Hy. specialize (Hfree _ Hy). congruence.
Qed.

Lemma taken_over_fds pidx fd label h h3 :
  taken_over pidx fd label h h3 → fds_distinct h →
  (∀ j q, at_idx (peers h) j = Some q → j ≠ pidx → p_fd q ≠ fd) → fds_distinct h3.
Proof.
  intros Ht Hfd Hfresh i j p q Hp Hq Hp0 E.
  destruct (decide (i = pidx)) as [->|Hi], (decide (j = pidx)) as [->|Hj]; [done| | |].
  - rewrite (to_slot _ _ _ _ _ Ht) in Hp. injection Hp as <-. rewrite (to_others _ _ _ _ _ Ht) in Hq by done.
    by destruct (Hfresh j q Hq Hj).
  - rewrite (to_slot _ _ _ _ _ Ht) in Hq. injection Hq as <-. rewrite (to_others _ _ _ _ _ Ht) in Hp by done.
    by destruct (Hfresh i p Hp Hi).
  - rewrite (to_others _ _ _ _ _ Ht) in Hp, Hq by done. by apply (Hfd i j p q).
Qed.

(** C25: a peer that says hello again under a new name leaves the node of its
    first name pointing at its slot, with the connections of that node in
    place.  When the peer hangs up and another client is accepted into the
    slot, a data PDU that the other end of such a connection sends is written
    to the new client, which has said nothing yet and acts for no node. *)
Theorem stale_binding_misroutes `{Libm} (pidx : Z) (p : peer) (nid tl : list Z) (fd : Z) (label : list Z)
    (src : Z) (sp : peer) (hdr : vbt_frame_hdr) (n : Z) (k : nat) (c : conn) (r : Z) (h : hub) :
  hub_ok h → bound h → calm h → fds_distinct h → lossless h →
  at_idx (peers h) pidx = Some p → 0 ≤ p_fd p → 0 ≤ p_node_idx p →
  (∀ j q, at_idx (peers h) j = Some q → j < pidx → 0 ≤ p_fd q) →
  nid ≠ [] → zlen nid < NODE_ID_LEN → Forall (λ c, c ≠ 0) nid → find_idx (named nid) (nodes h) = None →
  Z.land (default 0 (head tl)) VBT_HELLO_FLAG_MONITOR = 0 → num_nodes h < MAX_NODES →
  0 ≤ fd → (∀ j q, at_idx (peers h) j = Some q → j ≠ pidx → p_fd q ≠ fd) →
  src ≠ pidx → at_idx (peers h) src = Some sp → 0 ≤ p_node_idx sp → p_is_bridge sp = false →
  hdr_ok hdr → 0 ≤ n ≤ VBT_MAX_PDU_SIZE → ll_type hdr = VBT_LL_DATA →
  aa_unique (conns h) → aa_valid (access_addr hdr) = true →
  conns h !! k = Some c → cn_active c = true → cn_access_addr c = access_addr hdr →
  (cn_node_a c = p_node_idx sp ∧ cn_node_b c = p_node_idx p) ∨
  (cn_node_b c = p_node_idx sp ∧ cn_node_a c = p_node_idx p) →
  heard h hdr (p_node_idx sp) (p_node_idx p) = Some r →
  ∃ h1 h2 h3 h4 o q, maybe_hello pidx (hello_named nid tl) h = Ok (zlen (hello_named nid tl), h1, []) ∧
    peer_close pidx h1 = Ok (tt, h2, [EvClose (p_fd p)]) ∧
    peer_alloc fd false label h2 = Ok (pidx, h3, []) ∧
    at_idx (peers h3) pidx = Some (new_peer fd false label) ∧ p_node_idx (new_peer fd false label) = -1 ∧
    forward_frame src hdr n h3 = Ok (tt, h4, o) ∧ at_idx (peers h4) pidx = Some q ∧
    written fd o ++ backlog q = image (set_ttl 8 hdr) (slice (4 + VBT_HDR_SIZE) n (p_rxbuf sp)) r.
Proof.
  intros Hh Hb Hc Hfds Hl Hp Hfd Hpn Hbusy Hne Hlen Hnz Hnew Hmon Hroom Hfd0 Hfresh Hsrc Hsp Hsn Hbr
    Hhdr Hn Hty Hu Hv Hk Hact Haa Hends Hr.
  destruct (slot_reused pidx p nid tl fd label h Hh Hp Hfd Hbusy Hne Hlen Hnz Hnew Hmon Hroom)
    as (h1 & h2 & h3 & E1 & E2 & E3 & Ht).
  destruct (Hb pidx p Hp Hpn) as (nd & Hnd & Hna & Hnp), (Hb src sp Hsp Hsn) as (nds & Hnds & Hnsa & _).
  pose proof (to_nodes _ _ _ _ _ Ht _ _ Hnd Hna) as Hnd3. pose proof (to_nodes _ _ _ _ _ Ht _ _ Hnds Hnsa) as Hnds3.
  assert (conns h3 !! k = Some c) as Hk3.
  { destruct Hends as [[Ha Hb']|[Hb' Ha]];
      eapply (to_conns _ _ _ _ _ Ht k c); rewrite ?Ha, ?Hb'; eauto. }
  pose proof (at_idx_lt _ _ _ Hp) as Hpi.
  pose proof (conn_route_live hdr h3 c k nd _ _ pidx (to_unique _ _ _ _ _ Ht Hu) Hv Hk3 Hact Haa Hends Hnd3 Hna Hnp
    (proj1 Hpi)) as Hroute.
  pose proof (to_slot _ _ _ _ _ Ht) as Hslot. destruct (to_links _ _ _ _ _ Ht) as [Ho3 Hx3].
  assert (at_idx (peers h3) src = Some sp) as Hsp3 by by rewrite (to_others _ _ _ _ _ Ht).
  assert (heard h3 (set_ttl 8 hdr) (p_node_idx sp) (p_node_idx p) = Some r) as Hr3.
  { rewrite <- Hr. unfold heard, prop_spec. by rewrite Hnd, Hnds, Hnd3, Hnds3, Ho3, Hx3. }
  pose proof (forward_frame_lands src sp hdr n h3 (to_ok _ _ _ _ _ Ht) ltac:(unfold calm; by rewrite (to_env _ _ _ _ _ Ht))
    (taken_over_fds _ _ _ _ _ Ht Hfds Hfresh) ltac:(unfold lossless; by rewrite Ho3) Hhdr Hn Hsp3) as Hw.
  unfold lands, wp in Hw. destruct (forward_frame src hdr n h3) as [[[[] h4] o]|] eqn:E4; [|done].
  destruct Hw as [_ Hq]. destruct (Hq pidx _ Hslot Hfd0) as (q & Hq4 & Hqd).
  rewrite (to_peer_data src sp hdr _ h3 pidx (p_node_idx p)), Z.eqb_refl in Hqd by done.
  unfold heard_frames in Hqd. rewrite Hr3 in Hqd.
  exists h1, h2, h3, h4, o, q. split_and!; try done.
  apply (queued_one _ _ _ _ Hqd). rewrite image_len by (apply set_ttl_ok; [done|mlia]).
  rewrite (pdu_len_n sp n Hn) by apply (pok_rxbuf _ _ (at_idx_Forall _ _ _ _ (hok_peers _ Hh) Hsp)).
  change (backlog (new_peer fd false label)) with (@nil Z). change (zlen []) with 0.
  unfold VBT_MAX_PDU_SIZE, SEND_BUF_SIZE in *. lia.
Qed.

Lemma demo_hub_slots j q : at_idx (peers demo_hub) j = Some q → j = 0 ∧ q = peer_of 5 0 ∨ j = 1 ∧ q = peer_of 6 1 ∨ j = 2 ∧ q = peer_of 7 2.
Proof.
  intros Hq. destruct (at_idx_lt _ _ _ Hq) as [? Hj]. change (zlen _) with 3 in Hj.
  assert (j = 0 ∨ j = 1 ∨ j = 2) as [->|[->| ->]] by lia; injection Hq as <-; auto.
Qed.

Lemma stale_binding_misroutes_witness :
  ∃ h1 h2 h3 h4 o q,
    maybe_hello 1 (hello_named (str "d") []) demo_hub = Ok (zlen (hello_named (str "d") []), h1, []) ∧
    peer_close 1 h1 = Ok (tt, h2, [EvClose 6]) ∧
    peer_alloc 9 false (str "unix") h2 = Ok (1, h3, []) ∧
    at_idx (peers h3) 1 = Some (new_peer 9 false (str "unix")) ∧ p_node_idx (new_peer 9 false (str "unix")) = -1 ∧
    forward_frame (H:=demo_libm) 0 demo_data 2 h3 = Ok (tt, h4, o) ∧ at_idx (peers h4) 1 = Some q ∧
    written 9 o ++ backlog q = image (set_ttl 8 demo_data) (slice (4 + VBT_HDR_SIZE) 2 (p_rxbuf (peer_of 5 0))) (-40).
Proof.
  apply (stale_binding_misroutes (H:=demo_libm) 1 (peer_of 6 1) (str "d") [] 9 (str "unix") 0 (peer_of 5 0)
    demo_data 2 0 (set_cn_node_b 1 (set_cn_node_a 0 (new_conn 0x12345678))) (-40) demo_hub); try done.
  - apply demo_hub_ok.
  - apply bound_demo.
  - apply demo_hub_calm.
  - apply demo_hub_fds.
  - apply Forall_nil_2.
  - by intros j q [[-> ->]|[[-> ->]|[-> ->]]]%demo_hub_slots.
  - by repeat constructor.
  - by intros j q [[-> ->]|[[-> ->]|[-> ->]]]%demo_hub_slots.
  - apply demo_data_ok.
  - intros [|i] [|j] c d Hc Hd; done.
  - by left.
Defined.

(** From the main loop: the data of the connection to "a" is written to
    descriptor 6, whose client only ever called itself "c". *)
Example stale_binding_reached `{Libm} :
  ∃ h o p nd, main_loop
      [it_accept 5;
       it_read env0 0 (hello_bytes (str "a") ++
                       mk_frame VBT_LL_ADV 0 addr1 (adv_pdu addr1) ++
                       hello_bytes (str "b"));
       it_hup; it_accept 6; it_accept 7;
       it_read env0 0 (hello_bytes (str "c"));
       it_read (big_writes 2) 1 (hello_bytes (str "d") ++
                       mk_frame VBT_LL_ADV 0 addr2 (connect_pdu addr2 addr1 0x12345678) ++
                       mk_frame VBT_LL_DATA 0x12345678 addr2 [2; 1; 0x41])]
      (init_hub [] 0 env0) = Ok (tt, h, o) ∧
    at_idx (peers h) 0 = Some p ∧ p_fd p = 6 ∧ p_label p = str "c" ∧
    at_idx (nodes h) 0 = Some nd ∧ nd_node_id nd = str "a" ∧
    (∃ c, at_idx (conns h) 0 = Some c ∧ cn_node_a c = 3 ∧ cn_node_b c = 0) ∧
    EvWrite 6 (image (set_ttl 8 (mk_hdr VBT_LL_DATA 0x12345678 3 addr2)) [2; 1; 0x41] (-40)) ∈ o.
Proof.
  match goal with |- context [main_loop ?x ?y] => set (r := main_loop x y) end.
  vm_compute in r. subst r. do 4 eexists. split; [reflexivity|].
  split_and!; try reflexivity; [by eexists|]. apply list_elem_of_In. vm_compute. tauto.
Qed.

(** ** The counter of automatic names *)

(** The hello without a name that finds the counter at its last value
    overflows it. *)
Theorem auto_id_overflow (pidx : Z) (tl : list Z) (h : hub) :
  next_auto_id h = INT_MAX → maybe_hello pidx (hello_named [] tl) h = Fault IntOverflow.
Proof.
  intros Hid. unfold maybe_hello. cbv zeta. pose proof (zlen_nonneg tl).
  assert (zlen (hello_named [] tl) = 5 + zlen tl) as Hl.
  { unfold hello_named. rewrite !zlen_app, zlen_cons. change (zlen (le_split 4 _)) with 4. change (zlen []) with 0. lia. }
  rewrite if_false by lia. change (slice 0 4 (hello_named [] tl)) with (le_split 4 VBT_HELLO_MAGIC).
  change (drop 4 (hello_named [] tl)) with (0 :: tl). rewrite if_false by done.
  change (hello_id (Z.to_nat (NODE_ID_LEN - 1)) (0 :: tl)) with (@nil Z, 0 :: tl).
  cbv iota beta zeta. rewrite bind_get, Hid. by apply bind_fault.
Qed.
