(* ===== verification/HubStartProps.v ===== *)
(** * The hub from the command line to its exit

    What the options come to, and that every run ends with a defined exit
    status, with a well-formed hub and nothing left open in between. *)

From Stdlib Require Import String ZArith Lia Floats.SpecFloat.
From stdpp Require Import base list numbers option.
From S2P Require Import Prelude Wire Text Startup HubState HubTables HubModel HubIO HubRoute HubCtl HubLoop HubStart.
From S2P Require Import HubInv HubCtlInv HubLoopInv HubSpec HubStream HubDemo HubProps.

(** ** The options *)

(** The options that end the program, with their exit status. *)
Definition hub_ends (p : opt) : option Z :=
  if (p.1 =? 99) || (p.1 =? 116) || (p.1 =? 117) || (p.1 =? 67) then None
  else Some (if p.1 =? 104 then 0 else 2).

Lemma hub_option_ends o p :
  match hub_ends p with Some s => hub_option o p = Exit s | None => ∃ o', hub_option o p = Go o' end.
Proof.
  destruct p as [c arg]. unfold hub_ends, hub_option, usage. cbn [fst].
  destruct (c =? 99); [by eexists|]. destruct (c =? 116); [by eexists|].
  destruct (c =? 117); [by eexists|]. destruct (c =? 67); [by eexists|done].
Qed.

(** What the options set: the last of each counts, the upstreams add up. *)
Definition hub_settings (l : list opt) : hub_opts :=
  HubOpts (last_arg 99 l) (default 0 (atoi <$> last_arg 116 l)) (foldl add_upstream [] (args 117 l)) (last_arg 67 l).

Lemma hub_settle l :
  first_end hub_ends l = None → foldl (settle hub_option) no_opts l = hub_settings l.
Proof.
  induction l as [|p l IH] using rev_ind; intros Hl; [done|].
  unfold first_end in *. rewrite omap_app in Hl. rewrite foldl_app.
  destruct (omap hub_ends l) as [|s ss]; [|done]. rewrite IH by done. cbn in Hl.
  destruct p as [c arg]. unfold hub_settings. rewrite !last_arg_snoc, args_snoc, foldl_app. cbn [fst snd foldl].
  unfold settle, hub_option. unfold hub_ends in Hl. cbn [fst] in Hl.
  destruct (Z.eqb_spec c 99) as [->|]; [done|]. destruct (Z.eqb_spec c 116) as [->|]; [done|].
  destruct (Z.eqb_spec c 117) as [->|]; [done|]. destruct (Z.eqb_spec c 67) as [->|]; [done|]. done.
Qed.

(** The command line as a function. *)
Lemma hub_options_spec l operand :
  hub_options l operand =
    match first_end hub_ends l, operand with
    | Some s, _ => Exit s
    | None, None => Exit 2
    | None, Some path => Go (path, hub_settings l)
    end.
Proof.
  unfold hub_options. rewrite (getopts_settle _ _ hub_option_ends).
  destruct (first_end hub_ends l) eqn:E; [done|]. rewrite hub_settle by done. done.
Qed.

(** ** The listeners *)

(** The kernel's results are descriptors. *)
Definition try_ok (r : listen_try) : Prop :=
  match r with NoListenSocket => True | BindFails fd | ListenFails fd | Listens fd => 0 ≤ fd end.

(** The descriptors a sequence of calls leaves listening, and those it closes. *)
Definition listening (o : list sev) : list Z := omap (λ e, match e with SListen fd => Some fd | _ => None end) o.
Definition closing (o : list sev) : list Z := omap (λ e, match e with SClose fd => Some fd | _ => None end) o.
Definition removed (o : list sev) : list (list Z) := omap (λ e, match e with SUnlink p => Some p | _ => None end) o.

Lemma listening_app o o' : listening (o ++ o') = listening o ++ listening o'.
Proof. apply omap_app. Qed.

(** An open listener is a descriptor, a failed one leaves nothing listening. *)
Definition opened_one (fd : Z) (o : list sev) : Prop :=
  (0 ≤ fd ∧ listening o = [fd]) ∨ (fd < 0 ∧ listening o = []).
Lemma unix_listener_run path mode r :
  try_ok r → ∃ fd o, make_unix_listener path mode r tt = Ok (fd, tt, o) ∧ opened_one fd o.
Proof. intros Hr. destruct r; eexists _, _; (split; [reflexivity|]); (by left) || (by right). Qed.
Lemma tcp_listener_run port r :
  try_ok r → ∃ fd o, make_tcp_listener port r tt = Ok (fd, tt, o) ∧ opened_one fd o.
Proof. intros Hr. destruct r; eexists _, _; (split; [reflexivity|]); (by left) || (by right). Qed.

Definition valid_fds (fds : list Z) : list Z := filter (λ fd, 0 ≤ fd) fds.

Lemma open_listeners_run path o ru rc rt :
  try_ok ru → try_ok rc → try_ok rt →
  ∃ r before, open_listeners path o ru rc rt tt = Ok (r, tt, before) ∧
    match r with Some (fu, fc, ft) => listening before = valid_fds [fu; fc; ft] | None => True end.
Proof.
  intros Hu Hc Ht. unfold open_listeners.
  destruct (unix_listener_run path mode_0666 ru Hu) as (fu & ou & Eu & Ou). rewrite (bind_ok _ _ _ _ _ _ Eu).
  destruct Ou as [[Hfu Lu]|[Hfu Lu]]; [|rewrite if_true by lia; by eexists _, _].
  rewrite if_false by lia.
  assert (∃ fc oc, (match ctl_socket_path o with
      | Some p => fd ← make_unix_listener p mode_0600 rc; mret (Some fd) | None => mret None end) tt = Ok (fc, tt, oc) ∧
    (match fc with Some fd => opened_one fd oc | None => oc = [] end)) as (fc & oc & Ec & Oc).
  { destruct (ctl_socket_path o) as [p|]; [|by eexists _, _].
    destruct (unix_listener_run p mode_0600 rc Hc) as (fd & oc & E & Oc). exists (Some fd), oc.
    rewrite (bind_ok _ _ _ _ _ _ E). cbn. by rewrite app_nil_r. }
  rewrite (bind_ok _ _ _ _ _ _ Ec). destruct (match fc with Some fd => fd <? 0 | None => false end) eqn:Bc.
  { by eexists _, _. }
  assert (∃ ft ot, (if 0 <? tcp_port o then fd ← make_tcp_listener (tcp_port o) rt; mret (Some fd) else mret None) tt =
      Ok (ft, tt, ot) ∧ (match ft with Some fd => opened_one fd ot | None => ot = [] end)) as (ft & ot & Et & Ot).
  { destruct (0 <? tcp_port o); [|by eexists _, _].
    destruct (tcp_listener_run (tcp_port o) rt Ht) as (fd & ot & E & Ot). exists (Some fd), ot.
    rewrite (bind_ok _ _ _ _ _ _ E). cbn. by rewrite app_nil_r. }
  rewrite (bind_ok _ _ _ _ _ _ Et). destruct (match ft with Some fd => fd <? 0 | None => false end) eqn:Bt.
  { by eexists _, _. }
  eexists _, _. split; [reflexivity|]. rewrite app_nil_r, !listening_app, Lu.
  assert (listening oc = valid_fds [default (-1) fc]) as ->.
  { unfold valid_fds. destruct fc as [fd|]; [|by subst oc]. destruct Oc as [[? ->]|[? _]]; [|lia].
    cbn. by rewrite decide_True by done. }
  assert (listening ot = valid_fds [default (-1) ft]) as ->.
  { unfold valid_fds. destruct ft as [fd|]; [|by subst ot]. destruct Ot as [[? ->]|[? _]]; [|lia].
    cbn. by rewrite decide_True by done. }
  unfold valid_fds. change [fu; ?x; ?y] with ([fu] ++ [x] ++ [y]). rewrite !list.filter_app. f_equal.
  cbn. by rewrite decide_True by done.
Qed.

Lemma close_listeners_run path o fu fc ft :
  ∃ after, close_listeners path o fu fc ft tt = Ok (tt, tt, after) ∧ closing after = valid_fds [fu; fc; ft] ∧
    removed after = path :: option_list (ctl_socket_path o).
Proof.
  unfold close_listeners, valid_fds. destruct o as [[p|] ? ? ?]; cbn [ctl_socket_path];
    destruct (Z.leb_spec 0 fu), (Z.leb_spec 0 fc), (Z.leb_spec 0 ft);
    (eexists; split; [reflexivity|]); cbn;
    repeat (first [rewrite decide_True by lia|rewrite decide_False by lia]); done.
Qed.

(** ** A run of the program *)

(** What a finished run has to show. *)
Record run_ok (path : list Z) (o : hub_opts) (r : hub_run) (h : hub) (out : list ev) : Prop := RunOk {
  ro_hub : hub_ok h;
  ro_out : Forall ev_ok out;
  ro_peers : Forall (λ p, p_fd p < 0) (peers h);
  ro_listeners : closing (hr_after r) = listening (hr_before r);
  ro_files : removed (hr_after r) = path :: option_list (ctl_socket_path o)
}.

(** The counter of automatic names has room throughout the run, whichever
    listeners could be opened. *)
Definition names_room `{Libm} (l : list opt) (file : option (list Z)) (start : Z) (e : env)
    (xs : list poll_in) : Prop :=
  ∀ fc ft, serve_names (upstream_args (hub_settings l)) ((λ _, file) <$> config_path (hub_settings l))
    start e (map (polled fc ft) xs) = true.

Lemma polled_ok fc ft xs : Forall poll_ok xs → Forall poll_ok (map (polled fc ft) xs).
Proof. intros Hxs. apply Forall_map. eapply Forall_impl; [|exact Hxs]. intros x []. by split. Qed.

(** It has for a hundred thousand iterations, whatever happens in them. *)
Lemma names_room_first `{Libm} l file start e xs :
  calm (init_hub [] start e) → Forall poll_ok xs → NAMES_PER_ITER * (1 + zlen xs) ≤ INT_MAX →
  names_room l file start e xs.
Proof.
  intros Hc Hxs Hl fc ft. apply serve_names_first; [done|by apply polled_ok|].
  unfold zlen in *. by rewrite length_map.
Qed.

(** C2: the hub's [main] always ends in a defined way.  Whatever the command line
    holds, whichever listeners can be opened and whatever happens in the main
    loop, as long as the kernel is [calm] (no write fails for good, no
    allocation fails, the message of a failed [fopen] has at most 1024 bytes)
    and the counter of automatic names stays an [int] ([names_room]: fewer than
    2^31 hellos without a name, which [names_room_first] shows for any run of a
    hundred thousand iterations): an option [-h] ends it with
    status 0, an unknown one or a missing socket path with status 2, whichever
    comes first; otherwise the last [-c], [-t] and [-C] count and the [-u] add up to at most sixteen
    upstreams, a listener that cannot be opened ends it with status 1, and the
    rest is served from well-formed tables to well-formed tables, with every
    peer and every listener closed and the socket files removed at the end.
    A [double] that no [int] or [long] holds converts to some value of the
    platform's ([Libm]), as under Annex F of C. *)
Theorem hub_program_ends `{Libm} (l : list opt) (operand : option (list Z)) (ru rc rt : listen_try)
    (file : option (list Z)) (start : Z) (e : env) (xs : list poll_in) :
  try_ok ru → try_ok rc → try_ok rt → calm (init_hub [] start e) → Forall poll_ok xs → names_room l file start e xs →
  ∃ r, hub_program l operand ru rc rt file start e xs = Ok r ∧
    match first_end hub_ends l, operand with
    | Some s, _ => r = HubRun s [] None []
    | None, None => r = HubRun 2 [] None []
    | None, Some path =>
        zlen (upstream_args (hub_settings l)) ≤ MAX_UPSTREAMS ∧
        match hr_served r with
        | None => hr_status r = 1 ∧ hr_after r = []
        | Some (h, out) => hr_status r = 0 ∧ run_ok path (hub_settings l) r h out
        end
    end.
Proof.
  intros Hu Hc Ht Hcalm Hxs Hn. unfold hub_program. rewrite hub_options_spec.
  destruct (first_end hub_ends l) as [s|]; [by eexists|]. destruct operand as [path|]; [|by eexists].
  set (o := hub_settings l). assert (zlen (upstream_args o) ≤ MAX_UPSTREAMS) as Hups by by apply add_upstreams_fit.
  destruct (open_listeners_run path o ru rc rt Hu Hc Ht) as ([[[fu fc] ft]|] & before & Eb & Hb); rewrite Eb;
    [|by eexists].
  destruct (serve_main_safe (upstream_args o) ((λ _, file) <$> config_path o) start e (map (polled fc ft) xs) Hcalm
    (polled_ok fc ft xs Hxs) (Hn fc ft)) as (h & out & Es & Hh & Ho & Hp).
  destruct (close_listeners_run path o fu fc ft) as (after & Ea & Hcl & Hrm).
  rewrite Es, Ea. eexists. split; [done|]. split; [done|]. split; [done|]. split; try done. exact (eq_trans Hcl (eq_sym Hb)).
Qed.

Lemma hub_program_ends_witness :
  ∃ r, hub_program (H:=demo_libm) [(99, str "/run/ctl"); (116, str "7000"); (117, str "a:1")] (Some (str "/run/vbt"))
      (Listens 3) (Listens 4) (Listens 5) None 0 env0 demo_run = Ok r ∧
    zlen (upstream_args (hub_settings [(99, str "/run/ctl"); (116, str "7000"); (117, str "a:1")])) ≤ MAX_UPSTREAMS ∧
    match hr_served r with
    | None => hr_status r = 1 ∧ hr_after r = []
    | Some (h, out) => hr_status r = 0 ∧ run_ok (str "/run/vbt")
        (hub_settings [(99, str "/run/ctl"); (116, str "7000"); (117, str "a:1")]) r h out
    end.
Proof.
  apply (hub_program_ends (H:=demo_libm) [(99, str "/run/ctl"); (116, str "7000"); (117, str "a:1")]
    (Some (str "/run/vbt")) (Listens 3) (Listens 4) (Listens 5)); try done.
  - apply demo_run_ok.
  - apply (names_room_first (H:=demo_libm)); [by split_and!|apply demo_run_ok|done].
Defined.

(** ** The files of the sockets *)

(** A path longer than a socket address is cut by [strncpy] for [bind], but not
    for [unlink] and [chmod]: the socket appears under another name, that name
    is not cleared first, keeps the permissions of the umask (the control
    socket is then not 0600), and is left behind at the end. *)
Theorem long_path_misplaced (path : list Z) (mode fd : Z) :
  Forall (λ c, c ≠ 0) path →
  ∃ file, make_unix_listener path mode (Listens fd) tt =
      Ok (fd, tt, [SUnlink path; SBind fd file; SListen fd; SChmod path mode]) ∧
    (file = path ↔ zlen path ≤ 107).
Proof.
  intros Hz. assert (c_str path = path) as Hc.
  { induction Hz as [|c path Hc _ IH]; [done|]. cbn. by rewrite (proj2 (Z.eqb_neq _ _) Hc), IH. }
  exists (sun_path path). split; [done|]. unfold sun_path. rewrite Hc. split.
  - intros E. apply (f_equal length) in E. rewrite length_take in E. unfold zlen. lia.
  - intros Hl. apply take_ge. unfold zlen in Hl. lia.
Qed.

Lemma long_path_misplaced_witness :
  ∃ file, make_unix_listener (replicate 108 97) mode_0600 (Listens 4) tt =
      Ok (4, tt, [SUnlink (replicate 108 97); SBind 4 file; SListen 4; SChmod (replicate 108 97) mode_0600]) ∧
    (file = replicate 108 97 ↔ zlen (replicate 108 97) ≤ 107).
Proof. apply (long_path_misplaced (replicate 108 97) mode_0600 4). by apply Forall_replicate. Defined.
