(* ===== verification/AddrText.v ===== *)
(** * Device addresses as text

    The hub prints addresses in its status and reads them in commands; the
    transports read one on their command line.  What is printed is read back. *)

From Stdlib Require Import ZArith Lia Floats.SpecFloat String.
From stdpp Require Import base list numbers option.
From S2P Require Import Prelude Wire Text LLInv.
From S2P Require Import Host.
From S2P Require Import HubState HubCtl.

(** The two digits of a byte. *)
Definition byte_digits_ok (b : Z) : bool :=
  match hex_str 2 b with
  | [x; y] =>
      is_hex x && is_hex y && negb (is_space x) && negb (x =? 45) && negb (x =? 43) &&
      negb (tolower y =? 120) && (hex_value [x; y] =? b)
  | _ => false
  end.

Lemma byte_digits b :
  is_u8 b → ∃ x y, hex_str 2 b = [x; y] ∧ is_hex x = true ∧ is_hex y = true ∧ is_space x = false ∧
    x ≠ 45 ∧ x ≠ 43 ∧ tolower y ≠ 120 ∧ hex_value [x; y] = b.
Proof.
  intros Hb. assert (Forall (λ b, byte_digits_ok b = true) (seqZ 0 256)) as Hall.
  { apply (bool_decide_eq_true_1 _). vm_compute. reflexivity. }
  assert (byte_digits_ok b = true) as H.
  { apply (proj1 (list.Forall_forall _ _) Hall). apply elem_of_seqZ. unfold is_u8 in Hb. lia. }
  unfold byte_digits_ok in H. destruct (hex_str 2 b) as [|x [|y [|]]]; try done.
  repeat (apply andb_true_iff in H as [H ?]). exists x, y.
  repeat match goal with E : negb _ = true |- _ => apply negb_true_iff in E end.
  split_and!; try done; lia.
Qed.

(** Reading stops at the end or at a colon. *)
Definition delimited (l : list Z) : Prop := match l with [] => True | c :: _ => c = 58 end.

Lemma scan_x_byte b rest :
  is_u8 b → delimited rest → scan_x (hex_str 2 b ++ rest) = Some (b, rest).
Proof.
  intros Hb Hr. destruct (byte_digits b Hb) as (x & y & -> & Hx & Hy & Hs & Hm & Hp & H0 & Hv).
  unfold scan_x. cbn [app skip_ws]. rewrite Hs. cbn [scan_sign].
  rewrite (if_false _ _ (x =? 45)) by lia. rewrite (if_false _ _ (x =? 43)) by lia.
  cbn [skip_0x]. rewrite (proj2 (Z.eqb_neq _ _) H0), andb_false_r. cbn [andb].
  assert (take_while is_hex (length (x :: y :: rest)) (x :: y :: rest) = ([x; y], rest)) as ->.
  { cbn [length take_while]. rewrite Hx, Hy. destruct rest as [|c rest]; [done|].
    cbn in Hr. subst c. done. }
  cbv zeta. rewrite Hv. rewrite if_false by mlia. by rewrite u32_small by mlia.
Qed.

Lemma scan_addr_fmt a : addr_ok a → scan_addr (fmt_addr a) = Some a.
Proof.
  intros [Hb Hl]. destruct (zlen_6 _ Hl) as (b0&b1&b2&b3&b4&b5&->).
  repeat (apply Forall_cons_1 in Hb as [? Hb]). unfold fmt_addr. cbn -[hex_str scan_x].
  unfold scan_addr. repeat (rewrite scan_x_byte by done; cbn -[hex_str scan_x]; rewrite <- ?app_assoc; cbn -[hex_str scan_x]).
  done.
Qed.

(** C38: device addresses survive being printed and read back, by the hub's
    commands and by the command line of the transports. *)
Theorem addr_roundtrip (a : list Z) :
  addr_ok a → HubCtl.parse_addr (fmt_addr a) = Some a ∧ Host.parse_addr (fmt_addr a) = Some a.
Proof.
  intros Ha. unfold HubCtl.parse_addr, Host.parse_addr. rewrite scan_addr_fmt by done. destruct Ha as [Hb _].
  cbn. split.
  - rewrite if_true; [done|]. apply forallb_forall. intros x Hx%list_elem_of_In.
    apply (proj1 (list.Forall_forall _ _) Hb) in Hx. mlia.
  - f_equal. clear -Hb. induction Hb as [|b a Hb _ IH]; [done|]. cbn. by rewrite u8_small, IH.
Qed.

Lemma addr_roundtrip_witness :
  HubCtl.parse_addr (fmt_addr [2; 190; 0; 255; 16; 9]) = Some [2; 190; 0; 255; 16; 9] ∧
  Host.parse_addr (fmt_addr [2; 190; 0; 255; 16; 9]) = Some [2; 190; 0; 255; 16; 9].
Proof. apply (addr_roundtrip [2; 190; 0; 255; 16; 9]). split; [bytes|done]. Defined.
