(* ===== verification/System.v ===== *)
(** * The system: two ends of the air and the hub

    The components put together: what a host writes on a connection reaches
    the host at its other end through the controller core and the transport on
    its side, the hub, and the transport and the core on the other side, with
    the byte streams in between split in any way.  The two ends are any two of
    the three transports: the theorems are over the interface [Endpoint]. *)

From Stdlib Require Import String ZArith Lia Floats.SpecFloat.
From stdpp Require Import base list numbers option.
From S2P Require Import Prelude Wire Framing Text LLState LLEmit LLCmd LLAir LLInv LLProps LLLink LLControl LLFrame.
From S2P Require Import Client ClientProps ClientInv SendProps Endpoint Ring RingProps.
From S2P Require Import Host HostInv HostEnd Vhost VhostInv VhostEnd Virtio VirtioInv VirtioEnd VirtioProps.
From S2P Require Import HubState HubTables HubModel HubIO HubRoute HubIds HubInv HubSpec HubStream HubDemo HubNameProps HubRelay.

(** ** The three parties *)

Section Parties.
Context {T : Type} `{Endpoint T}.
Implicit Types (t : T).

(** The sending end, on the medium, with connection [i] behind the handle of
    [hf] and a host that takes [k] packets. *)
Record sender t (k : nat) (hf : Z) (i : nat) (c : ll_conn) : Prop := Sender {
  sd_ok : client_ok t;
  sd_ops : both_ways (core_of t);
  sd_open : ep_open t;
  sd_takes : ep_takes k t;
  sd_hf : is_u16 hf;
  sd_handle : conn_by_handle (core_of t) (Z.land hf 0xfff) = Some i;
  sd_conn : LLState.conns (core_of t) !! i = Some c
}.

(** The receiving one, with connection [j] on the same Access Address. *)
Record receiver t (aa : Z) (j : nat) (c : ll_conn) : Prop := Receiver {
  rc_ok : client_ok t;
  rc_ops : both_ways (core_of t);
  rc_rx : pending_rx [] t;
  rc_takes : ep_takes 1 t;
  rc_aa : conn_by_aa (core_of t) aa = Some j;
  rc_conn : LLState.conns (core_of t) !! j = Some c
}.
End Parties.

(** The hub between them: peer [src] is the sender, the connection leads to
    peer [dst] behind node [rxn], which hears the sender. *)
Record between `{Libm} (h : hub) (hdr : vbt_frame_hdr) (src dst rxn : Z) (q : peer) : Prop := Between {
  bt_ok : hub_ok h;
  bt_calm : calm h;
  bt_fds : fds_distinct h;
  bt_lossless : lossless h;
  bt_src : ∃ sp r, at_idx (peers h) src = Some sp ∧ p_is_bridge sp = false ∧ rx_bytes sp = [] ∧
    conn_route hdr h (p_node_idx sp) = Some (dst, rxn) ∧ heard h hdr (p_node_idx sp) rxn = Some r;
  bt_dst : at_idx (peers h) dst = Some q;
  bt_dst_fd : 0 ≤ p_fd q;
  bt_dst_kind : p_is_bridge q = false ∧ p_is_monitor q = false;
  bt_dst_empty : backlog q = []
}.

(** ** One hop after the other *)

Lemma safe_outs {m : LL unit} {ll ll' ws} :
  llsafe m ll nopost → m ll = Ok (tt, ll', ws) → ll_ok ll' ∧ Forall out_ok ws.
Proof. intros Hs E. unfold safe, wp in Hs. rewrite E in Hs. tauto. Qed.

Lemma hci_outs pkt stale ll ll' ws :
  ll_ok ll → bytes_ok pkt → zlen pkt ≤ VBT_MAX_MSG_SIZE → bytes_ok stale → zlen stale = VBT_MAX_MSG_SIZE →
  hci_core pkt stale ll = Ok (tt, ll', ws) → ll_ok ll' ∧ Forall out_ok ws.
Proof.
  intros Hll Hb Hl Hs Hsl. apply safe_outs. destruct (splice_ok pkt stale Hb Hs) as [Hsb Hz]; [lia|].
  rewrite Hsl in Hz. apply (vbt_ll_hci_from_host_safe (splice 0 pkt stale)); [done|done|..]; rewrite Hz; done.
Qed.

Lemma hub_carries `{Libm} h hdr pdu src dst rxn q ns :
  between h hdr src dst rxn q → frame_ok hdr pdu → ll_type hdr = VBT_LL_DATA →
  Forall (λ n, 0 < n)%nat ns → (length (frame_bytes hdr pdu) ≤ length ns)%nat →
  ∃ h' o q' hdr', recv_all src ns (frame_bytes hdr pdu) h = Ok ([], h', o) ∧
    at_idx (peers h') dst = Some q' ∧ hdr_ok hdr' ∧ magic hdr' = VBT_MAGIC ∧
    pdu_len hdr' = pdu_len hdr ∧ same_air hdr hdr' ∧
    written (p_fd q) o ++ backlog q' = wire (frame_payload hdr' pdu).
Proof.
  intros [Hok Hc Hfd Hl (sp & r & Hsp & Hbr & Hrx & Hroute & Hr) Hq Hqfd [Hqb Hqm] Hqe]
    Hf Hty Hns Hnl. destruct (frame_ok_pdu _ _ Hf) as [Hb Hz]. destruct Hf as (Hh & Hm & _ & Hlen & _).
  destruct (recv_frame_lands src ns hdr pdu sp h) as (h' & o & Hrun & _ & Hto); try done.
  { unfold VBT_MAX_PDU_SIZE. lia. }
  destruct (Hto dst q Hq Hqfd) as (q' & Hq' & _ & fs & _ & He & Hall).
  rewrite (to_peer_data src sp hdr pdu h dst rxn) in Hall by done. rewrite Z.eqb_refl in Hall.
  unfold heard_frames in Hall.
  change (heard h (set_ttl 8 hdr) (p_node_idx sp) rxn) with (heard h hdr (p_node_idx sp) rxn) in Hall.
  rewrite Hr in Hall. destruct (image_received hdr pdu r Hh) as (hdr' & [Hh' Hm' Hl' Ha'] & Himg).
  rewrite Hqe, Himg in *. cbn [concat app] in *. rewrite app_nil_r in Hall.
  rewrite Hall in He.
  - exists h', o, q', hdr'. split_and!; try done; [by rewrite Hm'|]. rewrite He. cbn. by rewrite app_nil_r.
  - rewrite zlen_wire, zlen_frame_payload by done. unfold SEND_BUF_SIZE, VBT_HDR_SIZE.
    change (zlen []) with 0. lia.
Qed.

Lemma length_frame hdr pdu : frame_ok hdr pdu → (length (frame_bytes hdr pdu) ≤ 303)%nat.
Proof.
  intros Hf. destruct (frame_ok_pdu _ _ Hf) as [_ Hl]. destruct Hf as (Hh & _).
  pose proof (zlen_wire (frame_payload hdr pdu)) as Hw. rewrite zlen_frame_payload, wire_frame in Hw by done.
  unfold zlen, VBT_HDR_SIZE in *. lia.
Qed.

(** A packet of one host that the core answers with one data PDU, among what
    it tells that host, crosses the air. *)
Section Crossing.
Context `{Libm} {TA TB : Type} `{EA : Endpoint TA} `{EB : Endpoint TB}.
Context (tA : TA) (tB : TB) (segs : list (list Z)) (stale : list Z) (hdr : vbt_frame_hdr) (pdu : list Z).
Context (llA llB : vbt_ll) (wsA wsB : list out).
Context (h : hub) (src dst rxn : Z) (q : peer) (nsH nsB : list nat).

Lemma data_crosses :
  client_ok tA → client_ok tB → ep_open tA → ep_takes (length (told wsA)) tA →
  concat segs ≠ [] → bytes_ok (concat segs) → zlen (concat segs) ≤ VBT_MAX_MSG_SIZE →
  bytes_ok stale → zlen stale = VBT_MAX_MSG_SIZE →
  hci_core (concat segs) stale (core_of tA) = Ok (tt, llA, wsA) → on_air wsA = frame_bytes hdr pdu →
  frame_ok hdr pdu → ll_type hdr = VBT_LL_DATA → between h hdr src dst rxn q → reads_ok nsH → reads_ok nsB →
  (∀ hdr', same_air hdr hdr' → vbt_ll_pdu_from_medium hdr' pdu (zlen pdu) (core_of tB) = Ok (tt, llB, wsB)) →
  Forall (can tB) wsB → ep_takes (length (told wsB)) tB → pending_rx [] tB →
  ∃ tA' oA h' oH q' tB' oB,
    ep_give segs stale tA = Ok (tt, tA', oA) ∧ core_of tA' = llA ∧ arrivals oA = told wsA ∧
    recv_all src nsH (sent (ep_fd tA) oA) h = Ok ([], h', oH) ∧ at_idx (peers h') dst = Some q' ∧
    client_recv nsB (written (p_fd q) oH ++ backlog q') tB = Ok ([], tB', oB) ∧
    core_of tB' = llB ∧ arrivals oB = told wsB.
Proof using EA EB.
  intros HA HB HoA HkA Hne Hsb Hsl Hstb Hst EA0 Hair Hf Hty Hbt Hns Hms EB0 HcB HkB Hrx.
  destruct (hci_outs _ _ _ _ _ (clok_ll _ HA) Hsb Hsl Hstb Hst EA0) as [_ Hout].
  destruct (give_run tA segs stale llA wsA EA0 Hne Hsl Hst (can_open tA _ HoA Hout) HkA)
    as (tA' & oA & Egive & HcA & _ & Hsent & Harr).
  pose proof (length_frame _ _ Hf) as Hlf. destruct (frame_ok_pdu _ _ Hf) as [Hpb Hpz].
  destruct (hub_carries h hdr pdu src dst rxn q nsH Hbt Hf Hty (proj1 Hns)) as
    (h' & oH & q' & hdr' & EH & Hq' & Hok' & Hm' & Hl' & Hsa & Hw); [destruct Hns; lia|].
  destruct (hears tB hdr' pdu nsB llB wsB (EB0 hdr' Hsa) HcB HkB Hrx) as (tB' & oB & Erecv & [HllB _ _] & _ & HarrB);
    try done.
  { rewrite Hl'. by destruct Hf as (_ & _ & _ & ? & _). } { lia. }
  exists tA', oA, h', oH, q', tB', oB. rewrite Hsent, Hair, Hw. split_and!; try done. by rewrite HcA.
Qed.
End Crossing.

(** ** ACL data *)

Lemma acl_packet_ok hf data :
  is_u16 hf → bytes_ok data → 1 ≤ zlen data ≤ LE_ACL_MTU →
  bytes_ok (acl_packet hf data) ∧ zlen (acl_packet hf data) = 5 + zlen data.
Proof.
  intros Hhf Hb Hd. unfold LE_ACL_MTU in Hd. unfold acl_packet. split; [|by rewrite zlen_app].
  apply Forall_app_2; [bytes|done].
Qed.

Lemma zlen_acl_pdu data : zlen (acl_pdu data) = 2 + zlen data.
Proof. unfold acl_pdu. by rewrite zlen_app. Qed.

(** C6: ACL data travels end to end.  A packet of up to 251 bytes that one host
    writes on a connection, through vbt-controller, the vhost-user back end or
    the virtio device, is put on the socket, read, routed and forwarded by the
    hub, read by the transport at the other end, again any of the three, and
    handed to its host: exactly one packet, whole and with the same bytes,
    under that host's own handle, however the kernel splits the streams and
    the guest its packet, and whatever RSSI and hop count the hub writes into
    the header.  The sender is told that the packet is completed. *)
Theorem acl_end_to_end `{Libm} {TA TB : Type} `{EA : Endpoint TA} `{EB : Endpoint TB} (tA : TA) (tB : TB)
    (i j : nat) (ca cb : ll_conn) (hf : Z) (data stale : list Z) (segs : list (list Z))
    (h : hub) (src dst rxn : Z) (q : peer) (nsH nsB : list nat) :
  sender tA 1 hf i ca → receiver tB (c_access_addr ca) j cb →
  between h (acl_hdr (core_of tA) ca data) src dst rxn q →
  concat segs = acl_packet hf data → bytes_ok data → 1 ≤ zlen data ≤ LE_ACL_MTU →
  bytes_ok stale → zlen stale = VBT_MAX_MSG_SIZE → reads_ok nsH → reads_ok nsB →
  ∃ tA' oA h' oH q' tB' oB,
    ep_give segs stale tA = Ok (tt, tA', oA) ∧ core_of tA' = core_of tA ∧
    arrivals oA = whole [completed_packet (Z.land hf 0xfff)] ∧
    recv_all src nsH (sent (ep_fd tA) oA) h = Ok ([], h', oH) ∧ at_idx (peers h') dst = Some q' ∧
    client_recv nsB (written (p_fd q) oH ++ backlog q') tB = Ok ([], tB', oB) ∧
    core_of tB' = core_of tB ∧
    arrivals oB = whole [acl_packet (Z.lor (c_handle cb) (Z.shiftl 2 12)) data].
Proof.
  intros [HokA HopsA HoA HkA Hhf Hi Hca] [HokB HopsB HrxB HkB Hj Hcb] Hbt Es Hb Hd Hsb Hsl HnH HnB.
  destruct (acl_packet_ok hf data Hhf Hb Hd) as [Hpb Hpl]. pose proof (clok_ll _ HokA) as HllA.
  destruct (live_handle _ _ _ _ (clok_ll _ HokB) Hj Hcb) as [Hhd Hj8].
  assert (is_u16 (Z.lor (c_handle cb) (Z.shiftl 2 12))) as Hu by (rewrite Hhd; by apply handle_flags_u16).
  apply (data_crosses tA tB segs stale (acl_hdr (core_of tA) ca data) (acl_pdu data) (core_of tA) (core_of tB)
    [ToMedium (acl_hdr (core_of tA) ca data) (acl_pdu data); ToHost (completed_packet (Z.land hf 0xfff))]
    [ToHost (acl_packet (Z.lor (c_handle cb) (Z.shiftl 2 12)) data)] h src dst rxn q nsH nsB); try done.
  - by rewrite Es.
  - by rewrite Es.
  - rewrite Es, Hpl. unfold LE_ACL_MTU in Hd. change VBT_MAX_MSG_SIZE with 556. lia.
  - unfold hci_core. rewrite Es, Hpl. apply (acl_sent _ i ca); try done. lia.
  - unfold on_air. cbn. by rewrite app_nil_r.
  - by apply (acl_frame_ok _ i).
  - intros hdr' [Hty Haa]. rewrite zlen_acl_pdu. apply (acl_received _ j cb); try done. by rewrite Haa.
  - forall_cons. split; [|done]. right. eexists _, data. split_and!; try done. lia.
Qed.

(** Ends with an open connection on the hub of [demo_hub]. *)
Definition demo_ca : ll_conn := opened 0 0x12345678 0 bd2 0.
Definition demo_cb : ll_conn := opened 3 0x12345678 1 bd1 0.
Definition guestA : virtio := demo_iguest 4 "a" central [OsBytes 7; OsRetry; OsBytes 20] [[600]].
Definition guestB : vhost := demo_vguest 4 "b" peripheral [] [[100; 500]].

Lemma central_ok : ll_ok central.
Proof. apply with_conn_ok; [apply bd_ok..|lia|auto]. Qed.
Lemma peripheral_ok : ll_ok peripheral.
Proof. apply with_conn_ok; [apply bd_ok..|lia|auto]. Qed.

Lemma guestA_sends : sender guestA 1 0x1040 0 demo_ca.
Proof.
  split; try reflexivity; try done.
  - apply demo_iguest_ok; [apply central_ok|repeat constructor; lia].
  - apply demo_iguest_open; [lia|by repeat constructor].
  - apply (demo_iguest_takes _ _ _ _ [[600]]). repeat constructor; try lia. by compute.
Qed.
Lemma guestB_receives : receiver guestB (c_access_addr demo_ca) 3 demo_cb.
Proof.
  split; try reflexivity.
  - apply demo_vguest_ok; [apply peripheral_ok|repeat constructor; lia].
  - apply demo_vguest_rx.
  - apply (demo_vguest_takes _ _ _ _ [[100; 500]]). repeat constructor; try lia. by compute.
Qed.
Lemma demo_hub_between :
  between (H:=demo_libm) demo_hub (acl_hdr central (opened 0 0x12345678 0 bd2 0) [1; 2; 3]) 0 1 1 (peer_of 6 1).
Proof.
  split; try done; [apply demo_hub_ok|apply demo_hub_calm|apply demo_hub_fds|apply Forall_nil_2|].
  exists (peer_of 5 0), (-40). split_and!; reflexivity.
Qed.

Lemma reads_demo k : (0 < k)%nat → reads_ok (replicate 303 k).
Proof. intros. split; [by apply Forall_replicate|by rewrite length_replicate]. Qed.

(** From a guest of the virtio device to a guest of the vhost-user back end. *)
Lemma acl_end_to_end_witness :
  ∃ tA' oA h' oH q' tB' oB,
    ep_give [[2; 0x40]; [0x10; 3; 0; 1; 2; 3]] (replicate 556 0) guestA = Ok (tt, tA', oA) ∧
    core_of tA' = core_of guestA ∧ arrivals oA = whole [completed_packet (Z.land 0x1040 0xfff)] ∧
    recv_all (H:=demo_libm) 0 (replicate 303 5%nat) (sent (ep_fd guestA) oA) demo_hub = Ok ([], h', oH) ∧
    at_idx (peers h') 1 = Some q' ∧
    client_recv (replicate 303 9%nat) (written (p_fd (peer_of 6 1)) oH ++ backlog q') guestB = Ok ([], tB', oB) ∧
    core_of tB' = core_of guestB ∧
    arrivals oB = whole [acl_packet (Z.lor (c_handle demo_cb) (Z.shiftl 2 12)) [1; 2; 3]].
Proof.
  apply (acl_end_to_end (H:=demo_libm) guestA guestB 0 3 demo_ca demo_cb 0x1040 [1; 2; 3] (replicate 556 0)
    [[2; 0x40]; [0x10; 3; 0; 1; 2; 3]] demo_hub 0 1 1 (peer_of 6 1) (replicate 303 5%nat) (replicate 303 9%nat)).
  - apply guestA_sends.
  - apply guestB_receives.
  - apply demo_hub_between.
  - reflexivity.
  - bytes.
  - done.
  - apply bytes_ok_replicate.
  - reflexivity.
  - apply reads_demo. lia.
  - apply reads_demo. lia.
Defined.

(** ** Disconnecting *)

Lemma land_handle ll i c :
  ll_ok ll → conn_by_handle ll (Z.land (c_handle c) 0xfff) = Some i → LLState.conns ll !! i = Some c →
  Z.land (c_handle c) 0xfff = c_handle c.
Proof.
  intros Hll Hi Hc. pose proof (lookup_lt_Some _ _ _ Hc) as Hlt. rewrite (lok_conns_len _ Hll) in Hlt.
  apply find_idx_sat in Hi as (c' & Hc' & [Ha _]%andb_true_iff). rewrite Hc in Hc'. injection Hc' as <-.
  rewrite (cok_handle _ _ (lok_conns _ Hll i c Hc) Ha). do 8 (destruct i as [|i]; [done|]). lia.
Qed.

(** C33: disconnecting at one host disconnects both.  The HCI_Disconnect of a
    host, through any of the three transports, is answered with a command
    status and a Disconnection Complete event; the terminate request it puts
    on the air is carried by the hub to the other end, whose host is told the
    reason in one Disconnection Complete event.  Neither controller finds the
    connection any more. *)
Theorem disconnect_end_to_end `{Libm} {TA TB : Type} `{EA : Endpoint TA} `{EB : Endpoint TB} (tA : TA) (tB : TB)
    (i j : nat) (ca cb : ll_conn) (reason : Z) (stale : list Z) (segs : list (list Z))
    (h : hub) (src dst rxn : Z) (q : peer) (nsH nsB : list nat) :
  sender tA 2 (c_handle ca) i ca → receiver tB (c_access_addr ca) j cb →
  (∀ k c, LLState.conns (core_of tB) !! k = Some c → c_active c = true → c_access_addr c = c_access_addr ca → k = j) →
  between h (control_hdr (core_of tA) ca [reason]) src dst rxn q →
  concat segs = disconnect_cmd (c_handle ca) reason → is_u8 reason →
  bytes_ok stale → zlen stale = VBT_MAX_MSG_SIZE → reads_ok nsH → reads_ok nsB →
  ∃ tA' oA h' oH q' tB' oB,
    ep_give segs stale tA = Ok (tt, tA', oA) ∧
    arrivals oA = whole [status_packet (core_of tA) OP_DISCONNECT;
                         disconnected_packet (c_handle ca) HCI_CONN_TERM_LOCAL_HOST] ∧
    conn_by_handle (core_of tA') (c_handle ca) = None ∧
    recv_all src nsH (sent (ep_fd tA) oA) h = Ok ([], h', oH) ∧ at_idx (peers h') dst = Some q' ∧
    client_recv nsB (written (p_fd q) oH ++ backlog q') tB = Ok ([], tB', oB) ∧
    arrivals oB = whole [disconnected_packet (c_handle cb) reason] ∧
    conn_by_aa (core_of tB') (c_access_addr ca) = None.
Proof.
  intros [HokA HopsA HoA HkA Hhf Hi Hca] [HokB HopsB HrxB HkB Hj Hcb] Hu Hbt Es Hr Hsb Hsl HnH HnB.
  pose proof (clok_ll _ HokA) as HllA. rewrite (land_handle _ _ _ HllA Hi Hca) in Hi.
  destruct (data_crosses tA tB segs stale (control_hdr (core_of tA) ca [reason]) (control_pdu LL_TERMINATE_IND [reason])
    (drop_slot i ca (core_of tA)) (drop_slot j cb (core_of tB))
    [ToHost (status_packet (core_of tA) OP_DISCONNECT);
     ToMedium (control_hdr (core_of tA) ca [reason]) (control_pdu LL_TERMINATE_IND [reason]);
     ToHost (disconnected_packet (c_handle ca) HCI_CONN_TERM_LOCAL_HOST)]
    [ToHost (disconnected_packet (c_handle cb) reason)] h src dst rxn q nsH nsB)
    as (tA' & oA & h' & oH & q' & tB' & oB & E1 & HcA & HaA & E2 & Hq' & E3 & HcB & HaB); try done.
  - by rewrite Es.
  - rewrite Es. unfold disconnect_cmd. bytes.
  - by rewrite Es.
  - unfold hci_core. rewrite Es. by apply disconnect_sent.
  - unfold on_air. cbn. by rewrite app_nil_r.
  - eapply control_frame_ok; [done..|bytes|done].
  - intros hdr' [Hty Haa]. apply disconnect_received; [done|by rewrite Hty|by rewrite Haa|done].
  - forall_cons. split; [|done]. left. eexists _, [HCI_SUCCESS; lo8 (c_handle cb); hi8 (c_handle cb); reason].
    split_and!; [done|done|done|bytes].
  - exists tA', oA, h', oH, q', tB', oB. rewrite HcA, HcB. split_and!; try done.
    + by apply dropped_handle.
    + by apply dropped_aa.
Qed.

(** From a guest of the vhost-user back end to a host bridge. *)
Definition guestC : vhost := demo_vguest 4 "a" central [OsBytes 30] [[600]; [556]].
Definition bridgeB : ctx := demo_ctx 4 "b" peripheral [].

Lemma guestC_sends : sender guestC 2 (c_handle demo_ca) 0 demo_ca.
Proof.
  split; try reflexivity; try done.
  - apply demo_vguest_ok; [apply central_ok|repeat constructor; lia].
  - apply demo_vguest_open; [lia|by repeat constructor].
  - apply (demo_vguest_takes _ _ _ _ [[600]; [556]]). repeat constructor; try lia; by compute.
Qed.
Lemma bridgeB_receives : receiver bridgeB (c_access_addr demo_ca) 3 demo_cb.
Proof.
  split; try reflexivity; [|apply demo_ctx_rx]. apply demo_ctx_ok; [apply peripheral_ok|done|bytes].
Qed.
Lemma demo_hub_terminates :
  between (H:=demo_libm) demo_hub (control_hdr (core_of guestC) demo_ca [0x13]) 0 1 1 (peer_of 6 1).
Proof.
  split; try done; [apply demo_hub_ok|apply demo_hub_calm|apply demo_hub_fds|apply Forall_nil_2|].
  exists (peer_of 5 0), (-40). split_and!; reflexivity.
Qed.

Lemma disconnect_end_to_end_witness :
  ∃ tA' oA h' oH q' tB' oB,
    ep_give [disconnect_cmd 0x40 0x13] (replicate 556 0) guestC = Ok (tt, tA', oA) ∧
    arrivals oA = whole [status_packet (core_of guestC) OP_DISCONNECT;
                         disconnected_packet (c_handle demo_ca) HCI_CONN_TERM_LOCAL_HOST] ∧
    conn_by_handle (core_of tA') (c_handle demo_ca) = None ∧
    recv_all (H:=demo_libm) 0 (replicate 303 5%nat) (sent (ep_fd guestC) oA) demo_hub = Ok ([], h', oH) ∧
    at_idx (peers h') 1 = Some q' ∧
    client_recv (replicate 303 9%nat) (written (p_fd (peer_of 6 1)) oH ++ backlog q') bridgeB = Ok ([], tB', oB) ∧
    arrivals oB = whole [disconnected_packet (c_handle demo_cb) 0x13] ∧
    conn_by_aa (core_of tB') (c_access_addr demo_ca) = None.
Proof.
  apply (disconnect_end_to_end (H:=demo_libm) guestC bridgeB 0 3 demo_ca demo_cb 0x13 (replicate 556 0)
    [disconnect_cmd 0x40 0x13] demo_hub 0 1 1 (peer_of 6 1) (replicate 303 5%nat) (replicate 303 9%nat)).
  - apply guestC_sends.
  - apply bridgeB_receives.
  - intros k c Hk Ha _. do 8 (destruct k as [|k]; [by injection Hk as <-|]). done.
  - apply demo_hub_terminates.
  - reflexivity.
  - done.
  - apply bytes_ok_replicate.
  - reflexivity.
  - apply reads_demo. lia.
  - apply reads_demo. lia.
Defined.

(** ** Joining the medium *)

Lemma bound_rx_eq idx h h0 : rx_eq idx h h0 → bound h → bound h0.
Proof.
  intros E Hb j q Hq Hn. assert (nodes h0 = nodes h) as En by (symmetry; apply (f_equal nodes E)).
  destruct (scrub_at idx h0 h j q ltac:(by symmetry) Hq) as (q' & Hq' & Es).
  apply scrub_fields in Es as (_ & _ & _ & Eno & _). rewrite En. rewrite <- Eno in *. by apply Hb.
Qed.

Lemma hello_wire_named nid : hello_wire nid = wire (hello_named nid []).
Proof.
  unfold hello_wire, wire, hello_named. f_equal. f_equal. rewrite !zlen_app, zlen_le_split, zlen_cons.
  change (zlen []) with 0. lia.
Qed.

(** The hub reads a hello. *)
Lemma hello_heard `{Libm} pidx p nid h ns :
  nid ≠ [] → Forall (λ c, c ≠ 0) nid → bytes_ok nid → zlen nid ≤ 63 →
  hub_ok h → calm h → bound h → num_nodes h < MAX_NODES →
  at_idx (peers h) pidx = Some p → rx_bytes p = [] →
  Forall (λ n, 0 < n)%nat ns → (length (wire (hello_named nid [])) ≤ length ns)%nat →
  ∃ h' oH k nd p', recv_all pidx ns (wire (hello_named nid [])) h = Ok ([], h', oH) ∧ bound h' ∧
    at_idx (nodes h') k = Some nd ∧ nd_node_id nd = nid ∧ nd_active nd = true ∧
    nd_peer_idx nd = pidx ∧ nd_physical nd = false ∧ at_idx (peers h') pidx = Some p' ∧ p_node_idx p' = k.
Proof.
  intros Hne Hnz Hnb Hl Hh Hc Hb Hroom Hp Hrx Hns Hnl.
  assert (payload_ok (hello_named nid [])) as Hpok.
  { split; [apply Forall_app_2; [apply le_split_ok|apply Forall_app_2; [done|by forall_cons]]|].
    unfold hello_named. rewrite !zlen_app, zlen_le_split, zlen_cons. change VBT_MAX_MSG_SIZE with 556.
    change (zlen []) with 0. lia. }
  destruct (recv_all_run pidx ns (wire (hello_named nid [])) [hello_named nid []] p h)
    as (h' & p' & oH & Hrun & _ & _ & Hs & Hp' & _ & _); try done.
  { by apply Forall_cons_2. }
  { apply Forall_app_2; [apply be32_ok|apply Hpok]. }
  { rewrite Hrx. by left. }
  { rewrite Hrx. cbn. by rewrite app_nil_r. }
  { cbn [anons]. rewrite named_not_anonymous by done. pose proof (hok_auto _ Hh). lia. }
  inversion Hs as [|h_ h0 p0 pl h1 o1 ps o2 h2 E0 Hh0 Hc0 Hp0 Hsl Hmsg Hs2]; subst.
  inversion Hs2 as [h1_ h2_ E1|]; subst.
  destruct (hello_named_binds pidx p0 nid [] h0) as (h1' & k & nd & p1 & Em & Hb1 & Hk & H1 & H2 & H3 & H4 & Hp1 & H5 & _);
    try done.
  { by eapply bound_rx_eq. }
  { change NODE_ID_LEN with 64. lia. }
  { unfold num_nodes in *. by rewrite <- (f_equal nodes E0 : nodes h = nodes h0). }
  unfold rx_message in Hmsg. rewrite (bind_silent _ _ _ _ _ Em) in Hmsg.
  rewrite when_false in Hmsg by (apply Z.eqb_neq; unfold hello_named; rewrite zlen_app, zlen_le_split;
    pose proof (zlen_nonneg (nid ++ [0])); lia).
  injection Hmsg as <- _.
  assert (nodes h' = nodes h1') as En by (symmetry; apply (f_equal nodes E1)).
  destruct (scrub_at _ _ _ _ _ E1 Hp1) as (p2 & Hp2 & (_ & _ & _ & Eno & _)%scrub_fields).
  exists h', (o1 ++ []), k, nd, p2. rewrite En.
  split_and!; try done; [by eapply bound_rx_eq|by rewrite Eno].
Qed.

(** C32: a transport that connects joins the medium under its name.  What any of
    the three writes on the socket when it is let in, read by the hub in
    whatever pieces, binds the new peer to the node of that name: the node is
    active, points to the peer, and the peer to the node; it is not a physical
    radio. *)
Theorem end_joins `{Libm} {T : Type} `{E : Endpoint T} (t : T) (fd n : Z) (h : hub) (pidx : Z) (p : peer)
    (ns : list nat) :
  ep_idle t → transport_ok t → zlen (hello_wire (ep_name t)) ≤ n →
  ep_name t ≠ [] → Forall (λ c, 0 < c < 256) (ep_name t) →
  hub_ok h → calm h → bound h → num_nodes h < MAX_NODES →
  at_idx (peers h) pidx = Some p → rx_bytes p = [] →
  Forall (λ n, 0 < n)%nat ns → (72 ≤ length ns)%nat →
  ∃ t' o h' oH k nd p', ep_dial (Dialled fd (OsBytes n)) t = Ok (true, t', o) ∧ ep_fd t' = fd ∧
    recv_all pidx ns (sent fd o) h = Ok ([], h', oH) ∧ bound h' ∧
    at_idx (nodes h') k = Some nd ∧ nd_node_id nd = ep_name t ∧ nd_active nd = true ∧
    nd_peer_idx nd = pidx ∧ nd_physical nd = false ∧
    at_idx (peers h') pidx = Some p' ∧ p_node_idx p' = k.
Proof.
  intros Hi Hx Hn Hne Hnz Hh Hc Hb Hroom Hp Hrx Hns Hnl.
  destruct (ep_dial_run fd n t Hi Hx Hn) as (t' & o & Ed & Hsent & Hfd). pose proof (ep_name_len t Hx) as Hnl'.
  set (nid := ep_name t) in *. rewrite hello_wire_named in Hsent.
  assert (Forall (λ c, c ≠ 0) nid ∧ bytes_ok nid) as [Hnz' Hnb].
  { split; (eapply Forall_impl; [|exact Hnz]); cbn; unfold is_u8; lia. }
  assert (zlen (wire (hello_named nid [])) ≤ 72) as Hfit.
  { rewrite zlen_wire. unfold hello_named. rewrite !zlen_app, zlen_le_split, zlen_cons. change (zlen []) with 0. lia. }
  destruct (hello_heard pidx p nid h ns) as (h' & oH & k & nd & p' & Hrun & Hrest); try done.
  { unfold zlen in Hfit. lia. }
  exists t', o, h', oH, k, nd, p'. rewrite Hsent. split; [done|]. split; [done|]. by split.
Qed.

(** A virtio device that is not connected. *)
Definition guestD : virtio := set_s_medium_connected false (set_s_medium_fd (-1) (demo_iguest 4 "d" central [] [])).

Lemma end_joins_witness :
  ∃ t' o h' oH k nd p', ep_dial (Dialled 9 (OsBytes 72)) guestD = Ok (true, t', o) ∧ ep_fd t' = 9 ∧
    recv_all (H:=demo_libm) 2 (replicate 72 4%nat) (sent 9 o) demo_hub = Ok ([], h', oH) ∧ bound h' ∧
    at_idx (nodes h') k = Some nd ∧ nd_node_id nd = ep_name guestD ∧ nd_active nd = true ∧
    nd_peer_idx nd = 2 ∧ nd_physical nd = false ∧
    at_idx (peers h') 2 = Some p' ∧ p_node_idx p' = k.
Proof.
  apply (end_joins (H:=demo_libm) guestD 9 72 demo_hub 2 (peer_of 7 2) (replicate 72 4%nat)).
  - by split.
  - destruct (demo_iguest_rest 4 "d" central [] [] ltac:(constructor)). by split.
  - done.
  - done.
  - by repeat constructor.
  - apply demo_hub_ok.
  - apply demo_hub_calm.
  - apply bound_demo.
  - done.
  - reflexivity.
  - reflexivity.
  - apply Forall_replicate. lia.
  - by rewrite length_replicate.
Defined.
