(* ===== verification/SystemLink.v ===== *)
(** * A connection through the medium

    Two ends of the air and the hub open a connection: the advertisement of
    one is learned and passed on by the hub, the other answers with a
    CONNECT_IND, the hub installs the route and passes it on, and both hosts
    are told. *)

From Stdlib Require Import String ZArith Lia Floats.SpecFloat.
From stdpp Require Import base list numbers option.
From S2P Require Import Prelude Wire Framing Text LLState LLEmit LLCmd LLAir LLInv LLProps LLLink.
From S2P Require Import Client ClientProps ClientInv SendProps Endpoint Ring RingProps.
From S2P Require Import Host HostInv HostEnd Vhost VhostInv VhostEnd Virtio VirtioInv VirtioEnd VirtioProps.
From S2P Require Import HubState HubTables HubModel HubIO HubRoute HubInv HubSpec HubStream HubDemo HubTabProps.
From S2P Require Import HubLink HubRelay System.

(** ** The frames *)

(** The Access Addresses an initiator picks are valid. *)
Lemma init_aa_valid ll : aa_valid (init_aa ll) = true.
Proof.
  unfold aa_valid, init_aa, new_access_addr. set (v := Z.lor _ _).
  assert (Z.testbit v 22 = true ∧ Z.testbit v 31 = false) as [H1 H2].
  { unfold v. split; rewrite Z.lor_spec, Z.land_spec; cbn; by rewrite ?orb_true_r, ?andb_false_r. }
  assert (v ≠ 0 ∧ v ≠ VBT_ADV_ACCESS_ADDR) as [Hz%Z.eqb_neq Ha%Z.eqb_neq].
  { split; intros E; rewrite E in *; done. }
  by rewrite Ha, Hz, Ha.
Qed.

(** The parts of a CONNECT_IND. *)
Lemma connect_air_parts ll adva txadd :
  ll_ok ll → addr_ok adva →
  let pdu := connect_air_pdu ll adva txadd in
  zlen pdu = 36 ∧ Z.land (default 0 (pdu !! 0%nat)) VBT_ADV_PDU_TYPE_MASK = VBT_CONNECT_IND ∧
  slice VBT_CONNIND_ADVA_OFF 6 pdu = adva ∧ le_join (slice VBT_CONNIND_AA_OFF 4 pdu) = init_aa ll.
Proof.
  intros Hll [_ Ha]. pose proof (addr_ok_zlen _ (own_source_addr_ok ll (init_own_addr_type ll) Hll)) as Hs.
  unfold connect_air_pdu, connect_ind_pdu. set (inita := own_source_addr _ _) in *. split_and!.
  - rewrite !zlen_app, zlen_le_split, Hs, Ha. done.
  - apply (connect_b0_type (own_source_addr_type ll (init_own_addr_type ll)) txadd).
  - rewrite !slice_app_r by (rewrite ?Hs; done). rewrite Hs. by apply slice_prefix.
  - rewrite !slice_app_r by (rewrite ?Hs, ?Ha; done). rewrite Hs, Ha.
    etransitivity; [apply (f_equal le_join); by apply slice_prefix|].
    apply le_join_split4, new_access_addr_u32, u32_range.
Qed.

(** ** The two ends *)

Section Ends.
Context {T : Type} `{E : Endpoint T}.
Implicit Types (t : T).

(** The end that waits for an advertisement of its target. *)
Record initiating t (i : nat) : Prop := Initiating {
  in_ok : client_ok t;
  in_ops : both_ways (core_of t);
  in_open : ep_open t;
  in_takes : ep_takes 1 t;
  in_rx : pending_rx [] t;
  in_state : state (core_of t) = LL_INITIATING;
  in_slot : free_slot (core_of t) i
}.
(** The one that advertises, and is due at time [now]. *)
Record advertises t (j : nat) (now : Z) : Prop := Advertises {
  ad_ok : client_ok t;
  ad_ops : both_ways (core_of t);
  ad_open : ep_open t;
  ad_takes : ep_takes 1 t;
  ad_rx : pending_rx [] t;
  ad_on : adv_enabled (core_of t) = true;
  ad_type : adv_pdu_type (core_of t) = VBT_ADV_IND;
  ad_slot : free_slot (core_of t) j;
  ad_tick : ep_due now t;
  ad_due : last_adv_ms (core_of t) = 0 ∨
    adv_interval_ms (core_of t) ≤ u64 (now - last_adv_ms (core_of t))
}.

Definition init_addr t : list Z := own_source_addr (core_of t) (init_own_addr_type (core_of t)).
Definition adv_addr t : list Z := own_source_addr (core_of t) (adv_own_addr_type (core_of t)).
Definition init_atype t : Z := own_source_addr_type (core_of t) (init_own_addr_type (core_of t)).
Definition adv_atype t : Z := own_source_addr_type (core_of t) (adv_own_addr_type (core_of t)).

(** The timer puts three copies of the advertisement on the socket. *)
Lemma end_advertises t j now now' :
  advertises t j now →
  let ll := core_of t in
  frame_ok (adv_air_hdr ll 37) (adv_air_pdu ll) ∧
  ∃ t' o rest, ep_tick now now' t = Ok (tt, t', o) ∧
    sent (ep_fd t) o = frame_bytes (adv_air_hdr ll 37) (adv_air_pdu ll) ++ rest ∧
    core_of t' = set_last_adv_ms now ll ∧ ep_takes 1 t' ∧ pending_rx [] t'.
Proof using E.
  intros [Hok Hops Hat Htk [Hu Hb] Hon _ _ Htick Hdue] ll. pose proof (clok_ll _ Hok) as Hll.
  pose proof (advertised ll Hll Hops) as Hadv.
  assert (vbt_ll_tick now ll = Ok (tt, set_last_adv_ms now ll, [ToMedium (adv_air_hdr ll 37) (adv_air_pdu ll);
    ToMedium (adv_air_hdr ll 38) (adv_air_pdu ll); ToMedium (adv_air_hdr ll 39) (adv_air_pdu ll)])) as Erun.
  { unfold vbt_ll_tick. rewrite bind_get. fold ll in Hon, Hdue. rewrite Hon. cbn [when].
    rewrite when_true; [|destruct Hdue as [->|]; [done|]].
    - by rewrite (bind_ok _ _ _ _ _ _ Hadv).
    - apply orb_true_iff. right. by apply Z.leb_le. }
  destruct (safe_outs (vbt_ll_tick_safe now ll Hll) Erun) as [_ Hout].
  split; [by apply Forall_cons_1 in Hout as [? _]|].
  destruct (tick_run t now now' _ _ Erun Htick (can_open _ _ Hat Hout) eq_refl) as
    (t' & o & Et & Hc & Hg & Hs & _); [by apply (ep_takes_le 0 1); [lia|]|].
  eexists t', o, _. split; [done|]. split; [rewrite Hs; reflexivity|].
  rewrite Hc. split; [done|]. split; [by apply Hg|]. unfold pending_rx. by rewrite Hc.
Qed.
End Ends.

(** ** Frames on their way *)

Lemma hears_relayed {T : Type} `{E : Endpoint T} (t : T) hdr hdr' pdu ns ll ws :
  frame_ok hdr pdu → received hdr hdr' → reads_ok ns →
  vbt_ll_pdu_from_medium hdr' pdu (zlen pdu) (core_of t) = Ok (tt, ll, ws) →
  Forall (can t) ws → ep_takes (length (told ws)) t → pending_rx [] t →
  ∃ t' o, client_recv ns (wire (frame_payload hdr' pdu)) t = Ok ([], t', o) ∧ core_of t' = ll ∧
    sent (ep_fd t) o = on_air ws ∧ arrivals o = told ws.
Proof.
  intros Hf [Hh Hm Hl _] Hns Erun Hws Hk Hrx. destruct (frame_ok_pdu _ _ Hf) as [Hb Hz].
  destruct Hf as (_ & Hm0 & _ & Hl0 & _).
  destruct (hears t hdr' pdu ns ll ws Erun Hws Hk Hrx) as (t' & o & Er & [Hc _ _] & Hs & Ha); try done.
  - by rewrite Hm.
  - by rewrite Hl.
  - lia.
  - by exists t', o.
Qed.

(** A connection in the table is a route in both directions. *)
Lemma endpoints_route h hdr src dst p q a b :
  addressed h → station h src p a → station h dst q b → src ≠ dst → aa_valid (access_addr hdr) = true →
  endpoints (HubState.conns h) (access_addr hdr) = Some (Z.of_nat a, Z.of_nat b) →
  conn_route hdr h (Z.of_nat a) = Some (dst, Z.of_nat b) ∧ conn_route hdr h (Z.of_nat b) = Some (src, Z.of_nat a).
Proof.
  intros Had [Hp _ _ _ _ _ (na & Hna & Ea)] [Hq _ _ _ _ _ (nb & Hnb & Eb)] Hne Hv He.
  assert (a ≠ b) as Hab by congruence. apply at_idx_lt in Hp as Hs. apply at_idx_lt in Hq as Hd.
  assert (∀ k nd, nodes h !! k = Some nd → at_idx (nodes h) (Z.of_nat k) = Some nd ∧ nd_active nd = true) as Hk.
  { intros k nd Hnd. split; [apply at_idx_Some; rewrite Nat2Z.id; split; [lia|done]|].
    exact (Forall_lookup_1 _ _ _ _ (ad_active _ Had) Hnd). }
  destruct (Hk _ _ Hna) as [Ha1 Ha2], (Hk _ _ Hnb) as [Hb1 Hb2].
  unfold endpoints in He. unfold conn_route. destruct (at_idx (HubState.conns h) _) as [c|]; [|done].
  cbn in He. injection He as E1 E2. cbn. unfold opposite. rewrite E1, E2, !Z.eqb_refl.
  rewrite (proj2 (Z.eqb_neq (Z.of_nat a) (Z.of_nat b))) by lia.
  cbn. rewrite Ha1, Hb1. cbn. rewrite Ha2, Hb2, Ea, Eb.
  rewrite !(proj2 (Z.leb_le 0 _)) by lia. done.
Qed.

(** ** Opening a connection *)

(** Two stations in range of each other on a hub with room for a connection. *)
Record in_range `{Libm} {TA TB : Type} `{EA : Endpoint TA} `{EB : Endpoint TB} (h : hub) (xA : TA) (xB : TB)
    (src dst : Z) (pA pB : peer) (a b : nat) : Prop := InRange {
  ir_medium : medium h;
  ir_addressed : addressed h;
  ir_src : station h src pA a;
  ir_dst : station h dst pB b;
  ir_ne : src ≠ dst;
  ir_idle : backlog pA = [] ∧ backlog pB = [];
  ir_there : ∃ r, heard h (connect_air_hdr (core_of xA)) (Z.of_nat a) (Z.of_nat b) = Some r;
  ir_back : ∃ r, heard h (adv_air_hdr (core_of xB) 37) (Z.of_nat b) (Z.of_nat a) = Some r;
  ir_addr_room : has_room h b (adv_addr xB);
  ir_conn_room : conns_full (HubState.conns h) = false
}.

(** The addresses the two use are proper and different, and the target of the
    one is the other. *)
Record targets {TA TB : Type} `{EA : Endpoint TA} `{EB : Endpoint TB} (xA : TA) (xB : TB) : Prop := Targets {
  tg_target : init_peer_addr (core_of xA) = adv_addr xB;
  tg_own : addr_is_zero (init_addr xA) = false;
  tg_other : addr_is_zero (adv_addr xB) = false;
  tg_ne : adv_addr xB ≠ init_addr xA
}.

Section Handshake.
Context `{Libm} {TA TB : Type} `{EA : Endpoint TA} `{EB : Endpoint TB}.
Context (xA : TA) (xB : TB) (i j : nat) (t : Z) (h : hub) (src dst : Z) (pA pB : peer) (a b : nat).
Context (HA : initiating xA i) (HB : advertises xB j t) (Ht : targets xA xB).
Context (Hh : in_range h xA xB src dst pA pB a b).
Let A := core_of xA.
Let B := core_of xB.
Let hdr1 := adv_air_hdr B 37.
Let pdu1 := adv_air_pdu B.
Let hdr2 := connect_air_hdr A.
Let pdu2 := connect_air_pdu A (adv_addr xB) (adv_atype xB).
Let ca := opened i (init_aa A) 0 (adv_addr xB) (adv_atype xB).
Let cb := opened j (init_aa A) 1 (init_addr xA) (own_source_addr_type A (init_own_addr_type A)).

(** The advertisement reaches the initiator, which answers. *)
Lemma advert_crosses ns ms :
  frame_ok hdr1 pdu1 → reads_ok ns → reads_ok ms →
  ∃ h' o pB' pA' hdr' xA' oA,
    recv_all dst ns (frame_bytes hdr1 pdu1) h = Ok ([], h', o) ∧
    relayed h dst src pB pA b a hdr1 pdu1 h' pB' pA' hdr' o ∧ learns b (adv_addr xB) h h' ∧
    client_recv ms (written (p_fd pA) o ++ backlog pA') xA = Ok ([], xA', oA) ∧
    core_of xA' = after_initiate A i ca ∧ frame_ok hdr2 pdu2 ∧
    sent (ep_fd xA) oA = frame_bytes hdr2 pdu2 ∧ arrivals oA = whole [conn_complete_packet ca].
Proof using All.
  intros Hf Hns Hms. destruct HA as [HokA HopsA HatA HtkA HrxA HstA HslA], HB as [HokB _ _ _ _ _ HtyB _ _ _].
  destruct Hh as [Hm Had Hsrc Hdst Hne [Hbk _] _ [r Hr] _ _]. destruct Ht as [Htg _ Hz _].
  pose proof (clok_ll _ HokA) as HllA. pose proof (clok_ll _ HokB) as HllB.
  destruct (relay_advert h dst src pB pA b a hdr1 pdu1 r) with (ns := ns)
    as (h' & o & pB' & pA' & hdr' & Hrun & Hrl & Hle); try done.
  { unfold pdu1, adv_air_pdu. cbn [app lookup list_lookup default from_option id]. fold B in HtyB. rewrite HtyB.
    by destruct (own_source_addr_type_01 B (adv_own_addr_type B)) as [->| ->]. }
  { apply Hns. }
  { pose proof (length_frame _ _ Hf). destruct Hns. lia. }
  assert (ll_type hdr' = VBT_LL_ADV) as Ety by by rewrite (proj1 (rv_air _ _ (rl_hdr Hrl))).
  pose proof (advert_answered A B i HllA HllB HopsA HslA hdr' HstA HtyB Htg Ety) as Erun.
  rewrite <- (adv_air_len B HllB) in Erun. change (own_source_addr B _) with (adv_addr xB) in Erun.
  change (own_source_addr_type B _) with (adv_atype xB) in Erun. fold ca pdu2 hdr2 in Erun.
  assert (Forall out_ok [ToMedium hdr2 pdu2; ToHost (conn_complete_packet ca)]) as Hout.
  { assert (addr_ok (adv_addr xB)) as Hab by by apply own_source_addr_ok.
    assert (is_u8 (adv_atype xB)) as Hat8 by apply own_source_addr_type_u8.
    exact (proj2 (safe_outs (initiate_safe _ _ A HllA Hab Hat8) (initiate_run A i _ _ HllA HopsA HslA Hab))). }
  assert (frame_ok hdr2 pdu2) as Hf2 by by apply Forall_cons_1 in Hout as [? _].
  destruct (hears_relayed xA hdr1 hdr' pdu1 ms _ _ Hf (rl_hdr Hrl) Hms Erun)
    as (xA' & oA & Erecv & HcA & Hs & Ha); [by apply can_open|done|done|].
  exists h', o, pB', pA', hdr', xA', oA. split_and!; try done.
  - by rewrite (rl_dst_stream Hrl).
  - rewrite Hs. unfold on_air. cbn. by rewrite app_nil_r.
Qed.

(** The request reaches the advertiser, which accepts. *)
Lemma request_crosses h1 pA1 pB1 xB1 ns ms :
  medium h1 → addressed h1 → sees h h1 → station h1 src pA1 a → station h1 dst pB1 b → backlog pB1 = [] →
  p_fd pB1 = p_fd pB → conns_full (HubState.conns h1) = false →
  find_node_by_addr (adv_addr xB) (nodes h1) = Z.of_nat b →
  core_of xB1 = set_last_adv_ms t B → ll_ok (core_of xB1) → ep_takes 1 xB1 → pending_rx [] xB1 →
  frame_ok hdr2 pdu2 → reads_ok ns → reads_ok ms →
  ∃ h' o pB' xB' oB, recv_all src ns (frame_bytes hdr2 pdu2) h1 = Ok ([], h', o) ∧
    at_idx (peers h') dst = Some pB' ∧
    client_recv ms (written (p_fd pB) o ++ backlog pB') xB1 = Ok ([], xB', oB) ∧
    core_of xB' = after_connect_ind (core_of xB1) j cb ∧ arrivals oB = whole [conn_complete_packet cb] ∧
    ∀ hdr, access_addr hdr = init_aa A →
      conn_route hdr h' (Z.of_nat a) = Some (dst, Z.of_nat b) ∧
      conn_route hdr h' (Z.of_nat b) = Some (src, Z.of_nat a).
Proof using All.
  intros Hm Had Hsee Hsrc Hdst Hbk Hfd Hroom Hfind EqB HllB HtkB HrxB Hf Hns Hms.
  destruct HA as [HokA _ _ _ _ _ _], HB as [HokB HopsB _ _ _ Hon _ HslB _ _], Hh as [_ _ _ _ Hne _ [r Hr] _ _ _].
  destruct Ht as [_ Hz Hzb Hnea]. pose proof (clok_ll _ HokA) as HllA.
  destruct (connect_air_parts A (adv_addr xB) (adv_atype xB)) as (Hl & Hb0 & Hadva & Haa);
    [done|by apply own_source_addr_ok; apply (clok_ll _ HokB)|]. fold pdu2 in Hl, Hb0, Hadva, Haa.
  destruct (relay_connect h1 src dst pA1 pB1 a b hdr2 pdu2 r) with (ns := ns)
    as (h' & o & pA' & pB' & hdr' & Hrun & Hrl & Had' & He); try done.
  { by rewrite (heard_sees hdr2 h h1). }
  { by rewrite Hb0. }
  { lia. }
  { rewrite Haa. apply init_aa_valid. }
  { by rewrite Hadva. }
  { by rewrite Hadva. }
  { apply Hns. }
  { pose proof (length_frame _ _ Hf). destruct Hns. lia. }
  assert (ll_type hdr' = VBT_LL_ADV) as Ety by by rewrite (proj1 (rv_air _ _ (rl_hdr Hrl))).
  assert (both_ways (core_of xB1)) as HopsB1 by by rewrite EqB.
  assert (free_slot (core_of xB1) j) as HslB1 by by rewrite EqB.
  assert (adv_enabled (core_of xB1) = true) as Hon1 by by rewrite EqB.
  pose proof (request_accepted A (core_of xB1) j HllA HllB HopsB1 HslB1 hdr' Hon1 Ety) as Erun.
  assert (connect_air_pdu A (own_source_addr (core_of xB1) (adv_own_addr_type (core_of xB1)))
    (own_source_addr_type (core_of xB1) (adv_own_addr_type (core_of xB1))) = pdu2) as Ep by by rewrite EqB.
  rewrite Ep, <- Hl in Erun.
  destruct (hears_relayed xB1 hdr2 hdr' pdu2 ms _ _ Hf (rl_hdr Hrl) Hms Erun)
    as (xB' & oB & Erecv & HcB & _ & Ha); [|done|done|].
  { assert (Forall out_ok [ToHost (conn_complete_packet cb)]) as Hout; [|forall_cons; by apply Forall_cons_1 in Hout as [? _]].
    refine (proj2 (safe_outs (vbt_ll_pdu_from_medium_safe hdr' pdu2 (zlen pdu2) _ HllB _ _ _) Erun));
      [by apply (frame_ok_pdu hdr2)|done|]. intros _ _. unfold ad_len_of, clip_body. rewrite Hl.
    case_match; [by compute|lia]. }
  exists h', o, pB', xB', oB. split_and!; try done.
  - apply (sn_peer _ _ _ _ (rl_dst Hrl)).
  - rewrite <- Hfd. by rewrite (rl_dst_stream Hrl).
  - intros hdr Eaa. rewrite Haa, Hadva, Hfind, <- Eaa in He.
    apply (endpoints_route h' hdr src dst pA' pB' a b); try done; [apply Hrl..|].
    rewrite Eaa. apply init_aa_valid.
Qed.
End Handshake.

(** C5: a connection is opened end to end.  An end that advertises writes its
    advertisement on the socket when its timer fires; the hub learns its
    address and passes the frame on to the end that initiates a connection to
    that address; this one answers with a CONNECT_IND and tells its host; the
    hub installs the route and passes the request on; the advertiser accepts
    it and tells its own host.  Afterwards both controllers hold a live
    connection with the same Access Address, opposite roles and each other's
    addresses, and the hub routes the data PDUs of either to the other,
    whichever of the three transports the ends are and however the kernel
    splits the streams on the way. *)
Theorem connection_end_to_end `{Libm} {TA TB : Type} `{EA : Endpoint TA} `{EB : Endpoint TB} (xA : TA) (xB : TB)
    (i j : nat) (t t' : Z) (h : hub) (src dst : Z) (pA pB : peer) (a b : nat) (ns1 ms1 ns2 ms2 : list nat) :
  initiating xA i → advertises xB j t → targets xA xB → in_range h xA xB src dst pA pB a b →
  reads_ok ns1 → reads_ok ms1 → reads_ok ns2 → reads_ok ms2 →
  ∃ xB1 oB advert rest h1 oH1 pA1 xA' oA h2 oH2 pB2 xB' oB',
    ep_tick t t' xB = Ok (tt, xB1, oB) ∧ sent (ep_fd xB) oB = advert ++ rest ∧
    recv_all dst ns1 advert h = Ok ([], h1, oH1) ∧ at_idx (peers h1) src = Some pA1 ∧
    client_recv ms1 (written (p_fd pA) oH1 ++ backlog pA1) xA = Ok ([], xA', oA) ∧
    arrivals oA =
      whole [conn_complete_packet (opened i (init_aa (core_of xA)) 0 (adv_addr xB) (adv_atype xB))] ∧
    recv_all src ns2 (sent (ep_fd xA) oA) h1 = Ok ([], h2, oH2) ∧ at_idx (peers h2) dst = Some pB2 ∧
    client_recv ms2 (written (p_fd pB) oH2 ++ backlog pB2) xB1 = Ok ([], xB', oB') ∧
    arrivals oB' =
      whole [conn_complete_packet (opened j (init_aa (core_of xA)) 1 (init_addr xA) (init_atype xA))] ∧
    linked (core_of xA') (core_of xB') i j (init_aa (core_of xA)) (init_addr xA) (adv_addr xB) ∧
    ∀ hdr, access_addr hdr = init_aa (core_of xA) →
      conn_route hdr h2 (Z.of_nat a) = Some (dst, Z.of_nat b) ∧
      conn_route hdr h2 (Z.of_nat b) = Some (src, Z.of_nat a).
Proof.
  intros HA HB Ht Hh Hn1 Hm1 Hn2 Hm2.
  destruct (end_advertises xB j t t' HB) as [Hf1 (xB1 & oB & rest & Etick & Hsent & EqB & HtkB & HrxB)].
  destruct (advert_crosses xA xB i j t h src dst pA pB a b HA HB Ht Hh ns1 ms1 Hf1 Hn1 Hm1) as
    (h1 & oH1 & pB1 & pA1 & hdr' & xA' & oA & Erun1 & Hrl & Hle & ErecvA & EqA & Hf2 & HsA & HaA).
  assert (ll_ok (core_of xB1)) as HllB.
  { rewrite EqB. destruct (clok_ll _ (ad_ok _ _ _ HB)). by split. }
  pose proof (vw_conns _ _ (le_view _ _ _ _ Hle)) as Ec.
  destruct (request_crosses xA xB i j t h src dst pA pB a b HA HB Ht Hh h1 pA1 pB1 xB1 ns2 ms2)
    as (h2 & oH2 & pB2 & xB' & oB' & Erun2 & HpB2 & ErecvB & EqB' & HaB & Hroute); try done.
  { apply Hrl. } { apply Hle. } { apply Hrl. } { apply Hrl. } { apply Hrl. }
  { pose proof (rl_src_stream Hrl) as Hs. rewrite (proj2 (ir_idle _ _ _ _ _ _ _ _ _ Hh)) in Hs.
    by apply app_eq_nil in Hs as [_ ?]. }
  { apply Hrl. } { rewrite Ec. apply Hh. } { apply (le_found _ _ _ _ Hle), Hh. }
  exists xB1, oB, (frame_bytes (adv_air_hdr (core_of xB) 37) (adv_air_pdu (core_of xB))), rest, h1, oH1, pA1, xA', oA,
    h2, oH2, pB2, xB', oB'. split_and!; try done.
  - apply (sn_peer _ _ _ _ (rl_dst Hrl)).
  - by rewrite HsA.
  - rewrite EqA, EqB', EqB. apply (link_established (core_of xA) (set_last_adv_ms t (core_of xB)) i j).
    + apply (in_slot _ _ HA).
    + apply (ad_slot _ _ _ HB).
Qed.

(** A guest of the vhost-user back end and one of the virtio device at the first
    two nodes of [demo_hub]. *)
Definition guest_init : vhost := demo_vguest 4 "a" initiator [OsBytes 7; OsRetry; OsBytes 20] [[600]].
Definition guest_adv : virtio := demo_iguest 4 "b" advertiser [OsBytes 30] [[556]].

Lemma demo_addressed : addressed demo_hub.
Proof.
  split; [by repeat constructor| |].
  - intros ad k l x y Hx Hy Hox Hoy. apply owns_true in Hox as [_ Hox], Hoy as [_ Hoy].
    destruct k as [|[|[|k]]], l as [|[|[|l]]]; cbn in Hx, Hy; try done;
      injection Hx as <-; injection Hy as <-; apply list_elem_of_singleton in Hox, Hoy;
      try reflexivity; rewrite Hox in Hoy; discriminate Hoy.
  - intros k l c d Hc Hd _ _ _. destruct k as [|k], l as [|l]; done.
Qed.

Lemma demo_medium : medium demo_hub.
Proof. split; [apply demo_hub_ok|apply demo_hub_calm|apply demo_hub_fds|apply Forall_nil_2]. Qed.

Lemma guest_init_initiating : initiating guest_init 0.
Proof.
  split; try reflexivity.
  - apply demo_vguest_ok; [apply initiator_ok|repeat constructor; lia].
  - apply demo_vguest_open; [lia|by repeat constructor].
  - apply (demo_vguest_takes _ _ _ _ [[600]]). repeat constructor; try lia. by compute.
  - apply demo_vguest_rx.
Qed.
Lemma guest_adv_advertises : advertises guest_adv 0 9.
Proof.
  split; try reflexivity.
  - apply demo_iguest_ok; [apply advertiser_ok|repeat constructor; lia].
  - apply demo_iguest_open; [lia|by repeat constructor].
  - apply (demo_iguest_takes _ _ _ _ [[556]]). repeat constructor; try lia. by compute.
  - apply demo_iguest_rx.
  - by left.
Qed.
Lemma guests_target : targets guest_init guest_adv.
Proof. split; by vm_compute. Qed.
Lemma guests_in_range :
  in_range (H:=demo_libm) demo_hub guest_init guest_adv 0 1 (peer_of 5 0) (peer_of 6 1) 0 1.
Proof.
  split; try done; [apply demo_medium|apply demo_addressed| | | | |].
  - split; try done. by eexists.
  - split; try done. by eexists.
  - by eexists.
  - by eexists.
  - eexists. split; [reflexivity|by right].
Qed.

Lemma connection_end_to_end_witness :
  ∃ xB1 oB advert rest h1 oH1 pA1 xA' oA h2 oH2 pB2 xB' oB',
    ep_tick 9 9 guest_adv = Ok (tt, xB1, oB) ∧ sent (ep_fd guest_adv) oB = advert ++ rest ∧
    recv_all (H:=demo_libm) 1 (replicate 303 5%nat) advert demo_hub = Ok ([], h1, oH1) ∧
    at_idx (peers h1) 0 = Some pA1 ∧
    client_recv (replicate 303 9%nat) (written (p_fd (peer_of 5 0)) oH1 ++ backlog pA1) guest_init = Ok ([], xA', oA) ∧
    arrivals oA = whole [conn_complete_packet
      (opened 0 (init_aa (core_of guest_init)) 0 (adv_addr guest_adv) (adv_atype guest_adv))] ∧
    recv_all (H:=demo_libm) 0 (replicate 303 1%nat) (sent (ep_fd guest_init) oA) h1 = Ok ([], h2, oH2) ∧
    at_idx (peers h2) 1 = Some pB2 ∧
    client_recv (replicate 303 2%nat) (written (p_fd (peer_of 6 1)) oH2 ++ backlog pB2) xB1 = Ok ([], xB', oB') ∧
    arrivals oB' = whole [conn_complete_packet
      (opened 0 (init_aa (core_of guest_init)) 1 (init_addr guest_init) (init_atype guest_init))] ∧
    linked (core_of xA') (core_of xB') 0 0 (init_aa (core_of guest_init)) (init_addr guest_init) (adv_addr guest_adv) ∧
    ∀ hdr, access_addr hdr = init_aa (core_of guest_init) →
      conn_route hdr h2 (Z.of_nat 0) = Some (1, Z.of_nat 1) ∧ conn_route hdr h2 (Z.of_nat 1) = Some (0, Z.of_nat 0).
Proof.
  apply (connection_end_to_end (H:=demo_libm) guest_init guest_adv 0 0 9 9 demo_hub 0 1 (peer_of 5 0) (peer_of 6 1) 0 1
    (replicate 303 5%nat) (replicate 303 9%nat) (replicate 303 1%nat) (replicate 303 2%nat)).
  - apply guest_init_initiating.
  - apply guest_adv_advertises.
  - apply guests_target.
  - apply guests_in_range.
  - apply reads_demo. lia.
  - apply reads_demo. lia.
  - apply reads_demo. lia.
  - apply reads_demo. lia.
Defined.
