(* ===== verification/SystemFlow.v ===== *)
(** * A connection as a channel

    Two ends and the hub with an open connection as one transition system: a
    host hands over ACL data at any time, the hub reads and flushes and the
    other end reads whatever pieces the kernel gives them, in any order.  The
    system implements a first-in-first-out channel: at every moment what has
    arrived is, whole and in order, among what was given, and nothing is lost
    as long as the hub's backlog holds it; and what is on the way can always be
    delivered. *)

From Stdlib Require Import String ZArith Lia Floats.SpecFloat.
From stdpp Require Import base list numbers option.
From S2P Require Import Prelude Wire Framing Text LLState LLEmit LLCmd LLAir LLInv LLProps LLLink LLControl LLFrame.
From S2P Require Import Client ClientProps ClientInv SendProps Endpoint Ring RingProps.
From S2P Require Import Host HostInv HostEnd Vhost VhostInv VhostEnd Virtio VirtioInv VirtioEnd VirtioProps.
From S2P Require Import HubState HubTables HubModel HubIO HubRoute HubInv HubSpec HubStream HubDemo HubNameProps HubRelay.
From S2P Require Import HubFlow System.

Lemma sublist_all {X} (R : X → Prop) l l' : sublist l l' → Forall R l' → Forall R l.
Proof. induction 1; intros Hl; [done|..]; apply Forall_cons_1 in Hl as [? ?]; [apply Forall_cons_2|]; auto. Qed.

Lemma whole_app ps ps' : whole (ps ++ ps') = whole ps ++ whole ps'.
Proof. apply map_app. Qed.

(** ** The system *)

Record net (TA TB : Type) : Type := Net {
  n_tx : TA;                        (* the sending end *)
  n_up : list Z;                    (* written by it, not read by the hub *)
  n_hub : hub;
  n_down : list Z;                  (* written by the hub, not read by the receiver *)
  n_rx : TB;                        (* the receiving end *)
  n_given : list (list Z);          (* the data handed over so far *)
  n_told : list (list Z * Z);       (* what has arrived at the sending host *)
  n_got : list (list Z * Z)         (* what has arrived at the receiving host *)
}.
Arguments Net {_ _} _ _ _ _ _ _ _ _.
Arguments n_tx {_ _} _.
Arguments n_up {_ _} _.
Arguments n_hub {_ _} _.
Arguments n_down {_ _} _.
Arguments n_rx {_ _} _.
Arguments n_given {_ _} _.
Arguments n_told {_ _} _.
Arguments n_got {_ _} _.

Inductive net_act : Type :=
  | Give (segs : list (list Z)) (stale data : list Z)
  | HubRead (n : nat)
  | HubFlush
  | Answer (ws : list wres)         (* what the kernel will answer the hub's writes *)
  | Read (n : nat).

(** One read of at most [n] bytes by a transport. *)
Definition recv_some {T} `{Transport T} (n : nat) (s : list Z) : cmd T pev (list Z) :=
  match n, s with
  | S _, _ :: _ =>
      c ← gets client_of;
      let k := Nat.min n (Z.to_nat (VBT_RXBUF_SIZE - rx_start c)) in
      client_input (take k s);; mret (drop k s)
  | _, _ => mret s
  end.

(** The bytes that PDUs with some data take on a socket: the length, the
    header, the opcode of the PDU and its length, and the data. *)
Fixpoint wire_load (ds : list (list Z)) : Z :=
  match ds with [] => 0 | d :: ds => 50 + zlen d + wire_load ds end.

(** The same of the packets that have arrived, whose own header has five. *)
Fixpoint landed (ps : list (list Z * Z)) : Z :=
  match ps with [] => 0 | p :: ps => 45 + snd p + landed ps end.

(** What is in flight. *)
Definition flight {TA TB} (w : net TA TB) : Z := wire_load (n_given w) - landed (n_got w).

Section Net.
Context `{LM : Libm} {TA TB : Type} `{EA : Endpoint TA} `{EB : Endpoint TB}.
(** The peers of the hub, and the descriptor of the receiver there. *)
Context (src dst fd : Z).

Definition net_do (x : net_act) (w : net TA TB) : res (net TA TB) :=
  match x with
  | Give segs stale data =>
      match ep_give segs stale (n_tx w) with
      | Ok (_, t, o) =>
          Ok (Net t (n_up w ++ sent (ep_fd (n_tx w)) o) (n_hub w) (n_down w) (n_rx w)
                (n_given w ++ [data]) (n_told w ++ arrivals o) (n_got w))
      | Fault e => Fault e
      end
  | HubRead n =>
      match read_some src n (n_up w) (n_hub w) with
      | Ok (s, h, o) =>
          Ok (Net (n_tx w) s h (n_down w ++ written fd o) (n_rx w) (n_given w) (n_told w) (n_got w))
      | Fault e => Fault e
      end
  | HubFlush =>
      match peer_flush dst (n_hub w) with
      | Ok (_, h, o) =>
          Ok (Net (n_tx w) (n_up w) h (n_down w ++ written fd o) (n_rx w) (n_given w) (n_told w) (n_got w))
      | Fault e => Fault e
      end
  | Answer ws =>
      Ok (Net (n_tx w) (n_up w) (answering ws (n_hub w)) (n_down w) (n_rx w) (n_given w) (n_told w) (n_got w))
  | Read n =>
      match recv_some n (n_down w) (n_rx w) with
      | Ok (s, t, o) =>
          Ok (Net (n_tx w) (n_up w) (n_hub w) s t (n_given w) (n_told w) (n_got w ++ arrivals o))
      | Fault e => Fault e
      end
  end.

Fixpoint net_run (xs : list net_act) (w : net TA TB) : res (net TA TB) :=
  match xs with
  | [] => Ok w
  | x :: xs => match net_do x w with Ok w => net_run xs w | Fault e => Fault e end
  end.

(** At no time of a run is more in flight than the hub's backlog holds. *)
Fixpoint within (xs : list net_act) (w : net TA TB) : bool :=
  (flight w <=? SEND_BUF_SIZE) &&
  match xs with
  | [] => true
  | x :: xs => match net_do x w with Ok w => within xs w | Fault _ => true end
  end.
End Net.

(** ** The two ends of the connection *)

Section Channel.
Context (A B : vbt_ll) (ca cb : ll_conn) (hf : Z) (i j : nat).

(** Connection [i] of [A], behind the handle of [hf], is connection [j] of [B]. *)
Record joined : Prop := Joined {
  jn_ll : ll_ok A;
  jn_ops : both_ways A;
  jn_hf : is_u16 hf;
  jn_handle : conn_by_handle A (Z.land hf 0xfff) = Some i;
  jn_conn : LLState.conns A !! i = Some ca;
  jn_ll' : ll_ok B;
  jn_ops' : both_ways B;
  jn_aa' : conn_by_aa B (c_access_addr ca) = Some j;
  jn_conn' : LLState.conns B !! j = Some cb
}.

Definition data_ok (d : list Z) : Prop := bytes_ok d ∧ 1 ≤ zlen d ≤ LE_ACL_MTU.
Definition frames_of (ds : list (list Z)) : list frame := map (λ d, (acl_hdr A ca d, acl_pdu d)) ds.
Definition flow (hdr : vbt_frame_hdr) : Prop := ∃ d, hdr = acl_hdr A ca d.
Definition pkt_of (d : list Z) : list Z := acl_packet (Z.lor (c_handle cb) (Z.shiftl 2 12)) d.

(** [e] is a frame with the data [d] as the receiver gets it. *)
Definition bears (e : frame) (d : list Z) : Prop := received (acl_hdr A ca d) (fst e) ∧ snd e = acl_pdu d.

Lemma carried_bears es ds :
  carried es (frames_of ds) →
  ∃ ds', sublist ds' ds ∧ Forall2 bears es ds' ∧ (length es = length ds → ds' = ds).
Proof using.
  revert es. induction ds as [|d ds IH]; intros es Hc; inversion Hc as [|? hdr' ? es' ? Hr Hc'|? ? ? Hc']; subst.
  - by exists [].
  - destruct (IH _ Hc') as (ds' & Hs & Hb & Hall). exists (d :: ds'). split_and!; [by apply sublist_skip| |].
    + constructor; [by split|done].
    + intros [= El]. by rewrite (Hall El).
  - destruct (IH _ Hc') as (ds' & Hs & Hb & Hall). exists ds'. split_and!; [by apply sublist_cons|done|].
    intros El. pose proof (carried_length _ _ Hc') as Hle. unfold frames_of in Hle. rewrite length_map in Hle.
    cbn in El. lia.
Qed.

Section Ends.
Context (Hj : joined).

Lemma flow_data hdr : flow hdr → ll_type hdr = VBT_LL_DATA.
Proof using. by intros [d ->]. Qed.

Lemma frames_in_flow ds : Forall data_ok ds → Forall (in_flow flow) (frames_of ds).
Proof using Hj.
  intros Hd. apply Forall_map. eapply Forall_impl; [|exact Hd]. intros d [Hb Hl]. split; [by exists d|].
  cbn. destruct Hj. by apply (acl_frame_ok A i).
Qed.

Lemma bears_payloads es ds : Forall2 (bears) es ds → Forall data_ok ds → Forall payload_ok (map payload_of es).
Proof using.
  induction 1 as [|[hdr pdu] d es ds [[Hh _ _ _] Hp] _ IH]; intros Hd; [done|].
  apply Forall_cons_1 in Hd as [[Hb Hl] Hd]. cbn [fst snd] in *. subst pdu. apply Forall_cons_2; [|by apply IH].
  unfold LE_ACL_MTU in Hl. unfold payload_of. cbn [fst snd]. pose proof (zlen_acl_pdu d) as Hpl.
  apply frame_payload_ok; [done|rewrite Hpl; unfold VBT_MAX_PDU_SIZE; lia|].
  unfold acl_pdu. apply Forall_app_2; [forall_cons; [done|mlia]|done].
Qed.
Lemma bytes_on_wire es : Forall payload_ok (map payload_of es) → bytes_ok (on_wire es).
Proof using.
  intros Hp. unfold on_wire. apply Forall_concat, Forall_map. eapply Forall_impl; [|exact Hp].
  intros p [Hb _]. apply Forall_app_2; [apply be32_ok|done].
Qed.

Lemma zlen_take_nat (m : nat) (l : list Z) : zlen (take m l) = Z.min (Z.of_nat m) (zlen l).
Proof using. unfold zlen. rewrite length_take. lia. Qed.

Section Receiver.
Context {T : Type} `{E : Endpoint T}.
Implicit Types (t : T).

Lemma feed_bears es ds t k :
  Forall2 bears es ds → Forall data_ok ds → core_of t = B → ep_takes (length ds + k) t →
  ∃ t' o, feed (map payload_of es) t = Ok (tt, t', o) ∧ core_of t' = B ∧ ep_takes k t' ∧
    arrivals o = whole (map pkt_of ds).
Proof using Hj E.
  intros Hb. revert t. induction Hb as [|[hdr pdu] d es ds [[Hh Hm Hl [Hty Haa]] Hp] _ IH]; intros t Hd Hc Hk.
  { by exists t, []. }
  apply Forall_cons_1 in Hd as [[Hdb Hdl] Hd]. cbn [fst snd] in *. subst pdu. destruct Hj as [HllA _ _ _ HcA HllB HoB Haa' Hcb].
  destruct (live_handle _ _ _ _ HllB Haa' Hcb) as [Hhd Hj8].
  assert (is_u16 (Z.lor (c_handle cb) (Z.shiftl 2 12))) as Hu by (rewrite Hhd; by apply handle_flags_u16).
  destruct (takes_frame t hdr (acl_pdu d) B [ToHost (pkt_of d)]) as (t1 & o1 & E1 & Hc1 & Hg1 & _ & Ha1).
  { rewrite Hc, zlen_acl_pdu. apply (acl_received B j cb); try done. by rewrite Haa. }
  { forall_cons. split; [|done]. right. eexists _, d. split_and!; try done. lia. }
  { eapply ep_takes_le; [|exact Hk]. cbn. lia. }
  { done. } { by rewrite Hm. } { by rewrite Hl, zlen_acl_pdu. }
  destruct (IH t1) as (t2 & o2 & E2 & Hc2 & Hk2 & Ha2); [done|done|by apply Hg1|].
  exists t2, (o1 ++ o2). unfold feed in *. cbn [map for_each]. unfold payload_of at 1. cbn [fst snd].
  rewrite (bind_ok _ _ _ _ _ _ E1). cbv beta. setoid_rewrite E2. by rewrite arrivals_app, Ha1, Ha2.
Qed.

(** One read: the frames it completes are delivered. *)
Lemma recv_bears n s tail es ds d t k :
  pending_rx d t → incomplete d → d ++ s ++ tail = on_wire es → Forall2 bears es ds → Forall data_ok ds →
  core_of t = B → ep_takes (length ds + k) t →
  ∃ s' t' o d' es2 ds1 ds2, recv_some n s t = Ok (s', t', o) ∧ ds = ds1 ++ ds2 ∧ Forall2 bears es2 ds2 ∧
    pending_rx d' t' ∧ incomplete d' ∧ d' ++ s' ++ tail = on_wire es2 ∧ core_of t' = B ∧
    ep_takes (length ds2 + k) t' ∧ arrivals o = whole (map pkt_of ds1) ∧
    (n = O ∨ s = [] ∨ length s' < length s)%nat.
Proof using Hj E.
  intros Hrx Hi Hs Hb Hd Hc Hk.
  assert (∀ r : res (list Z * T * list pev), r = Ok (s, t, []) → (n = O ∨ s = []) →
    ∃ s' t' o d' es2 ds1 ds2, r = Ok (s', t', o) ∧ ds = ds1 ++ ds2 ∧ Forall2 bears es2 ds2 ∧
    pending_rx d' t' ∧ incomplete d' ∧ d' ++ s' ++ tail = on_wire es2 ∧ core_of t' = B ∧
    ep_takes (length ds2 + k) t' ∧ arrivals o = whole (map pkt_of ds1) ∧
    (n = O ∨ s = [] ∨ length s' < length s)%nat) as Hidle.
  { intros r -> Hns. exists s, t, [], d, es, [], ds. split_and!; try done. tauto. }
  destruct n as [|n]; [apply Hidle; auto|]. destruct s as [|x s]; [apply Hidle; auto|]. clear Hidle.
  pose proof (bears_payloads _ _ Hb Hd) as Hps. pose proof (incomplete_room _ Hi) as Hroom.
  cbn [recv_some]. rewrite bind_gets, (rx_start_of _ _ Hrx Hroom).
  set (m := Nat.min (S n) (Z.to_nat (VBT_RXBUF_SIZE - zlen d))). set (s0 := x :: s) in *.
  assert (bytes_ok s0) as Hsb.
  { pose proof (bytes_on_wire _ Hps) as Hw. rewrite <- Hs in Hw. by apply Forall_app in Hw as [_ [? _]%Forall_app]. }
  destruct (split_wires (map payload_of es) (d ++ take m s0) (drop m s0 ++ tail))
    as (ps1 & ps2 & rest & Eps & Hd1 & Hd2 & Hi'); [done|by rewrite <- app_assoc, (app_assoc (take m s0)), take_drop|].
  apply map_eq_app in Eps as (es1 & es2 & -> & <- & <-). apply Forall2_app_inv_l in Hb as (ds1 & ds2 & Hb1 & Hb2 & ->).
  apply Forall_app in Hd as [Hda Hdb]. rewrite length_app in Hk. rewrite map_app in Hps. apply Forall_app in Hps as [Hps1 _].
  destruct (feed_bears es1 ds1 t (length ds2 + k) Hb1 Hda Hc) as (t1 & o & Ef & Hc1 & Hk1 & Ha1).
  { by rewrite Nat.add_assoc. }
  assert (leaves (residue rest) (client_input (take m s0) t) (feed (map payload_of es1) t)) as Hrun.
  { apply (client_input_run d (take m s0) (map payload_of es1) rest t); try done.
    - rewrite zlen_take_nat. unfold m. pose proof (zlen_nonneg d). lia.
    - by apply Forall_take.
    - by left. }
  rewrite Ef, residue_incomplete in Hrun by done. destruct Hrun as (b & Hr & Hh).
  exists (drop m s0), (set_rx b (zlen rest) t1), o, rest, es2, ds1, ds2. split_and!; try done.
  - rewrite (bind_ok _ _ _ _ _ _ Hr). cbn. by rewrite app_nil_r.
  - by apply pending_rx_set.
  - by rewrite client_of_rx.
  - by apply (ep_client _ t1).
  - right. right. rewrite length_drop. assert (0 < m)%nat by (unfold m; lia). change (length s0) with (S (length s)). lia.
Qed.
End Receiver.
End Ends.

(** ** The invariant *)

Lemma wire_load_app ds ds' : wire_load (ds ++ ds') = wire_load ds + wire_load ds'.
Proof using. induction ds as [|d ds IH]; cbn; lia. Qed.
Lemma wire_load_nonneg ds : 0 ≤ wire_load ds.
Proof using. induction ds as [|d ds IH]; cbn; [lia|]. pose proof (zlen_nonneg d). lia. Qed.
Lemma bears_load es ds : Forall2 bears es ds → zlen (on_wire es) = wire_load ds.
Proof using.
  induction 1 as [|[hdr pdu] d es ds [[Hh _ _ _] Hp] _ IH]; [done|]. cbn [fst snd] in *. subst pdu.
  rewrite zlen_on_wire_cons, zlen_acl_pdu by done. cbn. lia.
Qed.
Lemma frames_load ds : joined → Forall data_ok ds → zlen (on_wire (frames_of ds)) = wire_load ds.
Proof using.
  intros Hj. induction 1 as [|d ds Hd Hds IH]; [done|].
  assert (Forall data_ok [d]) as Hf by by apply Forall_cons_2.
  apply (frames_in_flow Hj), Forall_cons_1 in Hf as [(_ & Hh & _) _]. cbn [frames_of map wire_load].
  rewrite zlen_on_wire_cons, zlen_acl_pdu by done. fold (frames_of ds). lia.
Qed.

Lemma landed_load ds : landed (whole (map pkt_of ds)) = wire_load ds.
Proof using.
  induction ds as [|d ds IH]; [done|]. change (map pkt_of (d :: ds)) with ([pkt_of d] ++ map pkt_of ds).
  rewrite whole_app. cbn [whole map app landed wire_load snd]. rewrite IH.
  unfold pkt_of, acl_packet. rewrite zlen_app. change (zlen [_; _; _; _; _]) with 5. lia.
Qed.

Section Invariant.
Context `{LM : Libm} {TA TB : Type} `{EA : Endpoint TA} `{EB : Endpoint TB}.
Context (src dst a b fd : Z).

(** With [k] packets still to be given: the data [P] have been handled by the
    hub and [U] have not; of the former, [D] have been delivered and [Q] are
    on their way, as the frames [es], of which the receiver holds [r].
    Nothing has been lost if [ok]. *)
Record flows (ok : Prop) (k : nat) (P U D Q : list (list Z)) (es : list frame) (r : list Z) (w : net TA TB) : Prop := Flows {
  fl_open : ep_open (n_tx w);
  fl_takes : ep_takes k (n_tx w);
  fl_core : core_of (n_tx w) = A;
  fl_given : n_given w = P ++ U;
  fl_data : Forall data_ok (n_given w);
  fl_told : n_told w = whole (map (λ _, completed_packet (Z.land hf 0xfff)) (n_given w));
  fl_path : path flow src dst a b fd (n_hub w);
  fl_up : bytes_ok (n_up w);
  fl_unhandled : unhandled flow src (n_up w) (frames_of U) (n_hub w);
  fl_bears : Forall2 bears es Q;
  fl_rx : pending_rx r (n_rx w);
  fl_rest : incomplete r;
  fl_stream : r ++ n_down w ++ out_of (n_hub w) dst = on_wire es;
  fl_core' : core_of (n_rx w) = B;
  fl_takes' : ep_takes (length Q + length U + k) (n_rx w);
  fl_got : n_got w = whole (map pkt_of D);
  fl_order : sublist (D ++ Q) P;
  fl_room : ok → D ++ Q = P
}.

(** A packet of the sending host, as it may be handed over. *)
Definition act_ok (x : net_act) : Prop :=
  match x with
  | Give segs stale data =>
      concat segs = acl_packet hf data ∧ data_ok data ∧ bytes_ok stale ∧ zlen stale = VBT_MAX_MSG_SIZE
  | Answer ws => Forall soft ws
  | _ => True
  end.
Definition gives (xs : list net_act) : list (list Z) :=
  omap (λ x, match x with Give _ _ data => Some data | _ => None end) xs.

Section Steps.
Context (Hj : joined) (ok : Prop) (k : nat) (P U D Q : list (list Z)) (es : list frame) (r : list Z) (w : net TA TB).
Context (Hw : flows ok k P U D Q es r w).

Lemma queued_ok : Forall data_ok P ∧ Forall data_ok U ∧ Forall data_ok Q.
Proof using Hw.
  pose proof (fl_data _ _ _ _ _ _ _ _ _ Hw) as Hd. rewrite (fl_given _ _ _ _ _ _ _ _ _ Hw) in Hd.
  apply Forall_app in Hd as [HP HU]. split_and!; [done..|].
  pose proof (sublist_all _ _ _ (fl_order _ _ _ _ _ _ _ _ _ Hw) HP) as HDQ. by apply Forall_app in HDQ as [_ ?].
Qed.

Lemma hub_read_flows n :
  ∃ w' P' U' Q' es', net_do src dst fd (HubRead n) w = Ok w' ∧ flows (ok ∧ flight w ≤ SEND_BUF_SIZE) k P' U' D Q' es' r w' ∧
    n_given w' = n_given w ∧ flight w' = flight w ∧ (n = O ∨ n_up w = [] ∨ length (n_up w') < length (n_up w))%nat.
Proof using Hj EA EB Hw.
  destruct queued_ok as (_ & HU & _). pose proof Hw as []. 
  destruct (read_flows flow src dst a b fd flow_data n (n_up w) (frames_of U) (n_hub w))
    as (s' & h' & o & fs1 & fs2 & es1 & E & Hp & Hb & Hun & Efs & Hcar & Ho & Hall & Hpr); [done..|].
  apply map_eq_app in Efs as (U1 & U2 & -> & E1 & E2).
  change (frames_of U1 = fs1) in E1. change (frames_of U2 = fs2) in E2. subst fs1 fs2.
  apply Forall_app in HU as [HU1 HU2]. destruct (carried_bears _ _ Hcar) as (Q1 & Hs1 & Hb1 & Hq1).
  eexists _, (P ++ U1), U2, (Q ++ Q1), (es ++ es1). cbn [net_do]. rewrite E. split_and!; [done| |done..].
  split; cbn; try done.
  - by rewrite <- app_assoc.
  - by apply Forall2_app.
  - by rewrite on_wire_app, <- fl_stream0, <- !app_assoc, Ho.
  - eapply ep_takes_le; [|exact fl_takes'0]. apply sublist_length in Hs1. rewrite !length_app. lia.
  - rewrite app_assoc. by apply sublist_app.
  - intros [Hok Hroom]. specialize (fl_room0 Hok). rewrite app_assoc, fl_room0. f_equal. apply Hq1.
    rewrite <- (length_map (λ d, (acl_hdr A ca d, acl_pdu d)) U1). apply Hall. rewrite (frames_load U1 Hj HU1).
    apply bears_load in fl_bears0. rewrite <- fl_stream0, !zlen_app in fl_bears0.
    unfold flight in Hroom. rewrite fl_got0, landed_load, fl_given0, <- fl_room0, !wire_load_app in Hroom.
    pose proof (zlen_nonneg r). pose proof (zlen_nonneg (n_down w)). pose proof (wire_load_nonneg U2). lia.
Qed.

Lemma hub_flush_flows :
  ∃ w', net_do src dst fd HubFlush w = Ok w' ∧ flows ok k P U D Q es r w' ∧
    n_given w' = n_given w ∧ flight w' = flight w ∧ n_up w' = n_up w.
Proof using Hw EA EB.
  pose proof Hw as []. destruct (flush_flows flow src dst a b fd (n_up w) (frames_of U) (n_hub w))
    as (h' & o & E & Hp & Hun & Ho); [done..|].
  eexists. cbn [net_do]. rewrite E. split_and!; [done| |done..]. split; cbn; try done. by rewrite <- app_assoc, Ho.
Qed.

Lemma answer_flows ws :
  Forall soft ws → ∃ w', net_do src dst fd (Answer ws) w = Ok w' ∧ flows ok k P U D Q es r w' ∧
    n_given w' = n_given w ∧ flight w' = flight w ∧ n_up w' = n_up w ∧ n_hub w' = answering ws (n_hub w).
Proof using Hw EA EB.
  intros Hs. pose proof Hw as [].
  destruct (answering_flows flow src dst a b fd ws (n_up w) (frames_of U) (n_hub w)) as [Hp Hu]; [done..|].
  eexists. split_and!; [done| |done..]. by split; cbn; try done.
Qed.

Lemma rx_read_flows n :
  ∃ w' D' Q' es' r', net_do src dst fd (Read n) w = Ok w' ∧ flows ok k P U D' Q' es' r' w' ∧
    n_given w' = n_given w ∧ flight w' ≤ flight w ∧ n_up w' = n_up w ∧ n_hub w' = n_hub w ∧
    (n = O ∨ n_down w = [] ∨ length (n_down w') < length (n_down w))%nat.
Proof using Hj EA EB Hw.
  destruct queued_ok as (_ & _ & HQ). pose proof Hw as [].
  destruct (recv_bears Hj n (n_down w) (out_of (n_hub w) dst) es Q r (n_rx w) (length U + k))
    as (s' & t' & o & r' & es2 & Q1 & Q2 & E & -> & Hb2 & Hrx & Hi & Hs & Hc & Hk & Ha & Hpr); try done.
  { by rewrite Nat.add_assoc. }
  eexists _, (D ++ Q1), Q2, es2, r'. cbn [net_do]. rewrite E.
  assert (n_got w ++ arrivals o = whole (map pkt_of (D ++ Q1))) as Hgot by by rewrite fl_got0, Ha, map_app, whole_app.
  split_and!; [done| |done| |done..].
  - split; cbn; try done; [by rewrite <- Nat.add_assoc|by rewrite <- app_assoc..].
  - unfold flight. cbn. rewrite Hgot, fl_got0, !landed_load, wire_load_app. pose proof (wire_load_nonneg Q1). lia.
Qed.
End Steps.

Lemma give_flows ok k P U D Q es r w segs stale data :
  joined → flows ok (S k) P U D Q es r w → act_ok (Give segs stale data) →
  ∃ w', net_do src dst fd (Give segs stale data) w = Ok w' ∧ flows ok k P (U ++ [data]) D Q es r w' ∧
    n_given w' = n_given w ++ [data].
Proof using EA EB.
  intros Hj [] (Es & [Hb Hd] & Hsb & Hsl). pose proof Hj as [HllA HoA Hhf Hi Hca _ _ _ _].
  destruct (acl_packet_ok hf data Hhf Hb Hd) as [Hpb Hpl]. unfold LE_ACL_MTU in Hd.
  set (ws := [ToMedium (acl_hdr A ca data) (acl_pdu data); ToHost (completed_packet (Z.land hf 0xfff))]).
  assert (hci_core (concat segs) stale A = Ok (tt, A, ws)) as E.
  { unfold hci_core. rewrite Es, Hpl. apply (acl_sent _ i ca); try done. unfold LE_ACL_MTU. lia. }
  destruct (hci_outs (concat segs) stale A A ws HllA) as [_ Hout]; try done.
  { by rewrite Es. } { rewrite Es, Hpl. change VBT_MAX_MSG_SIZE with 556. lia. }
  destruct (give_run (n_tx w) segs stale A ws) as (t' & o & Eg & Hc & Hg & Hs & Ha); try done.
  { by rewrite fl_core0. } { by rewrite Es. } { rewrite Es, Hpl. change VBT_MAX_MSG_SIZE with 556. lia. }
  { by apply can_open. } { eapply ep_takes_le; [|exact fl_takes0]. cbn. lia. }
  eexists. cbn [net_do]. rewrite Eg. split_and!; [done| |done].
  assert (data_ok data) as Hdo by (split; [done|unfold LE_ACL_MTU; lia]).
  assert (Forall data_ok [data]) as Hds by by apply Forall_cons_2.
  pose proof (frames_in_flow Hj _ Hds) as Hfl.
  assert (sent (ep_fd (n_tx w)) o = on_wire (frames_of [data])) as Hsent.
  { rewrite Hs. unfold on_wire, frames_of, payload_of. cbn [map concat fst snd]. rewrite wire_frame; [done|].
    apply Forall_cons_1 in Hfl as [(_ & Hh & _) _]. exact Hh. }
  split; cbn; try done.
  - by apply Hg.
  - by apply Hg.
  - by rewrite Hc.
  - by rewrite fl_given0, app_assoc.
  - by apply Forall_app_2.
  - by rewrite fl_told0, Ha, map_app, whole_app.
  - apply Forall_app_2; [done|]. rewrite Hsent. by apply bytes_on_wire, (in_flow_payloads flow).
  - unfold frames_of. rewrite map_app. by apply written_more.
  - eapply ep_takes_le; [|exact fl_takes'0]. rewrite length_app. cbn. lia.
Qed.

Lemma flows_weaken (ok ok' : Prop) k P U D Q es r w :
  (ok' → ok) → flows ok k P U D Q es r w → flows ok' k P U D Q es r w.
Proof using. intros Hi []. split; auto. Qed.

(** Any one action, with what is given by it. *)
Lemma act_flows ok k P U D Q es r w x :
  joined → flows ok (length (gives [x]) + k) P U D Q es r w → act_ok x →
  ∃ w' P' U' D' Q' es' r', net_do src dst fd x w = Ok w' ∧
    flows (ok ∧ flight w ≤ SEND_BUF_SIZE) k P' U' D' Q' es' r' w' ∧ n_given w' = n_given w ++ gives [x].
Proof using EA EB.
  intros Hj Hw Hx.
  destruct x as [segs stale data|n| |ws|n]; cbn [gives omap list_omap length Nat.add] in *.
  - destruct (give_flows _ _ _ _ _ _ _ _ _ _ _ _ Hj Hw Hx) as (w' & E & Hf & Hg).
    eexists _, _, _, _, _, _, _. split_and!; [exact E| |exact Hg]. eapply flows_weaken; [|exact Hf]. tauto.
  - destruct (hub_read_flows Hj _ _ _ _ _ _ _ _ _ Hw n) as (w' & P' & U' & Q' & es' & E & Hf & Hg & _).
    eexists _, _, _, _, _, _, _. rewrite app_nil_r. split_and!; [exact E|exact Hf|exact Hg].
  - destruct (hub_flush_flows _ _ _ _ _ _ _ _ _ Hw) as (w' & E & Hf & Hg & _).
    eexists _, _, _, _, _, _, _. rewrite app_nil_r. split_and!; [exact E| |exact Hg].
    eapply flows_weaken; [|exact Hf]. tauto.
  - destruct (answer_flows _ _ _ _ _ _ _ _ _ Hw ws Hx) as (w' & E & Hf & Hg & _).
    eexists _, _, _, _, _, _, _. rewrite app_nil_r. split_and!; [exact E| |exact Hg].
    eapply flows_weaken; [|exact Hf]. tauto.
  - destruct (rx_read_flows Hj _ _ _ _ _ _ _ _ _ Hw n) as (w' & D' & Q' & es' & r' & E & Hf & Hg & _).
    eexists _, _, _, _, _, _, _. rewrite app_nil_r. split_and!; [exact E| |exact Hg].
    eapply flows_weaken; [|exact Hf]. tauto.
Qed.

Lemma run_flows xs ok P U D Q es r w :
  joined → flows ok (length (gives xs)) P U D Q es r w → Forall act_ok xs →
  ∃ w' P' U' D' Q' es' r', net_run src dst fd xs w = Ok w' ∧
    flows (ok ∧ within src dst fd xs w = true) 0 P' U' D' Q' es' r' w' ∧ n_given w' = n_given w ++ gives xs.
Proof using EA EB.
  intros Hj. revert ok P U D Q es r w. induction xs as [|x xs IH]; intros ok P U D Q es r w Hw Hxs.
  { exists w, P, U, D, Q, es, r. rewrite app_nil_r. split_and!; [done| |done]. eapply flows_weaken; [|exact Hw]. tauto. }
  apply Forall_cons_1 in Hxs as [Hx Hxs].
  assert (gives (x :: xs) = gives [x] ++ gives xs) as Eg by (change (x :: xs) with ([x] ++ xs); apply omap_app).
  rewrite Eg, length_app in *.
  destruct (act_flows ok (length (gives xs)) P U D Q es r w x Hj Hw Hx)
    as (w1 & P1 & U1 & D1 & Q1 & es1 & r1 & E1 & Hw1 & Hg1).
  destruct (IH _ _ _ _ _ _ _ _ Hw1 Hxs) as (w2 & P2 & U2 & D2 & Q2 & es2 & r2 & E2 & Hw2 & Hg2).
  exists w2, P2, U2, D2, Q2, es2, r2. cbn [net_run within]. rewrite E1. split_and!; [done| |].
  - eapply flows_weaken; [|exact Hw2]. intros [Hok [Hf%Z.leb_le Hin]%andb_true_iff]. tauto.
  - by rewrite Hg2, Hg1, app_assoc.
Qed.

Lemma within_end xs (w w' : net TA TB) :
  within src dst fd xs w = true → net_run src dst fd xs w = Ok w' → flight w' ≤ SEND_BUF_SIZE.
Proof using.
  revert w. induction xs as [|x xs IH]; intros w Hin E; cbn [within net_run] in *.
  - injection E as <-. apply andb_true_iff in Hin as [Hf _]. lia.
  - apply andb_true_iff in Hin as [_ Hin]. destruct (net_do _ _ _ x w); [by eapply IH|done].
Qed.

(** Nothing is left on the way. *)
Lemma flows_drained ok k P U D Q es r w :
  joined → flows ok k P U D Q es r w → n_up w = [] → n_down w = [] → out_of (n_hub w) dst = [] → U = [] ∧ Q = [].
Proof using.
  intros Hj Hw Hu Hd Ho. destruct (queued_ok _ _ _ _ _ _ _ _ _ Hw) as (_ & HU & HQ).
  destruct Hw. rewrite Hu, Hd, Ho in *. rewrite !app_nil_r in *. split.
  - destruct fl_unhandled0 as [(sp & _ & Hi & Hs) Hfl]. rewrite app_nil_r in Hs. rewrite Hs in Hi.
    apply incomplete_wires, map_eq_nil, map_eq_nil in Hi; [done|]. by apply (in_flow_payloads flow).
  - rewrite fl_stream0 in fl_rest0. apply incomplete_wires, map_eq_nil in fl_rest0 as ->.
    + by apply Forall2_nil_inv_l in fl_bears0.
    + by eapply bears_payloads.
Qed.

(** ** Emptying the channel *)

Lemma net_run_app xs ys (w : net TA TB) :
  net_run src dst fd (xs ++ ys) w =
  match net_run src dst fd xs w with Ok w => net_run src dst fd ys w | Fault e => Fault e end.
Proof using. revert w. induction xs as [|x xs IH]; intros w; [done|]. cbn. by destruct (net_do _ _ _ x w). Qed.

(** Some reads, flushes and answers of the kernel lead from [w] to [w']. *)
Definition leads (w w' : net TA TB) : Prop :=
  ∃ ys, Forall act_ok ys ∧ gives ys = [] ∧ net_run src dst fd ys w = Ok w'.
#[local] Instance leads_preorder : PreOrder leads.
Proof using.
  split; [by intros w; exists []|]. intros w1 w2 w3 (xs & Hx & Gx & E1) (ys & Hy & Gy & E2). exists (xs ++ ys).
  split_and!; [by apply Forall_app_2|unfold gives in *; by rewrite omap_app, Gx, Gy|by rewrite net_run_app, E1].
Qed.
Lemma leads_step x w w' : act_ok x → gives [x] = [] → net_do src dst fd x w = Ok w' → leads w w'.
Proof using. intros Hx Hg E. exists [x]. split_and!; [by apply Forall_cons_2|done|]. cbn. by rewrite E. Qed.

(** All has been given, and if [ok], nothing was lost and there is room for
    what is in flight. *)
Record settled_net (ok : Prop) (w : net TA TB) : Prop := SettledNet {
  sn_flows : ∃ P U D Q es r, flows ok 0 P U D Q es r w;
  sn_room : ok → flight w ≤ SEND_BUF_SIZE
}.

Lemma empty_up ok w :
  joined → settled_net ok w →
  ∃ w', leads w w' ∧ settled_net ok w' ∧ n_given w' = n_given w ∧ n_up w' = [].
Proof using EA EB.
  intros Hj. induction w as [w IH] using (induction_ltof1 _ (λ w, length (n_up w))). intros [(P & U & D & Q & es & r & Hw) Hr].
  destruct (n_up w) as [|c s] eqn:Eu; [exists w; split_and!; [done|split; eauto 7|done|done]|].
  destruct (hub_read_flows Hj _ _ _ _ _ _ _ _ _ Hw 1) as (w1 & P1 & U1 & Q1 & es1 & E & Hf & Hg & Hfl & Hpr).
  destruct (IH w1) as (w2 & Hl & Hs & Hg2 & Hu2).
  { unfold ltof. destruct Hpr as [?|[?|?]]; [done|congruence|done]. }
  { split; [|by rewrite Hfl]. exists P1, U1, D, Q1, es1, r. eapply flows_weaken; [|exact Hf]. tauto. }
  exists w2. split_and!; [|done|congruence|done]. transitivity w1; [|done]. by apply (leads_step (HubRead 1)).
Qed.

Lemma empty_backlog ok w :
  settled_net ok w →
  ∃ w', leads w w' ∧ settled_net ok w' ∧ n_given w' = n_given w ∧ n_up w' = n_up w ∧ out_of (n_hub w') dst = [].
Proof using EA EB.
  intros [(P & U & D & Q & es & r & Hw) Hr].
  destruct (decide (out_of (n_hub w) dst = [])) as [Eo|Hne]; [exists w; split_and!; [done|split; eauto 7|done..]|].
  assert (Forall soft [WBytes (zlen (out_of (n_hub w) dst))]) as Hso.
  { apply Forall_cons_2; [|done]. cbn. destruct (out_of _ _) as [|c l]; [done|]. rewrite zlen_cons. pose proof (zlen_nonneg l). lia. }
  destruct (answer_flows _ _ _ _ _ _ _ _ _ Hw _ Hso) as (w1 & E1 & Hf1 & Hg1 & Hfl1 & Hu1 & Hh1).
  destruct (hub_flush_flows _ _ _ _ _ _ _ _ _ Hf1) as (w2 & E2 & Hf2 & Hg2 & Hfl2 & Hu2).
  exists w2. split_and!; [| |congruence|congruence|].
  - transitivity w1; [by eapply (leads_step (Answer _))|by apply (leads_step HubFlush)].
  - split; [by eauto 7|]. by rewrite Hfl2, Hfl1.
  - cbn [net_do] in E2. rewrite Hh1 in E2.
    destruct (peer_flush dst _) as [[[[] h'] o]|] eqn:Ef; [|done]. injection E2 as <-. cbn.
    eapply flush_empties; [|exact Ef]. apply (fl_path _ _ _ _ _ _ _ _ _ Hw).
Qed.

Lemma empty_down ok w :
  joined → settled_net ok w →
  ∃ w', leads w w' ∧ settled_net ok w' ∧ n_given w' = n_given w ∧ n_up w' = n_up w ∧ n_hub w' = n_hub w ∧ n_down w' = [].
Proof using EA EB.
  intros Hj. induction w as [w IH] using (induction_ltof1 _ (λ w, length (n_down w))). intros [(P & U & D & Q & es & r & Hw) Hr].
  destruct (n_down w) as [|c s] eqn:Eu; [exists w; split_and!; [done|split; eauto 7|done..]|].
  destruct (rx_read_flows Hj _ _ _ _ _ _ _ _ _ Hw 1) as (w1 & D1 & Q1 & es1 & r1 & E & Hf & Hg & Hfl & Hu & Hh & Hpr).
  destruct (IH w1) as (w2 & Hl & Hs & Hg2 & Hu2 & Hh2 & Hd2).
  { unfold ltof. destruct Hpr as [?|[?|?]]; [done|congruence|done]. }
  { split; [by eauto 7|]. intros Hok. specialize (Hr Hok). lia. }
  exists w2. split_and!; [|done|congruence..|done]. transitivity w1; [|done]. by apply (leads_step (Read 1)).
Qed.

(** Whatever is on the way can be delivered. *)
Lemma channel_empties ok w :
  joined → settled_net ok w →
  ∃ w' D, leads w w' ∧ n_given w' = n_given w ∧ n_up w' = [] ∧ out_of (n_hub w') dst = [] ∧ n_down w' = [] ∧
    n_got w' = whole (map pkt_of D) ∧ (ok → D = n_given w).
Proof using EA EB.
  intros Hj Hs0. destruct (empty_up ok w Hj Hs0) as (w1 & L1 & Hs1 & G1 & U1).
  destruct (empty_backlog ok w1 Hs1) as (w2 & L2 & Hs2 & G2 & U2 & O2).
  destruct (empty_down ok w2 Hj Hs2) as (w3 & L3 & [(P & U & D & Q & es & r & Hw) _] & G3 & U3 & Hh3 & D3).
  exists w3, D. rewrite Hh3. split_and!; [by transitivity w1; [|transitivity w2]|congruence|congruence|done|done| |].
  - apply (fl_got _ _ _ _ _ _ _ _ _ Hw).
  - intros Hok. destruct (flows_drained _ _ _ _ _ _ _ _ _ Hj Hw) as [-> ->]; [congruence|done|by rewrite Hh3|].
    rewrite <- G1, <- G2, <- G3, (fl_given _ _ _ _ _ _ _ _ _ Hw), <- (fl_room _ _ _ _ _ _ _ _ _ Hw Hok). by rewrite !app_nil_r.
Qed.

End Invariant.
End Channel.

(** ** The channel *)

(** A connection from [tA] to [tB] through peers [src] and [dst] of [h], with
    nothing on the way and room for [n] packets at both hosts. *)
Record channel `{Libm} {TA TB : Type} `{EA : Endpoint TA} `{EB : Endpoint TB} (tA : TA) (tB : TB) (h : hub)
    (hf : Z) (i j : nat) (ca cb : ll_conn) (src dst a b fd : Z) (n : nat) : Prop := Channel_ {
  ch_sender : sender tA n hf i ca;
  ch_receiver : receiver tB (c_access_addr ca) j cb;
  ch_takes : ep_takes n tB;
  ch_path : path (flow (core_of tA) ca) src dst a b fd h;
  ch_src : ∃ sp, at_idx (peers h) src = Some sp ∧ rx_bytes sp = [];
  ch_dst : out_of h dst = []
}.

Section Runs.
Context `{Libm} {TA TB : Type} `{EA : Endpoint TA} `{EB : Endpoint TB} (tA : TA) (tB : TB).
Context (h : hub) (hf : Z) (i j : nat) (ca cb : ll_conn) (src dst a b fd : Z) (xs : list net_act).

Lemma channel_runs :
  channel tA tB h hf i j ca cb src dst a b fd (length (gives xs)) → Forall (act_ok hf) xs →
  joined (core_of tA) (core_of tB) ca cb hf i j ∧
  ∃ w P U D Q es r, net_run src dst fd xs (Net tA [] h [] tB [] [] []) = Ok w ∧ n_given w = gives xs ∧
    flows (core_of tA) (core_of tB) ca cb hf src dst a b fd
      (within src dst fd xs (Net tA [] h [] tB [] [] []) = true) 0 P U D Q es r w.
Proof using EA EB.
  intros [[] [] Hk Hp (sp & Hsp & Hrx) Ho] Hxs.
  assert (joined (core_of tA) (core_of tB) ca cb hf i j) as Hj by by split; try done; apply clok_ll.
  split; [done|].
  destruct (run_flows (core_of tA) (core_of tB) ca cb hf i j src dst a b fd xs True [] [] [] [] [] []
    (Net tA [] h [] tB [] [] []) Hj) as (w & P & U & D & Q & es & r & E & Hw & Hg); [|done|].
  { split; cbn; try done; [|by left]. split; [|done]. exists sp. rewrite Hrx. split_and!; try done. by left. }
  exists w, P, U, D, Q, es, r. split_and!; [done|done|]. eapply flows_weaken; [|exact Hw]. tauto.
Qed.
End Runs.

(** C3: an open connection is a first-in-first-out channel.  Hosts, transports
    and hub run interleaved: at any time the one host may hand over ACL data,
    the hub read some bytes or flush its backlog, its kernel change its mind
    about what it takes, and the other transport read some bytes, in any order
    and any sizes.  No such run faults.  After it, the sending host has been
    told of one completed packet for each it gave; the receiving host has got
    packets of the given data, each whole, under its own handle, none twice and
    in the order they were given; and if never more was in flight than the
    hub's backlog holds, none is missing: what was got is what was given first,
    and all of it once nothing is on the way. *)
Theorem acl_channel_fifo `{Libm} {TA TB : Type} `{EA : Endpoint TA} `{EB : Endpoint TB} (tA : TA) (tB : TB)
    (h : hub) (hf : Z) (i j : nat) (ca cb : ll_conn) (src dst a b fd : Z) (xs : list net_act) :
  channel tA tB h hf i j ca cb src dst a b fd (length (gives xs)) → Forall (act_ok hf) xs →
  ∃ w D, net_run src dst fd xs (Net tA [] h [] tB [] [] []) = Ok w ∧ n_given w = gives xs ∧
    core_of (n_tx w) = core_of tA ∧ core_of (n_rx w) = core_of tB ∧
    n_told w = whole (map (λ _, completed_packet (Z.land hf 0xfff)) (gives xs)) ∧
    n_got w = whole (map (pkt_of cb) D) ∧ sublist D (gives xs) ∧
    (within src dst fd xs (Net tA [] h [] tB [] [] []) = true →
      D `prefix_of` gives xs ∧
      (n_up w = [] → n_down w = [] → out_of (n_hub w) dst = [] → D = gives xs)).
Proof.
  intros Hch Hxs.
  destruct (channel_runs _ _ _ _ _ _ _ _ _ _ _ _ _ _ Hch Hxs) as (Hj & w & P & U & D & Q & es & r & E & Hg & Hw).
  pose proof (flows_drained _ _ _ _ _ _ _ _ _ _ _ _ _ _ _ _ _ _ _ _ _ Hj Hw) as Hdr. destruct Hw.
  exists w, D. rewrite <- Hg. split_and!; try done.
  - rewrite fl_given0. transitivity (D ++ Q); [by apply sublist_inserts_r|].
    transitivity P; [done|by apply sublist_inserts_r].
  - intros Hin. specialize (fl_room0 Hin). rewrite fl_given0, <- fl_room0. split.
    + rewrite <- app_assoc. by apply prefix_app_r.
    + intros Hu Hd Hout. destruct (Hdr Hu Hd Hout) as [-> ->]. by rewrite !app_nil_r.
Qed.

(** C4: a connection never gets stuck.  After any run of the channel in which
    no more was in flight than the hub's backlog holds, some further reads and
    flushes, with a kernel that takes what the hub writes, and without the
    sending host doing anything, deliver all that was given: the receiving
    host then has every packet, whole, once and in order. *)
Theorem acl_channel_delivers `{Libm} {TA TB : Type} `{EA : Endpoint TA} `{EB : Endpoint TB} (tA : TA) (tB : TB)
    (h : hub) (hf : Z) (i j : nat) (ca cb : ll_conn) (src dst a b fd : Z) (xs : list net_act) :
  channel tA tB h hf i j ca cb src dst a b fd (length (gives xs)) → Forall (act_ok hf) xs →
  within src dst fd xs (Net tA [] h [] tB [] [] []) = true →
  ∃ ys w, Forall (act_ok hf) ys ∧ gives ys = [] ∧
    net_run src dst fd (xs ++ ys) (Net tA [] h [] tB [] [] []) = Ok w ∧
    n_up w = [] ∧ n_down w = [] ∧ out_of (n_hub w) dst = [] ∧
    n_got w = whole (map (pkt_of cb) (gives xs)).
Proof.
  intros Hch Hxs Hin.
  destruct (channel_runs _ _ _ _ _ _ _ _ _ _ _ _ _ _ Hch Hxs) as (Hj & w & P & U & D & Q & es & r & E & Hg & Hw).
  pose proof (within_end src dst fd xs _ _ Hin E) as Hfl.
  destruct (channel_empties (core_of tA) (core_of tB) ca cb hf i j src dst a b fd True w Hj)
    as (w' & D' & (ys & Hys & Gy & E') & Gw & Hu & Ho & Hd & Hgot & Hall).
  { split; [|done]. exists P, U, D, Q, es, r. by eapply flows_weaken; [|exact Hw]. }
  exists ys, w'. rewrite net_run_app, E. split_and!; try done. by rewrite Hgot, Hall, Hg.
Qed.

(** Three packets from a guest of the virtio device to a guest of the
    vhost-user back end, with the reads of hub and receiver in between. *)
Definition guestE : virtio := demo_iguest 4 "a" central [OsBytes 7; OsRetry; OsBytes 20] [[600]; [300; 300]; [556]].
Definition guestF : vhost := demo_vguest 4 "b" peripheral [] [[100; 500]; [556]; [600]].
Definition demo_give (data : list Z) : net_act := Give [acl_packet 0x1040 data] (replicate 556 0) data.
Definition demo_schedule : list net_act :=
  [demo_give [1; 2; 3]; HubRead 7; demo_give [4]; HubRead 60; Read 30; HubFlush; demo_give [5; 6];
   Read 40; HubRead 200; HubFlush; Read 7; Read 200].

Lemma demo_schedule_ok : Forall (act_ok 0x1040) demo_schedule.
Proof.
  assert (∀ d, bytes_ok d → 1 ≤ zlen d ≤ LE_ACL_MTU → act_ok 0x1040 (demo_give d)) as Hg.
  { intros d Hb Hl. split_and!; [apply app_nil_r|by split|apply bytes_ok_replicate|done]. }
  unfold demo_schedule. forall_cons; try done; apply Hg; try done; bytes.
Qed.

Lemma demo_hub_path : path (H:=demo_libm) (flow central demo_ca) 0 1 0 1 6 demo_hub.
Proof.
  split.
  - split; [apply demo_hub_ok|apply demo_hub_calm|apply demo_hub_fds|apply Forall_nil_2].
  - by exists (peer_of 5 0).
  - by exists (peer_of 6 1).
  - lia.
  - by intros _ [d ->].
  - intros _ [d ->]. exists (-40). reflexivity.
Qed.

Lemma demo_channel :
  channel (H:=demo_libm) guestE guestF demo_hub 0x1040 0 3 demo_ca demo_cb 0 1 0 1 6 (length (gives demo_schedule)).
Proof.
  split.
  - split; try reflexivity; try done.
    + apply demo_iguest_ok; [apply central_ok|repeat constructor; lia].
    + apply demo_iguest_open; [lia|by repeat constructor].
    + apply (demo_iguest_takes _ _ _ _ [[600]; [300; 300]; [556]]). repeat constructor; try lia; by compute.
  - split; try reflexivity.
    + apply demo_vguest_ok; [apply peripheral_ok|repeat constructor; lia].
    + apply demo_vguest_rx.
    + eapply (ep_takes_le 1 3); [lia|].
      apply (demo_vguest_takes _ _ _ _ [[100; 500]; [556]; [600]]). repeat constructor; try lia; by compute.
  - apply (demo_vguest_takes _ _ _ _ [[100; 500]; [556]; [600]]). repeat constructor; try lia; by compute.
  - apply demo_hub_path.
  - by exists (peer_of 5 0).
  - reflexivity.
Qed.

Lemma acl_channel_fifo_witness :
  ∃ w D, net_run (LM:=demo_libm) 0 1 6 demo_schedule (Net guestE [] demo_hub [] guestF [] [] []) = Ok w ∧
    n_given w = gives demo_schedule ∧
    core_of (n_tx w) = core_of guestE ∧ core_of (n_rx w) = core_of guestF ∧
    n_told w = whole (map (λ _, completed_packet (Z.land 0x1040 0xfff)) (gives demo_schedule)) ∧
    n_got w = whole (map (pkt_of demo_cb) D) ∧ sublist D (gives demo_schedule) ∧
    (within (LM:=demo_libm) 0 1 6 demo_schedule (Net guestE [] demo_hub [] guestF [] [] []) = true →
      D `prefix_of` gives demo_schedule ∧
      (n_up w = [] → n_down w = [] → out_of (n_hub w) 1 = [] → D = gives demo_schedule)).
Proof.
  apply (acl_channel_fifo (H:=demo_libm) guestE guestF demo_hub 0x1040 0 3 demo_ca demo_cb 0 1 0 1 6 demo_schedule).
  - apply demo_channel.
  - apply demo_schedule_ok.
Defined.

(** The same packets, with everything left on the way. *)
Definition demo_stalled : list net_act :=
  [demo_give [1; 2; 3]; HubRead 60; Answer [WBytes 5; WAgain]; demo_give [4]; HubRead 30; demo_give [5; 6]; Read 3].

Lemma acl_channel_delivers_witness :
  ∃ ys w, Forall (act_ok 0x1040) ys ∧ gives ys = [] ∧
    net_run (LM:=demo_libm) 0 1 6 (demo_stalled ++ ys) (Net guestE [] demo_hub [] guestF [] [] []) = Ok w ∧
    n_up w = [] ∧ n_down w = [] ∧ out_of (n_hub w) 1 = [] ∧
    n_got w = whole (map (pkt_of demo_cb) (gives demo_stalled)).
Proof.
  apply (acl_channel_delivers (H:=demo_libm) guestE guestF demo_hub 0x1040 0 3 demo_ca demo_cb 0 1 0 1 6 demo_stalled).
  - apply demo_channel.
  - pose proof demo_schedule_ok as Hs. repeat (apply Forall_cons_1 in Hs as [? Hs]). by forall_cons; repeat constructor.
  - vm_compute. reflexivity.
Defined.

(** The schedule above, evaluated: nothing is lost and nothing is left. *)
Example demo_schedule_runs :
  within (LM:=demo_libm) 0 1 6 demo_schedule (Net guestE [] demo_hub [] guestF [] [] []) = true ∧
  match net_run (LM:=demo_libm) 0 1 6 demo_schedule (Net guestE [] demo_hub [] guestF [] [] []) with
  | Ok w => n_up w = [] ∧ n_down w = [] ∧ out_of (n_hub w) 1 = [] ∧
      n_got w = whole (map (pkt_of demo_cb) [[1; 2; 3]; [4]; [5; 6]])
  | Fault _ => False
  end.
Proof. vm_compute. auto. Qed.
